(** * BESO iteration orchestrator (beso_main.py): a shallow embedding

    The script beso_main.py drives the optimisation loop.  It is embedded
    here block by block: initialisation of the element states, the automatic
    iteration limit, and the body of the [while True] loop (solver call,
    import of results, sensitivity numbers, mean values, convergence test,
    mass goal, state switching, state filtering and the oscillation test).

    Conventions of the embedding.
    - Python floats are idealised as exact rationals ([Q]); equality of
      numbers is [Qeq] and the comparison operators are the decidable ones of
      [Q].  Division by zero raises, as Python's float division does.  The
      automatic iteration limit is an integer decided from floats, and its
      value depends on their rounding: that block is embedded a second time
      in binary64 arithmetic ([Double], [iterations_limit_auto]), and the
      properties of the number it assigns are stated on that embedding.
    - Python dictionaries keyed by element number are [gmap Z _]; a failed
      lookup raises [KeyError].  Python lists are lists, indexed the Python
      way (negative indices count from the end, out of range raises
      [IndexError]).
    - The per-domain dictionaries of the configuration ([domain_optimized],
      [domain_density], [domain_thickness], [domains], [domain_shells],
      [domain_volumes], ...) share their keys and are iterated in the order
      of [domain_optimized]; they are kept together as a list of records, one
      per key, in that order.
    - The functions of [beso_lib] and [beso_filters] and the CalculiX
      subprocess are collaborators of the script that are not among the
      sources; they are fields of an environment record, and the calls that
      matter for the properties leave an event in the trace.
    - Dictionaries are objects: [elm_states_last] is bound to the dictionary
      [elm_states] itself before the loop, and [beso_lib.switching] may
      update the dictionary it is given.  The embedding keeps track of
      whether [elm_states_last] is that dictionary or a copy.
    - Timing, plotting, exports, the preparation of the filters and the
      removal of solver files do not touch the variables of the loop and are
      left out of the loop body; of the lines written to the log, the
      settings and the table header are left out.  The time measurement, the
      preparation of the filters, the removal of the solver files and the
      line with the total time are embedded on their own after the loop. *)

From Stdlib Require Import QArith Qround Qabs Lqa ZArith Lia.
From Stdlib Require SpecFloat.
From stdpp Require Import gmap strings list pretty.

Open Scope Q_scope.

(** ** Python exceptions and the error monad *)

Inductive exn : Type :=
| NameError (name : string)
| KeyError
| IndexError
| ValueError
| TypeError
| ZeroDivisionError
| OverflowError
| AssertionError (msg : string)
| Exception (msg : string).

Inductive result (A : Type) : Type :=
| Ok (a : A)
| Raise (e : exn).
Arguments Ok {A} a.
Arguments Raise {A} e.

Definition rbind {A B} (r : result A) (k : A -> result B) : result B :=
  match r with
  | Ok a => k a
  | Raise e => Raise e
  end.

Notation "'do' x <- c1 ; c2" := (rbind c1 (fun x => c2))
  (at level 10, x pattern, c1 at level 100, c2 at level 200).

Definition of_option {A} (e : exn) (o : option A) : result A :=
  match o with
  | Some a => Ok a
  | None => Raise e
  end.

(** ** Python built-in operations *)

Module Py.

(** [l[z]] *)
Definition index {A} (l : list A) (z : Z) : result A :=
  let n := Z.of_nat (length l) in
  if (0 <=? z)%Z then of_option IndexError (l !! Z.to_nat z)
  else if (- n <=? z)%Z then of_option IndexError (l !! Z.to_nat (n + z))
  else Raise IndexError.

(** [d[k]] for a dictionary keyed by element number *)
Definition getitem {V} (d : gmap Z V) (k : Z) : result V :=
  of_option KeyError (d !! k).

(** [a <= b], [a < b] and [a == b] on floats *)
Definition le (a b : Q) : bool := Qle_bool a b.
Definition lt (a b : Q) : bool := negb (Qle_bool b a).
Definition eq (a b : Q) : bool := Qeq_bool a b.

(** [a / b] on floats *)
Definition div (a b : Q) : result Q :=
  if Qeq_bool b 0 then Raise ZeroDivisionError else Ok (a / b).

(** [max(a, b)]: the first argument unless the second is greater *)
Definition max2 (a b : Q) : Q :=
  if Qlt_le_dec a b then b else a.

(** [max(l)]: raises [ValueError] on the empty list *)
Definition max (l : list Q) : result Q :=
  match l with
  | [] => Raise ValueError
  | x :: l' => Ok (fold_left max2 l' x)
  end.

(** [int(x)]: truncation towards zero *)
Definition int (x : Q) : Z :=
  if Qlt_le_dec x 0 then Qceiling x else Qfloor x.

(** [sum(l)] on a list of integers *)
Definition sum (l : list Z) : Z := fold_left Z.add l 0%Z.

(** [s[-4:]] *)
Definition last4 (s : string) : string :=
  let n := String.length s in
  String.substring (n - 4) 4 s.

(** [for x in l: body] in the error monad, threading the variables [s]
    that the body assigns *)
Fixpoint for_each {A S} (l : list A) (body : A -> S -> result S) (s : S)
  : result S :=
  match l with
  | [] => Ok s
  | x :: l' => do s' <- body x s; for_each l' body s'
  end.

(** [enumerate(l)] *)
Definition enumerate {A} (l : list A) : list (nat * A) :=
  imap (fun k x => (k, x)) l.

End Py.

(** ** Log and trace *)

Inductive event : Type :=
| Log (msg : string)            (* beso_lib.write_to_log(file_name, msg): the
                                  line, without the newlines around it *)
| CalculiX (i : nat)            (* subprocess.call([path_calculix, file_nameW]) *)
| ImportResults (i : nat)       (* beso_lib.import_FI_int_pt / import_FI_node *)
| FilterSensitivity (i : nat)   (* a beso_filters.run* call on sensitivity numbers *)
| Switching (i : nat)           (* beso_lib.switching *)
| FilterState (i : nat)         (* beso_filters.run_morphology on element states *)
| LogRow (i : nat).             (* the table row of iteration i written to the log *)

(** ** Configuration read from beso_conf.py *)

Record domain : Type := {
  dn : string;                       (* key of the per-domain dictionaries *)
  domain_optimized : bool;           (* domain_optimized[dn] is True *)
  domain_density : list Q;           (* domain_density[dn] *)
  domain_thickness : list Q;         (* domain_thickness[dn] *)
  domain_same_state : bool;          (* domain_same_state[dn] *)
  domains : list Z;                  (* domains[dn]: element numbers *)
  domain_shells : list Z;            (* domain_shells[dn] *)
  domain_volumes : list Z            (* domain_volumes[dn] *)
}.

Inductive optimization_base_t : Type :=
| stiffness | heat | buckling | failure_index | base_other.

Inductive ratio_type_t : Type :=
| absolute | relative | ratio_other.

Inductive reference_points_t : Type :=
| integration_points | nodes | points_other.

(** [iterations_limit]: the string "auto" or an integer *)
Inductive iterations_limit_t : Type :=
| auto
| limit (n : Z).

(** [continue_from]: an integer or a string (a file name, or anything else) *)
Inductive continue_from_t : Type :=
| cf_int (n : Z)
| cf_str (s : string).

(** One entry [ft] of [filter_list].  [ft[0]] is a string dispatched on by
    comparison and by [ft[0].split()]; it is kept in parsed form. *)
Inductive filter_target : Type :=
| target_sensitivity          (* ft[0].split()[1] == "sensitivity" *)
| target_state                (* ft[0].split()[1] == "state" *)
| target_other                (* another second word *)
| target_missing.             (* ft[0].split() has one word only *)

Inductive filter_kind : Type :=
| kind_falsy                                     (* "" or 0 *)
| kind_blank                                     (* only white space: split() is empty *)
| kind_casting
| kind_over_points
| kind_over_nodes
| kind_simple
| kind_morphology (op : string) (t : filter_target)
    (* first word in erode, dilate, open, close, open-close, close-open, combine *)
| kind_unknown.

Record filter_t : Type := {
  ft_kind : filter_kind;             (* ft[0] *)
  ft_range : bool;                   (* truth value of ft[1] *)
  ft_rest : list string              (* ft[2:] *)
}.

Record config : Type := {
  domains_from_config : list domain;
  domain_FI_filled : bool;
  mass_goal_ratio : Q;
  continue_from : continue_from_t;
  filter_list : list filter_t;
  optimization_base : optimization_base_t;
  FI_violated_tolerance : Z;
  reference_points : reference_points_t;
  sensitivity_averaging : bool;
  mass_addition_ratio : Q;
  mass_removal_ratio : Q;
  ratio_type : ratio_type_t;
  compensate_state_filter : bool;
  decay_coefficient : Q;
  iterations_limit : iterations_limit_t;
  tolerance : Q
}.

(** Geometry computed by [beso_lib.import_inp] and [beso_lib.elm_volume_cg] *)
Record mesh : Type := {
  opt_domains : list Z;
  area_elm : gmap Z Q;
  volume_elm : gmap Z Q
}.

(** ** Initialisation of the element states (lines 352-374) *)

Definition INFO_highest_state (d : domain) : event :=
  Log ("INFO: elements from the domain " +:+ dn d +:+ " were set to the highest state.").

(** [len(domain_density[dn]) - 1] *)
Definition highest (d : domain) : Z :=
  (Z.of_nat (length (domain_density d)) - 1)%Z.

(** The state number [sn] chosen for one domain when [continue_from] is an
    integer, with the events written. *)
Definition continue_state (continue_from : Z) (d : domain) : Z * list event :=
  if (highest d <? continue_from)%Z then (highest d, [INFO_highest_state d])
  else (continue_from, []).

(** [for en in domains[dn]: elm_states[en] = sn] *)
Definition set_states (sn : Z) (ens : list Z) (elm_states : gmap Z Z) : gmap Z Z :=
  fold_left (fun es en => <[en := sn]> es) ens elm_states.

(** Lines 355-364: the body of [for dn in domains_from_config] *)
Definition init_step (continue_from : Z) (acc : gmap Z Z * list event) (d : domain)
  : gmap Z Z * list event :=
  let '(es, tr) := acc in
  let '(sn, ev) := continue_state continue_from d in
  (set_states sn (domains d) es, tr ++ ev).

Definition init_from_int (continue_from : Z) (ds : list domain)
  : gmap Z Z * list event :=
  fold_left (init_step continue_from) ds (∅, []).

Definition init_highest (ds : list domain) : gmap Z Z :=
  fold_left
    (fun es d =>
       set_states (highest d) (domains d) es)
    ds ∅.

(** The readers of a state file, [beso_lib.import_frd_state],
    [import_inp_state] and [import_csv_state], are collaborators. *)
Record state_importers : Type := {
  import_frd_state : string -> result (gmap Z Z);
  import_inp_state : string -> result (gmap Z Z);
  import_csv_state : string -> result (gmap Z Z)
}.

Definition init_elm_states (imp : state_importers) (cfg : config)
  : list event * result (gmap Z Z) :=
  match continue_from cfg with
  | cf_int n =>
      let '(es, tr) := init_from_int n (domains_from_config cfg) in (tr, Ok es)
  | cf_str s =>
      if String.eqb (Py.last4 s) ".frd" then ([], import_frd_state imp s)
      else if String.eqb (Py.last4 s) ".inp" then ([], import_inp_state imp s)
      else if String.eqb (Py.last4 s) ".csv" then ([], import_csv_state imp s)
      else ([], Ok (init_highest (domains_from_config cfg)))
  end.

(** ** Initial mass and full mass (lines 381-392) *)

(** Mass of one element of domain [d] in state [st]:
    [density[st] * area * thickness[st]] for a shell,
    [density[st] * volume] for a volume element. *)
Definition shell_mass (m : mesh) (d : domain) (en st : Z) : result Q :=
  do rho <- Py.index (domain_density d) st;
  do a <- Py.getitem (area_elm m) en;
  do t <- Py.index (domain_thickness d) st;
  Ok (rho * a * t).

Definition volume_mass (m : mesh) (d : domain) (en st : Z) : result Q :=
  do rho <- Py.index (domain_density d) st;
  do v <- Py.getitem (volume_elm m) en;
  Ok (rho * v).

Definition initial_mass_domain (m : mesh) (elm_states : gmap Z Z) (d : domain)
    (acc : Q * Q) : result (Q * Q) :=
  if domain_optimized d then
    do acc1 <- Py.for_each (domain_shells d)
      (fun en '(mass0, mass_full) =>
         do st <- Py.getitem elm_states en;
         do me <- shell_mass m d en st;
         do mf <- shell_mass m d en (highest d);
         Ok (mass0 + me, mass_full + mf)) acc;
    Py.for_each (domain_volumes d)
      (fun en '(mass0, mass_full) =>
         do st <- Py.getitem elm_states en;
         do me <- volume_mass m d en st;
         do mf <- volume_mass m d en (highest d);
         Ok (mass0 + me, mass_full + mf)) acc1
  else Ok acc.

(** Returns [(mass[0], mass_full)]. *)
Definition initial_mass (m : mesh) (cfg : config) (elm_states : gmap Z Z)
  : result (Q * Q) :=
  Py.for_each (domains_from_config cfg) (initial_mass_domain m elm_states) (0, 0).

(** ** Automatic iteration limit (lines 395-414), in exact arithmetic

    The block as the whole script is embedded here, on rationals.  The
    doubles of the script round every update of the loops and the quotient
    of the absolute case, and the limit they give can differ by one from the
    one below: the block on doubles is [iterations_limit_auto]. *)

(** [while m > mass_goal_ratio: m -= m * r; it += 1].  The loop need not
    terminate; [None] is returned when the fuel runs out first. *)
Fixpoint while_removing (fuel : nat) (m goal r : Q) (it : Z) : option Z :=
  match fuel with
  | O => None
  | S fuel' =>
      if Qlt_le_dec goal m
      then while_removing fuel' (m - m * r) goal r (it + 1)%Z
      else Some it
  end.

(** [while m < mass_goal_ratio: m += m * r; it += 1] *)
Fixpoint while_adding (fuel : nat) (m goal r : Q) (it : Z) : option Z :=
  match fuel with
  | O => None
  | S fuel' =>
      if Qlt_le_dec m goal
      then while_adding fuel' (m + m * r) goal r (it + 1)%Z
      else Some it
  end.

(** The value of [iterations_limit] after the block; [None] when a while
    loop has not finished within the fuel. *)
Definition auto_iterations_limit (fuel : nat) (cfg : config) (mass0 mass_full : Q)
  : result (option iterations_limit_t) :=
  match iterations_limit cfg with
  | limit n => Ok (Some (limit n))
  | auto =>
      do m <- Py.div mass0 mass_full;
      let removal := mass_removal_ratio cfg - mass_addition_ratio cfg in
      let addition := mass_addition_ratio cfg - mass_removal_ratio cfg in
      match ratio_type cfg with
      | absolute =>
          if Qlt_le_dec 0 removal then
            Ok (Some (limit (Py.int ((m - mass_goal_ratio cfg) / removal + 25))))
          else if Qlt_le_dec removal 0 then
            Ok (Some (limit (Py.int ((mass_goal_ratio cfg - m) / addition + 25))))
          else Ok (Some auto)
      | relative =>
          if Qlt_le_dec 0 removal then
            Ok (option_map (fun it => limit (it + 25))
                  (while_removing fuel m (mass_goal_ratio cfg) removal 0))
          else
            Ok (option_map (fun it => limit (it + 25))
                  (while_adding fuel m (mass_goal_ratio cfg) addition 0))
      | ratio_other => Ok (Some auto)
      end
  end.

(** ** Python floats as binary64 numbers

    The operations are those of IEEE 754 with 53 bits of precision, rounded
    to nearest with ties to even, as specified in the Standard Library. *)

Module Double.

Import SpecFloat.

Definition t : Type := spec_float.

Definition prec : Z := 53.
Definition emax : Z := 1024.

Definition add : t -> t -> t := SFadd prec emax.
Definition sub : t -> t -> t := SFsub prec emax.
Definition mul : t -> t -> t := SFmul prec emax.

(** [x < y]; [x > y] is [ltb y x].  A comparison with NaN is False. *)
Definition ltb : t -> t -> bool := SFltb.

(** [float(z)] *)
Definition of_Z (z : Z) : t := binary_normalize prec emax z 0 false.

Definition zero : t := S754_zero false.

(** The double written as a decimal literal with the value [q]: the double
    nearest to [q] (numerator and denominator below 2^53) *)
Definition of_Q (q : Q) : t :=
  SFdiv prec emax (of_Z (Qnum q)) (of_Z (Zpos (Qden q))).

(** [x / y] *)
Definition div (x y : t) : result t :=
  match y with
  | S754_zero _ => Raise ZeroDivisionError
  | _ => Ok (SFdiv prec emax x y)
  end.

(** The number a double stands for *)
Definition to_Q (x : t) : Q :=
  match x with
  | S754_finite s m e =>
      let z := cond_Zopp s (Zpos m) in
      match e with
      | Z0 => inject_Z z
      | Zpos p => inject_Z (z * Z.pow_pos 2 p)
      | Zneg p => Qmake z (Pos.pow 2 p)
      end
  | _ => 0
  end.

(** [int(x)]: the integer part of the number *)
Definition int (x : t) : result Z :=
  match x with
  | S754_nan => Raise ValueError
  | S754_infinity _ => Raise OverflowError
  | _ => Ok (Py.int (to_Q x))
  end.

End Double.

(** ** The automatic iteration limit in binary64 arithmetic (lines 396-411) *)

(** [while m > mass_goal_ratio: m -= m * (mass_removal_ratio -
    mass_addition_ratio); it += 1] *)
Fixpoint while_above (fuel : nat) (m goal removal addition : Double.t) (it : Z)
  : option Z :=
  match fuel with
  | O => None
  | S fuel' =>
      if Double.ltb goal m
      then while_above fuel'
             (Double.sub m (Double.mul m (Double.sub removal addition)))
             goal removal addition (it + 1)%Z
      else Some it
  end.

(** [while m < mass_goal_ratio: m += m * (mass_addition_ratio -
    mass_removal_ratio); it += 1] *)
Fixpoint while_below (fuel : nat) (m goal removal addition : Double.t) (it : Z)
  : option Z :=
  match fuel with
  | O => None
  | S fuel' =>
      if Double.ltb m goal
      then while_below fuel'
             (Double.add m (Double.mul m (Double.sub addition removal)))
             goal removal addition (it + 1)%Z
      else Some it
  end.

(** The value of [iterations_limit] after the block entered with
    [iterations_limit == "auto"], on the doubles [mass[0]], [mass_full],
    [mass_goal_ratio], [mass_removal_ratio] and [mass_addition_ratio];
    [None] when a while loop has not finished within the fuel. *)
Definition iterations_limit_auto (fuel : nat) (ratio_type : ratio_type_t)
    (mass0 mass_full mass_goal_ratio mass_removal_ratio mass_addition_ratio : Double.t)
  : result (option iterations_limit_t) :=
  do m <- Double.div mass0 mass_full;
  match ratio_type with
  | absolute =>
      if Double.ltb Double.zero (Double.sub mass_removal_ratio mass_addition_ratio) then
        do q <- Double.div (Double.sub m mass_goal_ratio)
                  (Double.sub mass_removal_ratio mass_addition_ratio);
        do n <- Double.int (Double.add q (Double.of_Z 25));
        Ok (Some (limit n))
      else if Double.ltb (Double.sub mass_removal_ratio mass_addition_ratio) Double.zero then
        do q <- Double.div (Double.sub mass_goal_ratio m)
                  (Double.sub mass_addition_ratio mass_removal_ratio);
        do n <- Double.int (Double.add q (Double.of_Z 25));
        Ok (Some (limit n))
      else Ok (Some auto)
  | relative =>
      if Double.ltb Double.zero (Double.sub mass_removal_ratio mass_addition_ratio) then
        Ok (option_map (fun it => limit (it + 25))
              (while_above fuel m mass_goal_ratio mass_removal_ratio
                 mass_addition_ratio 0))
      else
        Ok (option_map (fun it => limit (it + 25))
              (while_below fuel m mass_goal_ratio mass_removal_ratio
                 mass_addition_ratio 0))
  | ratio_other => Ok (Some auto)
  end.

(** The mass fraction after [n] updates of the loops, for the statements *)
Definition after_removals (m removal addition : Double.t) (n : nat) : Double.t :=
  Nat.iter n (fun m => Double.sub m (Double.mul m (Double.sub removal addition))) m.

Definition after_additions (m removal addition : Double.t) (n : nat) : Double.t :=
  Nat.iter n (fun m => Double.add m (Double.mul m (Double.sub addition removal))) m.

(** [n] is the number of updates after which the fraction is for the first
    time not above (not below) the goal *)
Definition first_not_above (m goal removal addition : Double.t) (n : nat) : Prop :=
  Double.ltb goal (after_removals m removal addition n) = false
  /\ forall k, (k < n)%nat ->
       Double.ltb goal (after_removals m removal addition k) = true.

Definition first_not_below (m goal removal addition : Double.t) (n : nat) : Prop :=
  Double.ltb (after_additions m removal addition n) goal = false
  /\ forall k, (k < n)%nat ->
       Double.ltb (after_additions m removal addition k) goal = true.

(** ** The collaborators of the loop *)

(** What [beso_lib.import_FI_int_pt] returns (displacements left out) *)
Record results : Type := {
  FI_step : list (gmap Z (list (option Q)));   (* FI_step[sn][en]: one entry per criterion *)
  energy_density_step : list (gmap Z Q);       (* energy_density_step[sn][en] *)
  buckling_factors : list Q;
  energy_density_eigen : list (Z * gmap Z Q);  (* keys in insertion order *)
  heat_flux : gmap Z Q
}.

(** The arguments of [beso_lib.switching] that change between calls *)
Record switching_args : Type := {
  sa_elm_states : gmap Z Z;
  sa_FI_step_max : gmap Z Q;
  sa_sensitivity_number : gmap Z Q;
  sa_mass : list Q;
  sa_mass_referential : Q;
  sa_mass_excess : Q;
  sa_FI_violated : list (list Z);
  sa_i_violated : nat;
  sa_i : nat;
  sa_mass_goal_i : Q
}.

(** [beso_lib.switching] receives the dictionary [elm_states] and returns a
    dictionary and the list [mass].  It may update the dictionary it was
    given and may return that very object or a new one. *)
Record switching_result : Type := {
  sw_argument : gmap Z Z;          (* content, after the call, of the dictionary passed in *)
  sw_returned : option (gmap Z Z); (* [None]: the dictionary passed in is returned;
                                      [Some d]: a new dictionary [d] is returned *)
  sw_mass : list Q                 (* the list returned as [mass] *)
}.

(** Modelled from the spec: [beso_filters.run_morphology] is not among the
    sources.  By the specification of the filter pipeline a filter produces
    a new field of the shape of its input, so the call on the element states
    returns a new dictionary and leaves the one it is given as it is.  The
    arguments are the iteration, the entry of [filter_list],
    [domains_to_filter], [elm_states] and [FI_step_max]. *)
Definition run_morphology_t : Type :=
  nat -> filter_t -> list Z -> gmap Z Z -> gmap Z Q -> result (gmap Z Z).

(** The solver and the functions of [beso_lib] and [beso_filters] that the
    loop calls.  Each of them may raise. *)
Record environment : Type := {
  (* the exit status of subprocess.call in iteration i, for the input file
     written from elm_states *)
  calculix : nat -> gmap Z Z -> result Z;
  import_FI_int_pt : nat -> gmap Z Z -> result results;
  import_FI_node : nat -> gmap Z Z -> result (list (gmap Z (list (option Q))));
  (* run2_casting, run3, run1, run2 and run_morphology on the sensitivity
     numbers; the list is domains_to_filter *)
  run_filter : nat -> filter_t -> list Z -> gmap Z Q -> result (gmap Z Q);
  switching : switching_args -> result switching_result;
  run_morphology : run_morphology_t
}.

(** ** Statements with a trace: events written so far and a result *)

Definition W (A : Type) : Type := (list event * result A)%type.

Definition wret {A} (a : A) : W A := ([], Ok a).

Definition wbind {A B} (c : W A) (k : A -> W B) : W B :=
  match c with
  | (tr, Ok a) => let '(tr', r) := k a in (tr ++ tr', r)
  | (tr, Raise e) => (tr, Raise e)
  end.

Definition emit (ev : event) : W unit := ([ev], Ok tt).

Definition lift {A} (r : result A) : W A := ([], r).

Notation "'io' x <- c1 ; c2" := (wbind c1 (fun x => c2))
  (at level 10, x pattern, c1 at level 100, c2 at level 200).

(** ** The variables of the loop *)

(** [elm_states_last] is bound to the dictionary [elm_states] itself before
    the loop (line 575) and to copies afterwards (line 1037). *)
Inductive dict_ref : Type :=
| same_as_elm_states
| dict (d : gmap Z Z).

Record state : Type := {
  i : nat;
  i_violated : nat;
  continue_iterations : bool;
  check_tolerance : bool;
  mass_excess : Q;
  elm_states : gmap Z Z;
  elm_states_last : dict_ref;
  elm_states_before_last : gmap Z Z;
  oscillations : bool;
  mass : list Q;
  FI_mean : list Q;
  FI_mean_without_state0 : list (option Q);      (* [None] is the string "NaN" *)
  energy_density_mean : list Q;
  heat_flux_mean : list Q;
  FI_violated : list (list Z);
  sensitivity_number : gmap Z Q;
  sensitivity_number_old : gmap Z Q;
  FI_step_max : gmap Z Q;
  mass_goal_i : option Q;                        (* [None]: the name is not bound *)
  mass_referential : option Q                    (* [None]: the name is not bound *)
}.

(** ** First half of the loop body: analysis and sensitivities *)

(** Lines 598-610 *)
Definition check_exit_status (exit_status : Z) : list event :=
  if (exit_status =? 201)%Z then
    [Log "ERROR: CalculiX exit status 201. It cannot open inp file."]
  else if (exit_status =? 1)%Z then
    [Log "ERROR: CalculiX exit status 1. There might be invalid path_calculix."]
  else if negb (exit_status =? 0)%Z then
    [Log ("ERROR: CalculiX exit status " +:+ pretty exit_status +:+ ".")]
  else [].

Definition empty_results : results :=
  {| FI_step := []; energy_density_step := []; buckling_factors := [];
     energy_density_eigen := []; heat_flux := ∅ |}.

Definition with_FI_step (r : results) (fi : list (gmap Z (list (option Q)))) : results :=
  {| FI_step := fi; energy_density_step := energy_density_step r;
     buckling_factors := buckling_factors r;
     energy_density_eigen := energy_density_eigen r; heat_flux := heat_flux r |}.

Definition from_dat_file (cfg : config) : bool :=
  match reference_points cfg, optimization_base cfg with
  | integration_points, _ => true
  | _, stiffness => true
  | _, buckling => true
  | _, heat => true
  | _, _ => false
  end.

(** Lines 613-624.  When neither import runs the name [disp_i] is not bound
    at line 624. *)
Definition import_results (env : environment) (cfg : config) (s : state) : W results :=
  match from_dat_file cfg, reference_points cfg with
  | true, nodes =>
      io _ <- emit (ImportResults (i s));
      io r <- lift (import_FI_int_pt env (i s) (elm_states s));
      io fi <- lift (import_FI_node env (i s) (elm_states s));
      wret (with_FI_step r fi)
  | true, _ =>
      io _ <- emit (ImportResults (i s));
      lift (import_FI_int_pt env (i s) (elm_states s))
  | false, nodes =>
      io _ <- emit (ImportResults (i s));
      io fi <- lift (import_FI_node env (i s) (elm_states s));
      wret (with_FI_step empty_results fi)
  | false, _ => lift (Raise (NameError "disp_i"))
  end.

(** [optimization_base == "stiffness"] and the like *)
Definition is_base (base : optimization_base_t) (cfg : config) : bool :=
  match optimization_base cfg, base with
  | stiffness, stiffness | heat, heat | buckling, buckling
  | failure_index, failure_index => true
  | _, _ => false
  end.

(** Lines 627-635: an [if]/[elif] chain, so that a test whose second part
    fails passes on to the next one *)
Definition missing_ccx_results (cfg : config) (r : results) : bool :=
  if is_base stiffness cfg && bool_decide (energy_density_step r = []) then true
  else if is_base buckling cfg && bool_decide (buckling_factors r = []) then true
  else if is_base heat cfg && bool_decide (heat_flux r = ∅) then true
  else if domain_FI_filled cfg && bool_decide (FI_step r = []) then true
  else false.

(** [list(filter(lambda a: a is not None, l))] *)
Definition drop_None (l : list (option Q)) : list Q := omap id l.

(** Lines 641-658: the maximum per domain; [ValueError] and [KeyError] are
    caught, logged and raised again as [Exception]. *)
Definition FI_max_domain (r : results) (d : domain) : result Q :=
  Py.for_each (domains d)
    (fun en fmax =>
       Py.for_each (FI_step r)
         (fun step fmax =>
            do fi <- Py.getitem step en;
            do m <- Py.max (drop_None fi);
            Ok (Py.max2 fmax m)) fmax) 0.

Definition FI_max_failed : string :=
  "FI_max computing failed. Check if each domain contains at least one failure criterion.".

Definition FI_values_missing : string :=
  "Some result values are missing. Check available disk space or steps_superposition settings".

Definition compute_FI_max (cfg : config) (r : results) : W (list Q) :=
  if domain_FI_filled cfg then
    match Py.for_each (domains_from_config cfg)
            (fun d acc => do m <- FI_max_domain r d; Ok (acc ++ [m])) [] with
    | Ok l => wret l
    | Raise ValueError =>
        io _ <- emit (Log ("ERROR: " +:+ FI_max_failed));
        lift (Raise (Exception FI_max_failed))
    | Raise KeyError =>
        io _ <- emit (Log ("ERROR: " +:+ FI_values_missing));
        lift (Raise (Exception FI_values_missing))
    | Raise e => lift (Raise e)
    end
  else wret [].

(** Lines 673-678: the body of [for sn in range(len(FI_step))], on the
    variables [FI_step_max[en]] and [energy_density_enlist[en]] *)
Definition step_body (cfg : config) (r : results) (en : Z)
    (p : nat * gmap Z (list (option Q))) (acc : Q * list Q) : result (Q * list Q) :=
  let '(sn, step) := p in
  let '(fmax, enlist) := acc in
  do fmax' <-
    (if domain_FI_filled cfg then
       do fi <- Py.getitem step en;
       do m <- Py.max (drop_None fi);
       Ok (Py.max2 fmax m)
     else Ok fmax);
  do enlist' <-
    (match optimization_base cfg with
     | stiffness =>
         do eds <- Py.index (energy_density_step r) (Z.of_nat sn);
         do e <- Py.getitem eds en;
         Ok (enlist ++ [e])
     | _ => Ok enlist
     end);
  Ok (fmax', enlist').

(** Lines 670-678: returns [FI_step_max[en]] and [energy_density_enlist[en]] *)
Definition element_steps (cfg : config) (r : results) (en : Z) : result (Q * list Q) :=
  Py.for_each (Py.enumerate (FI_step r)) (step_body cfg r en) (0, []).

(** Lines 679-687: the new value of [sensitivity_number[en]], if assigned *)
Definition element_sensitivity (cfg : config) (m : mesh) (r : results)
    (elm_states : gmap Z Z) (d : domain) (en : Z) (fmax : Q) (enlist : list Q)
  : result (option Q) :=
  match optimization_base cfg with
  | stiffness => do x <- Py.max enlist; Ok (Some x)
  | heat =>
      match (do h <- Py.getitem (heat_flux r) en;
             do v <- Py.getitem (volume_elm m) en;
             Py.div h v) with
      | Raise KeyError =>
          do h <- Py.getitem (heat_flux r) en;
          do a <- Py.getitem (area_elm m) en;
          do st <- Py.getitem elm_states en;
          do t <- Py.index (domain_thickness d) st;
          do x <- Py.div h (a * t);
          Ok (Some x)
      | Raise e => Raise e
      | Ok x => Ok (Some x)
      end
  | failure_index =>
      do st <- Py.getitem elm_states en;
      do rho <- Py.index (domain_density d) st;
      do x <- Py.div fmax rho;
      Ok (Some x)
  | _ => Ok None
  end.

Record sens_vars : Type := {
  v_FI_step_max : gmap Z Q;
  v_energy_density_enlist : gmap Z (list Q);
  v_sensitivity_number : gmap Z Q;
  v_FI_violated : list (list Z)
}.

(** [FI_violated[i][dno] += 1] *)
Definition count_violated (i dno : nat) (rows : list (list Z)) : result (list (list Z)) :=
  do row <- Py.index rows (Z.of_nat i);
  do c <- Py.index row (Z.of_nat dno);
  Ok (<[i := <[dno := (c + 1)%Z]> row]> rows).

(** [FI_violated[i].append(0)] *)
Definition append_counter (i : nat) (rows : list (list Z)) : result (list (list Z)) :=
  do row <- Py.index rows (Z.of_nat i);
  Ok (<[i := row ++ [0%Z]]> rows).

(** Lines 669-690: the body of [for en in domains[dn]] *)
Definition sensitivity_element (cfg : config) (m : mesh) (r : results)
    (elm_states : gmap Z Z) (i dno : nat) (d : domain) (en : Z) (v : sens_vars)
  : result sens_vars :=
  do (fmax, enlist) <- element_steps cfg r en;
  do x <- element_sensitivity cfg m r elm_states d en fmax enlist;
  do rows <- (if domain_FI_filled cfg && Py.le 1 fmax
              then count_violated i dno (v_FI_violated v)
              else Ok (v_FI_violated v));
  Ok {| v_FI_step_max := <[en := fmax]> (v_FI_step_max v);
        v_energy_density_enlist :=
          match optimization_base cfg with
          | stiffness => <[en := enlist]> (v_energy_density_enlist v)
          | _ => v_energy_density_enlist v
          end;
        v_sensitivity_number :=
          match x with
          | Some x => <[en := x]> (v_sensitivity_number v)
          | None => v_sensitivity_number v
          end;
        v_FI_violated := rows |}.

(** Lines 667-693: the body of [for dn in domains_from_config] *)
Definition sensitivity_domain (cfg : config) (m : mesh) (r : results)
    (elm_states : gmap Z Z) (i : nat) (p : nat * domain) (v : sens_vars)
  : result sens_vars :=
  let '(dno, d) := p in
  do rows <- append_counter i (v_FI_violated v);
  Py.for_each (domains d) (sensitivity_element cfg m r elm_states i dno d)
    {| v_FI_step_max := v_FI_step_max v;
       v_energy_density_enlist := v_energy_density_enlist v;
       v_sensitivity_number := v_sensitivity_number v;
       v_FI_violated := rows |}.

(** Lines 663-693 *)
Definition sensitivities (cfg : config) (m : mesh) (r : results) (s : state)
  : result sens_vars :=
  Py.for_each (Py.enumerate (domains_from_config cfg))
    (sensitivity_domain cfg m r (elm_states s) (i s))
    {| v_FI_step_max := ∅; v_energy_density_enlist := ∅;
       v_sensitivity_number := sensitivity_number s;
       v_FI_violated := FI_violated s ++ [[]] |}.

(** Lines 696-714: buckling sensitivities *)
Definition buckling_influence_tolerance : Q := 2 # 10.

(** [energy_density_eigen[k]] *)
Definition eigen (r : results) (k : Z) : result (gmap Z Q) :=
  of_option KeyError
    (snd <$> List.find (fun p => (fst p =? k)%Z) (energy_density_eigen r)).

(** The list [denominator] *)
Definition denominators (r : results) : result (list Q) :=
  Py.for_each (energy_density_eigen r)
    (fun p acc => do x <- Py.max (snd <$> map_to_list (snd p)); Ok (acc ++ [x])) [].

(** The dictionary [bf_coef], in the order of its keys *)
Definition bf_coef (bf : list Q) : list (nat * Q) :=
  match bf with
  | [] => []
  | b0 :: rest =>
      omap (fun p : nat * Q =>
              let bf_dif_i := snd p - b0 in
              if Py.lt bf_dif_i buckling_influence_tolerance
              then Some (fst p, bf_dif_i / buckling_influence_tolerance)
              else None)
           (Py.enumerate rest)
  end.

Definition buckling_element (r : results) (denominator : list Q) (en : Z)
  : result Q :=
  do e1 <- eigen r 1;
  do x <- Py.getitem e1 en;
  do d0 <- Py.index denominator 0;
  do s0 <- Py.div x d0;
  Py.for_each (bf_coef (buckling_factors r))
    (fun p acc =>
       do e <- eigen r (Z.of_nat (fst p) + 1);
       do x <- Py.getitem e en;
       do d <- Py.index denominator (Z.of_nat (fst p));
       do q <- Py.div x d;
       Ok (acc + q * snd p)) s0.

Definition buckling_sensitivities (cfg : config) (r : results)
    (sensitivity_number : gmap Z Q) : result (gmap Z Q) :=
  match optimization_base cfg with
  | buckling =>
      do denominator <- denominators r;
      Py.for_each (domains_from_config cfg)
        (fun d sens =>
           Py.for_each (domains d)
             (fun en sens =>
                do x <- buckling_element r denominator en;
                Ok (<[en := x]> sens)) sens)
        sensitivity_number
  | _ => Ok sensitivity_number
  end.

(** [domains[name]] *)
Definition domains_of (cfg : config) (name : string) : result (list Z) :=
  of_option KeyError
    (domains <$> List.find (fun d => String.eqb (dn d) name) (domains_from_config cfg)).

(** [domains_to_filter]: all optimised elements, or those of the domains
    named in the entry. *)
Definition domains_to_filter (cfg : config) (m : mesh) (all : bool) (names : list string)
  : result (list Z) :=
  if all then Ok (opt_domains m)
  else Py.for_each names (fun name acc => do l <- domains_of cfg name; Ok (acc ++ l)) [].

Section Filters.

Variable env : environment.
Variable cfg : config.
Variable m : mesh.
Variable i : nat.

(** Lines 722-756: one entry of [filter_list] applied to the sensitivity
    numbers.  For a casting filter [ft[2]] is the direction vector. *)
Definition filter_sensitivity (ft : filter_t) (sens : gmap Z Q) : W (gmap Z Q) :=
  let call l := io _ <- emit (FilterSensitivity i); lift (run_filter env i ft l sens) in
  match ft_kind ft, ft_range ft with
  | kind_falsy, _ => wret sens
  | _, false => wret sens
  | kind_casting, true =>
      io l <- lift (domains_to_filter cfg m (bool_decide (length (ft_rest ft) = 1%nat))
                      (tail (ft_rest ft)));
      call l
  | k, true =>
      io l <- lift (domains_to_filter cfg m (bool_decide (length (ft_rest ft) = 0%nat))
                      (ft_rest ft));
      match k with
      | kind_over_points | kind_over_nodes | kind_simple => call l
      | kind_blank => lift (Raise IndexError)
      | kind_morphology _ target_missing => lift (Raise IndexError)
      | kind_morphology _ target_sensitivity => call l
      | _ => wret sens
      end
  end.

Fixpoint filter_sensitivities (fts : list filter_t) (sens : gmap Z Q)
  : W (gmap Z Q) :=
  match fts with
  | [] => wret sens
  | ft :: fts' =>
      io sens' <- filter_sensitivity ft sens;
      filter_sensitivities fts' sens'
  end.

End Filters.

(** Lines 758-763: returns [sensitivity_number] and [sensitivity_number_old] *)
Definition averaging (cfg : config) (m : mesh) (i : nat)
    (sens sens_old : gmap Z Q) : result (gmap Z Q * gmap Z Q) :=
  if sensitivity_averaging cfg then
    Py.for_each (opt_domains m)
      (fun en '(sens, sens_old) =>
         do sens1 <-
           (if (0 <? i)%nat then
              do a <- Py.getitem sens en;
              do b <- Py.getitem sens_old en;
              Ok (<[en := (a + b) / 2]> sens)
            else Ok sens);
         do a <- Py.getitem sens1 en;
         Ok (sens1, <[en := a]> sens_old))
      (sens, sens_old)
  else Ok (sens, sens_old).

(** Lines 775-806: the sums of the mean values *)
Record mean_sums : Type := {
  FI_mean_sum : Q;
  FI_mean_sum_without_state0 : Q;
  mass_without_state0 : Q;
  energy_density_mean_sum : Q;
  heat_flux_mean_sum : Q
}.

Definition mean_element (cfg : config) (r : results) (v : sens_vars)
    (elm_states : gmap Z Z) (en : Z) (mass_elm : Q) (a : mean_sums)
  : result mean_sums :=
  do a1 <-
    (if domain_FI_filled cfg then
       do f <- Py.getitem (v_FI_step_max v) en;
       do st <- Py.getitem elm_states en;
       if bool_decide (st ≠ 0%Z) then
         do f' <- Py.getitem (v_FI_step_max v) en;
         Ok {| FI_mean_sum := FI_mean_sum a + f * mass_elm;
               FI_mean_sum_without_state0 :=
                 FI_mean_sum_without_state0 a + f' * mass_elm;
               mass_without_state0 := mass_without_state0 a + mass_elm;
               energy_density_mean_sum := energy_density_mean_sum a;
               heat_flux_mean_sum := heat_flux_mean_sum a |}
       else
         Ok {| FI_mean_sum := FI_mean_sum a + f * mass_elm;
               FI_mean_sum_without_state0 := FI_mean_sum_without_state0 a;
               mass_without_state0 := mass_without_state0 a;
               energy_density_mean_sum := energy_density_mean_sum a;
               heat_flux_mean_sum := heat_flux_mean_sum a |}
     else Ok a);
  match optimization_base cfg with
  | stiffness =>
      do l <- Py.getitem (v_energy_density_enlist v) en;
      do x <- Py.max l;
      Ok {| FI_mean_sum := FI_mean_sum a1;
            FI_mean_sum_without_state0 := FI_mean_sum_without_state0 a1;
            mass_without_state0 := mass_without_state0 a1;
            energy_density_mean_sum := energy_density_mean_sum a1 + x * mass_elm;
            heat_flux_mean_sum := heat_flux_mean_sum a1 |}
  | heat =>
      do h <- Py.getitem (heat_flux r) en;
      Ok {| FI_mean_sum := FI_mean_sum a1;
            FI_mean_sum_without_state0 := FI_mean_sum_without_state0 a1;
            mass_without_state0 := mass_without_state0 a1;
            energy_density_mean_sum := energy_density_mean_sum a1;
            heat_flux_mean_sum := heat_flux_mean_sum a1 + h * mass_elm |}
  | _ => Ok a1
  end.

Definition mean_domain (cfg : config) (m : mesh) (r : results) (v : sens_vars)
    (elm_states : gmap Z Z) (d : domain) (a : mean_sums) : result mean_sums :=
  if domain_optimized d then
    do a1 <- Py.for_each (domain_shells d)
      (fun en a =>
         do st <- Py.getitem elm_states en;
         do mass_elm <- shell_mass m d en st;
         mean_element cfg r v elm_states en mass_elm a) a;
    Py.for_each (domain_volumes d)
      (fun en a =>
         do st <- Py.getitem elm_states en;
         do mass_elm <- volume_mass m d en st;
         mean_element cfg r v elm_states en mass_elm a) a1
  else Ok a.

Definition mean_values (cfg : config) (m : mesh) (r : results) (v : sens_vars)
    (elm_states : gmap Z Z) : result mean_sums :=
  Py.for_each (domains_from_config cfg) (mean_domain cfg m r v elm_states)
    {| FI_mean_sum := 0; FI_mean_sum_without_state0 := 0; mass_without_state0 := 0;
       energy_density_mean_sum := 0; heat_flux_mean_sum := 0 |}.

(** Lines 807-820: the lists of mean values after the appends *)
Record mean_lists : Type := {
  l_FI_mean : list Q;
  l_FI_mean_without_state0 : list (option Q);
  l_energy_density_mean : list Q;
  l_heat_flux_mean : list Q
}.

Definition append_means (cfg : config) (s : state) (a : mean_sums) : result mean_lists :=
  do (fm, fm0) <-
    (if domain_FI_filled cfg then
       do mi <- Py.index (mass s) (Z.of_nat (i s));
       do x <- Py.div (FI_mean_sum a) mi;
       let fm := FI_mean s ++ [x] in
       do _ <- Py.index fm (Z.of_nat (i s));
       if Py.eq (mass_without_state0 a) 0 then
         Ok (fm, FI_mean_without_state0 s ++ [None])
       else
         do y <- Py.div (FI_mean_sum_without_state0 a) (mass_without_state0 a);
         let fm0 := FI_mean_without_state0 s ++ [Some y] in
         do _ <- Py.index fm0 (Z.of_nat (i s));
         Ok (fm, fm0)
     else Ok (FI_mean s, FI_mean_without_state0 s));
  do em <-
    (match optimization_base cfg with
     | stiffness =>
         do mi <- Py.index (mass s) (Z.of_nat (i s));
         do x <- Py.div (energy_density_mean_sum a) mi;
         let em := energy_density_mean s ++ [x] in
         do _ <- Py.index em (Z.of_nat (i s));
         Ok em
     | _ => Ok (energy_density_mean s)
     end);
  do hm <-
    (match optimization_base cfg with
     | heat =>
         do mi <- Py.index (mass s) (Z.of_nat (i s));
         do x <- Py.div (heat_flux_mean_sum a) mi;
         let hm := heat_flux_mean s ++ [x] in
         do _ <- Py.index hm (Z.of_nat (i s));
         Ok hm
     | _ => Ok (heat_flux_mean s)
     end);
  Ok {| l_FI_mean := fm; l_FI_mean_without_state0 := fm0;
        l_energy_density_mean := em; l_heat_flux_mean := hm |}.

(** Lines 829-854: the reads made while the table row is formatted *)
Definition log_row (cfg : config) (s : state) (l : mean_lists) (rows : list (list Z))
  : result unit :=
  do _ <- Py.index (mass s) (Z.of_nat (i s));
  do _ <- (match optimization_base cfg with
           | stiffness =>
               do _ <- Py.index (l_energy_density_mean l) (Z.of_nat (i s)); Ok tt
           | heat =>
               do _ <- Py.index (l_heat_flux_mean l) (Z.of_nat (i s)); Ok tt
           | _ => Ok tt
           end);
  if domain_FI_filled cfg then
    do row <- Py.index rows (Z.of_nat (i s));
    do _ <- Py.index row 0;
    do _ <- Py.for_each (seq 1 (length (domains_from_config cfg) - 1))
              (fun dno _ => do _ <- Py.index row (Z.of_nat dno); Ok tt) tt;
    do _ <- Py.index (l_FI_mean l) (Z.of_nat (i s));
    do _ <- Py.index (l_FI_mean_without_state0 l) (Z.of_nat (i s));
    Ok tt
  else Ok tt.

(** Lines 872-897: the convergence test on one list of mean values *)
Definition difference (l : list Q) (i : nat) : result Q :=
  do difference_last <-
    Py.for_each [1; 2; 3; 4; 5]%Z
      (fun last acc =>
         do a <- Py.index l (Z.of_nat i);
         do b <- Py.index l (Z.of_nat i - last);
         do c <- Py.index l (Z.of_nat i);
         do q <- Py.div (Qabs (a - b)) c;
         Ok (acc ++ [q])) [];
  Py.max difference_last.

(** [l[i] == l[i-1] == l[i-2]] *)
Definition three_equal (l : list Q) (i : nat) : result bool :=
  do a <- Py.index l (Z.of_nat i);
  do b <- Py.index l (Z.of_nat i - 1);
  if Py.eq a b then
    do c <- Py.index l (Z.of_nat i - 2);
    Ok (Py.eq b c)
  else Ok false.

(** The value of [continue_iterations] after the test on the list [l] *)
Definition convergence_test (tolerance : Q) (l : list Q) (i : nat)
    (continue_iterations : bool) : result bool :=
  if (5 <? length l)%nat then
    do d <- difference l i;
    if Py.lt d tolerance then Ok false
    else
      do e <- three_equal l i;
      if e then Ok false else Ok continue_iterations
  else Ok continue_iterations.

Section Loop.

Variable env : environment.
Variable cfg : config.
Variable m : mesh.
(** [mass_full] and [iterations_limit] as they stand when the loop starts *)
Variable mass_full : Q.
Variable iterations_limit_i : iterations_limit_t.

Definition CalculiX_results_not_found : string :=
  "CalculiX results not found, check CalculiX for errors.".

(** Lines 612-897: from the import of the results to the convergence tests *)
Definition after_solver (s : state) : W state :=
  io r <- import_results env cfg s;
  io _ <- (if missing_ccx_results cfg r then
             io _ <- emit (Log ("ERROR: " +:+ CalculiX_results_not_found));
             lift (Raise (AssertionError CalculiX_results_not_found))
           else wret tt);
  io _ <- compute_FI_max cfg r;
  io v <- lift (sensitivities cfg m r s);
  io sens <- lift (buckling_sensitivities cfg r (v_sensitivity_number v));
  io sens <- filter_sensitivities env cfg m (i s) (filter_list cfg) sens;
  io (sens, sens_old) <- lift (averaging cfg m (i s) sens (sensitivity_number_old s));
  io a <- lift (mean_values cfg m r v (elm_states s));
  io l <- lift (append_means cfg s a);
  io _ <- lift (log_row cfg s l (v_FI_violated v));
  io _ <- emit (LogRow (i s));
  io c1 <- lift (convergence_test (tolerance cfg) (l_FI_mean l) (i s)
                   (continue_iterations s));
  io c2 <- lift (convergence_test (tolerance cfg) (l_energy_density_mean l) (i s) c1);
  wret {| i := i s;
          i_violated := i_violated s;
          continue_iterations := c2;
          check_tolerance := check_tolerance s;
          mass_excess := mass_excess s;
          elm_states := elm_states s;
          elm_states_last := elm_states_last s;
          elm_states_before_last := elm_states_before_last s;
          oscillations := oscillations s;
          mass := mass s;
          FI_mean := l_FI_mean l;
          FI_mean_without_state0 := l_FI_mean_without_state0 l;
          energy_density_mean := l_energy_density_mean l;
          heat_flux_mean := l_heat_flux_mean l;
          FI_violated := v_FI_violated v;
          sensitivity_number := sens;
          sensitivity_number_old := sens_old;
          FI_step_max := v_FI_step_max v;
          mass_goal_i := mass_goal_i s;
          mass_referential := mass_referential s |}.

(** Lines 579-897: from the solver call to the convergence tests *)
Definition first_half (s : state) : W state :=
  io _ <- emit (CalculiX (i s));
  io exit_status <- lift (calculix env (i s) (elm_states s));
  io _ <- (check_exit_status exit_status, Ok tt);
  after_solver s.

(** Line 900: [continue_iterations is False or i >= iterations_limit] *)
Definition finish_test (s : state) : result bool :=
  if continue_iterations s then
    match iterations_limit_i with
    | limit n => Ok (n <=? Z.of_nat (i s))%Z
    | auto => Raise TypeError
    end
  else Ok true.

Definition WARNING_mass_goal : string :=
  "WARNING: mass goal is lower than initial mass. Check mass_goal_ratio.".

(** The variables assigned by the block that sets the mass goal *)
Record goal_vars : Type := {
  g_mass_goal_i : option Q;
  g_i_violated : nat;
  g_check_tolerance : bool
}.

(** Lines 923-951, with [i] already incremented *)
Definition set_mass_goal (i : nat) (s : state) : W goal_vars :=
  let goal := mass_goal_ratio cfg * mass_full in
  let start_decaying :=
    if (i_violated s =? 0)%nat then (i, true)
    else (i_violated s, check_tolerance s) in
  if Py.lt 0 (mass_removal_ratio cfg - mass_addition_ratio cfg) then
    io before <- lift (Py.index (FI_violated s) (Z.of_nat i - 1));
    io first <- lift (Py.index (FI_violated s) 0);
    if (Py.sum first + FI_violated_tolerance cfg <? Py.sum before)%Z then
      io m1 <- lift (Py.index (mass s) (Z.of_nat i - 1));
      io g <- (if Py.le goal m1 then
                 io m1' <- lift (Py.index (mass s) (Z.of_nat i - 1)); wret m1'
               else wret goal);
      wret {| g_mass_goal_i := Some g;
              g_i_violated := fst start_decaying;
              g_check_tolerance := snd start_decaying |}
    else
      io m1 <- lift (Py.index (mass s) (Z.of_nat i - 1));
      if Py.le m1 goal then
        io _ <- (match mass_goal_i s with
                 | Some _ => wret tt
                 | None => emit (Log WARNING_mass_goal)
                 end);
        wret {| g_mass_goal_i := mass_goal_i s;
                g_i_violated := fst start_decaying;
                g_check_tolerance := snd start_decaying |}
      else
        wret {| g_mass_goal_i := Some goal;
                g_i_violated := i_violated s;
                g_check_tolerance := check_tolerance s |}
  else
    io m1 <- lift (Py.index (mass s) (Z.of_nat i - 1));
    if Py.lt m1 goal then
      io m1' <- lift (Py.index (mass s) (Z.of_nat i - 1));
      wret {| g_mass_goal_i :=
                Some (m1' + (mass_addition_ratio cfg - mass_removal_ratio cfg) * mass_full);
              g_i_violated := i_violated s;
              g_check_tolerance := check_tolerance s |}
    else
      io m1' <- lift (Py.index (mass s) (Z.of_nat i - 1));
      if Py.le goal m1' then
        wret {| g_mass_goal_i := Some goal;
                g_i_violated := fst start_decaying;
                g_check_tolerance := snd start_decaying |}
      else
        wret {| g_mass_goal_i := mass_goal_i s;
                g_i_violated := i_violated s;
                g_check_tolerance := check_tolerance s |}.

(** Lines 955-958 *)
Definition set_mass_referential (i : nat) (s : state) : result (option Q) :=
  match ratio_type cfg with
  | absolute => Ok (Some mass_full)
  | relative => do m1 <- Py.index (mass s) (Z.of_nat i - 1); Ok (Some m1)
  | ratio_other => Ok (mass_referential s)
  end.

(** What the names [elm_states], [elm_states_last] and [mass] are bound to
    after [[elm_states, mass] = beso_lib.switching(elm_states, ...)] *)
Record switched : Type := {
  w_elm_states : gmap Z Z;
  w_elm_states_last : dict_ref;
  w_mass : list Q;
  w_mass_referential : option Q
}.

(** Lines 955-963.  The arguments are evaluated before the call; a name that
    is not bound raises [NameError]. *)
Definition call_switching (i : nat) (s : state) (g : goal_vars) : W switched :=
  io mref <- lift (set_mass_referential i s);
  io mass_referential <- lift (of_option (NameError "mass_referential") mref);
  io mass_goal_i <- lift (of_option (NameError "mass_goal_i") (g_mass_goal_i g));
  io _ <- emit (Switching i);
  io r <- lift (switching env
                  {| sa_elm_states := elm_states s;
                     sa_FI_step_max := FI_step_max s;
                     sa_sensitivity_number := sensitivity_number s;
                     sa_mass := mass s;
                     sa_mass_referential := mass_referential;
                     sa_mass_excess := mass_excess s;
                     sa_FI_violated := FI_violated s;
                     sa_i_violated := g_i_violated g;
                     sa_i := i;
                     sa_mass_goal_i := mass_goal_i |});
  wret match sw_returned r with
       | None =>
           {| w_elm_states := sw_argument r;
              w_elm_states_last := elm_states_last s;
              w_mass := sw_mass r;
              w_mass_referential := mref |}
       | Some d =>
           {| w_elm_states := d;
              w_elm_states_last :=
                match elm_states_last s with
                | same_as_elm_states => dict (sw_argument r)
                | dict l => dict l
                end;
              w_mass := sw_mass r;
              w_mass_referential := mref |}
       end.

(** Lines 991-996 and 998-1001: one element of a filtered domain.
    [elm_mass d en st] is the mass of the element in state [st]. *)
Definition correct_shell (d : domain) (i : nat) (elm_states_filtered : gmap Z Z)
    (en : Z) (acc : gmap Z Z * list Q) : result (gmap Z Z * list Q) :=
  let '(elm_states, mass) := acc in
  do old <- Py.getitem elm_states en;
  do new <- Py.getitem elm_states_filtered en;
  if bool_decide (old ≠ new) then
    do mi <- Py.index mass (Z.of_nat i);
    do a <- Py.getitem (area_elm m) en;
    do rho_new <- Py.index (domain_density d) new;
    do t_new <- Py.index (domain_thickness d) new;
    do rho_old <- Py.index (domain_density d) old;
    do t_old <- Py.index (domain_thickness d) old;
    Ok (<[en := new]> elm_states,
        <[i := mi + a * (rho_new * t_new - rho_old * t_old)]> mass)
  else Ok (elm_states, mass).

Definition correct_volume (d : domain) (i : nat) (elm_states_filtered : gmap Z Z)
    (en : Z) (acc : gmap Z Z * list Q) : result (gmap Z Z * list Q) :=
  let '(elm_states, mass) := acc in
  do old <- Py.getitem elm_states en;
  do new <- Py.getitem elm_states_filtered en;
  if bool_decide (old ≠ new) then
    do mi <- Py.index mass (Z.of_nat i);
    do v <- Py.getitem (volume_elm m) en;
    do rho_new <- Py.index (domain_density d) new;
    do rho_old <- Py.index (domain_density d) old;
    Ok (<[en := new]> elm_states,
        <[i := mi + v * (rho_new - rho_old)]> mass)
  else Ok (elm_states, mass).

(** Lines 988-1001: [for dn in domains_from_config] *)
Definition correct_domain (i : nat) (elm_states_filtered : gmap Z Z) (d : domain)
    (acc : gmap Z Z * list Q) : result (gmap Z Z * list Q) :=
  if domain_optimized d then
    do acc1 <- Py.for_each (domain_shells d)
                 (correct_shell d i elm_states_filtered) acc;
    Py.for_each (domain_volumes d) (correct_volume d i elm_states_filtered) acc1
  else Ok acc.

Definition mass_difference (i : nat) (elm_states_filtered : gmap Z Z)
    (acc : gmap Z Z * list Q) : result (gmap Z Z * list Q) :=
  Py.for_each (domains_from_config cfg) (correct_domain i elm_states_filtered) acc.

(** Whether the entry is a morphology filter on states (lines 971-982);
    the answer comes with [domains_to_filter]. *)
Definition state_filter (ft : filter_t) : result (option (list Z)) :=
  match ft_kind ft, ft_range ft with
  | kind_falsy, _ => Ok None
  | _, false => Ok None
  | kind_casting, true => Ok None
  | k, true =>
      do l <- domains_to_filter cfg m (bool_decide (length (ft_rest ft) = 0%nat))
                (ft_rest ft);
      match k with
      | kind_blank => Raise IndexError
      | kind_morphology _ target_missing => Raise IndexError
      | kind_morphology _ target_state => Ok (Some l)
      | _ => Ok None
      end
  end.

(** Lines 970-1001: the body of [for ft in filter_list] *)
Definition filter_state (i : nat) (FI_step_max : gmap Z Q) (ft : filter_t)
    (acc : gmap Z Z * list Q) : W (gmap Z Z * list Q) :=
  io f <- lift (state_filter ft);
  match f with
  | None => wret acc
  | Some l =>
      io _ <- emit (FilterState i);
      io elm_states_filtered <- lift (run_morphology env i ft l (fst acc) FI_step_max);
      lift (mass_difference i elm_states_filtered acc)
  end.

Fixpoint filter_states (i : nat) (FI_step_max : gmap Z Q) (fts : list filter_t)
    (acc : gmap Z Z * list Q) : W (gmap Z Z * list Q) :=
  match fts with
  | [] => wret acc
  | ft :: fts' =>
      io acc' <- filter_state i FI_step_max ft acc;
      filter_states i FI_step_max fts' acc'
  end.

(** Lines 966-1007: returns [elm_states], [mass] and [mass_excess] *)
Definition filtering_state (i : nat) (FI_step_max : gmap Z Q)
    (elm_states : gmap Z Z) (mass : list Q) : W (gmap Z Z * list Q * Q) :=
  io mass_not_filtered <- lift (Py.index mass (Z.of_nat i));
  io (elm_states', mass') <- filter_states i FI_step_max (filter_list cfg) (elm_states, mass);
  io mi <- lift (Py.index mass' (Z.of_nat i));
  wret (elm_states', mass', mi - mass_not_filtered).

(** Lines 920-1027: from [i += 1] to the state filter *)
Definition second_half (s : state) : W state :=
  let i' := S (i s) in
  io g <- set_mass_goal i' s;
  io w <- call_switching i' s g;
  io (es, mass', excess) <- filtering_state i' (FI_step_max s) (w_elm_states w) (w_mass w);
  wret {| i := i';
          i_violated := g_i_violated g;
          continue_iterations := continue_iterations s;
          check_tolerance := g_check_tolerance g;
          mass_excess := excess;
          elm_states := es;
          elm_states_last := w_elm_states_last w;
          elm_states_before_last := elm_states_before_last s;
          oscillations := oscillations s;
          mass := mass';
          FI_mean := FI_mean s;
          FI_mean_without_state0 := FI_mean_without_state0 s;
          energy_density_mean := energy_density_mean s;
          heat_flux_mean := heat_flux_mean s;
          FI_violated := FI_violated s;
          sensitivity_number := sensitivity_number s;
          sensitivity_number_old := sensitivity_number_old s;
          FI_step_max := FI_step_max s;
          mass_goal_i := g_mass_goal_i g;
          mass_referential := w_mass_referential w |}.

(** The dictionary a reference denotes *)
Definition deref (s : state) (r : dict_ref) : gmap Z Z :=
  match r with
  | same_as_elm_states => elm_states s
  | dict d => d
  end.

Definition set_oscillations (s : state) : state :=
  {| i := i s; i_violated := i_violated s;
     continue_iterations := continue_iterations s;
     check_tolerance := check_tolerance s; mass_excess := mass_excess s;
     elm_states := elm_states s; elm_states_last := elm_states_last s;
     elm_states_before_last := elm_states_before_last s;
     oscillations := true;
     mass := mass s; FI_mean := FI_mean s;
     FI_mean_without_state0 := FI_mean_without_state0 s;
     energy_density_mean := energy_density_mean s;
     heat_flux_mean := heat_flux_mean s; FI_violated := FI_violated s;
     sensitivity_number := sensitivity_number s;
     sensitivity_number_old := sensitivity_number_old s;
     FI_step_max := FI_step_max s; mass_goal_i := mass_goal_i s;
     mass_referential := mass_referential s |}.

(** Lines 1036-1037 *)
Definition remember_states (s : state) : state :=
  {| i := i s; i_violated := i_violated s;
     continue_iterations := continue_iterations s;
     check_tolerance := check_tolerance s; mass_excess := mass_excess s;
     elm_states := elm_states s;
     elm_states_last := dict (elm_states s);
     elm_states_before_last := deref s (elm_states_last s);
     oscillations := oscillations s;
     mass := mass s; FI_mean := FI_mean s;
     FI_mean_without_state0 := FI_mean_without_state0 s;
     energy_density_mean := energy_density_mean s;
     heat_flux_mean := heat_flux_mean s; FI_violated := FI_violated s;
     sensitivity_number := sensitivity_number s;
     sensitivity_number_old := sensitivity_number_old s;
     FI_step_max := FI_step_max s; mass_goal_i := mass_goal_i s;
     mass_referential := mass_referential s |}.

(** How one pass through the body of [while True] ends *)
Inductive outcome : Type :=
| Continue (s : state)        (* the end of the body is reached *)
| Finished (s : state)        (* break at line 913 *)
| Oscillating (s : state)     (* break at line 1035 *)
| Raised (e : exn).           (* an exception leaves the script *)

Definition OSCILLATION (i : nat) : event :=
  Log ("OSCILLATION: model turns back to " +:+ pretty (Z.of_nat i - 2)%Z +:+ "th iteration.").

(** Lines 1029-1037 *)
Definition oscillation_test (s : state) : list event * outcome :=
  if bool_decide (elm_states_before_last s = elm_states s)
  then ([OSCILLATION (i s)], Oscillating (set_oscillations s))
  else ([], Continue (remember_states s)).

(** The body of [while True] *)
Definition loop_body (s : state) : list event * outcome :=
  match first_half s with
  | (tr, Raise e) => (tr, Raised e)
  | (tr, Ok s1) =>
      match finish_test s1 with
      | Raise e => (tr, Raised e)
      | Ok true => (tr, Finished s1)
      | Ok false =>
          match second_half s1 with
          | (tr2, Raise e) => (tr ++ tr2, Raised e)
          | (tr2, Ok s2) =>
              let '(tr3, o) := oscillation_test s2 in (tr ++ tr2 ++ tr3, o)
          end
      end
  end.

(** [while True], for at most [fuel] passes; [Continue s] is returned when
    the loop is still running after them. *)
Fixpoint while_True (fuel : nat) (s : state) : list event * outcome :=
  match fuel with
  | O => ([], Continue s)
  | S fuel' =>
      match loop_body s with
      | (tr, Continue s') =>
          let '(tr', o) := while_True fuel' s' in (tr ++ tr', o)
      | r => r
      end
  end.

End Loop.

(** Lines 559-576: the variables when the loop starts *)
Definition initial_state (elm_states0 : gmap Z Z) (mass0 : Q) : state :=
  {| i := 0; i_violated := 0; continue_iterations := true;
     check_tolerance := false; mass_excess := 0;
     elm_states := elm_states0;
     elm_states_last := same_as_elm_states;
     elm_states_before_last := ∅;
     oscillations := false;
     mass := [mass0]; FI_mean := []; FI_mean_without_state0 := [];
     energy_density_mean := []; heat_flux_mean := []; FI_violated := [];
     sensitivity_number := ∅; sensitivity_number_old := ∅;
     FI_step_max := ∅; mass_goal_i := None; mass_referential := None |}.

(** The script from the initialisation of the element states on.  The fuel
    bounds the while loops of the automatic limit and the passes of the main
    loop; [None] is returned when the automatic limit needs more. *)
Definition beso_main (fuel : nat) (imp : state_importers) (env : environment)
    (cfg : config) (m : mesh) : option (list event * outcome) :=
  match init_elm_states imp cfg with
  | (tr, Raise e) => Some (tr, Raised e)
  | (tr, Ok elm_states0) =>
      match initial_mass m cfg elm_states0 with
      | Raise e => Some (tr, Raised e)
      | Ok (mass0, mass_full) =>
          match auto_iterations_limit fuel cfg mass0 mass_full with
          | Raise e => Some (tr, Raised e)
          | Ok None => None
          | Ok (Some lim) =>
              let '(tr', o) :=
                while_True env cfg m mass_full lim fuel
                  (initial_state elm_states0 mass0) in
              Some (tr ++ tr', o)
          end
      end
  end.

(** ** Notions used to state the properties *)

(** The INFO lines expected when [continue_from] is the integer [n] *)
Definition clamped_events (n : Z) (ds : list domain) : list event :=
  concat (map (fun d => if (highest d <? n)%Z then [INFO_highest_state d] else []) ds).

(** The mass fraction after [n] geometric steps [m -> m * q] *)
Fixpoint after_steps (q m : Q) (n : nat) : Q :=
  match n with
  | O => m
  | S k => after_steps q (m * q) k
  end.

(** [n] is the number of steps [m -> m * q] after which the fraction is at
    or below the goal for the first time *)
Definition steps_down (q m goal : Q) (n : nat) : Prop :=
  after_steps q m n <= goal /\ forall k, (k < n)%nat -> goal < after_steps q m k.

(** [n] is the number of steps [m -> m * q] after which the fraction is at
    or above the goal for the first time *)
Definition steps_up (q m goal : Q) (n : nat) : Prop :=
  goal <= after_steps q m n /\ forall k, (k < n)%nat -> after_steps q m k < goal.

(** The number of whole steps of size [step] between [m] and the goal *)
Definition linear_steps (m goal step : Q) : Z := Qfloor ((m - goal) / step).

(** The environment in which every solver run ends with exit status [z] *)
Definition with_exit_status (env : environment) (z : Z) : environment :=
  {| calculix := fun _ _ => Ok z;
     import_FI_int_pt := import_FI_int_pt env;
     import_FI_node := import_FI_node env;
     run_filter := run_filter env;
     switching := switching env;
     run_morphology := run_morphology env |}.

Section Runs.

Variable env : environment.
Variable cfg : config.
Variable m : mesh.
Variable mass_full : Q.
Variable iterations_limit_i : iterations_limit_t.

(** The variables after [n] passes through the loop body, when each of them
    reaches the end of the body *)
Fixpoint passes (n : nat) (s : state) : option state :=
  match n with
  | O => Some s
  | S k =>
      match passes k s with
      | Some s' =>
          match loop_body env cfg m mass_full iterations_limit_i s' with
          | (_, Continue s'') => Some s''
          | _ => None
          end
      | None => None
      end
  end.

(** The element states after [n] passes: the assignment of iteration [n] *)
Definition states_after (n : nat) (s : state) : option (gmap Z Z) :=
  elm_states <$> passes n s.

(** A pass gets as far as the oscillation test, with the variables [s2] *)
Definition reaches_oscillation_test (s s2 : state) : Prop :=
  exists tr1 s1 tr2,
    first_half env cfg m s = (tr1, Ok s1)
    /\ finish_test iterations_limit_i s1 = Ok false
    /\ second_half env cfg m mass_full s1 = (tr2, Ok s2).

End Runs.

(** The terminal transitions of the controller *)
Definition CONVERGED (o : outcome) : Prop :=
  exists s, o = Finished s /\ continue_iterations s = false.

Definition ITERATION_LIMIT (lim : iterations_limit_t) (o : outcome) : Prop :=
  exists s n, o = Finished s /\ continue_iterations s = true
              /\ lim = limit n /\ (n <= Z.of_nat (i s))%Z.

Definition OSCILLATING (o : outcome) : Prop :=
  exists s, o = Oscillating s /\ oscillations s = true.

(** The convergence criterion on the list [l] of the mean values recorded up
    to iteration [i]: more than 5 values are recorded and either the relative
    change [|l[i] - l[i-k]| / l[i]] is below the tolerance for each of the
    last 5 iterations [k = 1..5], or the last three values are equal. *)
Definition converged_on (tolerance : Q) (l : list Q) (i : nat) : Prop :=
  (5 < length l)%nat /\
  ((forall k, (1 <= k <= 5)%nat ->
      exists a b, l !! i = Some a /\ l !! (i - k)%nat = Some b
                  /\ Qabs (a - b) / a < tolerance)
   \/ (exists a b c, l !! i = Some a /\ l !! (i - 1)%nat = Some b
                     /\ l !! (i - 2)%nat = Some c /\ a == b /\ b == c)).

(** The failure ratios of an element: the values other than [None] of all
    criteria in all load steps *)
Definition failure_ratios (r : results) (en : Z) : list Q :=
  concat (map (fun step : gmap Z (list (option Q)) =>
                 match step !! en with
                 | Some fi => drop_None fi
                 | None => []
                 end) (FI_step r)).

(** [x] is the greatest number of the list *)
Definition is_maximum (x : Q) (l : list Q) : Prop :=
  (exists y, y ∈ l /\ x == y) /\ forall y, y ∈ l -> y <= x.

(** The sensitivity number of element [en] of domain [d] for the failure
    index: the greatest failure ratio over the density of the present state *)
Definition failure_index_sensitivity (r : results) (s : state) (d : domain)
    (en : Z) (x : Q) : Prop :=
  exists st rho fmax,
    elm_states s !! en = Some st
    /\ Py.index (domain_density d) st = Ok rho
    /\ ~ rho == 0
    /\ is_maximum fmax (failure_ratios r en)
    /\ x = fmax / rho.

(** The elements whose mass is in the ledger: the shell elements (marked
    [true]) and the volume elements (marked [false]) of the optimised
    domains, with their domain, in the order of the loops *)
Definition optimized_elements (cfg : config) : list (domain * bool * Z) :=
  concat (map (fun d =>
                 if domain_optimized d then
                   map (fun en => (d, true, en)) (domain_shells d)
                   ++ map (fun en => (d, false, en)) (domain_volumes d)
                 else [])
              (domains_from_config cfg)).

(** The mass of such an element in the state [st]: density times area times
    thickness for a shell, density times volume for a volume element *)
Definition elm_mass (m : mesh) (p : domain * bool * Z) (st : Z) : Q :=
  let '(d, is_shell, en) := p in
  match (if is_shell : bool then shell_mass m d en st else volume_mass m d en st) with
  | Ok x => x
  | Raise _ => 0
  end.

(** The change of the mass of an element between two assignments of states:
    mass in the new state minus mass in the old state if the state changed *)
Definition mass_change (m : mesh) (es es' : gmap Z Z) (p : domain * bool * Z) : Q :=
  match es !! snd p, es' !! snd p with
  | Some old, Some new =>
      if decide (old = new) then 0 else elm_mass m p new - elm_mass m p old
  | _, _ => 0
  end.

Definition Qsum (l : list Q) : Q := fold_right Qplus 0 l.

(** The sum of the changes over the elements whose state changed *)
Definition correction (cfg : config) (m : mesh) (es es' : gmap Z Z) : Q :=
  Qsum (map (mass_change m es es') (optimized_elements cfg)).

(** The body of the loops of lines 988-1001 on an element of the ledger *)
Definition correct_element (m : mesh) (i : nat) (filtered : gmap Z Z)
    (p : domain * bool * Z) (acc : gmap Z Z * list Q)
  : result (gmap Z Z * list Q) :=
  if snd (fst p) then correct_shell m (fst (fst p)) i filtered (snd p) acc
  else correct_volume m (fst (fst p)) i filtered (snd p) acc.

(** The ledger entry [mass[i]] after the state filters, against the entry
    and the element states before them *)
Definition ledger_corrected (cfg : config) (m : mesh) (i : nat)
    (es : gmap Z Z) (mass : list Q) (es' : gmap Z Z) (mass' : list Q) : Prop :=
  (forall en, is_Some (es' !! en) <-> is_Some (es !! en))
  /\ (forall j, j ≠ i -> mass' !! j = mass !! j)
  /\ (forall x, mass !! i = Some x ->
        exists x', mass' !! i = Some x' /\ x' == x + correction cfg m es es').

(** ** A small model used in the examples: one optimised domain of two
    volume elements with a void and a solid state *)

Module Demo.

Definition d : domain :=
  {| dn := "SolidMaterialSolid"; domain_optimized := true;
     domain_density := [1 # 1000; 1]; domain_thickness := [];
     domain_same_state := false;
     domains := [1; 2]%Z; domain_shells := []; domain_volumes := [1; 2]%Z |}.

Definition geometry : mesh :=
  {| opt_domains := [1; 2]%Z; area_elm := ∅;
     volume_elm := <[1%Z := 1]> (<[2%Z := 1]> ∅) |}.

Definition conf : config :=
  {| domains_from_config := [d]; domain_FI_filled := false;
     mass_goal_ratio := 4 # 10; continue_from := cf_str "";
     filter_list := []; optimization_base := stiffness;
     FI_violated_tolerance := 1; reference_points := integration_points;
     sensitivity_averaging := false;
     mass_addition_ratio := 1 # 100; mass_removal_ratio := 3 # 100;
     ratio_type := relative; compensate_state_filter := false;
     decay_coefficient := - (2 # 10);
     iterations_limit := limit 10; tolerance := 1 # 1000 |}.

Definition states (a b : Z) : gmap Z Z := <[1%Z := a]> (<[2%Z := b]> ∅).

(** The mass of the two elements in the given states *)
Definition mass_of (es : gmap Z Z) : Q :=
  let rho (en : Z) := match es !! en with
                      | Some 0%Z => 1 # 1000
                      | _ => 1
                      end in
  Qred (rho 1%Z + rho 2%Z).

(** A solver that returns [status] and results with the mean energy
    density [energy i] in iteration [i]; a switching step that follows the
    script [design] and returns the dictionary it was given ([in_place]) or
    a new one. *)
Definition environment_of (status : nat -> Z) (energy : nat -> Q)
    (design : nat -> gmap Z Z) (in_place : bool) : environment :=
  {| calculix := fun i _ => Ok (status i);
     import_FI_int_pt := fun i _ =>
       Ok {| FI_step := [∅];
             energy_density_step := [<[1%Z := energy i]> (<[2%Z := energy i]> ∅)];
             buckling_factors := []; energy_density_eigen := []; heat_flux := ∅ |};
     import_FI_node := fun _ _ => Ok [];
     run_filter := fun _ _ _ sens => Ok sens;
     switching := fun a =>
       Ok {| sw_argument := if in_place then design (sa_i a) else sa_elm_states a;
             sw_returned := if in_place then None else Some (design (sa_i a));
             sw_mass := sa_mass a ++ [mass_of (design (sa_i a))] |};
     run_morphology := fun _ _ _ es _ => Ok es |}.

Definition importers : state_importers :=
  {| import_frd_state := fun _ => Raise (Exception "no file");
     import_inp_state := fun _ => Raise (Exception "no file");
     import_csv_state := fun _ => Raise (Exception "no file") |}.

(** Designs that go round the four assignments of two states *)
Definition round (i : nat) : gmap Z Z :=
  match (i mod 4)%nat with
  | 0%nat => states 1 1
  | 1%nat => states 0 1
  | 2%nat => states 0 0
  | _ => states 1 0
  end.

(** Designs that alternate between two assignments from iteration 1 on *)
Definition alternate (i : nat) : gmap Z Z :=
  match i with
  | 0%nat => states 1 1
  | _ => if Nat.even i then states 1 0 else states 0 1
  end.

(** The configuration with another iteration limit or mass goal *)
Definition conf_with (lim : iterations_limit_t) (goal : Q) : config :=
  {| domains_from_config := [d]; domain_FI_filled := false;
     mass_goal_ratio := goal; continue_from := cf_str "";
     filter_list := []; optimization_base := stiffness;
     FI_violated_tolerance := 1; reference_points := integration_points;
     sensitivity_averaging := false;
     mass_addition_ratio := 1 # 100; mass_removal_ratio := 3 # 100;
     ratio_type := relative; compensate_state_filter := false;
     decay_coefficient := - (2 # 10);
     iterations_limit := lim; tolerance := 1 # 1000 |}.

(** Designs that change in the first iteration and stay as they are *)
Definition settle (i : nat) : gmap Z Z :=
  match i with
  | 0%nat => states 1 1
  | _ => states 0 1
  end.

(** The variables when the loop starts from both elements solid *)
Definition start : state := initial_state (states 1 1) 2.

(** Variables of a second iteration with violated elements *)
Definition violated (mass1 : Q) : state :=
  {| i := 1; i_violated := 0; continue_iterations := true;
     check_tolerance := false; mass_excess := 0;
     elm_states := states 0 1; elm_states_last := dict (states 0 1);
     elm_states_before_last := states 1 1; oscillations := false;
     mass := [2; mass1]; FI_mean := []; FI_mean_without_state0 := [];
     energy_density_mean := [5; 5]; heat_flux_mean := [];
     FI_violated := [[0%Z]; [5%Z]];
     sensitivity_number := ∅; sensitivity_number_old := ∅; FI_step_max := ∅;
     mass_goal_i := Some (8 # 10); mass_referential := Some 2 |}.

(** A configuration with an erode filter on the element states, and a
    filter that makes every element void *)
Definition erode : filter_t :=
  {| ft_kind := kind_morphology "erode" target_state; ft_range := true;
     ft_rest := [] |}.

Definition conf_erode : config :=
  {| domains_from_config := [d]; domain_FI_filled := false;
     mass_goal_ratio := 4 # 10; continue_from := cf_str "";
     filter_list := [erode]; optimization_base := stiffness;
     FI_violated_tolerance := 1; reference_points := integration_points;
     sensitivity_averaging := false;
     mass_addition_ratio := 1 # 100; mass_removal_ratio := 3 # 100;
     ratio_type := relative; compensate_state_filter := false;
     decay_coefficient := - (2 # 10);
     iterations_limit := limit 10; tolerance := 1 # 1000 |}.

Definition eroding : environment :=
  {| calculix := fun _ _ => Ok 0%Z;
     import_FI_int_pt := fun _ _ => Ok empty_results;
     import_FI_node := fun _ _ => Ok [];
     run_filter := fun _ _ _ sens => Ok sens;
     switching := fun a =>
       Ok {| sw_argument := sa_elm_states a; sw_returned := None;
             sw_mass := sa_mass a ++ [mass_of (sa_elm_states a)] |};
     run_morphology := fun _ _ _ es _ => Ok ((fun _ => 0%Z) <$> es) |}.

(** Failure indices as objective: two load steps, the second criterion
    does not apply to element 1 in the first step *)
Definition conf_FI : config :=
  {| domains_from_config := [d]; domain_FI_filled := true;
     mass_goal_ratio := 4 # 10; continue_from := cf_str "";
     filter_list := []; optimization_base := failure_index;
     FI_violated_tolerance := 1; reference_points := integration_points;
     sensitivity_averaging := false;
     mass_addition_ratio := 1 # 100; mass_removal_ratio := 3 # 100;
     ratio_type := relative; compensate_state_filter := false;
     decay_coefficient := - (2 # 10);
     iterations_limit := limit 10; tolerance := 1 # 1000 |}.

Definition results_FI : results :=
  {| FI_step :=
       [ <[1%Z := [Some (1 # 2); None]]> (<[2%Z := [Some (3 # 2); Some 1]]> ∅);
         <[1%Z := [Some (3 # 4); Some (1 # 4)]]> (<[2%Z := [Some 1; Some 1]]> ∅) ];
     energy_density_step := []; buckling_factors := [];
     energy_density_eigen := []; heat_flux := ∅ |}.

(** A shell domain of three states next to the solid domain, for the
    initialisation from an integer *)
Definition shell_domain : domain :=
  {| dn := "ShellMaterialThickness"; domain_optimized := true;
     domain_density := [1 # 1000; 1 # 2; 1]; domain_thickness := [1; 1; 1];
     domain_same_state := false;
     domains := [3; 4]%Z; domain_shells := [3; 4]%Z; domain_volumes := [] |}.

Definition conf_continue (n : Z) : config :=
  {| domains_from_config := [d; shell_domain]; domain_FI_filled := false;
     mass_goal_ratio := 4 # 10; continue_from := cf_int n;
     filter_list := []; optimization_base := stiffness;
     FI_violated_tolerance := 1; reference_points := integration_points;
     sensitivity_averaging := false;
     mass_addition_ratio := 1 # 100; mass_removal_ratio := 3 # 100;
     ratio_type := relative; compensate_state_filter := false;
     decay_coefficient := - (2 # 10);
     iterations_limit := limit 10; tolerance := 1 # 1000 |}.

(** A domain without elements in a net-adding buckling run *)
Definition no_elements : domain :=
  {| dn := "Empty"; domain_optimized := true;
     domain_density := [1 # 1000; 1]; domain_thickness := [];
     domain_same_state := false;
     domains := []; domain_shells := []; domain_volumes := [] |}.

Definition conf_empty : config :=
  {| domains_from_config := [no_elements]; domain_FI_filled := false;
     mass_goal_ratio := 4 # 10; continue_from := cf_str "";
     filter_list := []; optimization_base := buckling;
     FI_violated_tolerance := 1; reference_points := integration_points;
     sensitivity_averaging := false;
     mass_addition_ratio := 3 # 100; mass_removal_ratio := 1 # 100;
     ratio_type := relative; compensate_state_filter := false;
     decay_coefficient := - (2 # 10);
     iterations_limit := limit 10; tolerance := 1 # 1000 |}.

Definition geometry_empty : mesh :=
  {| opt_domains := []; area_elm := ∅; volume_elm := ∅ |}.

Definition buckling_solver : environment :=
  {| calculix := fun _ _ => Ok 0%Z;
     import_FI_int_pt := fun _ _ =>
       Ok {| FI_step := []; energy_density_step := [];
             buckling_factors := [1]; energy_density_eigen := [];
             heat_flux := ∅ |};
     import_FI_node := fun _ _ => Ok [];
     run_filter := fun _ _ _ sens => Ok sens;
     switching := fun a =>
       Ok {| sw_argument := sa_elm_states a; sw_returned := None;
             sw_mass := sa_mass a ++ [0] |};
     run_morphology := fun _ _ _ es _ => Ok es |}.

End Demo.

(** ** Further notions used to state properties of the loop *)

(** The energy densities of an element in the load steps the loop visits:
    [energy_density_step[sn][en]] for [sn] in [range(len(FI_step))] *)
Definition energy_densities (r : results) (en : Z) : list Q :=
  omap (fun eds : gmap Z Q => eds !! en)
    (take (length (FI_step r)) (energy_density_step r)).

(** An element is violated when failure limits are defined and one of its
    failure ratios, in some load step and for some criterion, is at least 1. *)
Definition violated_element (cfg : config) (r : results) (en : Z) : bool :=
  domain_FI_filled cfg && existsb (Py.le 1) (failure_ratios r en).

(** The number of violated elements among [domains[dn]] *)
Definition violated_count (cfg : config) (r : results) (d : domain) : Z :=
  Z.of_nat (length (List.filter (violated_element cfg r) (domains d))).

(** The mass of an element of the ledger in its present state *)
Definition present_mass (m : mesh) (es : gmap Z Z) (p : domain * bool * Z) : Q :=
  match es !! snd p with
  | Some st => elm_mass m p st
  | None => 0
  end.

(** The same mass for an element that is not in state 0, and 0 for one
    that is *)
Definition mass_outside_state0 (m : mesh) (es : gmap Z Z) (p : domain * bool * Z) : Q :=
  match es !! snd p with
  | Some 0%Z => 0
  | Some st => elm_mass m p st
  | None => 0
  end.

(** The values of an element that enter the means: [FI_step_max[en]],
    [max(energy_density_enlist[en])] and [heat_flux[en]] *)
Definition element_FI (v : sens_vars) (en : Z) : Q :=
  default 0 (v_FI_step_max v !! en).

Definition element_energy (v : sens_vars) (en : Z) : Q :=
  match v_energy_density_enlist v !! en with
  | Some l => match Py.max l with Ok x => x | Raise _ => 0 end
  | None => 0
  end.

Definition element_heat_flux (r : results) (en : Z) : Q :=
  default 0 (heat_flux r !! en).

(** The sum of [value * weight] over the elements of the ledger *)
Definition weighted_sum (value : Z -> Q) (weight : domain * bool * Z -> Q)
    (l : list (domain * bool * Z)) : Q :=
  Qsum (map (fun p => value (snd p) * weight p) l).

(** ** Counting the calls of the solver and of the switching step *)

Definition is_solver_call (ev : event) : bool :=
  match ev with CalculiX _ => true | _ => false end.

Definition is_switching_call (ev : event) : bool :=
  match ev with Switching _ => true | _ => false end.

Definition solver_calls (tr : list event) : nat :=
  length (List.filter is_solver_call tr).

Definition switching_calls (tr : list event) : nat :=
  length (List.filter is_switching_call tr).

(** An event that is neither of the two calls *)
Definition other_event (ev : event) : Prop :=
  is_solver_call ev = false /\ is_switching_call ev = false.

(** ** The criteria and the number of states (lines 246-278) *)

Section Criteria.

(** A criterion is a tuple of the configuration, compared with [==]. *)
Context {criterion : Type} `{EqDecision criterion}.

(** [if dn_crit not in criteria: criteria.append(dn_crit)] *)
Definition add_criterion (criteria : list criterion) (dn_crit : criterion)
  : list criterion :=
  if bool_decide (dn_crit ∈ criteria) then criteria else criteria ++ [dn_crit].

(** Lines 247-255.  [domain_FI] is a dictionary from domain names to one
    list of criteria per state, with its keys in insertion order; the result
    is [criteria] and [domain_FI_filled]. *)
Definition extract_criteria (domain_FI : list (string * list (list criterion)))
  : list criterion * bool :=
  fold_left
    (fun '(criteria, filled) '(_, states) =>
       (fold_left (fun criteria state => fold_left add_criterion state criteria)
          states criteria,
        if bool_decide (states = []) then filled else true))
    domain_FI ([], false).

(** All criteria of the configuration, in the order the loops visit them *)
Definition configured_criteria (domain_FI : list (string * list (list criterion)))
  : list criterion :=
  concat (concat (snd <$> domain_FI)).

End Criteria.

(** Lines 276-278 *)
Definition number_of_states (ds : list domain) : nat :=
  fold_left (fun n d => Nat.max n (length (domain_density d))) ds 0%nat.

(** ** The total time written at the end (lines 1118-1124) *)

Module Float.

(** [x % y] on floats, for a positive [y] *)
Definition mod_ (x y : Q) : Q := x - y * inject_Z (Qfloor (x / y)).

(** [round(x)]: the nearest integer, a tie goes to the even one *)
Definition round (x : Q) : Z :=
  let f := Qfloor x in
  let rest := x - inject_Z f in
  if Qlt_le_dec rest (1 # 2) then f
  else if Qlt_le_dec (1 # 2) rest then (f + 1)%Z
  else if Z.even f then f else (f + 1)%Z.

End Float.

(** [total_time_h], [total_time_min] and [total_time_s] *)
Definition total_time_parts (total_time : Q) : Z * Z * Z :=
  (Py.int (total_time / 3600),
   Py.int (Float.mod_ total_time 3600 / 60),
   Float.round (Float.mod_ total_time 60)).

Definition total_time_line (total_time : Q) : string :=
  let '(h, min, s) := total_time_parts total_time in
  "Total time   " +:+ pretty h +:+ " h " +:+ pretty min +:+ " min " +:+ pretty s +:+ " s".

(** ** Preparation of the filters (lines 416-506) *)

(** [ft[1]]: a number or a string ("auto" asks for an automatic range) *)
Inductive range_value : Type :=
| range_number (q : Q)
| range_string (s : string).

Definition truthy_range (f : range_value) : bool :=
  match f with
  | range_number q => negb (Qeq_bool q 0)
  | range_string s => negb (String.eqb s "")
  end.

(** [f_range == "auto"] *)
Definition is_auto (f : range_value) : bool :=
  match f with
  | range_number _ => false
  | range_string s => String.eqb s "auto"
  end.

(** An entry of [filter_list] with the value of [ft[1]] *)
Record filter_entry : Type := {
  fe_kind : filter_kind;             (* ft[0] *)
  fe_range : range_value;            (* ft[1] *)
  fe_rest : list string              (* ft[2:] *)
}.

(** The entry as the loop sees it, where only the truth value of [ft[1]]
    counts *)
Definition entry_filter (e : filter_entry) : filter_t :=
  {| ft_kind := fe_kind e; ft_range := truthy_range (fe_range e);
     ft_rest := fe_rest e |}.

(** The calls of [beso_filters] made by the preparation, with the arguments
    that differ between calls, and the lines it writes to the log *)
Inductive prep_event : Type :=
| FindSizeElm
| CheckSameState (filtered_dn : list string)
| GetFilterRange (filtered_dn : list string)
| LogAutoRange (size_avg f_range : Q)
| LogSpatialSearch (kdtree : bool) (f_range : range_value)
| Prepare2sCasting (f_range : range_value) (domains_to_filter : list Z)
    (casting_vector : string)
| Prepare3TetraGrid (f_range : range_value) (domains_to_filter : list Z)
| Prepare1s (f_range : range_value) (domains_to_filter : list Z)
| Prepare2s (kdtree : bool) (f_range : range_value) (domains_to_filter : list Z)
| PrepareMorphology (f_range : range_value) (domains_to_filter : list Z).

(** The functions of [beso_filters] the preparation calls; each may raise.
    The structures they return are only stored. *)
Record filters_lib : Type := {
  find_size_elm : result unit;
  check_same_state : list string -> result unit;
  get_filter_range : list string -> result Q;
  prepare : prep_event -> result unit
}.

(** Statements of the preparation with their trace *)
Definition T (A : Type) : Type := (list prep_event * result A)%type.

Definition tret {A} (a : A) : T A := ([], Ok a).

Definition tbind {A B} (c : T A) (k : A -> T B) : T B :=
  match c with
  | (tr, Ok a) => let '(tr', r) := k a in (tr ++ tr', r)
  | (tr, Raise e) => (tr, Raise e)
  end.

Definition tell (ev : prep_event) : T unit := ([ev], Ok tt).

Definition tlift {A} (r : result A) : T A := ([], r).

Notation "'pr' x <- c1 ; c2" := (tbind c1 (fun x => c2))
  (at level 10, x pattern, c1 at level 100, c2 at level 200).

(** The variables of the preparation that decide what it does *)
Record prep_vars : Type := {
  size_elm_bound : bool;                  (* the name [size_elm] is bound *)
  filtered_dn : option (list string)      (* [None]: the name is not bound *)
}.

Section Preparation.

Variable lib : filters_lib.
Variable cfg : config.
Variable m : mesh.
Variable debug_mode : bool.
Variable use_kdtree : bool.

(** The keys of [domain_optimized] *)
Definition domain_names : list string := dn <$> domains_from_config cfg.

(** A call of a function of [beso_filters] *)
Definition call (ev : prep_event) : T unit :=
  pr _ <- tell ev; tlift (prepare lib ev).

Definition same_state (names : list string) : T unit :=
  pr _ <- tell (CheckSameState names); tlift (check_same_state lib names).

(** Lines 430-433: the element sizes are found once if some entry asks for
    an automatic range. *)
Definition find_sizes (entries : list filter_entry) : T bool :=
  if existsb (fun e => match fe_kind e with kind_falsy => false | _ => true end
                       && is_auto (fe_range e)) entries
  then pr _ <- tell FindSizeElm; pr _ <- tlift (find_size_elm lib); tret true
  else tret false.

(** Lines 449-455 and 470-475: the automatic range.  The arguments
    [size_elm] and [filtered_dn] of [get_filter_range] are names that may not
    be bound. *)
Definition auto_range (v : prep_vars) (f_range : range_value) : T range_value :=
  if is_auto f_range then
    pr _ <- tlift (if size_elm_bound v then Ok tt else Raise (NameError "size_elm"));
    pr names <- tlift (of_option (NameError "filtered_dn") (filtered_dn v));
    pr _ <- tell (GetFilterRange names);
    pr size_avg <- tlift (get_filter_range lib names);
    pr _ <- tell (LogAutoRange size_avg (size_avg * 2));
    tret (range_number (size_avg * 2))
  else tret f_range.

(** Lines 442-447 and 464-469: the elements and the names of the domains
    listed in [ft[3:]] *)
Definition listed_domains (v : prep_vars) (names : list string)
  : T (list Z * prep_vars) :=
  pr l <- tlift (domains_to_filter cfg m false names);
  pr _ <- same_state names;
  tret (l, {| size_elm_bound := size_elm_bound v; filtered_dn := Some names |}).

(** Lines 434-505: the body of the second loop over [filter_list] *)
Definition prepare_entry (e : filter_entry) (v : prep_vars) : T prep_vars :=
  match fe_kind e, truthy_range (fe_range e) with
  | kind_falsy, _ => tret v
  | _, false => tret v
  | kind_casting, true =>
      pr (l, v1) <-
        (if bool_decide (length (fe_rest e) = 1%nat) then
           pr _ <- same_state domain_names; tret (opt_domains m, v)
         else listed_domains v (tail (fe_rest e)));
      pr casting_vector <- tlift (of_option IndexError (head (fe_rest e)));
      pr f_range <- auto_range v1 (fe_range e);
      pr _ <- call (Prepare2sCasting f_range l casting_vector);
      tret v1
  | k, true =>
      pr (l, v1) <-
        (if bool_decide (length (fe_rest e) = 0%nat) then
           pr _ <- same_state domain_names;
           tret (opt_domains m,
                 {| size_elm_bound := size_elm_bound v;
                    filtered_dn := Some domain_names |})
         else listed_domains v (tail (fe_rest e)));
      pr f_range <- auto_range v1 (fe_range e);
      pr _ <-
        (match k with
         | kind_over_points =>
             pr _ <- same_state domain_names; call (Prepare3TetraGrid f_range l)
         | kind_over_nodes =>
             pr _ <- same_state domain_names; call (Prepare1s f_range l)
         | kind_simple =>
             pr _ <- (if debug_mode then tell (LogSpatialSearch use_kdtree f_range)
                      else tret tt);
             call (Prepare2s use_kdtree f_range l)
         | kind_blank => tlift (Raise IndexError)
         | kind_morphology _ _ => call (PrepareMorphology f_range l)
         | _ => tret tt
         end);
      tret v1
  end.

Fixpoint prepare_entries (entries : list filter_entry) (v : prep_vars) : T prep_vars :=
  match entries with
  | [] => tret v
  | e :: entries' => pr v' <- prepare_entry e v; prepare_entries entries' v'
  end.

(** Lines 429-505 *)
Definition prepare_filters (entries : list filter_entry) : T prep_vars :=
  pr bound <- find_sizes entries;
  prepare_entries entries {| size_elm_bound := bound; filtered_dn := None |}.

End Preparation.

(** The elements [domains_to_filter] passed to a preparing function *)
Definition prepared_elements (ev : prep_event) : option (list Z) :=
  match ev with
  | Prepare2sCasting _ l _ | Prepare3TetraGrid _ l | Prepare1s _ l
  | Prepare2s _ _ l | PrepareMorphology _ l => Some l
  | _ => None
  end.

(** ** Removal of the solver files of an iteration (lines 1039-1065) *)

(** [sub in s] on strings *)
Fixpoint contains (sub s : string) : bool :=
  String.prefix sub s
  || match s with
     | EmptyString => false
     | String _ s' => contains sub s'
     end.

(** The outcome of file operations *)
Inductive os_result (A : Type) : Type :=
| Removed (a : A)
| FileNotFoundError (path : string).
Arguments Removed {A} a.
Arguments FileNotFoundError {A} path.

Definition os_bind {A B} (r : os_result A) (k : A -> os_result B) : os_result B :=
  match r with
  | Removed a => k a
  | FileNotFoundError p => FileNotFoundError p
  end.

(** [os.remove(path)] on the set of the files that exist *)
Definition os_remove (path : string) (files : gset string) : os_result (gset string) :=
  if bool_decide (path ∈ files) then Removed (files ∖ {[path]})
  else FileNotFoundError path.

(** [try: os.remove(path) except FileNotFoundError: pass] *)
Definition os_remove_if_there (path : string) (files : gset string) : gset string :=
  files ∖ {[path]}.

(** [save_iteration_results and np.mod(float(i), save_iteration_results) == 0] *)
Definition on_schedule (save_iteration_results : Z) (i : Z) : bool :=
  negb (save_iteration_results =? 0)%Z && (i mod save_iteration_results =? 0)%Z.

(** [if ext not in save_solver_files: os.remove(file_nameW + "." + ext)] *)
Definition remove_unless_saved (save_solver_files file_nameW ext : string)
    (files : gset string) : os_result (gset string) :=
  if contains ext save_solver_files then Removed files
  else os_remove (file_nameW +:+ "." +:+ ext) files.

(** Lines 1039-1065, in the pass that has made iteration [i] out of
    iteration [i - 1]; [file_nameW] is the name of the files of iteration
    [i - 1]. *)
Definition remove_solver_files (save_iteration_results : Z)
    (save_solver_files file_nameW : string) (i : nat) (files : gset string)
  : os_result (gset string) :=
  if on_schedule save_iteration_results (Z.of_nat i - 1) then
    os_bind (remove_unless_saved save_solver_files file_nameW "inp" files) (fun f1 =>
    os_bind (remove_unless_saved save_solver_files file_nameW "dat" f1) (fun f2 =>
    os_bind (remove_unless_saved save_solver_files file_nameW "frd" f2) (fun f3 =>
    os_bind (remove_unless_saved save_solver_files file_nameW "sta" f3) (fun f4 =>
    os_bind (remove_unless_saved save_solver_files file_nameW "cvg" f4) (fun f5 =>
    Removed (if contains "12d" save_solver_files then f5
             else os_remove_if_there (file_nameW +:+ ".12d") f5))))))
  else
    os_bind (os_remove (file_nameW +:+ ".inp") files) (fun f1 =>
    os_bind (os_remove (file_nameW +:+ ".dat") f1) (fun f2 =>
    os_bind (os_remove (file_nameW +:+ ".frd") f2) (fun f3 =>
    os_bind (os_remove (file_nameW +:+ ".sta") f3) (fun f4 =>
    os_bind (os_remove (file_nameW +:+ ".cvg") f4) (fun f5 =>
    Removed (os_remove_if_there (file_nameW +:+ ".12d") f5)))))).

(** The extensions of the solver files that must be there to be removed *)
Definition solver_extensions : list string := ["inp"; "dat"; "frd"; "sta"; "cvg"].

(** Whether the file with the extension is kept by the removal *)
Definition kept (save_iteration_results : Z) (save_solver_files : string) (i : nat)
    (ext : string) : bool :=
  on_schedule save_iteration_results (Z.of_nat i - 1) && contains ext save_solver_files.

(** ** Time measurement for debugging (lines 27-167) *)

(** Python dictionaries with their keys in insertion order *)
Section Dict.

Context {K V : Type} `{EqDecision K}.

(** [d[k]], if the key is there *)
Definition dict_get (k : K) (d : list (K * V)) : option V :=
  snd <$> List.find (fun p => bool_decide (fst p = k)) d.

(** [d[k] = v]: a key that is there keeps its place *)
Fixpoint dict_set (k : K) (v : V) (d : list (K * V)) : list (K * V) :=
  match d with
  | [] => [(k, v)]
  | (k', v') :: d' =>
      if bool_decide (k' = k) then (k, v) :: d' else (k', v') :: dict_set k v d'
  end.

End Dict.

(** [sorted(l)] for an order given by [le]: elements that compare equal keep
    their order *)
Fixpoint insert_sorted {A} (le : A -> A -> bool) (x : A) (l : list A) : list A :=
  match l with
  | [] => [x]
  | y :: l' => if le x y then x :: y :: l' else y :: insert_sorted le x l'
  end.

Definition sorted {A} (le : A -> A -> bool) (l : list A) : list A :=
  foldr (insert_sorted le) [] l.

(** The module variables [timing_data], [total_timing] and
    [current_iteration] *)
Record timing : Type := {
  timing_data : list (Z * list (string * Q));
  total_timing : list (string * Q);
  current_iteration : option Z
}.

(** The texts written for debugging, kept as their parts (the numbers are
    formatted with 4 and 1 decimals in the text) *)
Inductive debug_text : Type :=
| StepTook (iteration : option Z) (step_name : string) (duration : Q)
| IterationSummary (iteration : Z) (rows : list (string * Q * Q)) (total : Q)
    (* a row: step, duration, percentage *)
| PerformanceSummary (iterations : nat) (rows : list (string * Q * Q * bool))
    (hints : list string) (many_iterations : bool).
    (* a row: step, duration, percentage, marked SIGNIFICANT *)

Inductive debug_output : Type :=
| Printed (text : debug_text)         (* print(msg) *)
| Logged (text : debug_text)          (* beso_lib.write_to_log(file_name, msg) *)
| PrintedLogError.                    (* the print of an except clause *)

Section Debug.

(** The global [file_name]; [None] when it is not a string *)
Variable file_name : option string.
(** [beso_lib.write_to_log] *)
Variable write_to_log : string -> debug_text -> result unit.

(** Lines 68-79, 103-112 and 158-167: every exception is caught and
    printed. *)
Definition log_debug (text : debug_text) : list debug_output :=
  match file_name with
  | Some name =>
      if String.eqb name "" then [PrintedLogError]
      else match write_to_log name text with
           | Ok _ => [Logged text]
           | Raise _ => [PrintedLogError]
           end
  | None => [PrintedLogError]
  end.

(** [log_time(step_name, start_t, debug_flag, iteration)], with the value
    [end_t] of [time.time()]: returns [end_t] *)
Definition log_time (step_name : string) (start_t : Q) (debug_flag : bool)
    (iteration : option Z) (end_t : Q) (t : timing)
  : Q * timing * list debug_output :=
  let duration := end_t - start_t in
  let t1 :=
    match iteration with
    | Some it =>
        let steps := default [] (dict_get it (timing_data t)) in
        {| timing_data := dict_set it (dict_set step_name duration steps) (timing_data t);
           total_timing := total_timing t;
           current_iteration := Some it |}
    | None => t
    end in
  let total := default 0 (dict_get step_name (total_timing t1)) in
  let t2 :=
    {| timing_data := timing_data t1;
       total_timing := dict_set step_name (total + duration) (total_timing t1);
       current_iteration := current_iteration t1 |} in
  if debug_flag then
    let text := StepTook iteration step_name duration in
    (end_t, t2, Printed text :: log_debug text)
  else (end_t, t2, []).

(** [sum(d.values())] *)
Definition sum_values {K} (d : list (K * Q)) : Q := fold_left Qplus (snd <$> d) 0.

(** [sorted(d.items())]: by step name *)
Definition by_step (d : list (string * Q)) : list (string * Q) :=
  sorted (fun p q => String.leb (fst p) (fst q)) d.

(** [sorted(d.items(), key=lambda x: x[1], reverse=True)] *)
Definition by_duration (d : list (string * Q)) : list (string * Q) :=
  sorted (fun p q => Qle_bool (snd q) (snd p)) d.

(** [log_iteration_summary(iteration, debug_flag)] *)
Definition log_iteration_summary (iteration : Z) (debug_flag : bool) (t : timing)
  : result (list debug_output) :=
  match debug_flag, dict_get iteration (timing_data t) with
  | true, Some steps =>
      let total_iter_time := sum_values steps in
      do rows <- Py.for_each (by_step steps)
        (fun '(step, duration) rows =>
           do share <- Py.div duration total_iter_time;
           Ok (rows ++ [(step, duration, share * 100)])) [];
      let text := IterationSummary iteration rows total_iter_time in
      Ok (Printed text :: log_debug text)
  | _, _ => Ok []
  end.

Definition hint_filtering : string :=
  "Consider enabling use_vectorized_filters and use_kdtree for better filtering performance".

Definition hint_cpu_cores : string :=
  "Consider increasing cpu_cores for faster FEA calculations".

(** [log_total_summary(debug_flag)] *)
Definition log_total_summary (debug_flag : bool) (t : timing) : list debug_output :=
  if debug_flag then
    let total_time := sum_values (total_timing t) in
    if Qeq_bool total_time 0 then []
    else
      let sorted_timings := by_duration (total_timing t) in
      let rows :=
        (fun '(step, duration) =>
           let percentage := duration / total_time * 100 in
           (step, duration, percentage, Py.lt 10 percentage)) <$> sorted_timings in
      let hints :=
        omap (fun '(step, duration) =>
                if contains "Filtering" step && Py.lt 10 duration
                then Some hint_filtering
                else if contains "CalculiX Execution" step && Py.lt 60 duration
                then Some hint_cpu_cores
                else None)
             (take 3 sorted_timings) in
      let text :=
        PerformanceSummary (length (timing_data t)) rows hints
          (50 <? length (timing_data t))%nat in
      Printed text :: log_debug text
  else [].

End Debug.

(** ** The material data of the configuration generator
    ([beso_gui_config.process_material_data]) *)

(** The values read by [process_material_data] *)
Record material_data : Type := {
  md_modulus : Q;
  md_poisson : Q;
  md_density : Q;
  md_conductivity : Q;
  md_expansion : Q;
  md_specific_heat : Q
}.

Section Material.

(** [float(s)]; [None] when the text is not a number *)
Variable float : string -> option Q.
(** [material_obj.Name] *)
Variable Name : string.
(** [material_obj.Material], every value given by the parts [value.split()]
    of its text *)
Variable Material : gmap string (list string).

(** [material_obj.Material[key].split()[n]] *)
Definition material_part (key : string) (n : nat) : result string :=
  do parts <- of_option KeyError (Material !! key);
  of_option IndexError (parts !! n).

(** [float(material_obj.Material[key].split()[0])] *)
Definition material_value (key : string) : result Q :=
  do text <- material_part key 0;
  of_option ValueError (float text).

Definition unit_not_recognised : exn :=
  Exception (" 単位が認識できません: " +:+ Name).

(** [try: ... except KeyError: data[...] = 0.] *)
Definition except_KeyError (r : result Q) : result Q :=
  match r with
  | Raise KeyError => Ok 0
  | _ => r
  end.

(** Lines 39-46 *)
Definition material_modulus : result Q :=
  do unit <- material_part "YoungsModulus" 1;
  if String.eqb unit "MPa" then material_value "YoungsModulus"
  else
    do unit <- material_part "YoungsModulus" 1;
    if String.eqb unit "GPa" then
      do x <- material_value "YoungsModulus"; Ok (x * 1000)
    else
      do unit <- material_part "YoungsModulus" 1;
      if String.eqb unit "kg/(mm*s^2)" then
        do x <- material_value "YoungsModulus"; Ok (x / 1000)
      else Raise unit_not_recognised.

(** Lines 52-60 *)
Definition material_density : result Q :=
  except_KeyError
    (do unit <- material_part "Density" 1;
     if negb (bool_decide (unit ∈ ["kg/m^3"; "kg/m3"])) then
       do x <- material_value "Density"; Ok (x * (1 # 1000000000000))
     else
       do unit <- material_part "Density" 1;
       if String.eqb unit "kg/mm^3" then
         do x <- material_value "Density"; Ok (x / 1000)
       else Raise unit_not_recognised).

(** Lines 63-71 *)
Definition material_conductivity : result Q :=
  except_KeyError
    (do unit <- material_part "ThermalConductivity" 1;
     if String.eqb unit "W/m/K" then material_value "ThermalConductivity"
     else
       do unit <- material_part "ThermalConductivity" 1;
       if String.eqb unit "mm*kg/(s^3*K)" then
         do x <- material_value "ThermalConductivity"; Ok (x / 1000)
       else Raise unit_not_recognised).

(** Lines 74-82 *)
Definition material_expansion : result Q :=
  except_KeyError
    (do unit <- material_part "ThermalExpansionCoefficient" 1;
     if bool_decide (unit ∈ ["um/m/K"; "µm/m/K"]) then
       do x <- material_value "ThermalExpansionCoefficient"; Ok (x * (1 # 1000000))
     else
       do unit <- material_part "ThermalExpansionCoefficient" 1;
       if bool_decide (unit ∈ ["m/m/K"; "1/K"]) then
         material_value "ThermalExpansionCoefficient"
       else Raise unit_not_recognised).

(** Lines 85-95 *)
Definition material_specific_heat : result Q :=
  except_KeyError
    (do unit <- material_part "SpecificHeat" 1;
     if String.eqb unit "J/kg/K" then
       do x <- material_value "SpecificHeat"; Ok (x * 1000000)
     else
       do unit <- material_part "SpecificHeat" 1;
       if String.eqb unit "kJ/kg/K" then
         do x <- material_value "SpecificHeat"; Ok (x * 1000000000)
       else
         do unit <- material_part "SpecificHeat" 1;
         if bool_decide (unit ∈ ["mm^2/s^2/K"; "mm^2/(s^2*K)"]) then
           material_value "SpecificHeat"
         else Raise unit_not_recognised).

(** [process_material_data(material_obj)] *)
Definition process_material_data : result material_data :=
  do modulus <- material_modulus;
  do poisson <- material_value "PoissonRatio";
  do density <- material_density;
  do conductivity <- material_conductivity;
  do expansion <- material_expansion;
  do specific_heat <- material_specific_heat;
  Ok {| md_modulus := modulus; md_poisson := poisson; md_density := density;
        md_conductivity := conductivity; md_expansion := expansion;
        md_specific_heat := specific_heat |}.

End Material.

(** ** Further small models used in the examples *)

Module Cases.

(** A domain that is not optimised *)
Definition fixed : domain :=
  {| dn := "Fixed"; domain_optimized := false;
     domain_density := [1]; domain_thickness := [];
     domain_same_state := false;
     domains := [1; 2]%Z; domain_shells := []; domain_volumes := [1; 2]%Z |}.

(** A configuration with the settings that the examples vary *)
Definition conf_of (ds : list domain) (filled : bool) (base : optimization_base_t)
    (rt : ratio_type_t) (removal addition : Q) (lim : iterations_limit_t)
    (averaging : bool) : config :=
  {| domains_from_config := ds; domain_FI_filled := filled;
     mass_goal_ratio := 4 # 10; continue_from := cf_str "";
     filter_list := []; optimization_base := base;
     FI_violated_tolerance := 1; reference_points := integration_points;
     sensitivity_averaging := averaging;
     mass_addition_ratio := addition; mass_removal_ratio := removal;
     ratio_type := rt; compensate_state_filter := false;
     decay_coefficient := - (2 # 10);
     iterations_limit := lim; tolerance := 1 # 1000 |}.

(** A solver with a rising mean energy density and designs that go round *)
Definition solver : environment :=
  Demo.environment_of (fun _ => 0%Z) (fun i => 5 + inject_Z (Z.of_nat i))
    Demo.round true.

(** Results with one load step: energy densities 5 and 7, no failure
    indices *)
Definition results_energy : results :=
  {| FI_step := [∅];
     energy_density_step := [<[1%Z := 5]> (<[2%Z := 7]> ∅)];
     buckling_factors := []; energy_density_eigen := []; heat_flux := ∅ |}.

(** A solver whose results hold energy densities and no failure indices *)
Definition energy_only : environment :=
  {| calculix := fun _ _ => Ok 0%Z;
     import_FI_int_pt := fun _ _ =>
       Ok {| FI_step := [];
             energy_density_step := [<[1%Z := 5]> (<[2%Z := 7]> ∅)];
             buckling_factors := []; energy_density_eigen := []; heat_flux := ∅ |};
     import_FI_node := fun _ _ => Ok [];
     run_filter := fun _ _ _ sens => Ok sens;
     switching := fun a =>
       Ok {| sw_argument := sa_elm_states a; sw_returned := None;
             sw_mass := sa_mass a ++ [Demo.mass_of (sa_elm_states a)] |};
     run_morphology := fun _ _ _ es _ => Ok es |}.

(** The functions of [beso_filters] when all of them succeed *)
Definition filters : filters_lib :=
  {| find_size_elm := Ok tt;
     check_same_state := fun _ => Ok tt;
     get_filter_range := fun _ => Ok 3;
     prepare := fun _ => Ok tt |}.

(** [["simple", 2, "SolidMaterialSolid", "ShellMaterialThickness"]] *)
Definition simple_filter : filter_entry :=
  {| fe_kind := kind_simple; fe_range := range_number 2;
     fe_rest := ["SolidMaterialSolid"; "ShellMaterialThickness"] |}.

(** [["casting", "auto", (0, 0, 1)]] *)
Definition casting_filter : filter_entry :=
  {| fe_kind := kind_casting; fe_range := range_string "auto";
     fe_rest := ["(0, 0, 1)"] |}.

(** [[0, 2]]: an entry that is switched off *)
Definition no_filter : filter_entry :=
  {| fe_kind := kind_falsy; fe_range := range_number 2; fe_rest := [] |}.

Definition unbound : prep_vars :=
  {| size_elm_bound := false; filtered_dn := None |}.

(** The time records after the steps of one iteration *)
Definition records : timing :=
  {| timing_data := [(0%Z, [("Sensitivity"%string, 1); ("CalculiX Execution"%string, 3)])];
     total_timing := [("Sensitivity"%string, 1); ("CalculiX Execution"%string, 3)];
     current_iteration := Some 0%Z |}.

End Cases.

(** * Properties *)

(** ** Element states at initialisation *)

Lemma set_states_lookup_in (sn : Z) (ens : list Z) (es : gmap Z Z) (en : Z) :
  en ∈ ens -> set_states sn ens es !! en = Some sn.
Proof.
  unfold set_states. revert es.
  induction ens as [|e ens IH]; intros es Hin; simpl.
  - by apply elem_of_nil in Hin.
  - destruct (decide (en ∈ ens)) as [Hin'|Hnot]; [by apply IH|].
    apply elem_of_cons in Hin as [->|Hin]; [|done].
    clear IH. revert es.
    induction ens as [|e' ens IH]; intros es; simpl.
    + apply lookup_insert_eq.
    + apply not_elem_of_cons in Hnot as [Hne Hnot].
      rewrite insert_insert_ne by done. by apply IH.
Qed.

Lemma set_states_lookup_notin (sn : Z) (ens : list Z) (es : gmap Z Z) (en : Z) :
  en ∉ ens -> set_states sn ens es !! en = es !! en.
Proof.
  unfold set_states. revert es.
  induction ens as [|e ens IH]; intros es Hnot; simpl; [done|].
  apply not_elem_of_cons in Hnot as [Hne Hnot].
  rewrite IH by done. by apply lookup_insert_ne.
Qed.

Lemma init_from_int_eq (n : Z) (ds : list domain) :
  init_from_int n ds = fold_left (init_step n) ds (∅, []).
Proof. reflexivity. Qed.

Lemma continue_state_eq (n : Z) (d : domain) :
  continue_state n d =
  (Z.min n (highest d), if (highest d <? n)%Z then [INFO_highest_state d] else []).
Proof.
  unfold continue_state.
  destruct (Z.ltb_spec (highest d) n); f_equal; lia.
Qed.

Lemma init_fold_trace (n : Z) (ds : list domain) (es : gmap Z Z) (tr : list event) :
  snd (fold_left (init_step n) ds (es, tr)) = tr ++ clamped_events n ds.
Proof.
  revert es tr. induction ds as [|d ds IH]; intros es tr; simpl.
  - unfold clamped_events. simpl. by rewrite app_nil_r.
  - rewrite continue_state_eq. rewrite IH.
    unfold clamped_events. simpl. by rewrite app_assoc.
Qed.

Lemma init_fold_untouched (n : Z) (ds : list domain) (es : gmap Z Z)
    (tr : list event) (en : Z) :
  (forall d, d ∈ ds -> en ∉ domains d) ->
  fst (fold_left (init_step n) ds (es, tr)) !! en = es !! en.
Proof.
  revert es tr. induction ds as [|d ds IH]; intros es tr Hnot; simpl; [done|].
  rewrite continue_state_eq. rewrite IH.
  - apply set_states_lookup_notin, Hnot. apply elem_of_cons; by left.
  - intros d' Hd'. apply Hnot. apply elem_of_cons; by right.
Qed.

Lemma init_fold_last_wins (n : Z) (ds1 ds2 : list domain) (d : domain) (en : Z) :
  en ∈ domains d ->
  (forall d', d' ∈ ds2 -> en ∉ domains d') ->
  fst (init_from_int n (ds1 ++ d :: ds2)) !! en = Some (Z.min n (highest d)).
Proof.
  intros Hin Hlater. rewrite init_from_int_eq, fold_left_app. simpl.
  destruct (fold_left (init_step n) ds1 (∅, [])) as [es tr]. simpl.
  rewrite continue_state_eq, init_fold_untouched by done.
  by apply set_states_lookup_in.
Qed.

(** C10.  When [continue_from] is an integer [n], initialisation succeeds
    and every element of a configured domain (for an element listed in
    several domains: of the last of them) gets the state [min n (number of
    states of the domain - 1)].  The log has one INFO line for each domain
    whose highest state is below [n], in the order of the domains, and
    nothing else.  For [n >= 0] and a domain with at least one state the
    state given is a valid index of the domain's states. *)
Theorem continue_from_int_clamps_to_highest_state
    (imp : state_importers) (cfg : config) (n : Z)
    (ds1 ds2 : list domain) (d : domain) (en : Z) :
  continue_from cfg = cf_int n ->
  domains_from_config cfg = ds1 ++ d :: ds2 ->
  en ∈ domains d ->
  (forall d', d' ∈ ds2 -> en ∉ domains d') ->
  exists es : gmap Z Z,
    init_elm_states imp cfg = (clamped_events n (domains_from_config cfg), Ok es)
    /\ es !! en = Some (Z.min n (Z.of_nat (length (domain_density d)) - 1))
    /\ ((0 <= n)%Z -> (1 <= length (domain_density d))%nat ->
        (0 <= Z.min n (Z.of_nat (length (domain_density d)) - 1)
           < Z.of_nat (length (domain_density d)))%Z).
Proof.
  intros Hcf Hds Hin Hlater.
  exists (fst (init_from_int n (domains_from_config cfg))).
  split; [|split].
  - unfold init_elm_states. rewrite Hcf.
    pose proof (init_fold_trace n (domains_from_config cfg) ∅ []) as Htr.
    rewrite <- init_from_int_eq in Htr.
    destruct (init_from_int n (domains_from_config cfg)) as [es tr].
    simpl in *. by rewrite Htr.
  - rewrite Hds. by apply init_fold_last_wins.
  - lia.
Qed.

(** ** The automatic iteration limit in exact arithmetic *)

Lemma after_steps_comp (q m1 m2 : Q) (n : nat) :
  m1 == m2 -> after_steps q m1 n == after_steps q m2 n.
Proof.
  revert m1 m2. induction n as [|n IH]; intros m1 m2 H; simpl; [done|].
  apply IH. by rewrite H.
Qed.

Lemma while_removing_complete (r goal : Q) (n : nat) :
  forall (fuel : nat) (m : Q) (it : Z),
    (n < fuel)%nat ->
    steps_down (1 - r) m goal n ->
    while_removing fuel m goal r it = Some (it + Z.of_nat n)%Z.
Proof.
  induction n as [|n IH]; intros fuel m it Hfuel [Hle Hlt].
  - destruct fuel as [|fuel]; [lia|]. simpl in *.
    destruct (Qlt_le_dec goal m) as [Hgt|_]; [lra|]. f_equal; lia.
  - destruct fuel as [|fuel]; [lia|]. simpl.
    destruct (Qlt_le_dec goal m) as [_|Hno].
    + rewrite IH; [f_equal; lia|lia|].
      assert (Heq : m - m * r == m * (1 - r)) by ring.
      split.
      * rewrite (after_steps_comp _ _ _ n Heq). exact Hle.
      * intros k Hk. rewrite (after_steps_comp _ _ _ k Heq).
        apply (Hlt (S k)). lia.
    + specialize (Hlt O ltac:(lia)). simpl in Hlt. lra.
Qed.

Lemma while_removing_sound (r goal : Q) :
  forall (fuel : nat) (m : Q) (it it' : Z),
    while_removing fuel m goal r it = Some it' ->
    exists n : nat, it' = (it + Z.of_nat n)%Z /\ (n < fuel)%nat
                    /\ steps_down (1 - r) m goal n.
Proof.
  induction fuel as [|fuel IH]; intros m it it' H; simpl in H; [done|].
  destruct (Qlt_le_dec goal m) as [Hgt|Hle].
  - apply IH in H as (n & -> & Hn & Hle & Hlt).
    assert (Heq : m * (1 - r) == m - m * r) by ring.
    exists (S n). split; [lia|]. split; [lia|]. split; simpl.
    + rewrite (after_steps_comp _ _ _ n Heq). exact Hle.
    + intros [|k] Hk; simpl; [done|].
      rewrite (after_steps_comp _ _ _ k Heq). apply Hlt. lia.
  - inversion H; subst. exists O. split; [lia|]. split; [lia|].
    split; simpl; [done|]. intros k Hk. lia.
Qed.

Lemma while_removing_within (r goal : Q) (N : nat) :
  0 < r -> 0 < goal ->
  forall (m : Q) (it : Z),
    m <= goal * (1 + inject_Z (Z.of_nat N) * r) ->
    exists it', while_removing (S N) m goal r it = Some it'.
Proof.
  intros Hr Hgoal. induction N as [|N IH]; intros m it Hm.
  - change (inject_Z (Z.of_nat 0)) with 0 in Hm.
    assert (Hg : goal * (1 + 0 * r) == goal) by ring.
    rewrite Hg in Hm. simpl.
    destruct (Qlt_le_dec goal m) as [Hgt|_]; [lra|eauto].
  - cbn [while_removing].
    destruct (Qlt_le_dec goal m) as [Hgt|_]; [|eauto].
    apply IH.
    rewrite Nat2Z.inj_succ in Hm. unfold Z.succ in Hm.
    rewrite inject_Z_plus in Hm. change (inject_Z 1) with 1 in Hm.
    set (x := inject_Z (Z.of_nat N)) in *.
    assert (Hx : 0 <= x) by (unfold x; change 0 with (inject_Z 0);
                             rewrite <- Zle_Qle; lia).
    assert (H1 : 0 <= goal * (x * r))
      by (apply Qmult_le_0_compat; [lra|apply Qmult_le_0_compat; lra]).
    destruct (Qlt_le_dec 1 r) as [Hbig|Hsmall].
    + assert (H2 : 0 <= m * (r - 1)) by (apply Qmult_le_0_compat; lra).
      lra.
    + assert (H3 : 0 <= (goal * (1 + (x + 1) * r) - m) * (1 - r))
        by (apply Qmult_le_0_compat; lra).
      assert (H4 : 0 <= goal * ((x + 1) * (r * r))).
      { apply Qmult_le_0_compat; [lra|].
        apply Qmult_le_0_compat; [lra|]. apply Qmult_le_0_compat; lra. }
      lra.
Qed.

Lemma nat_above (x : Q) : exists N : nat, x <= inject_Z (Z.of_nat N).
Proof.
  exists (Z.to_nat (Qceiling x)).
  pose proof (Qle_ceiling x) as H.
  destruct (Z.le_gt_cases 0 (Qceiling x)) as [Hpos|Hneg].
  - by rewrite Z2Nat.id.
  - rewrite Z2Nat.nonpos by lia.
    assert (H0 : inject_Z (Qceiling x) <= inject_Z 0) by (rewrite <- Zle_Qle; lia).
    change (inject_Z (Z.of_nat 0)) with 0. change (inject_Z 0) with 0 in H0. lra.
Qed.

Lemma while_removing_terminates (r goal m : Q) (it : Z) :
  0 < r -> 0 < goal ->
  exists (fuel : nat) (it' : Z), while_removing fuel m goal r it = Some it'.
Proof.
  intros Hr Hgoal.
  destruct (nat_above (m / (goal * r))) as [N HN].
  exists (S N). apply while_removing_within; [done..|].
  assert (Hgr : 0 < goal * r) by nra.
  assert (m == (m / (goal * r)) * (goal * r)) as Hm by (field; lra).
  rewrite Hm at 1.
  assert ((m / (goal * r)) * (goal * r) <= inject_Z (Z.of_nat N) * (goal * r))
    by (apply Qmult_le_compat_r; lra).
  nra.
Qed.

Lemma while_adding_complete (a goal : Q) (n : nat) :
  forall (fuel : nat) (m : Q) (it : Z),
    (n < fuel)%nat ->
    steps_up (1 + a) m goal n ->
    while_adding fuel m goal a it = Some (it + Z.of_nat n)%Z.
Proof.
  induction n as [|n IH]; intros fuel m it Hfuel [Hle Hlt].
  - destruct fuel as [|fuel]; [lia|]. simpl in *.
    destruct (Qlt_le_dec m goal) as [Hgt|_]; [lra|]. f_equal; lia.
  - destruct fuel as [|fuel]; [lia|]. simpl.
    destruct (Qlt_le_dec m goal) as [_|Hno].
    + rewrite IH; [f_equal; lia|lia|].
      assert (Heq : m + m * a == m * (1 + a)) by ring.
      split.
      * rewrite (after_steps_comp _ _ _ n Heq). exact Hle.
      * intros k Hk. rewrite (after_steps_comp _ _ _ k Heq).
        apply (Hlt (S k)). lia.
    + specialize (Hlt O ltac:(lia)). simpl in Hlt. lra.
Qed.

Lemma while_adding_sound (a goal : Q) :
  forall (fuel : nat) (m : Q) (it it' : Z),
    while_adding fuel m goal a it = Some it' ->
    exists n : nat, it' = (it + Z.of_nat n)%Z /\ (n < fuel)%nat
                    /\ steps_up (1 + a) m goal n.
Proof.
  induction fuel as [|fuel IH]; intros m it it' H; simpl in H; [done|].
  destruct (Qlt_le_dec m goal) as [Hgt|Hle].
  - apply IH in H as (n & -> & Hn & Hle & Hlt).
    assert (Heq : m * (1 + a) == m + m * a) by ring.
    exists (S n). split; [lia|]. split; [lia|]. split; simpl.
    + rewrite (after_steps_comp _ _ _ n Heq). exact Hle.
    + intros [|k] Hk; simpl; [done|].
      rewrite (after_steps_comp _ _ _ k Heq). apply Hlt. lia.
  - inversion H; subst. exists O. split; [lia|]. split; [lia|].
    split; simpl; [done|]. intros k Hk. lia.
Qed.

Lemma while_adding_within (a goal : Q) (N : nat) :
  0 < a ->
  forall (m : Q) (it : Z),
    0 < m ->
    goal <= m * (1 + inject_Z (Z.of_nat N) * a) ->
    exists it', while_adding (S N) m goal a it = Some it'.
Proof.
  intros Ha. induction N as [|N IH]; intros m it Hpos Hm.
  - change (inject_Z (Z.of_nat 0)) with 0 in Hm.
    assert (Hg : m * (1 + 0 * a) == m) by ring.
    rewrite Hg in Hm. simpl.
    destruct (Qlt_le_dec m goal) as [Hgt|_]; [lra|eauto].
  - cbn [while_adding].
    destruct (Qlt_le_dec m goal) as [Hgt|_]; [|eauto].
    assert (Hma : 0 < m * a) by (apply Qmult_lt_0_compat; lra).
    apply IH; [lra|].
    rewrite Nat2Z.inj_succ in Hm. unfold Z.succ in Hm.
    rewrite inject_Z_plus in Hm. change (inject_Z 1) with 1 in Hm.
    set (x := inject_Z (Z.of_nat N)) in *.
    assert (Hx : 0 <= x) by (unfold x; change 0 with (inject_Z 0);
                             rewrite <- Zle_Qle; lia).
    assert (H1 : 0 <= (m * a) * (x * a))
      by (apply Qmult_le_0_compat; [lra|apply Qmult_le_0_compat; lra]).
    lra.
Qed.

Lemma while_adding_terminates (a goal m : Q) (it : Z) :
  0 < a -> 0 < m ->
  exists (fuel : nat) (it' : Z), while_adding fuel m goal a it = Some it'.
Proof.
  intros Ha Hm.
  destruct (nat_above (goal / (m * a))) as [N HN].
  exists (S N). apply while_adding_within; [done..|].
  assert (Hma : 0 < m * a) by (apply Qmult_lt_0_compat; lra).
  assert (goal == (goal / (m * a)) * (m * a)) as Hg by (field; lra).
  rewrite Hg at 1.
  assert ((goal / (m * a)) * (m * a) <= inject_Z (Z.of_nat N) * (m * a))
    by (apply Qmult_le_compat_r; lra).
  lra.
Qed.

Lemma Qfloor_plus_Z (x : Q) (z : Z) : Qfloor (x + inject_Z z) = (Qfloor x + z)%Z.
Proof.
  pose proof (Qfloor_le x) as Hlo. pose proof (Qlt_floor x) as Hhi.
  pose proof (Qfloor_le (x + inject_Z z)) as Hlo'.
  pose proof (Qlt_floor (x + inject_Z z)) as Hhi'.
  rewrite inject_Z_plus in Hhi, Hhi'. change (inject_Z 1) with 1 in *.
  assert (H1 : inject_Z (Qfloor x + z) < inject_Z (Qfloor (x + inject_Z z) + 1)).
  { rewrite !inject_Z_plus. change (inject_Z 1) with 1. lra. }
  assert (H2 : inject_Z (Qfloor (x + inject_Z z)) < inject_Z (Qfloor x + z + 1)).
  { rewrite !inject_Z_plus. change (inject_Z 1) with 1. lra. }
  rewrite <- Zlt_Qlt in H1, H2. lia.
Qed.

Lemma int_plus_25 (x : Q) : 0 <= x -> Py.int (x + 25) = (Qfloor x + 25)%Z.
Proof.
  intros Hx. unfold Py.int.
  destruct (Qlt_le_dec (x + 25) 0) as [Hneg|_]; [lra|].
  change 25 with (inject_Z 25). apply Qfloor_plus_Z.
Qed.

Lemma div_nonzero (a b : Q) : ~ b == 0 -> Py.div a b = Ok (a / b).
Proof.
  intros Hb. unfold Py.div.
  destruct (Qeq_bool b 0) eqn:E; [|done].
  by apply Qeq_bool_iff in E.
Qed.

(** The block in exact arithmetic, as the run is embedded.  For relative
    ratios the count of the geometric steps [m -> m * (1 - r)] (net removal
    [r > 0]) until the fraction is at or below the goal, or
    [m -> m * (1 + a)] (net addition [a > 0]) until it is at or above the
    goal, exists and the while loop finds it; for absolute ratios the limit
    is the integer part of the quotient plus 25.  The doubles of the script
    can give a limit that differs by one from this number. *)
Theorem automatic_iterations_limit (cfg : config) (mass0 mass_full : Q) :
  iterations_limit cfg = auto ->
  ~ mass_full == 0 ->
  let m := mass0 / mass_full in
  let goal := mass_goal_ratio cfg in
  let r := mass_removal_ratio cfg - mass_addition_ratio cfg in
  let a := mass_addition_ratio cfg - mass_removal_ratio cfg in
  (ratio_type cfg = relative -> 0 < r -> 0 < goal ->
   exists n : nat,
     steps_down (1 - r) m goal n /\
     forall fuel, (n < fuel)%nat ->
       auto_iterations_limit fuel cfg mass0 mass_full
       = Ok (Some (limit (Z.of_nat n + 25))))
  /\ (ratio_type cfg = relative -> 0 < a -> 0 < m ->
      exists n : nat,
        steps_up (1 + a) m goal n /\
        forall fuel, (n < fuel)%nat ->
          auto_iterations_limit fuel cfg mass0 mass_full
          = Ok (Some (limit (Z.of_nat n + 25))))
  /\ (ratio_type cfg = absolute -> 0 < r ->
      forall fuel,
        auto_iterations_limit fuel cfg mass0 mass_full
        = Ok (Some (limit (Py.int ((m - goal) / r + 25))))
        /\ (goal <= m ->
            Py.int ((m - goal) / r + 25) = (linear_steps m goal r + 25)%Z))
  /\ (ratio_type cfg = absolute -> 0 < a ->
      forall fuel,
        auto_iterations_limit fuel cfg mass0 mass_full
        = Ok (Some (limit (Py.int ((goal - m) / a + 25))))
        /\ (m <= goal ->
            Py.int ((goal - m) / a + 25) = (linear_steps goal m a + 25)%Z)).
Proof.
  intros Hauto Hfull m goal r a.
  assert (Hdiv : Py.div mass0 mass_full = Ok m) by by apply div_nonzero.
  repeat split.
  - intros Hrel Hr Hgoal.
    destruct (while_removing_terminates r goal m 0 Hr Hgoal) as (fuel0 & it' & Hrun).
    destruct (while_removing_sound _ _ _ _ _ _ Hrun) as (n & -> & Hn & Hsteps).
    exists n. split; [done|]. intros fuel Hfuel.
    unfold auto_iterations_limit. rewrite Hauto, Hdiv. simpl. rewrite Hrel.
    fold r. destruct (Qlt_le_dec 0 r) as [_|Hno]; [|lra].
    fold goal. by rewrite (while_removing_complete r goal n fuel m 0 Hfuel Hsteps).
  - intros Hrel Ha Hm.
    destruct (while_adding_terminates a goal m 0 Ha Hm) as (fuel0 & it' & Hrun).
    destruct (while_adding_sound _ _ _ _ _ _ Hrun) as (n & -> & Hn & Hsteps).
    exists n. split; [done|]. intros fuel Hfuel.
    unfold auto_iterations_limit. rewrite Hauto, Hdiv. simpl. rewrite Hrel.
    fold r a. destruct (Qlt_le_dec 0 r) as [Hyes|_]; [unfold r, a in *; lra|].
    fold goal. by rewrite (while_adding_complete a goal n fuel m 0 Hfuel Hsteps).
  - unfold auto_iterations_limit. rewrite Hauto, Hdiv. simpl. rewrite H.
    fold r. destruct (Qlt_le_dec 0 r) as [_|Hno]; [done|lra].
  - intros Hge. unfold linear_steps. apply int_plus_25.
    assert (0 <= (m - goal) * / r); [|done].
    apply Qmult_le_0_compat; [lra|]. apply Qlt_le_weak, Qinv_lt_0_compat. done.
  - unfold auto_iterations_limit. rewrite Hauto, Hdiv. simpl. rewrite H.
    fold r a. destruct (Qlt_le_dec 0 r) as [Hyes|_]; [unfold r, a in *; lra|].
    destruct (Qlt_le_dec r 0) as [_|Hno]; [done|unfold r, a in *; lra].
  - intros Hge. unfold linear_steps. apply int_plus_25.
    assert (0 <= (goal - m) * / a); [|done].
    apply Qmult_le_0_compat; [lra|]. apply Qlt_le_weak, Qinv_lt_0_compat. done.
Qed.

(** ** Basic facts about the Python operations and the two monads *)

#[local] Arguments Z.of_nat : simpl never.
#[local] Arguments Z.sub : simpl never.
#[local] Arguments Z.add : simpl never.
#[local] Arguments Py.index : simpl never.
#[local] Arguments Py.le : simpl never.
#[local] Arguments Py.lt : simpl never.
#[local] Arguments Py.eq : simpl never.
#[local] Arguments Py.sum : simpl never.
#[local] Arguments Qmult : simpl never.
#[local] Arguments Qplus : simpl never.
#[local] Arguments Qminus : simpl never.

Lemma rbind_Ok {A B} (r : result A) (k : A -> result B) (b : B) :
  rbind r k = Ok b <-> exists a, r = Ok a /\ k a = Ok b.
Proof.
  split.
  - destruct r as [a|e]; simpl; [eauto|done].
  - intros (a & -> & H). done.
Qed.

(** Splits every sequence of operations that ended without an exception. *)
Ltac rinv :=
  repeat match goal with
         | H : rbind _ _ = Ok _ |- _ => apply rbind_Ok in H as (? & ? & H)
         | H : Ok _ = Ok _ |- _ => inversion H; clear H; subst
         end.

Lemma wbind_Ok {A B} (c : W A) (k : A -> W B) (tr : list event) (b : B) :
  wbind c k = (tr, Ok b) <->
  exists tr1 a tr2, c = (tr1, Ok a) /\ k a = (tr2, Ok b) /\ tr = tr1 ++ tr2.
Proof.
  split.
  - destruct c as [tr1 [a|e]]; simpl; [|done].
    destruct (k a) as [tr2 r] eqn:E. intros [= <- ->]. eauto 6.
  - intros (tr1 & a & tr2 & -> & H & ->). simpl. by rewrite H.
Qed.

Lemma wbind_lift {A B} (r : result A) (k : A -> W B) :
  wbind (lift r) k = match r with Ok a => k a | Raise e => ([], Raise e) end.
Proof.
  destruct r as [a|e]; simpl; [|done]. by destruct (k a).
Qed.

Lemma wbind_emit {B} (ev : event) (k : unit -> W B) :
  wbind (emit ev) k = (ev :: fst (k tt), snd (k tt)).
Proof. simpl. by destruct (k tt). Qed.

Lemma wbind_wret {A B} (a : A) (k : A -> W B) : wbind (wret a) k = k a.
Proof. simpl. by destruct (k a). Qed.

Lemma for_each_app {A S} (l1 l2 : list A) (f : A -> S -> result S) (s : S) :
  Py.for_each (l1 ++ l2) f s = do s' <- Py.for_each l1 f s; Py.for_each l2 f s'.
Proof.
  revert s. induction l1 as [|x l1 IH]; intros s; simpl; [done|].
  destruct (f x s); simpl; [apply IH|done].
Qed.

(** An invariant of the body of a loop holds when the loop is left. *)
Lemma for_each_invariant {A S} (P : S -> Prop) (l : list A)
    (f : A -> S -> result S) (s s' : S) :
  (forall x t t', x ∈ l -> P t -> f x t = Ok t' -> P t') ->
  P s -> Py.for_each l f s = Ok s' -> P s'.
Proof.
  revert s. induction l as [|x l IH]; intros s Hf Hs H; simpl in H.
  - by inversion H; subst.
  - apply rbind_Ok in H as (t & Hx & Hl).
    apply (IH t); [|by eapply Hf; [apply list_elem_of_here|..]|done].
    intros y u u' Hy. apply Hf. by apply list_elem_of_further.
Qed.

Lemma index_nat {A} (l : list A) (k : nat) (x : A) :
  Py.index l (Z.of_nat k) = Ok x <-> l !! k = Some x.
Proof.
  unfold Py.index. destruct (Z.leb_spec 0 (Z.of_nat k)); [|lia].
  rewrite Nat2Z.id. destruct (l !! k); simpl; split; congruence.
Qed.

Lemma index_nat_sub {A} (l : list A) (i k : nat) (x : A) :
  (k <= i)%nat ->
  Py.index l (Z.of_nat i - Z.of_nat k) = Ok x <-> l !! (i - k)%nat = Some x.
Proof.
  intros Hk. rewrite <- Nat2Z.inj_sub by done. apply index_nat.
Qed.

Lemma le_true (a b : Q) : Py.le a b = true <-> a <= b.
Proof. apply Qle_bool_iff. Qed.

Lemma le_false (a b : Q) : Py.le a b = false <-> b < a.
Proof.
  unfold Py.le. split; intros H.
  - apply Qnot_le_lt. intros Hle. apply Qle_bool_iff in Hle. congruence.
  - destruct (Qle_bool a b) eqn:E; [|done].
    apply Qle_bool_iff in E. lra.
Qed.

Lemma lt_true (a b : Q) : Py.lt a b = true <-> a < b.
Proof.
  unfold Py.lt. rewrite negb_true_iff. apply (le_false b a).
Qed.

Lemma lt_false (a b : Q) : Py.lt a b = false <-> b <= a.
Proof.
  unfold Py.lt. rewrite negb_false_iff. apply (le_true b a).
Qed.

Lemma eq_true (a b : Q) : Py.eq a b = true <-> a == b.
Proof. apply Qeq_bool_iff. Qed.

(** ** The automatic iteration limit in binary64 arithmetic *)

Section WhileLoops.

Variables goal removal addition : Double.t.

Lemma after_removals_step (m : Double.t) (n : nat) :
  after_removals
    (Double.sub m (Double.mul m (Double.sub removal addition))) removal addition n
  = after_removals m removal addition (S n).
Proof. unfold after_removals. by rewrite Nat.iter_succ_r. Qed.

Lemma after_additions_step (m : Double.t) (n : nat) :
  after_additions
    (Double.add m (Double.mul m (Double.sub addition removal))) removal addition n
  = after_additions m removal addition (S n).
Proof. unfold after_additions. by rewrite Nat.iter_succ_r. Qed.

(** The loop ends after [n] passes when the fraction is then for the first
    time not above the goal. *)
Lemma while_above_complete (n : nat) :
  forall (fuel : nat) (m : Double.t) (it : Z),
    (n < fuel)%nat ->
    first_not_above m goal removal addition n ->
    while_above fuel m goal removal addition it = Some (it + Z.of_nat n)%Z.
Proof.
  induction n as [|n IH]; intros fuel m it Hfuel [Hend Hbefore].
  - destruct fuel as [|fuel]; [lia|]. simpl in *.
    change (after_removals m removal addition 0) with m in Hend.
    rewrite Hend. f_equal. lia.
  - destruct fuel as [|fuel]; [lia|]. simpl.
    pose proof (Hbefore O ltac:(lia)) as H0.
    change (after_removals m removal addition 0) with m in H0. rewrite H0.
    rewrite IH; [f_equal; lia|lia|]. split.
    + by rewrite after_removals_step.
    + intros k Hk. rewrite after_removals_step. apply Hbefore. lia.
Qed.

Lemma while_above_sound :
  forall (fuel : nat) (m : Double.t) (it it' : Z),
    while_above fuel m goal removal addition it = Some it' ->
    exists n : nat, it' = (it + Z.of_nat n)%Z /\ (n < fuel)%nat
                    /\ first_not_above m goal removal addition n.
Proof.
  induction fuel as [|fuel IH]; intros m it it' H; simpl in H; [done|].
  destruct (Double.ltb goal m) eqn:E.
  - apply IH in H as (n & -> & Hn & Hend & Hbefore).
    exists (S n). split; [lia|]. split; [lia|]. split.
    + by rewrite <- after_removals_step.
    + intros [|k] Hk; [done|]. rewrite <- after_removals_step. apply Hbefore. lia.
  - injection H as <-. exists O. split; [lia|]. split; [lia|].
    split; [done|]. intros k Hk. lia.
Qed.

(** The loop is still running after [fuel] passes exactly when the fraction
    was above the goal before each of them. *)
Lemma while_above_running :
  forall (fuel : nat) (m : Double.t) (it : Z),
    while_above fuel m goal removal addition it = None
    <-> forall k, (k < fuel)%nat ->
          Double.ltb goal (after_removals m removal addition k) = true.
Proof.
  induction fuel as [|fuel IH]; intros m it; simpl.
  - split; [intros _ k Hk; lia|done].
  - destruct (Double.ltb goal m) eqn:E.
    + rewrite IH. split.
      * intros H [|k] Hk; [done|]. rewrite <- after_removals_step. apply H. lia.
      * intros H k Hk. rewrite after_removals_step. apply H. lia.
    + split; [done|]. intros H. specialize (H O ltac:(lia)).
      change (after_removals m removal addition 0) with m in H. congruence.
Qed.

Lemma while_below_complete (n : nat) :
  forall (fuel : nat) (m : Double.t) (it : Z),
    (n < fuel)%nat ->
    first_not_below m goal removal addition n ->
    while_below fuel m goal removal addition it = Some (it + Z.of_nat n)%Z.
Proof.
  induction n as [|n IH]; intros fuel m it Hfuel [Hend Hbefore].
  - destruct fuel as [|fuel]; [lia|]. simpl in *.
    change (after_additions m removal addition 0) with m in Hend.
    rewrite Hend. f_equal. lia.
  - destruct fuel as [|fuel]; [lia|]. simpl.
    pose proof (Hbefore O ltac:(lia)) as H0.
    change (after_additions m removal addition 0) with m in H0. rewrite H0.
    rewrite IH; [f_equal; lia|lia|]. split.
    + by rewrite after_additions_step.
    + intros k Hk. rewrite after_additions_step. apply Hbefore. lia.
Qed.

Lemma while_below_sound :
  forall (fuel : nat) (m : Double.t) (it it' : Z),
    while_below fuel m goal removal addition it = Some it' ->
    exists n : nat, it' = (it + Z.of_nat n)%Z /\ (n < fuel)%nat
                    /\ first_not_below m goal removal addition n.
Proof.
  induction fuel as [|fuel IH]; intros m it it' H; simpl in H; [done|].
  destruct (Double.ltb m goal) eqn:E.
  - apply IH in H as (n & -> & Hn & Hend & Hbefore).
    exists (S n). split; [lia|]. split; [lia|]. split.
    + by rewrite <- after_additions_step.
    + intros [|k] Hk; [done|]. rewrite <- after_additions_step. apply Hbefore. lia.
  - injection H as <-. exists O. split; [lia|]. split; [lia|].
    split; [done|]. intros k Hk. lia.
Qed.

Lemma while_below_running :
  forall (fuel : nat) (m : Double.t) (it : Z),
    while_below fuel m goal removal addition it = None
    <-> forall k, (k < fuel)%nat ->
          Double.ltb (after_additions m removal addition k) goal = true.
Proof.
  induction fuel as [|fuel IH]; intros m it; simpl.
  - split; [intros _ k Hk; lia|done].
  - destruct (Double.ltb m goal) eqn:E.
    + rewrite IH. split.
      * intros H [|k] Hk; [done|]. rewrite <- after_additions_step. apply H. lia.
      * intros H k Hk. rewrite after_additions_step. apply H. lia.
    + split; [done|]. intros H. specialize (H O ltac:(lia)).
      change (after_additions m removal addition 0) with m in H. congruence.
Qed.

End WhileLoops.

Section Rounding.

Import SpecFloat.

(** Rounding does not depend on the sign. *)
Lemma binary_round_opp (p : positive) (e : Z) :
  binary_round Double.prec Double.emax true p e
  = SFopp (binary_round Double.prec Double.emax false p e).
Proof.
  unfold binary_round.
  destruct (shl_align p e _) as [mz ez]. unfold binary_round_aux.
  destruct (shr_fexp _ _ _ _ _) as [mrs' e'].
  destruct (shr_fexp _ _ _ _ _) as [mrs'' e''].
  destruct (shr_m mrs''); [done| |done].
  by destruct (_ <=? _)%Z.
Qed.

Lemma binary_round_not_negative (p : positive) (e : Z) :
  SFltb (binary_round Double.prec Double.emax false p e) Double.zero = false.
Proof.
  unfold binary_round.
  destruct (shl_align p e _) as [mz ez]. unfold binary_round_aux.
  destruct (shr_fexp _ _ _ _ _) as [mrs' e'].
  destruct (shr_fexp _ _ _ _ _) as [mrs'' e''].
  destruct (shr_m mrs''); [done| |done].
  by destruct (_ <=? _)%Z.
Qed.

(** A difference that is not zero stays so when the operands change
    places. *)
Lemma sub_negative_swap (x y : Double.t) :
  Double.ltb (Double.sub x y) Double.zero = true ->
  forall s, Double.sub y x <> S754_zero s.
Proof.
  unfold Double.ltb, Double.sub.
  destruct x as [sx|sx| |sx mx ex], y as [sy|sy| |sy my ey];
    try (by destruct sx, sy); try done.
  cbn [SFsub]. rewrite (Z.min_comm ey ex).
  set (ez := Z.min ex ey).
  set (X := cond_Zopp sx (Zpos (fst (shl_align mx ex ez)))).
  set (Y := cond_Zopp sy (Zpos (fst (shl_align my ey ez)))).
  replace (Y - X)%Z with (- (X - Y))%Z by lia.
  destruct (X - Y)%Z as [|p|p] eqn:E;
    [change (- 0)%Z with 0%Z|change (- Z.pos p)%Z with (Z.neg p)
    |change (- Z.neg p)%Z with (Z.pos p)]; cbn [binary_normalize].
  - done.
  - by rewrite binary_round_not_negative.
  - rewrite binary_round_opp.
    destruct (binary_round Double.prec Double.emax false p ez) as [s0|s0| |s0 m0 e0];
      cbn; intros H s1 E1; first [discriminate E1|discriminate H].
Qed.

Lemma positive_not_zero (x : Double.t) :
  Double.ltb Double.zero x = true -> forall s, x <> S754_zero s.
Proof. by destruct x. Qed.

End Rounding.

(** C7, as the code has it.  With [iterations_limit = "auto"] the block
    works on doubles, from the fraction [m = mass[0] / mass_full].  For
    relative ratios the limit is 25 plus the number of updates
    [m -= m * (mass_removal_ratio - mass_addition_ratio)] (when that
    difference is above 0; else [m += m * (mass_addition_ratio -
    mass_removal_ratio)]), each rounded to a double, after which [m] is for
    the first time not above (not below) [mass_goal_ratio]; the loop ends
    exactly when there is such a number.  For absolute ratios the limit is
    the integer part of the double [(m - mass_goal_ratio) /
    (mass_removal_ratio - mass_addition_ratio) + 25] (net removal), or of
    [(mass_goal_ratio - m) / (mass_addition_ratio - mass_removal_ratio) + 25]
    (net addition), the division never failing; [int] fails for an infinite
    value or NaN.  In the other cases the limit keeps the value "auto". *)
Theorem automatic_limit_in_double_arithmetic
    (mass0 mass_full goal removal addition m : Double.t) :
  Double.div mass0 mass_full = Ok m ->
  let d := Double.sub removal addition in
  let limit_of (ratio_type : ratio_type_t) (fuel : nat) :=
    iterations_limit_auto fuel ratio_type mass0 mass_full goal removal addition in
  (Double.ltb Double.zero d = true ->
   (forall n, first_not_above m goal removal addition n ->
      forall fuel, (n < fuel)%nat ->
        limit_of relative fuel = Ok (Some (limit (Z.of_nat n + 25))))
   /\ (forall fuel l, limit_of relative fuel = Ok (Some l) ->
         exists n, first_not_above m goal removal addition n
                   /\ l = limit (Z.of_nat n + 25))
   /\ (forall fuel,
         limit_of relative fuel = Ok None
         <-> forall k, (k < fuel)%nat ->
               Double.ltb goal (after_removals m removal addition k) = true))
  /\ (Double.ltb Double.zero d = false ->
      (forall n, first_not_below m goal removal addition n ->
         forall fuel, (n < fuel)%nat ->
           limit_of relative fuel = Ok (Some (limit (Z.of_nat n + 25))))
      /\ (forall fuel l, limit_of relative fuel = Ok (Some l) ->
            exists n, first_not_below m goal removal addition n
                      /\ l = limit (Z.of_nat n + 25))
      /\ (forall fuel,
            limit_of relative fuel = Ok None
            <-> forall k, (k < fuel)%nat ->
                  Double.ltb (after_additions m removal addition k) goal = true))
  /\ (Double.ltb Double.zero d = true ->
      exists q, Double.div (Double.sub m goal) d = Ok q
        /\ forall fuel,
             limit_of absolute fuel
             = do n <- Double.int (Double.add q (Double.of_Z 25));
               Ok (Some (limit n)))
  /\ (Double.ltb Double.zero d = false -> Double.ltb d Double.zero = true ->
      exists q,
        Double.div (Double.sub goal m) (Double.sub addition removal) = Ok q
        /\ forall fuel,
             limit_of absolute fuel
             = do n <- Double.int (Double.add q (Double.of_Z 25));
               Ok (Some (limit n)))
  /\ (Double.ltb Double.zero d = false -> Double.ltb d Double.zero = false ->
      forall fuel, limit_of absolute fuel = Ok (Some auto))
  /\ (forall fuel, limit_of ratio_other fuel = Ok (Some auto)).
Proof.
  intros Hm d limit_of. subst limit_of. unfold iterations_limit_auto.
  rewrite Hm. cbn [rbind]. fold d.
  split; [|split; [|split; [|split; [|split]]]].
  - intros Hd. rewrite Hd. split; [|split].
    + intros n Hn fuel Hfuel.
      by rewrite (while_above_complete goal removal addition n fuel m 0 Hfuel Hn).
    + intros fuel l H.
      destruct (while_above fuel m goal removal addition 0) as [it|] eqn:E; [|done].
      apply while_above_sound in E as (n & -> & _ & Hn).
      injection H as <-. exists n. split; [done|]. f_equal; lia.
    + intros fuel. rewrite <- (while_above_running goal removal addition fuel m 0).
      destruct (while_above fuel m goal removal addition 0); simpl; split; congruence.
  - intros Hd. rewrite Hd. split; [|split].
    + intros n Hn fuel Hfuel.
      by rewrite (while_below_complete goal removal addition n fuel m 0 Hfuel Hn).
    + intros fuel l H.
      destruct (while_below fuel m goal removal addition 0) as [it|] eqn:E; [|done].
      apply while_below_sound in E as (n & -> & _ & Hn).
      injection H as <-. exists n. split; [done|]. f_equal; lia.
    + intros fuel. rewrite <- (while_below_running goal removal addition fuel m 0).
      destruct (while_below fuel m goal removal addition 0); simpl; split; congruence.
  - intros Hd. rewrite Hd.
    pose proof (positive_not_zero d Hd) as Hnz.
    exists (SpecFloat.SFdiv Double.prec Double.emax (Double.sub m goal) d).
    split; [|intros fuel].
    + unfold Double.div. destruct d as [s| | |]; first [done|by destruct (Hnz s)].
    + unfold Double.div at 1.
      destruct d as [s| | |]; first [done|by destruct (Hnz s)].
  - intros Hd Hneg. rewrite Hd, Hneg.
    pose proof (sub_negative_swap removal addition Hneg) as Hnz.
    exists (SpecFloat.SFdiv Double.prec Double.emax (Double.sub goal m)
              (Double.sub addition removal)).
    split; [|intros fuel].
    + unfold Double.div.
      destruct (Double.sub addition removal) as [s| | |];
        first [done|by destruct (Hnz s)].
    + unfold Double.div at 1.
      destruct (Double.sub addition removal) as [s| | |];
        first [done|by destruct (Hnz s)].
  - intros Hd Hneg. by rewrite Hd, Hneg.
  - done.
Qed.

(** ** The solver's exit status *)

(** The line written for an exit status that is not 0 *)
Lemma check_exit_status_nonzero (z : Z) :
  z ≠ 0%Z ->
  exists msg,
    check_exit_status z = [Log msg]
    /\ (z = 201%Z ->
        msg = "ERROR: CalculiX exit status 201. It cannot open inp file.")
    /\ (z = 1%Z ->
        msg = "ERROR: CalculiX exit status 1. There might be invalid path_calculix.")
    /\ (z ≠ 201%Z -> z ≠ 1%Z ->
        msg = "ERROR: CalculiX exit status " +:+ pretty z +:+ ".").
Proof.
  intros Hz. unfold check_exit_status.
  destruct (Z.eqb_spec z 201) as [->|H201].
  { eexists. split; [reflexivity|]. split; [done|]. split; [done|].
    intros H. by destruct H. }
  destruct (Z.eqb_spec z 1) as [->|H1].
  { eexists. split; [reflexivity|]. split; [done|]. split; [done|].
    intros _ H. by destruct H. }
  destruct (Z.eqb_spec z 0); [done|]. simpl.
  eexists. split; [reflexivity|]. split; [done|]. split; done.
Qed.

Lemma first_half_with_exit_status (env : environment) (cfg : config) (m : mesh)
    (s : state) (z : Z) :
  first_half (with_exit_status env z) cfg m s
  = (CalculiX (i s) :: check_exit_status z ++ fst (after_solver env cfg m s),
     snd (after_solver env cfg m s)).
Proof.
  unfold first_half. rewrite wbind_emit. simpl.
  change (after_solver (with_exit_status env z) cfg m s)
    with (after_solver env cfg m s).
  by destruct (after_solver env cfg m s).
Qed.

(** The flag of lines 627-635 is set exactly when one of the four tests of
    the chain holds. *)
Lemma missing_ccx_results_true (cfg : config) (r : results) :
  missing_ccx_results cfg r = true
  <-> (optimization_base cfg = stiffness /\ energy_density_step r = [])
      \/ (optimization_base cfg = buckling /\ buckling_factors r = [])
      \/ (optimization_base cfg = heat /\ heat_flux r = ∅)
      \/ (domain_FI_filled cfg = true /\ FI_step r = []).
Proof.
  unfold missing_ccx_results, is_base.
  destruct (optimization_base cfg), (domain_FI_filled cfg);
    cbn [andb]; repeat case_bool_decide; split;
    try (intros _; tauto); try done; intuition congruence.
Qed.

(** X28.  The results are missing when the objective is the stiffness and
    there are no energy densities, or it is buckling and there are no
    buckling factors, or it is the heat and there is no heat flux, or when
    failure limits are defined and there are no failure indices, whatever
    the objective.  Then, whatever the exit status of the solver was, the
    pass writes the error to the log and ends with the failed assertion of
    line 639, before the switching. *)
Lemma missing_results_abort (env : environment) (cfg : config) (m : mesh)
    (mass_full : Q) (lim : iterations_limit_t) (s : state) (z : Z)
    (tr : list event) (r : results) :
  calculix env (i s) (elm_states s) = Ok z ->
  import_results env cfg s = (tr, Ok r) ->
  (optimization_base cfg = stiffness /\ energy_density_step r = [])
  \/ (optimization_base cfg = buckling /\ buckling_factors r = [])
  \/ (optimization_base cfg = heat /\ heat_flux r = ∅)
  \/ (domain_FI_filled cfg = true /\ FI_step r = []) ->
  loop_body env cfg m mass_full lim s
  = (CalculiX (i s) :: check_exit_status z ++ tr
       ++ [Log ("ERROR: " +:+ CalculiX_results_not_found)],
     Raised (AssertionError CalculiX_results_not_found)).
Proof.
  intros Hz Hr Hmiss. apply missing_ccx_results_true in Hmiss.
  unfold loop_body, first_half, after_solver.
  rewrite wbind_emit, Hz, wbind_lift, Hr. cbn [wbind]. rewrite Hmiss.
  cbn [wbind emit lift fst snd app]. reflexivity.
Qed.

(** C1, as the code has it.  A non-zero exit status of the solver adds one
    ERROR line to the log, right after the solver call, and nothing else.
    The line names the status: for 201 that the inp file cannot be opened,
    for 1 that [path_calculix] might be invalid, for any other status the
    status alone.  The pass through the loop body ends as it does after exit
    status 0, with the same further events and the same outcome, so that no
    exception is raised for the exit status and [beso_lib.switching] is
    called whenever it is called after a successful solver run. *)
Theorem nonzero_exit_status_is_logged_and_ignored
    (env : environment) (cfg : config) (m : mesh) (mass_full : Q)
    (lim : iterations_limit_t) (s : state) (z : Z) :
  z ≠ 0%Z ->
  exists (msg : string) (tr : list event) (o : outcome),
    (z = 201%Z ->
     msg = "ERROR: CalculiX exit status 201. It cannot open inp file.")
    /\ (z = 1%Z ->
        msg = "ERROR: CalculiX exit status 1. There might be invalid path_calculix.")
    /\ (z ≠ 201%Z -> z ≠ 1%Z ->
        msg = "ERROR: CalculiX exit status " +:+ pretty z +:+ ".")
    /\ check_exit_status z = [Log msg]
    /\ loop_body (with_exit_status env 0) cfg m mass_full lim s
       = (CalculiX (i s) :: tr, o)
    /\ loop_body (with_exit_status env z) cfg m mass_full lim s
       = (CalculiX (i s) :: Log msg :: tr, o).
Proof.
  intros Hz.
  destruct (check_exit_status_nonzero z Hz) as (msg & Hmsg & H201 & H1 & Hother).
  exists msg. unfold loop_body. rewrite !first_half_with_exit_status, Hmsg.
  change (check_exit_status 0) with (@nil event). simpl.
  destruct (after_solver env cfg m s) as [tr1 [s1|e]]; simpl;
    [|by eexists _, _].
  destruct (finish_test lim s1) as [[|]|e];
    [by eexists _, _..| |by eexists _, _].
  change (second_half (with_exit_status env z) cfg m mass_full s1)
    with (second_half env cfg m mass_full s1).
  change (second_half (with_exit_status env 0) cfg m mass_full s1)
    with (second_half env cfg m mass_full s1).
  destruct (second_half env cfg m mass_full s1) as [tr2 [s2|e]];
    [|by eexists _, _].
  destruct (oscillation_test s2) as [tr3 o]. by eexists _, _.
Qed.

(** ** The mass goal of an iteration *)

Lemma index_nat_pred {A} (l : list A) (k : nat) (x : A) :
  l !! k = Some x -> Py.index l (Z.of_nat (S k) - 1) = Ok x.
Proof.
  intros H. replace (Z.of_nat (S k) - 1)%Z with (Z.of_nat k) by lia.
  by apply index_nat.
Qed.

(** C6, as the code has it.  In a net-removing run, when the violated
    elements of the previous iteration exceed those of the first iteration by
    more than the tolerance, the mass goal of the iteration is the mass of
    the previous iteration if that mass is at or above the final goal
    [mass_goal_ratio * mass_full], and the final goal otherwise. *)
Theorem violated_goal_is_previous_mass_or_final_goal
    (cfg : config) (mass_full : Q) (s : state) (k : nat)
    (before first : list Z) (m1 : Q) :
  0 < mass_removal_ratio cfg - mass_addition_ratio cfg ->
  FI_violated s !! k = Some before ->
  FI_violated s !! 0%nat = Some first ->
  (Py.sum first + FI_violated_tolerance cfg < Py.sum before)%Z ->
  mass s !! k = Some m1 ->
  exists g : goal_vars,
    set_mass_goal cfg mass_full (S k) s = ([], Ok g)
    /\ (mass_goal_ratio cfg * mass_full <= m1 -> g_mass_goal_i g = Some m1)
    /\ (m1 < mass_goal_ratio cfg * mass_full ->
        g_mass_goal_i g = Some (mass_goal_ratio cfg * mass_full)).
Proof.
  intros Hr Hbefore Hfirst Hviol Hm1.
  unfold set_mass_goal.
  apply lt_true in Hr. rewrite Hr.
  rewrite (index_nat_pred _ _ _ Hbefore).
  change 0%Z with (Z.of_nat 0). rewrite (proj2 (index_nat _ _ _) Hfirst).
  simpl. apply Z.ltb_lt in Hviol. rewrite Hviol.
  rewrite (index_nat_pred _ _ _ Hm1). simpl.
  destruct (Py.le (mass_goal_ratio cfg * mass_full) m1) eqn:E.
  - simpl. eexists. split; [done|]. simpl. split; [done|].
    apply le_true in E. intros. lra.
  - simpl. eexists. split; [done|]. simpl. split; [|done].
    apply le_false in E. intros. lra.
Qed.

(** In a net-removing run without too many violated elements, when the
    mass of the previous iteration is at or below the final goal and no mass
    goal was set before, the warning is written, the name [mass_goal_i] stays
    unbound and the call of [beso_lib.switching] raises [NameError] while its
    arguments are evaluated. *)
Lemma unreachable_goal_raises_NameError
    (env : environment) (cfg : config) (m : mesh) (mass_full : Q) (s : state)
    (before first : list Z) (m1 : Q) :
  0 < mass_removal_ratio cfg - mass_addition_ratio cfg ->
  ratio_type cfg ≠ ratio_other ->
  FI_violated s !! i s = Some before ->
  FI_violated s !! 0%nat = Some first ->
  (Py.sum before <= Py.sum first + FI_violated_tolerance cfg)%Z ->
  mass s !! i s = Some m1 ->
  m1 <= mass_goal_ratio cfg * mass_full ->
  mass_goal_i s = None ->
  second_half env cfg m mass_full s
  = ([Log WARNING_mass_goal], Raise (NameError "mass_goal_i")).
Proof.
  intros Hr Hratio Hbefore Hfirst Hviol Hm1 Hle Hnone.
  unfold second_half, set_mass_goal.
  apply lt_true in Hr. rewrite Hr.
  rewrite (index_nat_pred _ _ _ Hbefore).
  change 0%Z with (Z.of_nat 0). rewrite (proj2 (index_nat _ _ _) Hfirst).
  simpl. apply Z.ltb_ge in Hviol. rewrite Hviol.
  rewrite (index_nat_pred _ _ _ Hm1). simpl.
  apply le_true in Hle. rewrite Hle, Hnone. simpl.
  unfold call_switching, set_mass_referential.
  destruct (ratio_type cfg); [| |done]; simpl.
  - done.
  - rewrite (index_nat_pred _ _ _ Hm1). done.
Qed.

(** ** The two halves of the loop body *)

Ltac winv H :=
  let tr1 := fresh "tr" in
  let tr2 := fresh "tr" in
  let a := fresh "a" in
  let H1 := fresh "H" in
  apply wbind_Ok in H as (tr1 & a & tr2 & H1 & H & ->).

(** Splits a chain of statements that ended without an exception. *)
Ltac winv_all H :=
  repeat first
    [ match type of H with
      | (let '(_, _) := ?p in _) = _ => is_var p; destruct p
      end
    | winv H ].

Ltac lift_inv :=
  repeat match goal with
         | H : lift _ = (_, Ok _) |- _ =>
             unfold lift in H; inversion H; clear H; subst
         | H : wret _ = (_, Ok _) |- _ =>
             unfold wret in H; inversion H; clear H; subst
         | H : emit _ = (_, Ok _) |- _ =>
             unfold emit in H; inversion H; clear H; subst
         end.

Lemma append_means_lengths (cfg : config) (s : state) (a : mean_sums) (l : mean_lists) :
  append_means cfg s a = Ok l ->
  length (l_FI_mean l)
  = (if domain_FI_filled cfg then S (length (FI_mean s)) else length (FI_mean s))
  /\ length (l_energy_density_mean l)
     = (match optimization_base cfg with
        | stiffness => S (length (energy_density_mean s))
        | _ => length (energy_density_mean s)
        end).
Proof.
  unfold append_means. intros H.
  apply rbind_Ok in H as ([fm fm0] & Hfm & H).
  apply rbind_Ok in H as (em & Hem & H).
  apply rbind_Ok in H as (hm & Hhm & H).
  inversion H; subst; clear H. simpl. split.
  - destruct (domain_FI_filled cfg); [|by inversion Hfm].
    apply rbind_Ok in Hfm as (mi & _ & Hfm).
    apply rbind_Ok in Hfm as (x & _ & Hfm).
    apply rbind_Ok in Hfm as (? & _ & Hfm).
    destruct (Py.eq (mass_without_state0 a) 0).
    + inversion Hfm; subst. rewrite length_app. simpl. lia.
    + apply rbind_Ok in Hfm as (y & _ & Hfm).
      apply rbind_Ok in Hfm as (? & _ & Hfm).
      inversion Hfm; subst. rewrite length_app. simpl. lia.
  - destruct (optimization_base cfg); try by inversion Hem.
    apply rbind_Ok in Hem as (mi & _ & Hem).
    apply rbind_Ok in Hem as (x & _ & Hem).
    apply rbind_Ok in Hem as (? & _ & Hem).
    inversion Hem; subst. rewrite length_app. simpl. lia.
Qed.

(** What the first half leaves in the variables *)
Lemma first_half_Ok (env : environment) (cfg : config) (m : mesh)
    (s s1 : state) (tr : list event) :
  first_half env cfg m s = (tr, Ok s1) ->
  i s1 = i s
  /\ elm_states s1 = elm_states s
  /\ elm_states_last s1 = elm_states_last s
  /\ elm_states_before_last s1 = elm_states_before_last s
  /\ mass s1 = mass s
  /\ oscillations s1 = oscillations s
  /\ length (FI_mean s1)
     = (if domain_FI_filled cfg then S (length (FI_mean s)) else length (FI_mean s))
  /\ length (energy_density_mean s1)
     = (match optimization_base cfg with
        | stiffness => S (length (energy_density_mean s))
        | _ => length (energy_density_mean s)
        end)
  /\ exists c1,
       convergence_test (tolerance cfg) (FI_mean s1) (i s) (continue_iterations s)
       = Ok c1
       /\ convergence_test (tolerance cfg) (energy_density_mean s1) (i s) c1
          = Ok (continue_iterations s1).
Proof.
  unfold first_half, after_solver. intros H.
  winv_all H. lift_inv. simpl.
  match goal with Ha : append_means _ _ _ = Ok _ |- _ =>
    destruct (append_means_lengths _ _ _ _ Ha) as [L1 L2] end.
  repeat (split; [done|]).
  eexists. split; eassumption.
Qed.

(** What the second half leaves in the variables *)
Lemma second_half_Ok (env : environment) (cfg : config) (m : mesh) (mass_full : Q)
    (s s2 : state) (tr : list event) :
  second_half env cfg m mass_full s = (tr, Ok s2) ->
  i s2 = S (i s)
  /\ continue_iterations s2 = continue_iterations s
  /\ oscillations s2 = oscillations s
  /\ FI_mean s2 = FI_mean s
  /\ energy_density_mean s2 = energy_density_mean s
  /\ elm_states_before_last s2 = elm_states_before_last s
  /\ (forall d, elm_states_last s = dict d -> elm_states_last s2 = dict d).
Proof.
  unfold second_half. intros H.
  winv_all H. lift_inv. simpl.
  repeat (split; [done|]).
  intros d Hd.
  match goal with Hc : call_switching _ _ _ _ _ _ = _ |- _ =>
    unfold call_switching in Hc; winv_all Hc; lift_inv end.
  destruct (sw_returned _); simpl; [by rewrite Hd|done].
Qed.

Lemma finish_test_false (lim : iterations_limit_t) (s : state) :
  finish_test lim s = Ok false ->
  continue_iterations s = true
  /\ exists n, lim = limit n /\ (Z.of_nat (i s) < n)%Z.
Proof.
  unfold finish_test. destruct (continue_iterations s); [|done].
  destruct lim as [|n]; [done|]. intros [= H]. split; [done|].
  exists n. split; [done|]. by apply Z.leb_gt.
Qed.

Lemma finish_test_true (lim : iterations_limit_t) (s : state) :
  finish_test lim s = Ok true <->
  continue_iterations s = false
  \/ (continue_iterations s = true
      /\ exists n, lim = limit n /\ (n <= Z.of_nat (i s))%Z).
Proof.
  unfold finish_test. destruct (continue_iterations s).
  - destruct lim as [|n].
    + split; [done|]. intros [|[_ (n & ? & _)]]; done.
    + split.
      * intros [= H]. right. split; [done|]. exists n. split; [done|].
        by apply Z.leb_le.
      * intros [|[_ (n' & [= <-] & H)]]; [done|]. f_equal. by apply Z.leb_le.
  - split; [by left|done].
Qed.

Section Body.

Variable env : environment.
Variable cfg : config.
Variable m : mesh.
Variable mass_full : Q.
Variable lim : iterations_limit_t.

#[local] Abbreviation body := (loop_body env cfg m mass_full lim).
#[local] Abbreviation reaches := (reaches_oscillation_test env cfg m mass_full lim).
#[local] Abbreviation run := (passes env cfg m mass_full lim).

(** A pass that gets to the oscillation test ends there. *)
Lemma loop_body_reaches (s s2 : state) :
  reaches s s2 ->
  exists tr,
    body s
    = (if bool_decide (elm_states_before_last s2 = elm_states s2)
       then (tr ++ [OSCILLATION (i s2)], Oscillating (set_oscillations s2))
       else (tr, Continue (remember_states s2))).
Proof.
  intros (tr1 & s1 & tr2 & H1 & Hf & H2).
  unfold loop_body. rewrite H1, Hf, H2. unfold oscillation_test.
  exists (tr1 ++ tr2).
  destruct (bool_decide _); [by rewrite app_assoc|by rewrite app_nil_r].
Qed.

Lemma loop_body_Finished (s s1 : state) (tr : list event) :
  first_half env cfg m s = (tr, Ok s1) ->
  finish_test lim s1 = Ok true ->
  body s = (tr, Finished s1).
Proof. intros H1 Hf. unfold loop_body. by rewrite H1, Hf. Qed.

(** How a pass can end *)
Lemma loop_body_inv (s : state) (tr : list event) (o : outcome) :
  body s = (tr, o) ->
  match o with
  | Continue s' =>
      exists s2, reaches s s2
                 /\ elm_states_before_last s2 ≠ elm_states s2
                 /\ s' = remember_states s2
  | Oscillating s' =>
      exists s2, reaches s s2
                 /\ elm_states_before_last s2 = elm_states s2
                 /\ s' = set_oscillations s2
  | Finished s1 =>
      first_half env cfg m s = (tr, Ok s1) /\ finish_test lim s1 = Ok true
  | Raised _ => True
  end.
Proof.
  unfold loop_body.
  destruct (first_half env cfg m s) as [tr1 [s1|e]] eqn:H1;
    [|by intros [= <- <-]].
  destruct (finish_test lim s1) as [[|]|e] eqn:Hf;
    [by intros [= <- <-]| |by intros [= <- <-]].
  destruct (second_half env cfg m mass_full s1) as [tr2 [s2|e]] eqn:H2;
    [|by intros [= <- <-]].
  unfold oscillation_test. case_bool_decide as Heq; intros [= <- <-].
  - exists s2. split; [by exists tr1, s1, tr2|done].
  - exists s2. split; [by exists tr1, s1, tr2|done].
Qed.

Lemma reaches_fields (s s2 : state) :
  reaches s s2 ->
  i s2 = S (i s)
  /\ continue_iterations s2 = true
  /\ oscillations s2 = oscillations s
  /\ elm_states_before_last s2 = elm_states_before_last s
  /\ (forall d, elm_states_last s = dict d -> elm_states_last s2 = dict d)
  /\ length (FI_mean s2)
     = (if domain_FI_filled cfg then S (length (FI_mean s)) else length (FI_mean s))
  /\ length (energy_density_mean s2)
     = (match optimization_base cfg with
        | stiffness => S (length (energy_density_mean s))
        | _ => length (energy_density_mean s)
        end).
Proof.
  intros (tr1 & s1 & tr2 & H1 & Hf & H2).
  apply first_half_Ok in H1 as (Hi & _ & Hl & Hb & _ & Ho & L1 & L2 & _).
  apply finish_test_false in Hf as [Hc _].
  apply second_half_Ok in H2 as (Hi2 & Hc2 & Ho2 & F2 & E2 & Hb2 & Hl2).
  rewrite Hi2, Hi, Hc2, Hc, Ho2, Ho, Hb2, Hb, F2, E2.
  repeat (split; [done|]). split; [|done].
  intros d Hd. apply Hl2. by rewrite Hl.
Qed.

Lemma passes_S (n : nat) (s0 s' : state) :
  run (S n) s0 = Some s' <->
  exists s tr, run n s0 = Some s /\ body s = (tr, Continue s').
Proof.
  simpl. split.
  - destruct (run n s0) as [s|]; [|done].
    destruct (body s) as [tr [s''| | |]] eqn:E; try done.
    intros [= ->]. eauto.
  - intros (s & tr & -> & ->). done.
Qed.

(** Along a run from the initial variables: [i] counts the passes, the
    flags keep their initial values and the lists of mean values have one
    entry per pass. *)
Lemma passes_invariant (elm_states0 : gmap Z Z) (mass0 : Q) (n : nat) (s : state) :
  run n (initial_state elm_states0 mass0) = Some s ->
  i s = n
  /\ continue_iterations s = true
  /\ oscillations s = false
  /\ length (FI_mean s) = (if domain_FI_filled cfg then n else 0%nat)
  /\ length (energy_density_mean s)
     = (match optimization_base cfg with stiffness => n | _ => 0%nat end).
Proof.
  revert s. induction n as [|n IH]; intros s H.
  - inversion H; subst. simpl.
    by destruct (domain_FI_filled cfg), (optimization_base cfg).
  - apply passes_S in H as (s' & tr & Hn & Hbody).
    destruct (IH _ Hn) as (Hi & Hc & Ho & L1 & L2).
    apply loop_body_inv in Hbody as (s2 & Hreach & _ & ->).
    apply reaches_fields in Hreach as (Hi2 & Hc2 & Ho2 & _ & _ & F2 & E2).
    simpl. rewrite Hi2, Hi, Hc2, Ho2, Ho, F2, E2, L1, L2.
    by destruct (domain_FI_filled cfg), (optimization_base cfg).
Qed.

(** From the second pass on, [elm_states_before_last] holds the element
    states of the pass before the last one. *)
Lemma passes_before_last (s0 : state) (n : nat) (s : state) :
  (1 <= n)%nat ->
  run (S n) s0 = Some s ->
  Some (elm_states_before_last s) = states_after env cfg m mass_full lim n s0
  /\ elm_states_last s = dict (elm_states s).
Proof.
  intros Hn H. apply passes_S in H as (s' & tr & Hpass & Hbody).
  unfold states_after. rewrite Hpass. simpl.
  apply loop_body_inv in Hbody as (s2 & Hreach & _ & ->). simpl.
  split; [|done].
  destruct n as [|n]; [lia|].
  apply passes_S in Hpass as (s'' & tr' & _ & Hbody').
  apply loop_body_inv in Hbody' as (s2' & _ & _ & ->).
  apply reaches_fields in Hreach as (_ & _ & _ & _ & Hl & _).
  by rewrite (Hl (elm_states s2') eq_refl).
Qed.

End Body.

(** ** The convergence test *)

Lemma max2_lt (a b t : Q) : Py.max2 a b < t <-> a < t /\ b < t.
Proof.
  unfold Py.max2. destruct (Qlt_le_dec a b); split; intros; lra.
Qed.

Lemma div_Ok (a b q : Q) : Py.div a b = Ok q -> ~ b == 0 /\ q = a / b.
Proof.
  unfold Py.div. destruct (Qeq_bool b 0) eqn:E; [done|].
  intros [= <-]. split; [|done]. intros Hb. apply Qeq_bool_iff in Hb. congruence.
Qed.

Lemma index_back {A} (l : list A) (i : nat) (k : Z) (x : A) :
  (0 <= k <= Z.of_nat i)%Z ->
  Py.index l (Z.of_nat i - k) = Ok x <-> l !! (i - Z.to_nat k)%nat = Some x.
Proof.
  intros Hk. replace (Z.of_nat i - k)%Z with (Z.of_nat (i - Z.to_nat k)) by lia.
  apply index_nat.
Qed.

(** What the computation of [difference] returns *)
Lemma difference_Ok (l : list Q) (i : nat) (d t : Q) :
  (5 <= i)%nat ->
  difference l i = Ok d ->
  exists a, l !! i = Some a /\
    (d < t <->
     forall k, (1 <= k <= 5)%nat ->
       exists b, l !! (i - k)%nat = Some b /\ Qabs (a - b) / a < t).
Proof.
  intros Hi. unfold difference. cbn [Py.for_each].
  intros H. apply rbind_Ok in H as (ds & H & Hmax). rinv.
  repeat match goal with
         | H : Py.index _ (Z.of_nat _) = Ok _ |- _ => apply index_nat in H
         | H : Py.index _ (Z.of_nat _ - _) = Ok _ |- _ =>
             apply index_back in H; [|lia]
         | H : Py.div _ _ = Ok _ |- _ => apply div_Ok in H as [_ ->]
         end.
  change (Z.to_nat 1) with 1%nat in *. change (Z.to_nat 2) with 2%nat in *.
  change (Z.to_nat 3) with 3%nat in *. change (Z.to_nat 4) with 4%nat in *.
  change (Z.to_nat 5) with 5%nat in *.
  repeat match goal with
         | H1 : ?l !! ?k = Some ?x, H2 : ?l !! ?k = Some ?y |- _ =>
             assert (x = y) by congruence; subst y; clear H2
         end.
  cbn [Py.max app fold_left] in Hmax. inversion Hmax; subst; clear Hmax.
  eexists. split; [eassumption|].
  rewrite !max2_lt. split.
  - intros ((((? & ?) & ?) & ?) & ?) k Hk.
    destruct k as [|[|[|[|[|[|?]]]]]]; try lia; eauto.
  - intros Hall.
    destruct (Hall 1%nat ltac:(lia)) as (? & ? & ?).
    destruct (Hall 2%nat ltac:(lia)) as (? & ? & ?).
    destruct (Hall 3%nat ltac:(lia)) as (? & ? & ?).
    destruct (Hall 4%nat ltac:(lia)) as (? & ? & ?).
    destruct (Hall 5%nat ltac:(lia)) as (? & ? & ?).
    simplify_eq. repeat split; assumption.
Qed.

Lemma three_equal_Ok (l : list Q) (i : nat) (e : bool) :
  (2 <= i)%nat ->
  three_equal l i = Ok e ->
  (e = true <->
   exists a b c, l !! i = Some a /\ l !! (i - 1)%nat = Some b
                 /\ l !! (i - 2)%nat = Some c /\ a == b /\ b == c).
Proof.
  intros Hi. unfold three_equal. intros H.
  apply rbind_Ok in H as (a & Ha & H). apply rbind_Ok in H as (b & Hb & H).
  apply index_nat in Ha. apply index_back in Hb; [|lia].
  change (Z.to_nat 1) with 1%nat in *.
  destruct (Py.eq a b) eqn:Eab.
  - apply rbind_Ok in H as (c & Hc & H). apply index_back in Hc; [|lia].
    change (Z.to_nat 2) with 2%nat in *.
    inversion H; subst; clear H. apply eq_true in Eab. split.
    + intros Hbc. apply eq_true in Hbc. exists a, b, c. done.
    + intros (a' & b' & c' & ? & ? & ? & _ & Hbc). simplify_eq.
      by apply eq_true.
  - inversion H; subst; clear H. split; [done|].
    intros (a' & b' & c' & ? & ? & _ & Hab & _). simplify_eq.
    apply eq_true in Hab. congruence.
Qed.

(** The flag [continue_iterations] is cleared by the test exactly when the
    criterion holds on the list.  The list has one value per iteration, up
    to the present one, or is not used at all. *)
Lemma convergence_test_spec (tol : Q) (l : list Q) (i : nat) (c c' : bool) :
  length l = S i \/ l = [] ->
  convergence_test tol l i c = Ok c' ->
  (c' = false <-> c = false \/ converged_on tol l i).
Proof.
  intros Hlen. unfold convergence_test, converged_on.
  destruct (Nat.ltb_spec 5 (length l)) as [H5|H5].
  - destruct Hlen as [Hlen| ->]; [|simpl in H5; lia].
    intros H. apply rbind_Ok in H as (d & Hd & H).
    destruct (difference_Ok l i d tol ltac:(lia) Hd) as (a & Ha & Hdiff).
    destruct (Py.lt d tol) eqn:Elt.
    + inversion H; subst; clear H. split; [|done]. intros _. right.
      split; [done|]. left. intros k Hk.
      apply lt_true in Elt. destruct (proj1 Hdiff Elt k Hk) as (b & ? & ?).
      eauto.
    + apply lt_false in Elt.
      apply rbind_Ok in H as (e & He & H).
      pose proof (three_equal_Ok l i e ltac:(lia) He) as Heq.
      destruct e.
      * inversion H; subst; clear H. split; [|done]. intros _. right.
        split; [done|]. right. by apply Heq.
      * inversion H; subst; clear H. split; [by left|].
        intros [->|[_ [Hall|H3]]]; [done| |].
        -- exfalso.
           assert (d < tol); [|lra]. apply Hdiff. intros k Hk.
           destruct (Hall k Hk) as (a' & b & ? & ? & ?). simplify_eq. eauto.
        -- apply Heq in H3. done.
  - intros [= ->]. split; [by left|]. intros [->|[? _]]; [done|lia].
Qed.

(** ** The convergence and oscillation controller *)

Section Controller.

Variable env : environment.
Variable cfg : config.
Variable m : mesh.
Variable mass_full : Q.
Variable lim : iterations_limit_t.

#[local] Abbreviation body := (loop_body env cfg m mass_full lim).
#[local] Abbreviation reaches := (reaches_oscillation_test env cfg m mass_full lim).
#[local] Abbreviation run := (passes env cfg m mass_full lim).
#[local] Abbreviation design := (states_after env cfg m mass_full lim).

Lemma passes_prefix (n k : nat) (s0 s : state) :
  run n s0 = Some s -> (k < n)%nat ->
  exists s_k tr s', run k s0 = Some s_k /\ body s_k = (tr, Continue s').
Proof.
  revert s. induction n as [|n IH]; intros s H Hk; [lia|].
  apply passes_S in H as (s' & tr & Hn & Hbody).
  destruct (decide (k = n)) as [->|Hne]; [eauto|].
  apply (IH s'); [done|lia].
Qed.

(** In the pass of iteration [n] the loop is left with the flag
    [continue_iterations] cleared exactly when the first half gets to the
    convergence tests and the criterion holds on one of the two lists. *)
Lemma converged_iff (elm_states0 : gmap Z Z) (mass0 : Q) (n : nat) (s : state)
    (tr : list event) (o : outcome) :
  run n (initial_state elm_states0 mass0) = Some s ->
  body s = (tr, o) ->
  (CONVERGED o <->
   exists tr1 s1,
     first_half env cfg m s = (tr1, Ok s1)
     /\ (converged_on (tolerance cfg) (FI_mean s1) n
         \/ converged_on (tolerance cfg) (energy_density_mean s1) n)).
Proof.
  intros Hpass Hbody.
  destruct (passes_invariant _ _ _ _ _ _ _ _ _ Hpass) as (Hi & Hc & _ & L1 & L2).
  assert (Htests : forall tr1 s1, first_half env cfg m s = (tr1, Ok s1) ->
            (continue_iterations s1 = false <->
             converged_on (tolerance cfg) (FI_mean s1) n
             \/ converged_on (tolerance cfg) (energy_density_mean s1) n)).
  { intros tr1 s1 H1.
    apply first_half_Ok in H1 as (_ & _ & _ & _ & _ & _ & F1 & E1 & c1 & T1 & T2).
    rewrite Hi, Hc in T1. rewrite Hi in T2.
    apply convergence_test_spec in T1.
    2:{ rewrite F1, L1. destruct (domain_FI_filled cfg); [by left|].
        right. destruct (FI_mean s1); [done|simpl in *; lia]. }
    apply convergence_test_spec in T2.
    2:{ rewrite E1, L2.
        destruct (optimization_base cfg); try by left.
        all: right; destruct (energy_density_mean s1); [done|simpl in *; lia]. }
    rewrite T2, T1. split.
    - intros [[|]|]; [done|by left|by right].
    - intros [|]; [left; by right|by right]. }
  split.
  - intros (s1 & -> & Hflag).
    apply loop_body_inv in Hbody as [H1 _].
    exists tr, s1. split; [done|]. by apply (Htests tr s1).
  - intros (tr1 & s1 & H1 & Hcrit).
    apply (Htests tr1 s1 H1) in Hcrit.
    assert (Hf : finish_test lim s1 = Ok true) by (apply finish_test_true; by left).
    rewrite (loop_body_Finished _ _ _ _ _ _ _ _ H1 Hf) in Hbody.
    inversion Hbody; subst. by exists s1.
Qed.

(** C3.  Along a run from the initial variables, the pass of iteration [n]
    starts with [continue_iterations] still set, and it ends with CONVERGED
    exactly when its first half gets to the convergence tests and the
    criterion holds on the failure-index means or on the energy-density
    means recorded up to iteration [n]: more than 5 values are recorded and
    the relative change over each of the last 5 iterations is below the
    tolerance, or the last three values are equal.  In no earlier iteration
    of the run did the criterion hold. *)
Theorem converged_at_first_iteration_that_meets_criterion
    (elm_states0 : gmap Z Z) (mass0 : Q) (n : nat) (s : state) :
  run n (initial_state elm_states0 mass0) = Some s ->
  i s = n
  /\ continue_iterations s = true
  /\ (forall tr o,
        body s = (tr, o) ->
        (CONVERGED o <->
         exists tr1 s1,
           first_half env cfg m s = (tr1, Ok s1)
           /\ (converged_on (tolerance cfg) (FI_mean s1) n
               \/ converged_on (tolerance cfg) (energy_density_mean s1) n)))
  /\ (forall k s_k tr1 s1,
        (k < n)%nat ->
        run k (initial_state elm_states0 mass0) = Some s_k ->
        first_half env cfg m s_k = (tr1, Ok s1) ->
        ~ converged_on (tolerance cfg) (FI_mean s1) k
        /\ ~ converged_on (tolerance cfg) (energy_density_mean s1) k).
Proof.
  intros Hpass.
  destruct (passes_invariant _ _ _ _ _ _ _ _ _ Hpass) as (Hi & Hc & _).
  split; [done|]. split; [done|]. split.
  - intros tr o Hbody. by apply (converged_iff elm_states0 mass0 n s tr o).
  - intros k s_k tr1 s1 Hk Hpass_k H1.
    destruct (passes_prefix _ _ _ _ Hpass Hk) as (s_k' & tr & s' & Hk' & Hbody).
    assert (s_k' = s_k) as -> by congruence.
    pose proof (converged_iff elm_states0 mass0 k s_k tr _ Hpass_k Hbody) as Hiff.
    assert (Hnot : ~ CONVERGED (Continue s')) by (by intros (? & ? & _)).
    split; intros Hcrit; apply Hnot, Hiff; exists tr1, s1; auto.
Qed.

(** C8, as the code has it.  Along a run from the initial variables, in the
    pass of iteration [n]: CONVERGED needs at least 6 recorded iterations
    ([n >= 5]); the iteration limit is tested in every pass, from iteration 0
    on, as soon as the first half is through; the oscillation test is made in
    every pass that gets past the switching and filtering of the states, from
    the first pass on. *)
Theorem terminal_transitions_per_iteration
    (elm_states0 : gmap Z Z) (mass0 : Q) (n : nat) (s : state)
    (tr : list event) (o : outcome) :
  run n (initial_state elm_states0 mass0) = Some s ->
  body s = (tr, o) ->
  (CONVERGED o -> (5 <= n)%nat)
  /\ (ITERATION_LIMIT lim o <->
      exists s1 z,
        first_half env cfg m s = (tr, Ok s1)
        /\ continue_iterations s1 = true
        /\ lim = limit z /\ (z <= Z.of_nat n)%Z)
  /\ (OSCILLATING o <->
      exists s2, reaches s s2 /\ elm_states_before_last s = elm_states s2).
Proof.
  intros Hpass Hbody.
  destruct (passes_invariant _ _ _ _ _ _ _ _ _ Hpass) as (Hi & Hc & Ho & L1 & L2).
  split; [|split].
  - intros Hconv.
    apply (converged_iff elm_states0 mass0 n s tr o Hpass Hbody) in Hconv
      as (tr1 & s1 & H1 & Hcrit).
    apply first_half_Ok in H1 as (_ & _ & _ & _ & _ & _ & F1 & E1 & _).
    destruct Hcrit as [[H5 _]|[H5 _]].
    + rewrite F1, L1 in H5. destruct (domain_FI_filled cfg); lia.
    + rewrite E1, L2 in H5. destruct (optimization_base cfg); lia.
  - split.
    + intros (s1 & z & -> & Hflag & -> & Hz).
      apply loop_body_inv in Hbody as [H1 _].
      exists s1, z. repeat (split; [done|]).
      apply first_half_Ok in H1 as (Hi1 & _). by rewrite <- Hi, <- Hi1.
    + intros (s1 & z & H1 & Hflag & -> & Hz).
      assert (Hf : finish_test (limit z) s1 = Ok true).
      { apply finish_test_true. right. split; [done|]. exists z. split; [done|].
        apply first_half_Ok in H1 as (Hi1 & _). by rewrite Hi1, Hi. }
      rewrite (loop_body_Finished _ _ _ _ _ _ _ _ H1 Hf) in Hbody.
      inversion Hbody; subst. exists s1, z. repeat (split; [done|]).
      apply first_half_Ok in H1 as (Hi1 & _). by rewrite Hi1.
  - split.
    + intros (s' & -> & _).
      apply loop_body_inv in Hbody as (s2 & Hreach & Heq & _).
      exists s2. split; [done|].
      apply reaches_fields in Hreach as (_ & _ & _ & Hb & _). congruence.
    + intros (s2 & Hreach & Heq).
      destruct (loop_body_reaches _ _ _ _ _ _ _ Hreach) as [tr' Hb'].
      apply reaches_fields in Hreach as (_ & _ & _ & Hb & _).
      rewrite bool_decide_eq_true_2 in Hb' by congruence.
      rewrite Hb' in Hbody. inversion Hbody; subst.
      by exists (set_oscillations s2).
Qed.

(** After the first pass [elm_states_before_last] depends on what
    [beso_lib.switching] did with the dictionary of the initial states: if it
    returned that dictionary, [elm_states_last] was the same object and the
    copy taken holds the states of iteration 1; if it returned a new one, the
    copy holds what the call left in the initial dictionary. *)
Lemma first_pass_before_last (elm_states0 : gmap Z Z) (mass0 : Q) (s1 : state) :
  run 1 (initial_state elm_states0 mass0) = Some s1 ->
  exists a r,
    switching env a = Ok r
    /\ sa_elm_states a = elm_states0 /\ sa_i a = 1%nat
    /\ elm_states_before_last s1
       = match sw_returned r with
         | None => elm_states s1
         | Some _ => sw_argument r
         end.
Proof.
  intros H. apply passes_S in H as (s0 & tr & H0 & Hbody).
  cbn [passes] in H0. inversion H0; subst s0; clear H0.
  apply loop_body_inv in Hbody as (s2 & (tr1 & s' & tr2 & H1 & _ & H2) & _ & ->).
  apply first_half_Ok in H1 as (Hi & Hes & Hlast & _).
  unfold second_half in H2. winv_all H2. lift_inv.
  match goal with Hc : call_switching _ _ _ _ _ _ = _ |- _ =>
    unfold call_switching in Hc; winv_all Hc; lift_inv end.
  eexists _, _. split; [eassumption|]. cbn.
  rewrite Hes, Hi, Hlast. cbn. repeat (split; [done|]).
  destruct (sw_returned _); reflexivity.
Qed.

(** C2, as the code has it.  Along a run from the initial variables:
    in the pass of an iteration [k >= 3] the loop is left with OSCILLATING
    exactly when the pass gets to the oscillation test with element states
    equal to those of iteration [k - 2]; in the first pass it is left with
    OSCILLATING exactly when the pass gets to the test with no element
    states at all. *)
Theorem oscillation_detected_against_iteration_before_last
    (elm_states0 : gmap Z Z) (mass0 : Q) :
  (forall k s tr o,
     (3 <= k)%nat ->
     run (k - 1) (initial_state elm_states0 mass0) = Some s ->
     body s = (tr, o) ->
     (OSCILLATING o <->
      exists s2,
        reaches s s2 /\ i s2 = k
        /\ Some (elm_states s2) = design (k - 2) (initial_state elm_states0 mass0)))
  /\ (forall tr o,
        body (initial_state elm_states0 mass0) = (tr, o) ->
        (OSCILLATING o <->
         exists s2,
           reaches (initial_state elm_states0 mass0) s2 /\ i s2 = 1%nat
           /\ elm_states s2 = ∅)).
Proof.
  split.
  - intros k s tr o Hk Hpass Hbody.
    destruct (passes_invariant _ _ _ _ _ _ _ _ _ Hpass) as (Hi & _).
    replace (k - 1)%nat with (S (k - 2)) in Hpass by lia.
    assert (Hk2 : (1 <= k - 2)%nat) by lia.
    destruct (passes_before_last _ _ _ _ _ _ _ _ Hk2 Hpass) as [Hbefore _].
    split.
    + intros (s' & -> & _).
      apply loop_body_inv in Hbody as (s2 & Hreach & Heq & _).
      exists s2. split; [done|].
      apply reaches_fields in Hreach as (Hi2 & _ & _ & Hb & _).
      split; [lia|]. rewrite <- Hbefore. congruence.
    + intros (s2 & Hreach & _ & Heq).
      destruct (loop_body_reaches _ _ _ _ _ _ _ Hreach) as [tr' Hb'].
      apply reaches_fields in Hreach as (_ & _ & _ & Hb & _).
      rewrite bool_decide_eq_true_2 in Hb'.
      2:{ rewrite <- Hbefore in Heq. congruence. }
      rewrite Hb' in Hbody. inversion Hbody; subst.
      by exists (set_oscillations s2).
  - intros tr o Hbody. split.
    + intros (s' & -> & _).
      apply loop_body_inv in Hbody as (s2 & Hreach & Heq & _).
      exists s2. split; [done|].
      apply reaches_fields in Hreach as (Hi2 & _ & _ & Hb & _).
      split; [done|]. rewrite <- Heq, Hb. done.
    + intros (s2 & Hreach & _ & Heq).
      destruct (loop_body_reaches _ _ _ _ _ _ _ Hreach) as [tr' Hb'].
      apply reaches_fields in Hreach as (_ & _ & _ & Hb & _).
      rewrite bool_decide_eq_true_2 in Hb' by (by rewrite Hb, Heq).
      rewrite Hb' in Hbody. inversion Hbody; subst.
      by exists (set_oscillations s2).
Qed.

End Controller.

(** ** Sensitivity numbers for the failure index *)

Lemma max2_cases (a b : Q) :
  a <= Py.max2 a b /\ b <= Py.max2 a b /\ (Py.max2 a b = a \/ Py.max2 a b = b).
Proof.
  unfold Py.max2. destruct (Qlt_le_dec a b); repeat split; auto; lra.
Qed.

Lemma fold_max2_cases (l : list Q) (a : Q) :
  a <= fold_left Py.max2 l a
  /\ (forall y, y ∈ l -> y <= fold_left Py.max2 l a)
  /\ (fold_left Py.max2 l a = a \/ fold_left Py.max2 l a ∈ l).
Proof.
  revert a. induction l as [|b l IH]; intros a; simpl.
  - split; [lra|]. split; [|by left]. intros y Hy. by apply elem_of_nil in Hy.
  - destruct (IH (Py.max2 a b)) as (H1 & H2 & H3).
    destruct (max2_cases a b) as (Ha & Hb & Hab).
    split; [lra|]. split.
    + intros y Hy. apply elem_of_cons in Hy as [->|Hy]; [lra|by apply H2].
    + destruct H3 as [H3|H3].
      * rewrite H3. destruct Hab as [->| ->]; [by left|right; by left].
      * right. by right.
Qed.

Lemma max_Ok (l : list Q) (x : Q) :
  Py.max l = Ok x -> x ∈ l /\ forall y, y ∈ l -> y <= x.
Proof.
  destruct l as [|a l]; [done|]. simpl. intros [= <-].
  destruct (fold_max2_cases l a) as (H1 & H2 & H3). split.
  - destruct H3 as [-> |H3]; [by left|by right].
  - intros y Hy. apply elem_of_cons in Hy as [->|Hy]; [done|by apply H2].
Qed.

Section FailureIndex.

Variable cfg : config.
Variable m : mesh.
Variable r : results.
Hypothesis base : optimization_base cfg = failure_index.
Hypothesis filled : domain_FI_filled cfg = true.

(** The loop over the steps for one element, started with [fmax0] *)
Lemma steps_loop (en : Z) (ps : list (nat * gmap Z (list (option Q))))
    (fmax0 fmax : Q) (enlist0 enlist : list Q) :
  Py.for_each ps (step_body cfg r en) (fmax0, enlist0) = Ok (fmax, enlist) ->
  let ratios :=
    concat (map (fun step : gmap Z (list (option Q)) =>
                   match step !! en with
                   | Some fi => drop_None fi
                   | None => []
                   end) (snd <$> ps)) in
  fmax0 <= fmax
  /\ (forall y, y ∈ ratios -> y <= fmax)
  /\ (fmax = fmax0 \/ fmax ∈ ratios)
  /\ (ps ≠ [] -> ratios ≠ []).
Proof.
  revert fmax0 enlist0. induction ps as [|[sn step] ps IH]; intros fmax0 enlist0 H.
  - simpl in H. inversion H; subst. simpl. split; [lra|]. split.
    + intros y Hy. by apply elem_of_nil in Hy.
    + split; [by left|done].
  - cbn [Py.for_each] in H.
    apply rbind_Ok in H as ([f1 e1] & Hstep & H).
    unfold step_body in Hstep. rewrite filled, base in Hstep.
    apply rbind_Ok in Hstep as (f1' & Hf & Hstep).
    apply rbind_Ok in Hf as (fi & Hfi & Hf).
    apply rbind_Ok in Hf as (x & Hx & Hf).
    rinv.
    unfold Py.getitem in Hfi. destruct (step !! en) as [fi'|] eqn:Hlook; [|done].
    simpl in Hfi. inversion Hfi; subst; clear Hfi.
    apply max_Ok in Hx as [Hin Hmax].
    apply IH in H as (H1 & H2 & H3 & _). clear IH.
    destruct (max2_cases fmax0 x) as (Ha & Hb & Hab).
    cbn [fmap list_fmap map concat snd]. rewrite Hlook.
    split; [lra|]. split; [|split].
    + intros y Hy. apply elem_of_app in Hy as [Hy|Hy]; [|by apply H2].
      specialize (Hmax y Hy). lra.
    + destruct H3 as [->|H3].
      * destruct Hab as [->| ->]; [by left|]. right. apply elem_of_app. by left.
      * right. apply elem_of_app. by right.
    + intros _ Hnil. apply app_eq_nil in Hnil as [Hnil _].
      rewrite Hnil in Hin. by apply elem_of_nil in Hin.
Qed.

Lemma snd_enumerate {A} (l : list A) : snd <$> Py.enumerate l = l.
Proof.
  unfold Py.enumerate. rewrite fmap_imap.
  rewrite <- (list_fmap_id l) at 2. by rewrite <- imap_const.
Qed.

(** [FI_step_max[en]] is the greatest failure ratio of the element when the
    ratios are not negative. *)
Lemma element_steps_maximum (en : Z) (fmax : Q) (enlist : list Q) :
  FI_step r ≠ [] ->
  (forall y, y ∈ failure_ratios r en -> 0 <= y) ->
  element_steps cfg r en = Ok (fmax, enlist) ->
  is_maximum fmax (failure_ratios r en).
Proof.
  intros Hsteps Hpos H. unfold element_steps in H.
  apply steps_loop in H. rewrite snd_enumerate in H.
  fold (failure_ratios r en) in H. destruct H as (H0 & Hub & Hatt & Hne).
  split; [|done].
  destruct Hatt as [->|Hin]; [|by exists fmax].
  assert (Hnil : failure_ratios r en ≠ []).
  { apply Hne. intros Henum. apply Hsteps. by rewrite <- (snd_enumerate (FI_step r)), Henum. }
  destruct (failure_ratios r en) as [|y l] eqn:E; [done|].
  exists y. split; [by left|].
  assert (y <= 0) by (apply Hub; by left).
  assert (0 <= y) by (apply Hpos; by left). lra.
Qed.

Variable s : state.

#[local] Abbreviation failure_index_sensitivity := (failure_index_sensitivity r s).

Hypothesis steps : FI_step r ≠ [].

Lemma sensitivity_element_sets (dno : nat) (d : domain) (e : Z) (v v' : sens_vars) :
  (forall y, y ∈ failure_ratios r e -> 0 <= y) ->
  sensitivity_element cfg m r (elm_states s) (i s) dno d e v = Ok v' ->
  exists x, v_sensitivity_number v' = <[e := x]> (v_sensitivity_number v)
            /\ failure_index_sensitivity d e x.
Proof.
  intros Hpos H. unfold sensitivity_element in H.
  apply rbind_Ok in H as ([fmax enlist] & Hsteps & H).
  apply rbind_Ok in H as (x & Hx & H).
  apply rbind_Ok in H as (rows & _ & H).
  inversion H; subst; clear H. cbn [v_sensitivity_number].
  unfold element_sensitivity in Hx. rewrite base in Hx.
  apply rbind_Ok in Hx as (st & Hst & Hx).
  apply rbind_Ok in Hx as (rho & Hrho & Hx).
  apply rbind_Ok in Hx as (q & Hq & Hx).
  inversion Hx; subst; clear Hx.
  apply div_Ok in Hq as [Hnz ->].
  unfold Py.getitem in Hst. destruct (elm_states s !! e) as [st'|] eqn:E; [|done].
  simpl in Hst. inversion Hst; subst; clear Hst.
  eexists. split; [done|]. exists st, rho, fmax.
  repeat (split; [done|]). split; [|done].
  by apply (element_steps_maximum e fmax enlist).
Qed.

(** After the loop over the elements of a domain that contains [en] *)
Lemma sensitivity_elements_set (dno : nat) (d : domain) (en : Z) (v v' : sens_vars) :
  (forall y, y ∈ failure_ratios r en -> 0 <= y) ->
  en ∈ domains d ->
  Py.for_each (domains d) (sensitivity_element cfg m r (elm_states s) (i s) dno d) v
  = Ok v' ->
  exists x, v_sensitivity_number v' !! en = Some x /\ failure_index_sensitivity d en x.
Proof.
  intros Hpos Hin H.
  apply list_elem_of_split in Hin as (l1 & l2 & Hsplit). rewrite Hsplit in H.
  rewrite for_each_app in H. apply rbind_Ok in H as (v1 & _ & H).
  cbn [Py.for_each] in H. apply rbind_Ok in H as (v2 & Hen & H).
  apply (sensitivity_element_sets dno d en v1 v2 Hpos) in Hen as (x & Hv2 & Hx).
  revert H.
  apply (for_each_invariant
           (fun t => exists x, v_sensitivity_number t !! en = Some x
                               /\ failure_index_sensitivity d en x)).
  - intros e t t' _ (x' & Hlook & Hx') He.
    unfold sensitivity_element in He.
    apply rbind_Ok in He as ([fmax enlist] & Hsteps & He).
    apply rbind_Ok in He as (y & Hy & He).
    apply rbind_Ok in He as (rows & _ & He).
    inversion He; subst; clear He. cbn [v_sensitivity_number].
    destruct y as [y|]; [|eauto].
    destruct (decide (e = en)) as [->|Hne].
    + unfold element_sensitivity in Hy. rewrite base in Hy.
      apply rbind_Ok in Hy as (st & Hst & Hy).
      apply rbind_Ok in Hy as (rho & Hrho & Hy).
      apply rbind_Ok in Hy as (q & Hq & Hy).
      inversion Hy; subst; clear Hy.
      apply div_Ok in Hq as [Hnz ->].
      unfold Py.getitem in Hst. destruct (elm_states s !! en) as [st'|] eqn:E; [|done].
      simpl in Hst. inversion Hst; subst; clear Hst.
      eexists. split; [apply lookup_insert_eq|].
      exists st, rho, fmax. repeat (split; [done|]). split; [|done].
      by apply (element_steps_maximum en fmax enlist).
    + exists x'. split; [|done]. by rewrite lookup_insert_ne.
  - exists x. split; [|done]. rewrite Hv2. apply lookup_insert_eq.
Qed.

(** The elements of other domains leave the sensitivity number of [en]. *)
Lemma sensitivity_domain_keeps (p : nat * domain) (en : Z) (v v' : sens_vars) :
  en ∉ domains (snd p) ->
  sensitivity_domain cfg m r (elm_states s) (i s) p v = Ok v' ->
  v_sensitivity_number v' !! en = v_sensitivity_number v !! en.
Proof.
  destruct p as [dno d]. intros Hnot H. unfold sensitivity_domain in H.
  apply rbind_Ok in H as (rows & _ & H).
  assert (Hgen : forall l v0,
            en ∉ l ->
            Py.for_each l (sensitivity_element cfg m r (elm_states s) (i s) dno d) v0
            = Ok v' ->
            v_sensitivity_number v' !! en = v_sensitivity_number v0 !! en).
  { clear. induction l as [|e l IH]; intros v0 Hl Hrun.
    - by inversion Hrun.
    - apply not_elem_of_cons in Hl as [Hne Hl].
      cbn [Py.for_each] in Hrun. apply rbind_Ok in Hrun as (v1 & He & Hrun).
      rewrite (IH v1 Hl Hrun).
      unfold sensitivity_element in He.
      apply rbind_Ok in He as ([fmax enlist] & _ & He).
      apply rbind_Ok in He as (y & _ & He).
      apply rbind_Ok in He as (rows' & _ & He).
      inversion He; subst; clear He. cbn [v_sensitivity_number].
      destruct y; [by rewrite lookup_insert_ne|done]. }
  by rewrite (Hgen _ _ Hnot H).
Qed.

Lemma enumerate_split {A} (l1 l2 : list A) (x : A) :
  exists ps2, Py.enumerate (l1 ++ x :: l2)
              = Py.enumerate l1 ++ (length l1, x) :: ps2
              /\ snd <$> ps2 = l2.
Proof.
  unfold Py.enumerate. rewrite imap_app, imap_cons.
  eexists. split; [by rewrite Nat.add_0_r|].
  rewrite fmap_imap.
  rewrite <- (list_fmap_id l2) at 2. by rewrite <- imap_const.
Qed.

(** C9.  With the failure index as objective and failure limits defined,
    when the sensitivity numbers are computed from results with at least one
    load step and failure ratios that are not negative, every element [en] of
    a configured domain [d] (the last one that lists it) gets as sensitivity
    number the greatest of its failure ratios over all steps and criteria
    divided by the density of its present state in the density table of
    [d]. *)
Theorem failure_index_sensitivity_is_maximum_over_density
    (v : sens_vars) (ds1 ds2 : list domain) (d : domain) (en : Z) :
  sensitivities cfg m r s = Ok v ->
  domains_from_config cfg = ds1 ++ d :: ds2 ->
  en ∈ domains d ->
  (forall d', d' ∈ ds2 -> en ∉ domains d') ->
  (forall y, y ∈ failure_ratios r en -> 0 <= y) ->
  exists st rho fmax,
    elm_states s !! en = Some st
    /\ Py.index (domain_density d) st = Ok rho
    /\ ~ rho == 0
    /\ is_maximum fmax (failure_ratios r en)
    /\ v_sensitivity_number v !! en = Some (fmax / rho).
Proof.
  intros H Hds Hin Hlater Hpos. unfold sensitivities in H. rewrite Hds in H.
  destruct (enumerate_split ds1 ds2 d) as (ps2 & Henum & Hps2).
  rewrite Henum in H. clear Henum.
  rewrite for_each_app in H. apply rbind_Ok in H as (v1 & _ & H).
  cbn [Py.for_each] in H. apply rbind_Ok in H as (v2 & Hd & H).
  unfold sensitivity_domain in Hd. apply rbind_Ok in Hd as (rows & _ & Hd).
  apply (sensitivity_elements_set _ d en _ v2 Hpos Hin) in Hd as (x & Hx & Hspec).
  assert (Hkeep : v_sensitivity_number v !! en = v_sensitivity_number v2 !! en).
  { revert H.
    apply (for_each_invariant
             (fun t => v_sensitivity_number t !! en = v_sensitivity_number v2 !! en));
      [|done].
    intros p t t' Hp Ht Hrun.
    rewrite (sensitivity_domain_keeps p en t t'); [done| |done].
    apply Hlater. rewrite <- Hps2. apply list_elem_of_fmap. by exists p. }
  destruct Hspec as (st & rho & fmax & ? & ? & ? & ? & ->).
  exists st, rho, fmax. repeat (split; [done|]). congruence.
Qed.

End FailureIndex.

(** ** Mass correction after a state filter *)

Section StateFilter.

Variable env : environment.
Variable cfg : config.
Variable m : mesh.
Variable i : nat.

#[local] Abbreviation correct_element := (correct_element m i).

Lemma for_each_map {A B S} (g : A -> B) (l : list A) (f : B -> S -> result S) (s : S) :
  Py.for_each (map g l) f s = Py.for_each l (fun x => f (g x)) s.
Proof.
  revert s. induction l as [|x l IH]; intros s; simpl; [done|].
  destruct (f (g x) s); simpl; [apply IH|done].
Qed.

Lemma for_each_concat {A B S} (g : A -> list B) (l : list A)
    (f : B -> S -> result S) (s : S) :
  Py.for_each (concat (map g l)) f s
  = Py.for_each l (fun x => Py.for_each (g x) f) s.
Proof.
  revert s. induction l as [|x l IH]; intros s; simpl; [done|].
  rewrite for_each_app. destruct (Py.for_each (g x) f s); simpl; [apply IH|done].
Qed.

Lemma for_each_ext {A S} (l : list A) (f g : A -> S -> result S) (s : S) :
  (forall x t, f x t = g x t) -> Py.for_each l f s = Py.for_each l g s.
Proof.
  intros Hfg. revert s. induction l as [|x l IH]; intros s; simpl; [done|].
  rewrite Hfg. destruct (g x s); simpl; [apply IH|done].
Qed.

(** The nested loops are one loop over the elements of the ledger. *)
Lemma mass_difference_flat (filtered : gmap Z Z) (acc : gmap Z Z * list Q) :
  mass_difference cfg m i filtered acc
  = Py.for_each (optimized_elements cfg) (correct_element filtered) acc.
Proof.
  unfold mass_difference, optimized_elements. rewrite for_each_concat.
  apply for_each_ext. intros d t. unfold correct_domain.
  destruct (domain_optimized d); [|done].
  rewrite for_each_app, for_each_map.
  change (Py.for_each (domain_shells d)
            (fun x => correct_element filtered (d, true, x)) t)
    with (Py.for_each (domain_shells d) (correct_shell m d i filtered) t).
  destruct (Py.for_each (domain_shells d) (correct_shell m d i filtered) t);
    simpl; [|done].
  rewrite for_each_map. reflexivity.
Qed.

Lemma shell_mass_Ok (d : domain) (en st : Z) (rho a t : Q) :
  Py.index (domain_density d) st = Ok rho ->
  Py.getitem (area_elm m) en = Ok a ->
  Py.index (domain_thickness d) st = Ok t ->
  elm_mass m (d, true, en) st = rho * a * t.
Proof. intros H1 H2 H3. unfold elm_mass, shell_mass. by rewrite H1, H2, H3. Qed.

Lemma volume_mass_Ok (d : domain) (en st : Z) (rho v : Q) :
  Py.index (domain_density d) st = Ok rho ->
  Py.getitem (volume_elm m) en = Ok v ->
  elm_mass m (d, false, en) st = rho * v.
Proof. intros H1 H2. unfold elm_mass, volume_mass. by rewrite H1, H2. Qed.

Lemma getitem_Ok {V} (d : gmap Z V) (k : Z) (x : V) :
  Py.getitem d k = Ok x <-> d !! k = Some x.
Proof.
  unfold Py.getitem. destruct (d !! k); simpl; split; congruence.
Qed.

(** One element of the ledger: the state becomes the filtered one, and if
    it changed the entry [mass[i]] grows by the change of the element's
    mass. *)
Lemma correct_element_Ok (filtered : gmap Z Z) (p : domain * bool * Z)
    (es es1 : gmap Z Z) (mass mass1 : list Q) :
  correct_element filtered p (es, mass) = Ok (es1, mass1) ->
  exists old new,
    es !! snd p = Some old /\ filtered !! snd p = Some new
    /\ es1 = <[snd p := new]> es
    /\ ((old = new /\ mass1 = mass)
        \/ (old ≠ new /\ exists x y,
               mass !! i = Some x /\ mass1 = <[i := y]> mass
               /\ y == x + (elm_mass m p new - elm_mass m p old))).
Proof.
  destruct p as [[d is_shell] en]. unfold correct_element. cbn [fst snd].
  destruct is_shell.
  - unfold correct_shell. intros H.
    apply rbind_Ok in H as (old & Hold & H). apply rbind_Ok in H as (new & Hnew & H).
    apply getitem_Ok in Hold, Hnew. exists old, new. repeat (split; [done|]).
    case_bool_decide as Hne.
    + rinv.
      match goal with H : Py.index mass _ = _ |- _ => apply index_nat in H end.
      split; [done|]. right. split; [done|]. eexists _, _.
      split; [eassumption|]. split; [done|].
      rewrite (shell_mass_Ok d en new _ _ _ ltac:(eassumption) ltac:(eassumption)
                 ltac:(eassumption)).
      rewrite (shell_mass_Ok d en old _ _ _ ltac:(eassumption) ltac:(eassumption)
                 ltac:(eassumption)).
      ring.
    + inversion H; subst; clear H.
      split; [by rewrite insert_id|]. by left.
  - unfold correct_volume. intros H.
    apply rbind_Ok in H as (old & Hold & H). apply rbind_Ok in H as (new & Hnew & H).
    apply getitem_Ok in Hold, Hnew. exists old, new. repeat (split; [done|]).
    case_bool_decide as Hne.
    + rinv.
      match goal with H : Py.index mass _ = _ |- _ => apply index_nat in H end.
      split; [done|]. right. split; [done|]. eexists _, _.
      split; [eassumption|]. split; [done|].
      rewrite (volume_mass_Ok d en new _ _ ltac:(eassumption) ltac:(eassumption)).
      rewrite (volume_mass_Ok d en old _ _ ltac:(eassumption) ltac:(eassumption)).
      ring.
    + inversion H; subst; clear H.
      split; [by rewrite insert_id|]. by left.
Qed.

Lemma Qsum_ext {A} (f g : A -> Q) (l : list A) :
  (forall p, p ∈ l -> f p == g p) -> Qsum (map f l) == Qsum (map g l).
Proof.
  induction l as [|p l IH]; intros H; simpl; [reflexivity|].
  rewrite (H p) by apply list_elem_of_here.
  rewrite IH; [reflexivity|]. intros q Hq. apply H. by apply list_elem_of_further.
Qed.

Lemma mass_change_same (es1 es2 es' : gmap Z Z) (p : domain * bool * Z) :
  es1 !! snd p = es2 !! snd p ->
  mass_change m es1 es' p = mass_change m es2 es' p.
Proof. intros H. unfold mass_change. by rewrite H. Qed.

(** The loop over the elements of the ledger for one filtered assignment *)
Lemma correct_elements_Ok (filtered : gmap Z Z) (l : list (domain * bool * Z)) :
  NoDup (snd <$> l) ->
  forall (es es' : gmap Z Z) (mass mass' : list Q),
    Py.for_each l (correct_element filtered) (es, mass) = Ok (es', mass') ->
    (forall en, is_Some (es' !! en) <-> is_Some (es !! en))
    /\ (forall en, en ∉ (snd <$> l) -> es' !! en = es !! en)
    /\ (forall j, j ≠ i -> mass' !! j = mass !! j)
    /\ (forall x, mass !! i = Some x ->
          exists x', mass' !! i = Some x'
                     /\ x' == x + Qsum (map (mass_change m es es') l)).
Proof.
  induction l as [|p l IH]; intros Hnd es es' mass mass' H.
  - inversion H; subst. repeat (split; [done|]).
    intros x Hx. exists x. split; [done|]. simpl. ring.
  - rewrite fmap_cons in Hnd. apply NoDup_cons in Hnd as [Hnotin Hnd].
    cbn [Py.for_each] in H. apply rbind_Ok in H as ([es1 mass1] & Hp & H).
    apply correct_element_Ok in Hp as (old & new & Hold & Hnew & -> & Hmass).
    destruct (IH Hnd _ _ _ _ H) as (Hdom & Hout & Hothers & Hsum). clear IH H.
    assert (Hen : es' !! snd p = Some new).
    { rewrite (Hout _ Hnotin). apply lookup_insert_eq. }
    assert (Hrest : Qsum (map (mass_change m (<[snd p := new]> es) es') l)
                    == Qsum (map (mass_change m es es') l)).
    { apply Qsum_ext. intros q Hq.
      rewrite (mass_change_same (<[snd p := new]> es) es); [reflexivity|].
      apply lookup_insert_ne. intros Heq. apply Hnotin. rewrite Heq.
      apply list_elem_of_fmap. by exists q. }
    split; [|split; [|split]].
    + intros en. rewrite Hdom. destruct (decide (snd p = en)) as [<-|Hne].
      * rewrite lookup_insert_eq, Hold. split; eauto.
      * by rewrite lookup_insert_ne.
    + intros en Hen'. rewrite fmap_cons in Hen'.
      apply not_elem_of_cons in Hen' as [Hne Hen'].
      rewrite (Hout _ Hen'). by apply lookup_insert_ne.
    + intros j Hj. rewrite (Hothers j Hj).
      destruct Hmass as [[_ ->]|(_ & x & y & _ & -> & _)]; [done|].
      by apply list_lookup_insert_ne.
    + intros x Hx. cbn [map Qsum fold_right]. fold (Qsum (map (mass_change m es es') l)).
      destruct Hmass as [[-> ->]|(Hne & x0 & y & Hx0 & -> & Hy)].
      * destruct (Hsum x Hx) as (x' & Hx' & Heq). exists x'. split; [done|].
        rewrite Heq, Hrest. unfold mass_change at 2. rewrite Hold, Hen.
        rewrite decide_True by done. ring.
      * assert (x0 = x) as -> by congruence.
        assert (Hy' : <[i := y]> mass !! i = Some y).
        { apply list_lookup_insert_eq. by eapply lookup_lt_Some. }
        destruct (Hsum y Hy') as (x' & Hx' & Heq). exists x'. split; [done|].
        rewrite Heq, Hrest, Hy. unfold mass_change at 2. rewrite Hold, Hen.
        rewrite decide_False by done. ring.
Qed.

(** Two corrections in a row add up. *)
Lemma correction_add (es es1 es' : gmap Z Z) :
  (forall en, is_Some (es1 !! en) <-> is_Some (es !! en)) ->
  (forall en, is_Some (es' !! en) <-> is_Some (es1 !! en)) ->
  correction cfg m es es1 + correction cfg m es1 es' == correction cfg m es es'.
Proof.
  intros H1 H2. unfold correction.
  induction (optimized_elements cfg) as [|p l IH]; simpl; [ring|].
  fold (Qsum (map (mass_change m es es1) l)).
  fold (Qsum (map (mass_change m es1 es') l)).
  fold (Qsum (map (mass_change m es es') l)).
  rewrite <- IH.
  assert (mass_change m es es1 p + mass_change m es1 es' p
          == mass_change m es es' p) as <-; [|ring].
  unfold mass_change. specialize (H1 (snd p)). specialize (H2 (snd p)).
  destruct (es !! snd p) as [a|] eqn:Ea.
  - destruct (es1 !! snd p) as [b|] eqn:Eb.
    2:{ destruct (proj2 H1 ltac:(eauto)) as [? ?]. done. }
    destruct (es' !! snd p) as [c|] eqn:Ec.
    2:{ destruct (proj2 H2 ltac:(eauto)) as [? ?]. done. }
    repeat case_decide; subst; try done; ring.
  - destruct (es1 !! snd p) as [b|] eqn:Eb.
    { destruct (proj1 H1 ltac:(eauto)) as [? ?]. done. }
    destruct (es' !! snd p); ring.
Qed.

Lemma correction_refl (es : gmap Z Z) : correction cfg m es es == 0.
Proof.
  unfold correction. induction (optimized_elements cfg) as [|p l IH]; simpl;
    [reflexivity|].
  fold (Qsum (map (mass_change m es es) l)). rewrite IH.
  unfold mass_change. destruct (es !! snd p); [|ring].
  rewrite decide_True by done. ring.
Qed.

(** When no element of the ledger has another state than before, nothing
    is added. *)
Lemma correction_unchanged (es es' : gmap Z Z) :
  (forall p, p ∈ optimized_elements cfg -> es' !! snd p = es !! snd p) ->
  correction cfg m es es' == 0.
Proof.
  unfold correction. generalize (optimized_elements cfg).
  induction l as [|p l IH]; intros H; simpl; [reflexivity|].
  fold (Qsum (map (mass_change m es es') l)).
  rewrite IH by (intros q Hq; apply H; by apply list_elem_of_further).
  unfold mass_change. rewrite (H p) by apply list_elem_of_here.
  destruct (es !! snd p); [|ring]. rewrite decide_True by done. ring.
Qed.

#[local] Abbreviation corrected := (ledger_corrected cfg m i).

Hypothesis once : NoDup (snd <$> optimized_elements cfg).

Lemma corrected_refl (es : gmap Z Z) (mass : list Q) : corrected es mass es mass.
Proof.
  split; [done|]. split; [done|]. intros x Hx. exists x. split; [done|].
  rewrite correction_refl. ring.
Qed.

Lemma corrected_trans (es es1 es' : gmap Z Z) (mass mass1 mass' : list Q) :
  corrected es mass es1 mass1 -> corrected es1 mass1 es' mass' ->
  corrected es mass es' mass'.
Proof.
  intros (D1 & O1 & S1) (D2 & O2 & S2). split; [|split].
  - intros en. by rewrite D2, D1.
  - intros j Hj. by rewrite O2, O1.
  - intros x Hx. destruct (S1 x Hx) as (x1 & Hx1 & E1).
    destruct (S2 x1 Hx1) as (x' & Hx' & E2). exists x'. split; [done|].
    rewrite E2, E1, <- (correction_add es es1 es' D1 D2). ring.
Qed.

Lemma mass_difference_corrected (filtered es es' : gmap Z Z) (mass mass' : list Q) :
  mass_difference cfg m i filtered (es, mass) = Ok (es', mass') ->
  corrected es mass es' mass'.
Proof.
  rewrite mass_difference_flat. intros H.
  destruct (correct_elements_Ok filtered _ once _ _ _ _ H) as (D & _ & O & S).
  done.
Qed.

Lemma filter_state_corrected (FI : gmap Z Q) (ft : filter_t) (es es' : gmap Z Z)
    (mass mass' : list Q) (tr : list event) :
  filter_state env cfg m i FI ft (es, mass) = (tr, Ok (es', mass')) ->
  corrected es mass es' mass'.
Proof.
  unfold filter_state. intros H. winv_all H. lift_inv.
  destruct a as [l|].
  - winv_all H. lift_inv. by eapply mass_difference_corrected.
  - lift_inv. apply corrected_refl.
Qed.

Lemma filter_states_corrected (FI : gmap Z Q) (fts : list filter_t) :
  forall (es es' : gmap Z Z) (mass mass' : list Q) (tr : list event),
    filter_states env cfg m i FI fts (es, mass) = (tr, Ok (es', mass')) ->
    corrected es mass es' mass'.
Proof.
  induction fts as [|ft fts IH]; intros es es' mass mass' tr H.
  - cbn [filter_states] in H. lift_inv. apply corrected_refl.
  - cbn [filter_states] in H. winv H. destruct a as [es1 mass1].
    eapply corrected_trans; [by eapply filter_state_corrected|by eapply IH].
Qed.

(** C5.  When every element of the optimised domains is in the ledger once:
    after the state filters of an iteration, the ledger entry [mass[i]] is
    the entry left by the switching plus the sum, over the elements whose
    state the filters changed, of the element's mass in the new state minus
    its mass in the old state (density times area times thickness for a
    shell, density times volume for a volume element); the other entries are
    as before; [mass_excess] is that sum.  When no element has another state
    than before, [mass_excess] is 0 and the entry is unchanged. *)
Theorem state_filter_corrects_mass_by_changed_elements
    (FI : gmap Z Q) (es es' : gmap Z Z) (mass mass' : list Q) (excess : Q)
    (tr : list event) :
  filtering_state env cfg m i FI es mass = (tr, Ok (es', mass', excess)) ->
  exists x x',
    mass !! i = Some x /\ mass' !! i = Some x'
    /\ x' == x + correction cfg m es es'
    /\ excess == correction cfg m es es'
    /\ (forall j, j ≠ i -> mass' !! j = mass !! j)
    /\ ((forall p, p ∈ optimized_elements cfg -> es' !! snd p = es !! snd p) ->
        excess == 0 /\ x' == x).
Proof.
  unfold filtering_state. intros H. winv_all H. lift_inv.
  match goal with H : filter_states _ _ _ _ _ _ _ = _ |- _ =>
    apply filter_states_corrected in H as (_ & Hothers & Hsum) end.
  repeat match goal with H : Py.index _ _ = Ok _ |- _ => apply index_nat in H end.
  match goal with H : mass !! i = Some ?x |- _ =>
    destruct (Hsum x H) as (x' & Hx' & Heq); exists x, x' end.
  match goal with H : mass' !! i = Some ?y |- _ =>
    assert (y = x') as -> by congruence end.
  repeat (split; [done|]). split; [rewrite Heq; ring|]. split; [done|].
  intros Hsame. rewrite Heq, (correction_unchanged _ _ Hsame). split; ring.
Qed.

End StateFilter.

(** The second half of the loop body sets the goal, calls the switching and
    filters the states; the variables [elm_states], [mass] and [mass_excess]
    are what the filtering leaves. *)
Lemma second_half_filtering (env : environment) (cfg : config) (m : mesh)
    (mass_full : Q) (s s2 : state) (tr : list event) :
  second_half env cfg m mass_full s = (tr, Ok s2) ->
  exists g w tr1 tr2 tr3,
    set_mass_goal cfg mass_full (S (i s)) s = (tr1, Ok g)
    /\ call_switching env cfg mass_full (S (i s)) s g = (tr2, Ok w)
    /\ filtering_state env cfg m (S (i s)) (FI_step_max s) (w_elm_states w) (w_mass w)
       = (tr3, Ok (elm_states s2, mass s2, mass_excess s2)).
Proof.
  unfold second_half. intros H. winv_all H. lift_inv. simpl. eauto 10.
Qed.

(** [mass_excess] is kept by the first half of the next pass and handed to
    [beso_lib.switching] in its second half. *)
Lemma mass_excess_carried (env : environment) (cfg : config) (m : mesh)
    (mass_full : Q) (s s1 : state) (g : goal_vars) (w : switched)
    (tr tr' : list event) :
  first_half env cfg m s = (tr, Ok s1) ->
  call_switching env cfg mass_full (S (i s1)) s1 g = (tr', Ok w) ->
  exists a r, switching env a = Ok r /\ sa_mass_excess a = mass_excess s
              /\ sa_i a = S (i s).
Proof.
  intros H1 H2.
  assert (mass_excess s1 = mass_excess s /\ i s1 = i s) as [He Hi].
  { unfold first_half, after_solver in H1. winv_all H1. lift_inv. done. }
  unfold call_switching in H2. winv_all H2. lift_inv.
  eexists _, _. split; [eassumption|]. simpl. by rewrite He, Hi.
Qed.

(** ** The properties on the small model *)

Section Examples.

Import Demo.

(** Initialisation from [continue_from = 2]: the solid domain has two
    states and is set to its highest state 1, with an INFO line; the shell
    domain has three states and is set to state 2. *)
Lemma continue_from_int_witness :
  exists es : gmap Z Z,
    init_elm_states importers (conf_continue 2)
    = (clamped_events 2 (domains_from_config (conf_continue 2)), Ok es)
    /\ es !! 1%Z = Some (Z.min 2 (Z.of_nat (length (domain_density d)) - 1))
    /\ ((0 <= 2)%Z -> (1 <= length (domain_density d))%nat ->
        (0 <= Z.min 2 (Z.of_nat (length (domain_density d)) - 1)
           < Z.of_nat (length (domain_density d)))%Z).
Proof.
  apply (continue_from_int_clamps_to_highest_state
           importers (conf_continue 2) 2 [] [shell_domain] d 1).
  - reflexivity.
  - reflexivity.
  - apply list_elem_of_here.
  - intros d' Hd'. apply list_elem_of_singleton in Hd'. subst d'.
    simpl. intros Hin.
    apply elem_of_cons in Hin as [Hin|Hin]; [discriminate Hin|].
    apply elem_of_cons in Hin as [Hin|Hin]; [discriminate Hin|].
    by apply elem_of_nil in Hin.
Defined.

Example continue_from_int_states :
  init_elm_states importers (conf_continue 2)
  = ([INFO_highest_state d],
     Ok (<[1%Z := 1%Z]> (<[2%Z := 1%Z]> (<[3%Z := 2%Z]> (<[4%Z := 2%Z]> ∅))))).
Proof. vm_compute. reflexivity. Qed.

(** The automatic limit in exact arithmetic for a goal of 95 % at a net
    removal of 2 % *)
Lemma automatic_iterations_limit_exact :
  exists n : nat,
    steps_down (1 - (mass_removal_ratio (conf_with auto (95 # 100))
                     - mass_addition_ratio (conf_with auto (95 # 100))))
      (2 / 2) (mass_goal_ratio (conf_with auto (95 # 100))) n
    /\ forall fuel, (n < fuel)%nat ->
         auto_iterations_limit fuel (conf_with auto (95 # 100)) 2 2
         = Ok (Some (limit (Z.of_nat n + 25))).
Proof.
  apply (automatic_iterations_limit (conf_with auto (95 # 100)) 2 2).
  - reflexivity.
  - intros H. discriminate H.
  - reflexivity.
  - reflexivity.
  - reflexivity.
Qed.

Example automatic_iterations_limit_value :
  auto_iterations_limit 10 (conf_with auto (95 # 100)) 2 2 = Ok (Some (limit 28)).
Proof. vm_compute. reflexivity. Qed.

(** The automatic limit on doubles, from a full design ([m = 1.0]) and from
    half the full mass ([m = 0.5]): relative removal of 0.1 down to 0.729
    (4 updates), relative addition of 0.1 up to 0.6 (2 updates), absolute
    removal of 0.01 down to 0.92 and absolute addition of 0.01 up to 0.6 *)
Lemma automatic_limit_double_witness :
  iterations_limit_auto 10 relative (Double.of_Z 2) (Double.of_Z 2)
    (Double.of_Q (729 # 1000)) (Double.of_Q (1 # 10)) (Double.of_Q 0)
  = Ok (Some (limit 29))
  /\ iterations_limit_auto 10 relative (Double.of_Z 1) (Double.of_Z 2)
       (Double.of_Q (6 # 10)) (Double.of_Q 0) (Double.of_Q (1 # 10))
     = Ok (Some (limit 27))
  /\ iterations_limit_auto 10 absolute (Double.of_Z 2) (Double.of_Z 2)
       (Double.of_Q (92 # 100)) (Double.of_Q (1 # 100)) (Double.of_Q 0)
     = Ok (Some (limit 32))
  /\ iterations_limit_auto 10 absolute (Double.of_Z 1) (Double.of_Z 2)
       (Double.of_Q (6 # 10)) (Double.of_Q 0) (Double.of_Q (1 # 100))
     = Ok (Some (limit 35)).
Proof.
  split; [|split; [|split]].
  - destruct (automatic_limit_in_double_arithmetic
                (Double.of_Z 2) (Double.of_Z 2) (Double.of_Q (729 # 1000))
                (Double.of_Q (1 # 10)) (Double.of_Q 0) (Double.of_Z 1)
                ltac:(vm_compute; reflexivity)) as (H & _).
    destruct (H ltac:(vm_compute; reflexivity)) as (Hn & _).
    apply (Hn 4%nat); [|lia]. split; [vm_compute; reflexivity|].
    intros k Hk. do 4 (destruct k as [|k]; [vm_compute; reflexivity|]). lia.
  - destruct (automatic_limit_in_double_arithmetic
                (Double.of_Z 1) (Double.of_Z 2) (Double.of_Q (6 # 10))
                (Double.of_Q 0) (Double.of_Q (1 # 10)) (Double.of_Q (1 # 2))
                ltac:(vm_compute; reflexivity)) as (_ & H & _).
    destruct (H ltac:(vm_compute; reflexivity)) as (Hn & _).
    apply (Hn 2%nat); [|lia]. split; [vm_compute; reflexivity|].
    intros k Hk. do 2 (destruct k as [|k]; [vm_compute; reflexivity|]). lia.
  - destruct (automatic_limit_in_double_arithmetic
                (Double.of_Z 2) (Double.of_Z 2) (Double.of_Q (92 # 100))
                (Double.of_Q (1 # 100)) (Double.of_Q 0) (Double.of_Z 1)
                ltac:(vm_compute; reflexivity)) as (_ & _ & H & _).
    destruct (H ltac:(vm_compute; reflexivity)) as (q & Hq & Hall).
    rewrite Hall. vm_compute in Hq. injection Hq as <-. vm_compute. reflexivity.
  - destruct (automatic_limit_in_double_arithmetic
                (Double.of_Z 1) (Double.of_Z 2) (Double.of_Q (6 # 10))
                (Double.of_Q 0) (Double.of_Q (1 # 100)) (Double.of_Q (1 # 2))
                ltac:(vm_compute; reflexivity)) as (_ & _ & _ & H & _).
    destruct (H ltac:(vm_compute; reflexivity) ltac:(vm_compute; reflexivity))
      as (q & Hq & Hall).
    rewrite Hall. vm_compute in Hq. injection Hq as <-. vm_compute. reflexivity.
Defined.

(** C7 fails on ordinary settings.  From the full mass, with relative
    ratios, a removal of 0.1 and a goal of 0.729, the geometric steps reach
    the goal after 3 steps (1, 0.9, 0.81, 0.729), which gives 28, while the
    script sets the limit to 29: the third update gives a double just above
    0.729 and a fourth one is made.  With absolute ratios, a removal of 0.01
    and a goal of 0.92 the linear step count is 8, which gives 33, while the
    script sets the limit to 32: the quotient is a double just below 8. *)
Lemma automatic_limit_is_not_the_step_count :
  steps_down (1 - ((1 # 10) - 0)) (1 / 1) (729 # 1000) 3
  /\ iterations_limit_auto 10 relative (Double.of_Z 1) (Double.of_Z 1)
       (Double.of_Q (729 # 1000)) (Double.of_Q (1 # 10)) (Double.of_Q 0)
     = Ok (Some (limit (3 + 1 + 25)))
  /\ (linear_steps (1 / 1) (92 # 100) ((1 # 100) - 0) = 8)%Z
  /\ iterations_limit_auto 10 absolute (Double.of_Z 1) (Double.of_Z 1)
       (Double.of_Q (92 # 100)) (Double.of_Q (1 # 100)) (Double.of_Q 0)
     = Ok (Some (limit (8 - 1 + 25))).
Proof.
  split; [|split; [|split]].
  - split; [vm_compute; discriminate|].
    intros k Hk. do 3 (destruct k as [|k]; [vm_compute; reflexivity|]). lia.
  - vm_compute. reflexivity.
  - vm_compute. reflexivity.
  - vm_compute. reflexivity.
Qed.

(** The third update gives the double next above the double of 0.729. *)
Example double_after_the_third_update :
  after_removals (Double.of_Z 1) (Double.of_Q (1 # 10)) (Double.of_Q 0) 3
  = SpecFloat.S754_finite false 6566248256706184 (-53)
  /\ Double.of_Q (729 # 1000) = SpecFloat.S754_finite false 6566248256706183 (-53).
Proof. split; vm_compute; reflexivity. Qed.

(** A second iteration with violated elements and a mass above the goal *)
Lemma violated_goal_witness :
  exists g : goal_vars,
    set_mass_goal conf 2 2 (violated 1) = ([], Ok g)
    /\ (mass_goal_ratio conf * 2 <= 1 -> g_mass_goal_i g = Some 1)
    /\ (1 < mass_goal_ratio conf * 2 ->
        g_mass_goal_i g = Some (mass_goal_ratio conf * 2)).
Proof.
  apply (violated_goal_is_previous_mass_or_final_goal
           conf 2 (violated 1) 1 [5%Z] [0%Z] 1).
  - reflexivity.
  - reflexivity.
  - reflexivity.
  - reflexivity.
  - reflexivity.
Defined.

(** C6 fails when the mass of the previous iteration is below the final
    goal: the run is net-removing, 5 elements are violated against 0 in the
    first iteration with a tolerance of 1, the previous mass is 1/2, and the
    mass goal of the iteration is the final goal 0.4 * 2, not 1/2. *)
Lemma violated_goal_below_final_goal :
  0 < mass_removal_ratio conf - mass_addition_ratio conf
  /\ FI_violated (violated (1 # 2)) !! 1%nat = Some [5%Z]
  /\ FI_violated (violated (1 # 2)) !! 0%nat = Some [0%Z]
  /\ (Py.sum [0%Z] + FI_violated_tolerance conf < Py.sum [5%Z])%Z
  /\ mass (violated (1 # 2)) !! 1%nat = Some (1 # 2)
  /\ exists g : goal_vars,
       set_mass_goal conf 2 2 (violated (1 # 2)) = ([], Ok g)
       /\ g_mass_goal_i g = Some ((4 # 10) * 2)
       /\ ~ (4 # 10) * 2 == 1 # 2.
Proof.
  repeat (split; [reflexivity|]).
  eexists. split; [vm_compute; reflexivity|]. split; [reflexivity|].
  intros H. discriminate H.
Qed.

(** A run whose solver ends every time with exit status 1 while the results
    are there, with designs that go round and no convergence *)
#[local] Abbreviation rising := (fun i : nat => 5 + inject_Z (Z.of_nat i)).

Lemma nonzero_exit_status_witness :
  exists (msg : string) (tr : list event) (o : outcome),
    (1%Z = 201%Z ->
     msg = "ERROR: CalculiX exit status 201. It cannot open inp file.")
    /\ (1%Z = 1%Z ->
        msg = "ERROR: CalculiX exit status 1. There might be invalid path_calculix.")
    /\ (1%Z ≠ 201%Z -> 1%Z ≠ 1%Z ->
        msg = "ERROR: CalculiX exit status " +:+ pretty 1%Z +:+ ".")
    /\ check_exit_status 1 = [Log msg]
    /\ loop_body (with_exit_status (environment_of (fun _ => 1%Z) rising round true) 0)
         conf geometry 2 (limit 10) start
       = (CalculiX (i start) :: tr, o)
    /\ loop_body (with_exit_status (environment_of (fun _ => 1%Z) rising round true) 1)
         conf geometry 2 (limit 10) start
       = (CalculiX (i start) :: Log msg :: tr, o).
Proof.
  apply (nonzero_exit_status_is_logged_and_ignored
           (environment_of (fun _ => 1%Z) rising round true)
           conf geometry 2 (limit 10) start 1).
  discriminate.
Defined.

(** The lines written for the exit statuses 201, 1 and 2 *)
Example exit_status_lines :
  check_exit_status 201
  = [Log "ERROR: CalculiX exit status 201. It cannot open inp file."]
  /\ check_exit_status 1
     = [Log "ERROR: CalculiX exit status 1. There might be invalid path_calculix."]
  /\ check_exit_status 2 = [Log "ERROR: CalculiX exit status 2."]
  /\ check_exit_status 0 = [].
Proof. repeat split; vm_compute; reflexivity. Qed.

(** C1 fails when the solver ends with exit status 1 and the results are
    there: the error is written to the log, no exception is raised and
    [beso_lib.switching] is called in the same pass, which reaches its end. *)
Lemma solver_failure_reaches_switching :
  calculix (environment_of (fun _ => 1%Z) rising round true) 0 (elm_states start)
  = Ok 1%Z
  /\ fst (loop_body (environment_of (fun _ => 1%Z) rising round true)
            conf geometry 2 (limit 10) start)
     = [CalculiX 0;
        Log "ERROR: CalculiX exit status 1. There might be invalid path_calculix.";
        ImportResults 0; LogRow 0; Switching 1]
  /\ exists s, snd (loop_body (environment_of (fun _ => 1%Z) rising round true)
                      conf geometry 2 (limit 10) start)
               = Continue s.
Proof.
  split; [reflexivity|]. split; [vm_compute; reflexivity|].
  eexists. vm_compute. reflexivity.
Qed.

(** C4: the goal mass equals the initial mass in a net-removing run.  The
    warning is written in the first pass, the name [mass_goal_i] is not bound
    and the run ends with [NameError] before [beso_lib.switching] is
    called. *)
Theorem unreachable_mass_goal_aborts_run :
  beso_main 20 importers (environment_of (fun _ => 0%Z) rising round true)
    (conf_with (limit 10) 1) geometry
  = Some ([CalculiX 0; ImportResults 0; LogRow 0; Log WARNING_mass_goal],
          Raised (NameError "mass_goal_i")).
Proof. vm_compute. reflexivity. Qed.

(** A run with designs that alternate from the first iteration on: the
    states of iteration 3 are those of iteration 1. *)
Lemma oscillation_witness :
  exists s,
    passes (environment_of (fun _ => 0%Z) rising alternate false)
      conf geometry 2 (limit 10) 2 start = Some s
    /\ exists s2,
         reaches_oscillation_test (environment_of (fun _ => 0%Z) rising alternate false)
           conf geometry 2 (limit 10) s s2
         /\ i s2 = 3%nat
         /\ Some (elm_states s2)
            = states_after (environment_of (fun _ => 0%Z) rising alternate false)
                conf geometry 2 (limit 10) 1 start.
Proof.
  destruct (oscillation_detected_against_iteration_before_last
              (environment_of (fun _ => 0%Z) rising alternate false)
              conf geometry 2 (limit 10) (states 1 1) 2) as [H _].
  eexists. split; [vm_compute; reflexivity|].
  eapply (H 3%nat); [lia|vm_compute; reflexivity|vm_compute; reflexivity|].
  eexists. split; reflexivity.
Defined.

(** C2 fails in a run without elements: the pass of iteration 1 ends with
    OSCILLATING although there is no iteration two before it. *)
Lemma oscillation_reported_in_first_iteration :
  exists s,
    beso_main 20 importers buckling_solver conf_empty geometry_empty
    = Some ([CalculiX 0; ImportResults 0; LogRow 0; Switching 1; OSCILLATION 1],
            Oscillating s)
    /\ i s = 1%nat /\ oscillations s = true /\ elm_states s = ∅.
Proof. eexists. split; [vm_compute; reflexivity|]. repeat split. Qed.

(** When [beso_lib.switching] updates the dictionary it is given, the
    states of iteration 2 are compared with those of iteration 1: a design
    that changes in the first iteration and then stays as it is ends the run
    with OSCILLATING at iteration 2, though it differs from the initial
    design.  When a new dictionary is returned, the run goes on to
    iteration 3. *)
Example oscillation_at_iteration_2_in_place :
  (exists tr s,
     beso_main 20 importers (environment_of (fun _ => 0%Z) rising settle true)
       conf geometry = Some (tr, Oscillating s)
     /\ i s = 2%nat /\ elm_states s = settle 2 /\ settle 2 ≠ settle 0)
  /\ (exists tr s,
        beso_main 20 importers (environment_of (fun _ => 0%Z) rising settle false)
          conf geometry = Some (tr, Oscillating s)
        /\ i s = 3%nat).
Proof.
  split.
  - eexists _, _. split; [vm_compute; reflexivity|]. repeat split.
    intros H. apply (f_equal (fun es : gmap Z Z => es !! 1%Z)) in H.
    vm_compute in H. discriminate H.
  - eexists _, _. split; [vm_compute; reflexivity|]. reflexivity.
Qed.

(** A run with a constant mean energy density and designs that go round:
    the criterion holds at iteration 5, with 6 recorded values, and the run
    ends there with CONVERGED. *)
Lemma converged_witness :
  exists s,
    passes (environment_of (fun _ => 0%Z) (fun _ => 5) round true)
      conf geometry 2 (limit 10) 5 start = Some s
    /\ exists tr1 s1,
         first_half (environment_of (fun _ => 0%Z) (fun _ => 5) round true)
           conf geometry s = (tr1, Ok s1)
         /\ (converged_on (tolerance conf) (FI_mean s1) 5
             \/ converged_on (tolerance conf) (energy_density_mean s1) 5).
Proof.
  eexists. split; [vm_compute; reflexivity|].
  eapply (converged_at_first_iteration_that_meets_criterion
            (environment_of (fun _ => 0%Z) (fun _ => 5) round true)
            conf geometry 2 (limit 10) (states 1 1) 2 5);
    [vm_compute; reflexivity|vm_compute; reflexivity|].
  eexists. split; reflexivity.
Defined.

(** A run with the limit of 3 iterations: the pass of iteration 3 ends the
    run at the limit. *)
Lemma terminal_transitions_witness :
  exists s tr o,
    passes (environment_of (fun _ => 0%Z) rising round true)
      (conf_with (limit 3) (4 # 10)) geometry 2 (limit 3) 3 start = Some s
    /\ loop_body (environment_of (fun _ => 0%Z) rising round true)
         (conf_with (limit 3) (4 # 10)) geometry 2 (limit 3) s = (tr, o)
    /\ ITERATION_LIMIT (limit 3) o.
Proof.
  eexists _, _, _. split; [vm_compute; reflexivity|].
  split; [vm_compute; reflexivity|].
  eapply (terminal_transitions_per_iteration
            (environment_of (fun _ => 0%Z) rising round true)
            (conf_with (limit 3) (4 # 10)) geometry 2 (limit 3) (states 1 1) 2 3);
    [vm_compute; reflexivity|vm_compute; reflexivity|].
  eexists _, 3%Z. split; [vm_compute; reflexivity|]. repeat split. simpl. lia.
Defined.

(** C8 fails for an iteration limit of 3: the run ends at the limit in
    iteration 3, with 4 recorded iterations, and not by convergence. *)
Lemma iteration_limit_after_four_iterations :
  exists tr s,
    beso_main 20 importers (environment_of (fun _ => 0%Z) rising round true)
      (conf_with (limit 3) (4 # 10)) geometry
    = Some (tr, Finished s)
    /\ i s = 3%nat
    /\ continue_iterations s = true
    /\ length (energy_density_mean s) = 4%nat
    /\ length (mass s) = 4%nat.
Proof. eexists _, _. split; [vm_compute; reflexivity|]. repeat split. Qed.

(** The erode filter on the states of the two solid elements: both become
    void and the ledger entry goes from 2 to 0.002. *)
Lemma state_filter_witness :
  exists es' mass' excess tr,
    filtering_state eroding conf_erode geometry 1 ∅ (states 1 1) [2; 2]
    = (tr, Ok (es', mass', excess))
    /\ exists x x',
         [2; 2] !! 1%nat = Some x /\ mass' !! 1%nat = Some x'
         /\ x' == x + correction conf_erode geometry (states 1 1) es'
         /\ excess == correction conf_erode geometry (states 1 1) es'
         /\ (forall j, j ≠ 1%nat -> mass' !! j = [2; 2] !! j)
         /\ ((forall p, p ∈ optimized_elements conf_erode ->
                es' !! snd p = states 1 1 !! snd p) ->
             excess == 0 /\ x' == x).
Proof.
  eexists _, _, _, _. split; [vm_compute; reflexivity|].
  eapply (state_filter_corrects_mass_by_changed_elements
            eroding conf_erode geometry 1 _ ∅ (states 1 1) _ [2; 2]).
  Unshelve.
  - vm_compute. reflexivity.
  - simpl. apply NoDup_cons. split.
    + intros Hin. apply elem_of_cons in Hin as [Hin|Hin]; [discriminate Hin|].
      by apply elem_of_nil in Hin.
    + apply NoDup_singleton.
Defined.

Example state_filter_values :
  filtering_state eroding conf_erode geometry 1 ∅ (states 1 1) [2; 2]
  = ([FilterState 1], Ok (states 0 0, [2; 2000 # 1000000], - 1998000 # 1000000))
  /\ Qred (correction conf_erode geometry (states 1 1) (states 0 0)) = - 999 # 500.
Proof. split; vm_compute; reflexivity. Qed.

(** Two load steps with failure ratios 1/2 and 3/4, 1/4 for element 1 in the
    solid state of density 1 *)
Lemma failure_index_sensitivity_witness :
  exists v,
    sensitivities conf_FI geometry results_FI start = Ok v
    /\ exists st rho fmax,
         elm_states start !! 1%Z = Some st
         /\ Py.index (domain_density d) st = Ok rho
         /\ ~ rho == 0
         /\ is_maximum fmax (failure_ratios results_FI 1)
         /\ v_sensitivity_number v !! 1%Z = Some (fmax / rho).
Proof.
  assert (Hsteps : FI_step results_FI ≠ []) by discriminate.
  eexists. split; [vm_compute; reflexivity|].
  eapply (failure_index_sensitivity_is_maximum_over_density
            conf_FI geometry results_FI eq_refl eq_refl start Hsteps _ [] [] d 1).
  - vm_compute. reflexivity.
  - reflexivity.
  - apply list_elem_of_here.
  - intros d' Hd'. by apply elem_of_nil in Hd'.
  - intros y Hy. vm_compute in Hy.
    repeat (apply elem_of_cons in Hy as [->|Hy]; [unfold Qle; simpl; lia|]).
    by apply elem_of_nil in Hy.
Defined.

Example failure_index_sensitivity_value :
  exists v,
    sensitivities conf_FI geometry results_FI start = Ok v
    /\ v_sensitivity_number v !! 1%Z = Some ((3 # 4) / 1)
    /\ v_sensitivity_number v !! 2%Z = Some ((3 # 2) / 1).
Proof. eexists. split; [vm_compute; reflexivity|]. split; vm_compute; reflexivity. Qed.

End Examples.

(** ** The start of a run: element states, masses and the automatic limit *)

Lemma init_highest_untouched (ds : list domain) (es : gmap Z Z) (en : Z) :
  (forall d, d ∈ ds -> en ∉ domains d) ->
  fold_left (fun es d => set_states (highest d) (domains d) es) ds es !! en = es !! en.
Proof.
  revert es. induction ds as [|d ds IH]; intros es Hnot; simpl; [done|].
  rewrite IH.
  - apply set_states_lookup_notin, Hnot. apply elem_of_cons; by left.
  - intros d' Hd'. apply Hnot. apply elem_of_cons; by right.
Qed.

Lemma init_highest_last_wins (ds1 ds2 : list domain) (d : domain) (en : Z) :
  en ∈ domains d ->
  (forall d', d' ∈ ds2 -> en ∉ domains d') ->
  init_highest (ds1 ++ d :: ds2) !! en = Some (highest d).
Proof.
  intros Hin Hlater. unfold init_highest. rewrite fold_left_app. simpl.
  rewrite init_highest_untouched by done.
  by apply set_states_lookup_in.
Qed.

(** The two sums stay equal while every element is in the highest state of
    its domain. *)
Lemma initial_mass_domain_full (m : mesh) (es : gmap Z Z) (d : domain)
    (acc acc' : Q * Q) :
  (domain_optimized d = true ->
   forall en, en ∈ domain_shells d ++ domain_volumes d -> es !! en = Some (highest d)) ->
  fst acc = snd acc ->
  initial_mass_domain m es d acc = Ok acc' ->
  fst acc' = snd acc'.
Proof.
  intros Hes Hacc H. unfold initial_mass_domain in H.
  destruct (domain_optimized d); [|by inversion H; subst].
  specialize (Hes eq_refl).
  apply rbind_Ok in H as (acc1 & H1 & H2).
  assert (Hacc1 : fst acc1 = snd acc1).
  { revert H1. apply (for_each_invariant (fun t : Q * Q => fst t = snd t)); [|done].
    intros en [a b] t' Hen Hab Hstep. simpl in Hab. subst b.
    apply rbind_Ok in Hstep as (st & Hst & Hstep).
    apply rbind_Ok in Hstep as (me & Hme & Hstep).
    apply rbind_Ok in Hstep as (mf & Hmf & Hstep).
    inversion Hstep; subst; clear Hstep. simpl.
    unfold Py.getitem in Hst. rewrite (Hes en) in Hst by (apply elem_of_app; by left).
    simpl in Hst. inversion Hst; subst. congruence. }
  revert H2. apply (for_each_invariant (fun t : Q * Q => fst t = snd t)); [|done].
  intros en [a b] t' Hen Hab Hstep. simpl in Hab. subst b.
  apply rbind_Ok in Hstep as (st & Hst & Hstep).
  apply rbind_Ok in Hstep as (me & Hme & Hstep).
  apply rbind_Ok in Hstep as (mf & Hmf & Hstep).
  inversion Hstep; subst; clear Hstep. simpl.
  unfold Py.getitem in Hst. rewrite (Hes en) in Hst by (apply elem_of_app; by right).
  simpl in Hst. inversion Hst; subst. congruence.
Qed.

(** X1.  A run that does not continue from a state number or a state file
    starts with every element in the highest state of its domain, and then
    the initial mass [mass[0]] is the full mass [mass_full]: the same
    additions build both sums.  The shell and volume elements of an optimised
    domain are elements of that domain and of no domain that comes later in
    the configuration. *)
Theorem default_start_has_full_mass (imp : state_importers) (cfg : config)
    (m : mesh) (name : string) :
  continue_from cfg = cf_str name ->
  Py.last4 name ≠ ".frd" -> Py.last4 name ≠ ".inp" -> Py.last4 name ≠ ".csv" ->
  (forall ds1 d ds2 en,
     domains_from_config cfg = ds1 ++ d :: ds2 ->
     domain_optimized d = true ->
     en ∈ domain_shells d ++ domain_volumes d ->
     en ∈ domains d /\ forall d', d' ∈ ds2 -> en ∉ domains d') ->
  exists es : gmap Z Z,
    init_elm_states imp cfg = ([], Ok es)
    /\ (forall ds1 d ds2 en,
          domains_from_config cfg = ds1 ++ d :: ds2 ->
          en ∈ domains d -> (forall d', d' ∈ ds2 -> en ∉ domains d') ->
          es !! en = Some (Z.of_nat (length (domain_density d)) - 1)%Z)
    /\ (forall mass0 mass_full,
          initial_mass m cfg es = Ok (mass0, mass_full) -> mass0 = mass_full).
Proof.
  intros Hcf Hfrd Hinp Hcsv Hown.
  exists (init_highest (domains_from_config cfg)). split; [|split].
  - unfold init_elm_states. rewrite Hcf.
    destruct (String.eqb_spec (Py.last4 name) ".frd"); [done|].
    destruct (String.eqb_spec (Py.last4 name) ".inp"); [done|].
    destruct (String.eqb_spec (Py.last4 name) ".csv"); [done|]. done.
  - intros ds1 d ds2 en -> Hin Hlater. by apply init_highest_last_wins.
  - intros mass0 mass_full H. unfold initial_mass in H.
    change mass0 with (fst (mass0, mass_full)).
    change mass_full with (snd (mass0, mass_full)) at 2.
    revert H. generalize (mass0, mass_full). intros acc' H.
    assert (Hgen : forall ds1 ds2 acc,
               domains_from_config cfg = ds1 ++ ds2 -> fst acc = snd acc ->
               Py.for_each ds2
                 (initial_mass_domain m (init_highest (domains_from_config cfg))) acc
               = Ok acc' -> fst acc' = snd acc').
    { intros ds1 ds2. revert ds1.
      induction ds2 as [|d ds2 IH]; intros ds1 acc Heq Hacc Hloop.
      - simpl in Hloop. by inversion Hloop; subst.
      - simpl in Hloop. apply rbind_Ok in Hloop as (acc1 & Hd & Hloop).
        apply (IH (ds1 ++ [d]) acc1); [by rewrite <- app_assoc| |done].
        apply (initial_mass_domain_full m (init_highest (domains_from_config cfg)) d acc acc1);
          [|done|done].
        intros Hopt en Hen.
        destruct (Hown ds1 d ds2 en Heq Hopt Hen) as [Hin Hlater].
        rewrite Heq. by apply init_highest_last_wins. }
    by apply (Hgen [] (domains_from_config cfg) (0, 0)).
Qed.

Lemma initial_mass_not_optimized (m : mesh) (ds : list domain) (es : gmap Z Z)
    (acc : Q * Q) :
  (forall d, d ∈ ds -> domain_optimized d = false) ->
  Py.for_each ds (initial_mass_domain m es) acc = Ok acc.
Proof.
  induction ds as [|d ds IH]; intros Hno; simpl; [done|].
  unfold initial_mass_domain at 1.
  rewrite (Hno d) by (apply elem_of_cons; by left). simpl.
  apply IH. intros d' Hd'. apply Hno. apply elem_of_cons; by right.
Qed.

(** X2.  With [iterations_limit = "auto"] and no optimised domain both
    masses are 0 and the division [mass[0] / mass_full] ends the script with
    [ZeroDivisionError] before the first solver run. *)
Theorem automatic_limit_without_optimized_domain (fuel : nat)
    (imp : state_importers) (env : environment) (cfg : config) (m : mesh)
    (tr : list event) (es : gmap Z Z) :
  iterations_limit cfg = auto ->
  (forall d, d ∈ domains_from_config cfg -> domain_optimized d = false) ->
  init_elm_states imp cfg = (tr, Ok es) ->
  beso_main fuel imp env cfg m = Some (tr, Raised ZeroDivisionError).
Proof.
  intros Hauto Hno Hinit. unfold beso_main. rewrite Hinit.
  unfold initial_mass. rewrite initial_mass_not_optimized by done.
  unfold auto_iterations_limit. rewrite Hauto. done.
Qed.

Lemma while_adding_stuck (goal a : Q) (fuel : nat) :
  forall (m : Q) (it : Z),
    m < goal ->
    a == 0 \/ (0 <= a /\ m <= 0) ->
    while_adding fuel m goal a it = None.
Proof.
  induction fuel as [|fuel IH]; intros m it Hlt Hstuck; simpl; [done|].
  destruct (Qlt_le_dec m goal) as [_|Hge]; [|lra].
  apply IH.
  - destruct Hstuck as [Ha|[Ha Hm]].
    + rewrite Ha. lra.
    + assert (m * a <= 0).
      { assert (0 <= (- m) * a) by (apply Qmult_le_0_compat; lra). lra. }
      lra.
  - destruct Hstuck as [Ha|[Ha Hm]]; [by left|right]. split; [done|].
    assert (0 <= (- m) * a) by (apply Qmult_le_0_compat; lra). lra.
Qed.

(** X3.  With relative ratios and [iterations_limit = "auto"], the loop
    [while m < mass_goal_ratio: m += m * (mass_addition_ratio -
    mass_removal_ratio)] never ends when the initial mass fraction is below
    the goal and either the two ratios are equal or the run adds mass from a
    fraction that is not positive: no number of passes through the loop gives
    a limit. *)
Theorem automatic_limit_loop_never_ends (cfg : config) (mass0 mass_full : Q) :
  iterations_limit cfg = auto ->
  ratio_type cfg = relative ->
  ~ mass_full == 0 ->
  mass0 / mass_full < mass_goal_ratio cfg ->
  mass_removal_ratio cfg == mass_addition_ratio cfg
  \/ (mass_removal_ratio cfg <= mass_addition_ratio cfg /\ mass0 / mass_full <= 0) ->
  forall fuel : nat, auto_iterations_limit fuel cfg mass0 mass_full = Ok None.
Proof.
  intros Hauto Hrel Hfull Hlt Hstuck fuel.
  unfold auto_iterations_limit. rewrite Hauto, div_nonzero by done. simpl.
  rewrite Hrel.
  destruct (Qlt_le_dec 0 (mass_removal_ratio cfg - mass_addition_ratio cfg))
    as [Hpos|_]; [destruct Hstuck as [H|[H _]]; lra|].
  rewrite while_adding_stuck; [done|done|].
  destruct Hstuck as [H|[H Hm]]; [left; lra|right; split; [lra|done]].
Qed.

(** X4.  With [iterations_limit = "auto"], the limit stays the string
    "auto" when [ratio_type] is "absolute" with equal addition and removal
    ratios, or is neither "absolute" nor "relative".  The first pass of the
    loop then ends at the test [i >= iterations_limit] with [TypeError], right
    after the first analysis. *)
Theorem automatic_limit_left_unset_raises_TypeError (fuel : nat)
    (imp : state_importers) (env : environment) (cfg : config) (m : mesh)
    (tr0 tr1 : list event) (es : gmap Z Z) (mass0 mass_full : Q) (s1 : state) :
  iterations_limit cfg = auto ->
  (ratio_type cfg = absolute /\ mass_removal_ratio cfg == mass_addition_ratio cfg)
  \/ ratio_type cfg = ratio_other ->
  init_elm_states imp cfg = (tr0, Ok es) ->
  initial_mass m cfg es = Ok (mass0, mass_full) ->
  ~ mass_full == 0 ->
  first_half env cfg m (initial_state es mass0) = (tr1, Ok s1) ->
  auto_iterations_limit (S fuel) cfg mass0 mass_full = Ok (Some auto)
  /\ beso_main (S fuel) imp env cfg m = Some (tr0 ++ tr1, Raised TypeError).
Proof.
  intros Hauto Hratio Hinit Hmass Hfull Hfirst.
  assert (Hlim : auto_iterations_limit (S fuel) cfg mass0 mass_full = Ok (Some auto)).
  { unfold auto_iterations_limit. rewrite Hauto, div_nonzero by done.
    cbn [rbind]. destruct Hratio as [[-> Heq]| ->]; [|done].
    destruct (Qlt_le_dec 0 (mass_removal_ratio cfg - mass_addition_ratio cfg));
      [lra|].
    destruct (Qlt_le_dec (mass_removal_ratio cfg - mass_addition_ratio cfg) 0);
      [lra|done]. }
  split; [done|].
  unfold beso_main. rewrite Hinit, Hmass, Hlim.
  cbn [while_True]. unfold loop_body. rewrite Hfirst.
  pose proof Hfirst as Hfields.
  apply first_half_Ok in Hfields
    as (_ & _ & _ & _ & _ & _ & L1 & L2 & c1 & Hc1 & Hc2).
  cbn [initial_state FI_mean energy_density_mean continue_iterations i] in *.
  assert (Hcont : continue_iterations s1 = true).
  { unfold convergence_test in Hc1, Hc2.
    rewrite L1 in Hc1. rewrite L2 in Hc2.
    assert (H1 : (5 <? (if domain_FI_filled cfg then 1 else 0))%nat = false)
      by (by destruct (domain_FI_filled cfg)).
    assert (H2 : (5 <? match optimization_base cfg with
                       | stiffness => 1 | _ => 0 end)%nat = false)
      by (by destruct (optimization_base cfg)).
    simpl length in Hc1, Hc2. rewrite H1 in Hc1. rewrite H2 in Hc2. congruence. }
  unfold finish_test. rewrite Hcont. done.
Qed.

(** ** The blocks of one pass, taken apart *)

Lemma for_each_Raise {A S} (l : list A) (f : A -> S -> result S) (s : S) (e : exn) :
  Py.for_each l f s = Raise e -> exists x t, x ∈ l /\ f x t = Raise e.
Proof.
  revert s. induction l as [|x l IH]; intros s H; simpl in H; [done|].
  destruct (f x s) as [s'|e'] eqn:E; simpl in H.
  - apply IH in H as (y & t & Hy & Hf). exists y, t. split; [by right|done].
  - inversion H; subst. exists x, s. split; [by left|done].
Qed.

Lemma compute_FI_max_Ok (cfg : config) (r : results) (tr : list event) (l : list Q) :
  compute_FI_max cfg r = (tr, Ok l) ->
  tr = []
  /\ if domain_FI_filled cfg
     then Py.for_each (domains_from_config cfg)
            (fun d acc => do x <- FI_max_domain r d; Ok (acc ++ [x])) [] = Ok l
     else l = [].
Proof.
  unfold compute_FI_max. destruct (domain_FI_filled cfg).
  - destruct (Py.for_each _ _ _) as [l'|e].
    + by intros [= <- <-].
    + destruct e; simpl; intros H; discriminate H.
  - by intros [= <- <-].
Qed.

(** The events of the import of the results *)
Lemma import_results_trace (env : environment) (cfg : config) (s : state)
    (tr : list event) (o : result results) :
  import_results env cfg s = (tr, o) ->
  tr = [ImportResults (i s)] \/ (tr = [] /\ o = Raise (NameError "disp_i")).
Proof.
  unfold import_results.
  destruct (from_dat_file cfg), (reference_points cfg);
    rewrite ?wbind_emit, ?wbind_lift;
    repeat match goal with
           | |- context [import_FI_int_pt ?e ?i ?es] =>
               destruct (import_FI_int_pt e i es); cbn [fst snd]
           | |- context [import_FI_node ?e ?i ?es] =>
               destruct (import_FI_node e i es); cbn [fst snd]
           end;
    rewrite ?wbind_lift; cbn; intros [= <- <-]; auto.
Qed.

Lemma wbind_trace {A B} (P : event -> Prop) (c : W A) (k : A -> W B) :
  Forall P (fst c) -> (forall a, Forall P (fst (k a))) ->
  Forall P (fst (wbind c k)).
Proof.
  intros Hc Hk. destruct c as [tr [a|e]]; simpl in *; [|done].
  specialize (Hk a). destruct (k a) as [tr' o]. simpl in *.
  by apply Forall_app.
Qed.

(** Proves that the events of a block all satisfy a predicate, from the
    events it writes itself. *)
Ltac trace_of_block :=
  repeat first
    [ apply wbind_trace; [|intros ?]
    | match goal with
      | |- Forall _ (fst (wret _)) => by constructor
      | |- Forall _ (fst (lift _)) => by constructor
      | |- Forall _ (fst (emit _)) => by repeat constructor
      | |- Forall _ (fst (match ?x with _ => _ end)) => destruct x
      | |- Forall _ (fst (let '(_, _) := ?x in _)) => destruct x
      end ].

(** The events of the filters of the sensitivity numbers *)
Lemma filter_sensitivities_trace (env : environment) (cfg : config) (m : mesh)
    (i : nat) (fts : list filter_t) (sens : gmap Z Q) :
  Forall (fun ev => ev = FilterSensitivity i)
    (fst (filter_sensitivities env cfg m i fts sens)).
Proof.
  revert sens. induction fts as [|ft fts IH]; intros sens; simpl; [constructor|].
  apply wbind_trace; [|done].
  unfold filter_sensitivity. trace_of_block.
Qed.

Section Blocks.

Variable env : environment.
Variable cfg : config.
Variable m : mesh.
Variable mass_full : Q.

(** What a first half that reaches its end has done, block by block *)
Lemma first_half_blocks (s s1 : state) (tr : list event) :
  first_half env cfg m s = (tr, Ok s1) ->
  exists z tr_i r v sens0 tr_f sens1 sens sens_old a l,
    calculix env (i s) (elm_states s) = Ok z
    /\ import_results env cfg s = (tr_i, Ok r)
    /\ missing_ccx_results cfg r = false
    /\ (exists fmax, compute_FI_max cfg r = ([], Ok fmax))
    /\ sensitivities cfg m r s = Ok v
    /\ buckling_sensitivities cfg r (v_sensitivity_number v) = Ok sens0
    /\ filter_sensitivities env cfg m (i s) (filter_list cfg) sens0 = (tr_f, Ok sens1)
    /\ averaging cfg m (i s) sens1 (sensitivity_number_old s) = Ok (sens, sens_old)
    /\ mean_values cfg m r v (elm_states s) = Ok a
    /\ append_means cfg s a = Ok l
    /\ tr = CalculiX (i s) :: check_exit_status z ++ tr_i ++ tr_f ++ [LogRow (i s)]
    /\ FI_violated s1 = v_FI_violated v
    /\ FI_step_max s1 = v_FI_step_max v
    /\ sensitivity_number s1 = sens
    /\ sensitivity_number_old s1 = sens_old
    /\ FI_mean s1 = l_FI_mean l
    /\ FI_mean_without_state0 s1 = l_FI_mean_without_state0 l
    /\ energy_density_mean s1 = l_energy_density_mean l
    /\ heat_flux_mean s1 = l_heat_flux_mean l
    /\ i_violated s1 = i_violated s
    /\ check_tolerance s1 = check_tolerance s
    /\ mass_excess s1 = mass_excess s
    /\ mass_goal_i s1 = mass_goal_i s
    /\ mass_referential s1 = mass_referential s.
Proof.
  unfold first_half, after_solver. intros H.
  winv_all H. lift_inv.
  match goal with
  | Hm : (if missing_ccx_results cfg ?r then _ else _) = _ |- _ =>
      destruct (missing_ccx_results cfg r) eqn:Hmiss; [by cbn in Hm|];
      unfold wret in Hm; inversion Hm; subst; clear Hm
  end.
  match goal with
  | Hf : compute_FI_max cfg _ = _ |- _ =>
      pose proof (compute_FI_max_Ok _ _ _ _ Hf) as [-> _]
  end.
  match goal with
  | Hx : (check_exit_status _, Ok tt) = _ |- _ => inversion Hx; subst; clear Hx
  end.
  cbn [FI_violated FI_step_max sensitivity_number sensitivity_number_old FI_mean
    FI_mean_without_state0 energy_density_mean heat_flux_mean i_violated
    check_tolerance mass_excess mass_goal_i mass_referential].
  do 11 eexists.
  repeat (split; [first [eassumption|eexists; eassumption|reflexivity]|]).
  reflexivity.
Qed.

(** What a second half that reaches its end has done *)
Lemma second_half_blocks (s s2 : state) (tr : list event) :
  second_half env cfg m mass_full s = (tr, Ok s2) ->
  exists tr_g g tr_w w tr_f es mass' excess,
    set_mass_goal cfg mass_full (S (i s)) s = (tr_g, Ok g)
    /\ call_switching env cfg mass_full (S (i s)) s g = (tr_w, Ok w)
    /\ filtering_state env cfg m (S (i s)) (FI_step_max s) (w_elm_states w) (w_mass w)
       = (tr_f, Ok (es, mass', excess))
    /\ tr = tr_g ++ tr_w ++ tr_f
    /\ i s2 = S (i s)
    /\ i_violated s2 = g_i_violated g
    /\ check_tolerance s2 = g_check_tolerance g
    /\ mass_goal_i s2 = g_mass_goal_i g
    /\ mass_referential s2 = w_mass_referential w
    /\ mass_excess s2 = excess
    /\ elm_states s2 = es
    /\ mass s2 = mass'
    /\ FI_violated s2 = FI_violated s
    /\ sensitivity_number s2 = sensitivity_number s
    /\ sensitivity_number_old s2 = sensitivity_number_old s.
Proof.
  unfold second_half. intros H.
  winv_all H. lift_inv. cbn [i i_violated check_tolerance mass_goal_i
    mass_referential mass_excess elm_states mass FI_violated sensitivity_number
    sensitivity_number_old].
  rewrite ?app_nil_r.
  do 8 eexists.
  repeat (split; [first [eassumption|reflexivity]|]). reflexivity.
Qed.

End Blocks.


(** ** What the loop over the domains leaves for one element *)

Section Elements.

Variable cfg : config.
Variable m : mesh.
Variable r : results.
Variable es : gmap Z Z.
Variable i : nat.

Lemma sensitivity_element_Ok (dno : nat) (d : domain) (e : Z) (v v' : sens_vars) :
  sensitivity_element cfg m r es i dno d e v = Ok v' ->
  exists fmax enlist x rows,
    element_steps cfg r e = Ok (fmax, enlist)
    /\ element_sensitivity cfg m r es d e fmax enlist = Ok x
    /\ (if domain_FI_filled cfg && Py.le 1 fmax
        then count_violated i dno (v_FI_violated v)
        else Ok (v_FI_violated v)) = Ok rows
    /\ v_FI_step_max v' = <[e := fmax]> (v_FI_step_max v)
    /\ v_energy_density_enlist v'
       = match optimization_base cfg with
         | stiffness => <[e := enlist]> (v_energy_density_enlist v)
         | _ => v_energy_density_enlist v
         end
    /\ v_sensitivity_number v'
       = match x with
         | Some x => <[e := x]> (v_sensitivity_number v)
         | None => v_sensitivity_number v
         end
    /\ v_FI_violated v' = rows.
Proof.
  unfold sensitivity_element. intros H.
  apply rbind_Ok in H as ([fmax enlist] & Hsteps & H).
  apply rbind_Ok in H as (x & Hx & H).
  apply rbind_Ok in H as (rows & Hrows & H).
  inversion H; subst; clear H. cbn.
  exists fmax, enlist, x, rows. done.
Qed.

(** The values stored for [en] after the loop over a domain that lists it *)
Lemma sensitivity_elements_last (dno : nat) (d : domain) (en : Z) (v v' : sens_vars) :
  en ∈ domains d ->
  Py.for_each (domains d) (sensitivity_element cfg m r es i dno d) v = Ok v' ->
  exists fmax enlist x,
    element_steps cfg r en = Ok (fmax, enlist)
    /\ element_sensitivity cfg m r es d en fmax enlist = Ok x
    /\ v_FI_step_max v' !! en = Some fmax
    /\ (forall y, x = Some y -> v_sensitivity_number v' !! en = Some y)
    /\ (optimization_base cfg = stiffness ->
        v_energy_density_enlist v' !! en = Some enlist).
Proof.
  intros Hin H.
  apply list_elem_of_split in Hin as (l1 & l2 & Hsplit). rewrite Hsplit in H.
  rewrite for_each_app in H. apply rbind_Ok in H as (v1 & _ & H).
  cbn [Py.for_each] in H. apply rbind_Ok in H as (v2 & Hen & H).
  apply sensitivity_element_Ok in Hen
    as (fmax & enlist & x & rows & Hsteps & Hx & _ & Hf & He & Hs & _).
  exists fmax, enlist, x. split; [done|]. split; [done|].
  revert H.
  apply (for_each_invariant
           (fun t => v_FI_step_max t !! en = Some fmax
                     /\ (forall y, x = Some y -> v_sensitivity_number t !! en = Some y)
                     /\ (optimization_base cfg = stiffness ->
                         v_energy_density_enlist t !! en = Some enlist))).
  - intros e t t' _ (I1 & I2 & I3) He'.
    apply sensitivity_element_Ok in He'
      as (fmax' & enlist' & x' & rows' & Hsteps' & Hx' & _ & Hf' & He'' & Hs' & _).
    rewrite Hf', He'', Hs'.
    destruct (decide (e = en)) as [->|Hne].
    + rewrite Hsteps in Hsteps'. inversion Hsteps'; subst fmax' enlist'.
      rewrite Hx in Hx'. inversion Hx'; subst x'.
      split; [apply lookup_insert_eq|]. split.
      * intros y ->. apply lookup_insert_eq.
      * intros Hb. rewrite Hb. apply lookup_insert_eq.
    + split; [by rewrite lookup_insert_ne|]. split.
      * intros y Hy. destruct x'; [rewrite lookup_insert_ne by done|]; by apply I2.
      * intros Hb. specialize (I3 Hb). rewrite Hb.
        by rewrite lookup_insert_ne.
  - rewrite Hf, He, Hs. split; [apply lookup_insert_eq|]. split.
    + intros y ->. apply lookup_insert_eq.
    + intros Hb. rewrite Hb. apply lookup_insert_eq.
Qed.

(** The elements of other domains leave the values stored for [en]. *)
Lemma sensitivity_domain_keeps_all (p : nat * domain) (en : Z) (v v' : sens_vars) :
  en ∉ domains (snd p) ->
  sensitivity_domain cfg m r es i p v = Ok v' ->
  v_FI_step_max v' !! en = v_FI_step_max v !! en
  /\ v_sensitivity_number v' !! en = v_sensitivity_number v !! en
  /\ v_energy_density_enlist v' !! en = v_energy_density_enlist v !! en.
Proof.
  destruct p as [dno d]. intros Hnot H. unfold sensitivity_domain in H.
  apply rbind_Ok in H as (rows & _ & H).
  revert H.
  apply (for_each_invariant
           (fun t => v_FI_step_max t !! en = v_FI_step_max v !! en
                     /\ v_sensitivity_number t !! en = v_sensitivity_number v !! en
                     /\ v_energy_density_enlist t !! en
                        = v_energy_density_enlist v !! en)); [|done].
  intros e t t' He (I1 & I2 & I3) Hstep.
  assert (Hne : e ≠ en) by (intros ->; by apply Hnot).
  apply sensitivity_element_Ok in Hstep
    as (fmax & enlist & x & rows' & _ & _ & _ & Hf & He' & Hs & _).
  rewrite Hf, He', Hs. split; [by rewrite lookup_insert_ne|]. split.
  - destruct x; [by rewrite lookup_insert_ne|done].
  - destruct (optimization_base cfg); try done. by rewrite lookup_insert_ne.
Qed.

End Elements.

(** After the loop over all domains, an element holds the values computed
    for it in the last domain that lists it. *)
Lemma sensitivities_element (cfg : config) (m : mesh) (r : results) (s : state)
    (v : sens_vars) (ds1 ds2 : list domain) (d : domain) (en : Z) :
  sensitivities cfg m r s = Ok v ->
  domains_from_config cfg = ds1 ++ d :: ds2 ->
  en ∈ domains d ->
  (forall d', d' ∈ ds2 -> en ∉ domains d') ->
  exists fmax enlist x,
    element_steps cfg r en = Ok (fmax, enlist)
    /\ element_sensitivity cfg m r (elm_states s) d en fmax enlist = Ok x
    /\ v_FI_step_max v !! en = Some fmax
    /\ (forall y, x = Some y -> v_sensitivity_number v !! en = Some y)
    /\ (optimization_base cfg = stiffness ->
        v_energy_density_enlist v !! en = Some enlist).
Proof.
  intros H Hds Hin Hlater. unfold sensitivities in H. rewrite Hds in H.
  destruct (enumerate_split ds1 ds2 d) as (ps2 & Henum & Hps2).
  rewrite Henum in H. clear Henum.
  rewrite for_each_app in H. apply rbind_Ok in H as (v1 & _ & H).
  cbn [Py.for_each] in H. apply rbind_Ok in H as (v2 & Hd & H).
  unfold sensitivity_domain in Hd. apply rbind_Ok in Hd as (rows & _ & Hd).
  apply (sensitivity_elements_last cfg m r (elm_states s) (i s) _ d en _ v2 Hin) in Hd
    as (fmax & enlist & x & Hsteps & Hx & Hf & Hs & He).
  exists fmax, enlist, x. split; [done|]. split; [done|].
  assert (Hkeep : v_FI_step_max v !! en = v_FI_step_max v2 !! en
                  /\ v_sensitivity_number v !! en = v_sensitivity_number v2 !! en
                  /\ v_energy_density_enlist v !! en
                     = v_energy_density_enlist v2 !! en).
  { revert H.
    apply (for_each_invariant
             (fun t => v_FI_step_max t !! en = v_FI_step_max v2 !! en
                       /\ v_sensitivity_number t !! en = v_sensitivity_number v2 !! en
                       /\ v_energy_density_enlist t !! en
                          = v_energy_density_enlist v2 !! en)); [|done].
    intros p t t' Hp (I1 & I2 & I3) Hrun.
    destruct (sensitivity_domain_keeps_all cfg m r (elm_states s) (i s) p en t t')
      as (K1 & K2 & K3); [|done|].
    - apply Hlater. rewrite <- Hps2. apply list_elem_of_fmap. by exists p.
    - by rewrite K1, K2, K3. }
  destruct Hkeep as (K1 & K2 & K3). rewrite K1, K2, K3.
  split; [done|]. split; [|done]. intros y Hy. by apply Hs.
Qed.

(** ** Sensitivity numbers for the stiffness *)

Lemma enumerate_snoc {A} (l : list A) (x : A) :
  Py.enumerate (l ++ [x]) = Py.enumerate l ++ [(length l, x)].
Proof.
  destruct (enumerate_split l [] x) as (ps2 & Henum & Hps2).
  apply fmap_nil_inv in Hps2. by subst ps2.
Qed.

(** The energy densities gathered for an element over the load steps *)
Lemma element_steps_energy (cfg : config) (r : results) (en : Z)
    (steps : list (gmap Z (list (option Q)))) (f0 f : Q) (l0 l : list Q) :
  optimization_base cfg = stiffness ->
  Py.for_each (Py.enumerate steps) (step_body cfg r en) (f0, l0) = Ok (f, l) ->
  l = l0 ++ omap (fun eds : gmap Z Q => eds !! en)
               (take (length steps) (energy_density_step r))
  /\ length l = (length l0 + length steps)%nat.
Proof.
  intros Hbase. revert f l.
  induction steps as [|x steps IH] using rev_ind; intros f l H.
  - simpl in H. inversion H; subst. simpl.
    rewrite app_nil_r. split; [done|lia].
  - rewrite enumerate_snoc, for_each_app in H.
    apply rbind_Ok in H as ([f1 l1] & H1 & H).
    apply IH in H1 as [-> Hlen]. clear IH.
    cbn [Py.for_each] in H. apply rbind_Ok in H as ([f2 l2] & Hstep & H).
    inversion H; subst; clear H.
    unfold step_body in Hstep. rewrite Hbase in Hstep.
    apply rbind_Ok in Hstep as (f' & _ & Hstep).
    apply rbind_Ok in Hstep as (l' & Hl & Hstep).
    inversion Hstep; subst; clear Hstep.
    apply rbind_Ok in Hl as (eds & Heds & Hl).
    apply rbind_Ok in Hl as (e & He & Hl).
    inversion Hl; subst; clear Hl.
    apply index_nat in Heds. apply getitem_Ok in He.
    rewrite length_app. simpl length.
    replace (length steps + 1)%nat with (S (length steps)) by lia.
    rewrite (take_S_r _ _ _ Heds), omap_app. simpl. rewrite He. simpl.
    rewrite <- app_assoc. split; [done|].
    rewrite !length_app in *. simpl. lia.
Qed.

(** X5.  With the stiffness as objective, every element of a configured
    domain (the last one that lists it) gets as sensitivity number the
    greatest of its energy densities over the load steps; the steps are
    counted by [len(FI_step)] and each of them has an energy density for the
    element. *)
Theorem stiffness_sensitivity_is_greatest_energy_density
    (cfg : config) (m : mesh) (r : results) (s : state) (v : sens_vars)
    (ds1 ds2 : list domain) (d : domain) (en : Z) :
  optimization_base cfg = stiffness ->
  sensitivities cfg m r s = Ok v ->
  domains_from_config cfg = ds1 ++ d :: ds2 ->
  en ∈ domains d ->
  (forall d', d' ∈ ds2 -> en ∉ domains d') ->
  exists x : Q,
    v_sensitivity_number v !! en = Some x
    /\ x ∈ energy_densities r en
    /\ (forall y, y ∈ energy_densities r en -> y <= x)
    /\ length (energy_densities r en) = length (FI_step r).
Proof.
  intros Hbase H Hds Hin Hlater.
  destruct (sensitivities_element cfg m r s v ds1 ds2 d en H Hds Hin Hlater)
    as (fmax & enlist & x & Hsteps & Hx & _ & Hs & _).
  unfold element_sensitivity in Hx. rewrite Hbase in Hx.
  apply rbind_Ok in Hx as (y & Hy & Hx). inversion Hx; subst; clear Hx.
  unfold element_steps in Hsteps.
  apply (element_steps_energy cfg r en _ _ _ _ _ Hbase) in Hsteps as [Hl Hlen].
  simpl in Hl, Hlen. fold (energy_densities r en) in Hl. subst enlist.
  apply max_Ok in Hy as [Hmem Hmax].
  exists y. split; [by apply Hs|]. split; [done|]. split; [done|]. done.
Qed.

(** ** The maximum of the failure indices per domain *)

(** The failure ratios of an element in a list of load steps *)
Lemma failure_ratios_cons (en : Z) (step : gmap Z (list (option Q)))
    (steps : list (gmap Z (list (option Q)))) :
  concat (map (fun step : gmap Z (list (option Q)) =>
                 match step !! en with
                 | Some fi => drop_None fi
                 | None => []
                 end) (step :: steps))
  = match step !! en with Some fi => drop_None fi | None => [] end
    ++ concat (map (fun step : gmap Z (list (option Q)) =>
                      match step !! en with
                      | Some fi => drop_None fi
                      | None => []
                      end) steps).
Proof. done. Qed.

Lemma FI_max_steps (en : Z) (steps : list (gmap Z (list (option Q)))) (f0 f : Q) :
  Py.for_each steps
    (fun step fmax =>
       do fi <- Py.getitem step en;
       do x <- Py.max (drop_None fi);
       Ok (Py.max2 fmax x)) f0 = Ok f ->
  let ratios :=
    concat (map (fun step : gmap Z (list (option Q)) =>
                   match step !! en with
                   | Some fi => drop_None fi
                   | None => []
                   end) steps) in
  f0 <= f
  /\ (forall y, y ∈ ratios -> y <= f)
  /\ (f = f0 \/ f ∈ ratios).
Proof.
  revert f0. induction steps as [|step steps IH]; intros f0 H.
  - simpl in H. inversion H; subst. simpl. split; [lra|]. split; [|by left].
    intros y Hy. by apply elem_of_nil in Hy.
  - cbn [Py.for_each] in H. apply rbind_Ok in H as (f1 & Hstep & H).
    apply rbind_Ok in Hstep as (fi & Hfi & Hstep).
    apply rbind_Ok in Hstep as (x & Hx & Hstep).
    inversion Hstep; subst; clear Hstep.
    apply getitem_Ok in Hfi. apply max_Ok in Hx as [Hin Hmax].
    apply IH in H as (H1 & H2 & H3). clear IH.
    destruct (max2_cases f0 x) as (Ha & Hb & Hab).
    cbv zeta. rewrite failure_ratios_cons, Hfi.
    split; [lra|]. split.
    + intros y Hy. apply elem_of_app in Hy as [Hy|Hy]; [|by apply H2].
      specialize (Hmax y Hy). lra.
    + destruct H3 as [->|H3].
      * destruct Hab as [->| ->]; [by left|]. right. apply elem_of_app. by left.
      * right. apply elem_of_app. by right.
Qed.

Lemma FI_max_elements (r : results) (ens : list Z) (f0 x : Q) :
  Py.for_each ens
    (fun en fmax =>
       Py.for_each (FI_step r)
         (fun step fmax =>
            do fi <- Py.getitem step en;
            do m <- Py.max (drop_None fi);
            Ok (Py.max2 fmax m)) fmax) f0 = Ok x ->
  f0 <= x
  /\ (forall en y, en ∈ ens -> y ∈ failure_ratios r en -> y <= x)
  /\ (x = f0 \/ exists en, en ∈ ens /\ x ∈ failure_ratios r en).
Proof.
  revert f0. induction ens as [|en ens IH]; intros f0 H.
  - simpl in H. inversion H; subst. split; [lra|]. split; [|by left].
    intros en y Hen. by apply elem_of_nil in Hen.
  - cbn [Py.for_each] in H. apply rbind_Ok in H as (f1 & Hen & H).
    apply FI_max_steps in Hen as (H1 & H2 & H3). cbv zeta in H2, H3.
    fold (failure_ratios r en) in H2, H3.
    apply IH in H as (I1 & I2 & I3). clear IH.
    split; [lra|]. split.
    + intros e y He Hy. apply elem_of_cons in He as [->|He]; [|by apply (I2 e)].
      specialize (H2 y Hy). lra.
    + destruct I3 as [->|(e & He & Hx)].
      * destruct H3 as [->|H3]; [by left|]. right. exists en. split; [by left|done].
      * right. exists e. split; [by right|done].
Qed.

Lemma FI_max_domain_Ok (r : results) (d : domain) (x : Q) :
  FI_max_domain r d = Ok x ->
  0 <= x
  /\ (forall en y, en ∈ domains d -> y ∈ failure_ratios r en -> y <= x)
  /\ (x = 0 \/ exists en, en ∈ domains d /\ x ∈ failure_ratios r en).
Proof. apply FI_max_elements. Qed.

(** The values appended by a loop, one per item *)
Lemma for_each_collect {A B} (F : A -> result B) (l : list A) (acc0 acc : list B) :
  Py.for_each l (fun a acc => do x <- F a; Ok (acc ++ [x])) acc0 = Ok acc ->
  exists xs, acc = acc0 ++ xs /\ Forall2 (fun a x => F a = Ok x) l xs.
Proof.
  revert acc0. induction l as [|a l IH]; intros acc0 H.
  - simpl in H. inversion H; subst. exists []. by rewrite app_nil_r.
  - cbn [Py.for_each] in H. apply rbind_Ok in H as (acc1 & Ha & H).
    apply rbind_Ok in Ha as (x & Hx & Ha). inversion Ha; subst; clear Ha.
    apply IH in H as (xs & -> & Hxs).
    exists (x :: xs). rewrite <- app_assoc. split; [done|]. by constructor.
Qed.

(** X6.  With failure limits defined, the list [FI_max[i]] has one entry
    per domain: the greatest failure ratio over the elements of the domain,
    all load steps and all criteria, and at least 0.  Nothing is written to
    the log when the computation succeeds. *)
Theorem FI_max_is_greatest_failure_ratio_of_domain
    (cfg : config) (r : results) (tr : list event) (l : list Q) :
  domain_FI_filled cfg = true ->
  compute_FI_max cfg r = (tr, Ok l) ->
  tr = []
  /\ length l = length (domains_from_config cfg)
  /\ forall (k : nat) (d : domain) (x : Q),
       domains_from_config cfg !! k = Some d -> l !! k = Some x ->
       0 <= x
       /\ (forall en y, en ∈ domains d -> y ∈ failure_ratios r en -> y <= x)
       /\ (x = 0 \/ exists en, en ∈ domains d /\ x ∈ failure_ratios r en).
Proof.
  intros Hfilled H. apply compute_FI_max_Ok in H as [-> H].
  rewrite Hfilled in H. apply for_each_collect in H as (xs & -> & Hxs).
  simpl. split; [done|]. split; [symmetry; by eapply Forall2_length|].
  intros k d x Hd Hx.
  destruct (Forall2_lookup_l _ _ _ _ _ Hxs Hd) as (x' & Hx' & HF).
  rewrite Hx in Hx'. inversion Hx'; subst x'.
  by apply FI_max_domain_Ok.
Qed.

Lemma FI_max_domain_Raise (r : results) (d : domain) (e : exn) :
  FI_max_domain r d = Raise e ->
  exists en step,
    en ∈ domains d /\ step ∈ FI_step r
    /\ ((e = KeyError /\ step !! en = None)
        \/ (e = ValueError /\ exists fi, step !! en = Some fi /\ drop_None fi = [])).
Proof.
  unfold FI_max_domain. intros H.
  apply for_each_Raise in H as (en & f & Hen & H).
  apply for_each_Raise in H as (step & f' & Hstep & H).
  exists en, step. split; [done|]. split; [done|].
  unfold Py.getitem in H. destruct (step !! en) as [fi|]; simpl in H.
  - right. destruct (drop_None fi) as [|a l'] eqn:E; simpl in H.
    + inversion H; subst. split; [done|]. by exists fi.
    + done.
  - left. by inversion H.
Qed.

(** X7.  The computation of [FI_max] fails in two ways only, and each is
    written to the log as one ERROR line before an [Exception] with the same
    message leaves the script: an element of a domain without any failure
    ratio in some load step ("FI_max computing failed"), or an element
    missing from the results of some load step ("Some result values are
    missing"). *)
Theorem FI_max_failure_is_logged_and_raised_as_Exception
    (cfg : config) (r : results) (tr : list event) (e : exn) :
  compute_FI_max cfg r = (tr, Raise e) ->
  exists (msg : string) (d : domain) (en : Z) (step : gmap Z (list (option Q))),
    e = Exception msg
    /\ tr = [Log ("ERROR: " +:+ msg)]
    /\ d ∈ domains_from_config cfg /\ en ∈ domains d /\ step ∈ FI_step r
    /\ ((msg = FI_max_failed
         /\ exists fi, step !! en = Some fi /\ drop_None fi = [])
        \/ (msg = FI_values_missing /\ step !! en = None)).
Proof.
  unfold compute_FI_max. destruct (domain_FI_filled cfg); [|done].
  destruct (Py.for_each _ _ _) as [l|e0] eqn:E; [done|].
  apply for_each_Raise in E as (d & acc & Hd & E).
  destruct (FI_max_domain r d) as [x|e1] eqn:Ed; [done|].
  simpl in E. inversion E; subst e1; clear E.
  apply FI_max_domain_Raise in Ed as (en & step & Hen & Hstep & Hwhy).
  destruct Hwhy as [[-> Hnone]|[-> Hempty]]; cbn; intros [= <- <-].
  - exists FI_values_missing, d, en, step. repeat (split; [done|]). by right.
  - exists FI_max_failed, d, en, step. repeat (split; [done|]). by left.
Qed.

(** ** The table of violated elements *)

Lemma lookup_last_row {A} (R : list A) (y : A) (i : nat) :
  length R = i -> Py.index (R ++ [y]) (Z.of_nat i) = Ok y.
Proof. intros <-. apply index_nat. by apply list_lookup_middle. Qed.

Lemma insert_last_row {A} (R : list A) (x y : A) (i : nat) :
  length R = i -> <[i := x]> (R ++ [y]) = R ++ [x].
Proof.
  intros <-. rewrite insert_app_r_alt by lia. by rewrite Nat.sub_diag.
Qed.

Section ViolatedElement.

Variable cfg : config.
Variable r : results.

(** The loop over the steps for one element when failure limits are
    defined, whatever the objective: [FI_step_max[en]] ends as the greatest
    of its start value and the failure ratios. *)
Lemma steps_loop_filled (en : Z) (ps : list (nat * gmap Z (list (option Q))))
    (fmax0 fmax : Q) (enlist0 enlist : list Q) :
  domain_FI_filled cfg = true ->
  Py.for_each ps (step_body cfg r en) (fmax0, enlist0) = Ok (fmax, enlist) ->
  let ratios :=
    concat (map (fun step : gmap Z (list (option Q)) =>
                   match step !! en with
                   | Some fi => drop_None fi
                   | None => []
                   end) (snd <$> ps)) in
  fmax0 <= fmax
  /\ (forall y, y ∈ ratios -> y <= fmax)
  /\ (fmax = fmax0 \/ fmax ∈ ratios).
Proof.
  intros filled. revert fmax0 enlist0.
  induction ps as [|[sn step] ps IH]; intros fmax0 enlist0 H.
  - simpl in H. injection H as <- <-. simpl. split; [lra|]. split; [|by left].
    intros y Hy. by apply elem_of_nil in Hy.
  - cbn [Py.for_each] in H.
    apply rbind_Ok in H as ([f1 e1] & Hstep & H).
    unfold step_body in Hstep. rewrite filled in Hstep.
    apply rbind_Ok in Hstep as (f1' & Hf & Hstep).
    apply rbind_Ok in Hstep as (e1' & _ & Hstep).
    injection Hstep as <- <-.
    apply rbind_Ok in Hf as (fi & Hfi & Hf).
    apply rbind_Ok in Hf as (x & Hx & Hf).
    injection Hf as <-.
    unfold Py.getitem in Hfi. destruct (step !! en) as [fi'|] eqn:Hlook; [|done].
    simpl in Hfi. injection Hfi as <-.
    apply max_Ok in Hx as [Hin Hmax].
    apply IH in H as (H1 & H2 & H3). clear IH.
    destruct (max2_cases fmax0 x) as (Ha & Hb & Hab).
    cbn [fmap list_fmap map concat snd]. rewrite Hlook.
    split; [lra|]. split.
    + intros y Hy. apply elem_of_app in Hy as [Hy|Hy]; [|by apply H2].
      specialize (Hmax y Hy). lra.
    + destruct H3 as [->|H3].
      * destruct Hab as [->| ->]; [by left|]. right. apply elem_of_app. by left.
      * right. apply elem_of_app. by right.
Qed.

(** The test of line 689 on [FI_step_max[en]] finds the violated
    elements. *)
Lemma element_violated (en : Z) (fmax : Q) (enlist : list Q) :
  element_steps cfg r en = Ok (fmax, enlist) ->
  domain_FI_filled cfg && Py.le 1 fmax = violated_element cfg r en.
Proof.
  intros H. unfold violated_element.
  destruct (domain_FI_filled cfg) eqn:filled; [|done]. cbn [andb].
  unfold element_steps in H.
  apply (steps_loop_filled en _ 0 fmax [] enlist filled) in H.
  rewrite snd_enumerate in H. fold (failure_ratios r en) in H.
  destruct H as (_ & Hub & Hatt).
  apply eq_true_iff_eq. rewrite existsb_exists, le_true. split.
  - intros Hge. destruct Hatt as [->|Hin]; [lra|].
    exists fmax. split; [by apply list_elem_of_In|by apply le_true].
  - intros (y & Hy & Hle). apply list_elem_of_In in Hy. apply le_true in Hle.
    specialize (Hub y Hy). lra.
Qed.

End ViolatedElement.

Section Violated.

Variable cfg : config.
Variable m : mesh.
Variable r : results.
Variable es : gmap Z Z.
Variable i : nat.

(** The counter of the domain grows by one for each violated element. *)
Lemma violated_elements (dno : nat) (d : domain) (R : list (list Z)) (row : list Z)
    (ens : list Z) :
  length R = i -> length row = dno ->
  forall (c : Z) (v v' : sens_vars),
    v_FI_violated v = R ++ [row ++ [c]] ->
    Py.for_each ens (sensitivity_element cfg m r es i dno d) v = Ok v' ->
    v_FI_violated v'
    = R ++ [row ++ [(c + Z.of_nat (length (List.filter (violated_element cfg r) ens)))%Z]].
Proof.
  intros HR Hrow. induction ens as [|e ens IH]; intros c v v' Hv H.
  - simpl in H. injection H as <-. rewrite Hv. simpl.
    by replace (c + Z.of_nat 0)%Z with c by lia.
  - cbn [Py.for_each] in H. apply rbind_Ok in H as (v1 & He & H).
    apply sensitivity_element_Ok in He
      as (fmax & enlist & x & rows & Hsteps & _ & Hrows & _ & _ & _ & Hv1).
    cbn [List.filter]. rewrite <- (element_violated cfg r e fmax enlist Hsteps).
    destruct (domain_FI_filled cfg && Py.le 1 fmax) eqn:Hviol.
    + unfold count_violated in Hrows. rewrite Hv in Hrows.
      rewrite (lookup_last_row R _ i HR) in Hrows. cbn [rbind] in Hrows.
      assert (Hc : Py.index (row ++ [c]) (Z.of_nat dno) = Ok c)
        by (by apply lookup_last_row).
      rewrite Hc in Hrows. cbn [rbind] in Hrows.
      rewrite (insert_last_row row _ c dno Hrow) in Hrows.
      rewrite (insert_last_row R _ _ i HR) in Hrows.
      injection Hrows as Hrows. rewrite <- Hrows in Hv1.
      rewrite (IH (c + 1)%Z v1 v' Hv1 H). cbn [length].
      by replace (c + 1 + Z.of_nat (length (List.filter (violated_element cfg r) ens)))%Z
        with (c + Z.of_nat (S (length (List.filter (violated_element cfg r) ens))))%Z
        by lia.
    + injection Hrows as Hrows. rewrite <- Hrows in Hv1.
      rewrite (IH c v1 v'); [done|congruence|done].
Qed.

Lemma violated_domain (dno : nat) (d : domain) (R : list (list Z)) (row : list Z)
    (v v' : sens_vars) :
  length R = i -> length row = dno ->
  v_FI_violated v = R ++ [row] ->
  sensitivity_domain cfg m r es i (dno, d) v = Ok v' ->
  v_FI_violated v' = R ++ [row ++ [violated_count cfg r d]].
Proof.
  intros HR Hrow Hv H. unfold sensitivity_domain in H.
  apply rbind_Ok in H as (rows & Hrows & H).
  unfold append_counter in Hrows. rewrite Hv in Hrows.
  rewrite (lookup_last_row R _ i HR) in Hrows. cbn [rbind] in Hrows.
  rewrite (insert_last_row R _ _ i HR) in Hrows.
  injection Hrows as Hrows.
  apply (violated_elements dno d R row (domains d) HR Hrow 0%Z) in H; [|done].
  rewrite H. unfold violated_count. by rewrite Z.add_0_l.
Qed.

Lemma violated_domains (R : list (list Z)) (ds : list domain) (v0 v : sens_vars) :
  length R = i ->
  v_FI_violated v0 = R ++ [[]] ->
  Py.for_each (Py.enumerate ds) (sensitivity_domain cfg m r es i) v0 = Ok v ->
  v_FI_violated v = R ++ [violated_count cfg r <$> ds].
Proof.
  intros HR Hv0. revert v.
  induction ds as [|d ds IH] using rev_ind; intros v H.
  - simpl in H. by injection H as <-.
  - rewrite enumerate_snoc, for_each_app in H.
    apply rbind_Ok in H as (v1 & H1 & H).
    apply IH in H1. clear IH.
    cbn [Py.for_each] in H. apply rbind_Ok in H as (v2 & Hd & H).
    injection H as ->.
    apply (violated_domain (length ds) d R (violated_count cfg r <$> ds) v1 v HR)
      in Hd; [| |done].
    + rewrite Hd, fmap_app. done.
    + by rewrite length_fmap.
Qed.

End Violated.

Lemma sensitivities_violated (cfg : config) (m : mesh) (r : results) (s : state)
    (v : sens_vars) :
  sensitivities cfg m r s = Ok v ->
  length (FI_violated s) = i s ->
  v_FI_violated v = FI_violated s ++ [violated_count cfg r <$> domains_from_config cfg].
Proof.
  intros H Hlen. unfold sensitivities in H.
  by apply (violated_domains cfg m r (elm_states s) (i s) (FI_violated s)) in H.
Qed.

(** X8.  The row appended to [FI_violated] in iteration [i] has one counter
    per domain, in the order of the configuration: the number of elements of
    the domain that are violated, that is, with failure limits defined, the
    elements that have a failure ratio of at least 1 in some load step for
    some criterion.  The rows of the iterations before stay as they are. *)
Theorem violated_row_counts_elements_per_domain
    (cfg : config) (m : mesh) (r : results) (s : state) (v : sens_vars) :
  sensitivities cfg m r s = Ok v ->
  length (FI_violated s) = i s ->
  v_FI_violated v
  = FI_violated s
    ++ [(fun d => Z.of_nat (length (List.filter (violated_element cfg r) (domains d))))
        <$> domains_from_config cfg]
  /\ (forall en,
        violated_element cfg r en = true
        <-> domain_FI_filled cfg = true
            /\ exists y, y ∈ failure_ratios r en /\ 1 <= y).
Proof.
  intros H Hlen. split; [by apply (sensitivities_violated cfg m r s v)|].
  intros en. unfold violated_element.
  rewrite andb_true_iff, existsb_exists. split.
  - intros [Hf (y & Hy & Hle)]. split; [done|]. exists y.
    split; [by apply list_elem_of_In|by apply le_true].
  - intros [Hf (y & Hy & Hle)]. split; [done|]. exists y.
    split; [by apply list_elem_of_In|by apply le_true].
Qed.

Section ViolatedTable.

Variable env : environment.
Variable cfg : config.
Variable m : mesh.
Variable mass_full : Q.
Variable lim : iterations_limit_t.

(** X9.  Along a run, when iteration [n] starts the table [FI_violated]
    has one row for each of the iterations [0 .. n-1], and every row has one
    counter per domain, none of them negative. *)
Theorem violated_table_has_a_row_per_iteration
    (elm_states0 : gmap Z Z) (mass0 : Q) (n : nat) (s : state) :
  passes env cfg m mass_full lim n (initial_state elm_states0 mass0) = Some s ->
  length (FI_violated s) = n
  /\ Forall (fun row : list Z =>
               length row = length (domains_from_config cfg)
               /\ Forall (fun c => (0 <= c)%Z) row) (FI_violated s).
Proof.
  revert s. induction n as [|n IH]; intros s H.
  - inversion H; subst. simpl. split; [done|constructor].
  - pose proof H as Hrun.
    apply passes_S in H as (s' & tr & Hn & Hbody).
    destruct (IH _ Hn) as [Hlen Hrows].
    apply passes_invariant in Hn as (Hi & _).
    apply loop_body_inv in Hbody as (s2 & (tr1 & s1 & tr2 & H1 & _ & H2) & _ & ->).
    apply first_half_blocks in H1
      as (z & tr_i & r & v & sens0 & tr_f & sens1 & sens & sens_old & a & l
          & _ & _ & _ & _ & Hsens & _ & _ & _ & _ & _ & _ & Hv & _).
    apply second_half_blocks in H2
      as (tr_g & g & tr_w & w & tr_f' & es & mass' & excess
          & _ & _ & _ & _ & _ & _ & _ & _ & _ & _ & _ & _ & Hkeep & _).
    cbn [remember_states FI_violated]. rewrite Hkeep, Hv.
    rewrite (sensitivities_violated cfg m r s' v Hsens) by congruence.
    split; [rewrite length_app; simpl; lia|].
    apply Forall_app. split; [done|]. constructor; [|constructor].
    split; [by rewrite length_fmap|].
    apply Forall_fmap, Forall_forall. intros d _. unfold violated_count. simpl. lia.
Qed.

End ViolatedTable.

(** ** The mean values *)

Lemma Qsum_cons (x : Q) (l : list Q) : Qsum (x :: l) = x + Qsum l.
Proof. done. Qed.

Lemma weighted_sum_cons (value : Z -> Q) (weight : domain * bool * Z -> Q)
    (p : domain * bool * Z) (l : list (domain * bool * Z)) :
  weighted_sum value weight (p :: l)
  = value (snd p) * weight p + weighted_sum value weight l.
Proof. done. Qed.

Section Means.

Variable cfg : config.
Variable m : mesh.
Variable r : results.
Variable v : sens_vars.
Variable es : gmap Z Z.

(** The body of the loops of lines 785-806 on an element of the ledger *)
#[local] Abbreviation mean_item :=
  (fun (p : domain * bool * Z) (a : mean_sums) =>
     do st <- Py.getitem es (snd p);
     do mass_elm <- (if snd (fst p) then shell_mass m (fst (fst p)) (snd p) st
                     else volume_mass m (fst (fst p)) (snd p) st);
     mean_element cfg r v es (snd p) mass_elm a).

Lemma mean_values_flat :
  mean_values cfg m r v es
  = Py.for_each (optimized_elements cfg) mean_item
      {| FI_mean_sum := 0; FI_mean_sum_without_state0 := 0; mass_without_state0 := 0;
         energy_density_mean_sum := 0; heat_flux_mean_sum := 0 |}.
Proof.
  unfold mean_values, optimized_elements. rewrite for_each_concat.
  apply for_each_ext. intros d t. unfold mean_domain.
  destruct (domain_optimized d); [|done].
  rewrite for_each_app, for_each_map. cbn [fst snd].
  destruct (Py.for_each (domain_shells d) _ t); simpl; [|done].
  rewrite for_each_map. reflexivity.
Qed.

Lemma mean_item_Ok (p : domain * bool * Z) (a a' : mean_sums) :
  mean_item p a = Ok a' ->
  (if domain_FI_filled cfg
   then FI_mean_sum a' == FI_mean_sum a + element_FI v (snd p) * present_mass m es p
        /\ FI_mean_sum_without_state0 a'
           == FI_mean_sum_without_state0 a
              + element_FI v (snd p) * mass_outside_state0 m es p
        /\ mass_without_state0 a'
           == mass_without_state0 a + mass_outside_state0 m es p
   else FI_mean_sum a' = FI_mean_sum a
        /\ FI_mean_sum_without_state0 a' = FI_mean_sum_without_state0 a
        /\ mass_without_state0 a' = mass_without_state0 a)
  /\ match optimization_base cfg with
     | stiffness =>
         energy_density_mean_sum a'
         == energy_density_mean_sum a + element_energy v (snd p) * present_mass m es p
         /\ heat_flux_mean_sum a' = heat_flux_mean_sum a
     | heat =>
         heat_flux_mean_sum a'
         == heat_flux_mean_sum a + element_heat_flux r (snd p) * present_mass m es p
         /\ energy_density_mean_sum a' = energy_density_mean_sum a
     | _ =>
         energy_density_mean_sum a' = energy_density_mean_sum a
         /\ heat_flux_mean_sum a' = heat_flux_mean_sum a
     end.
Proof.
  destruct p as [[d is_shell] en]. cbn [fst snd]. intros H.
  apply rbind_Ok in H as (st & Hst & H).
  apply rbind_Ok in H as (mass_elm & Hmass & H).
  apply getitem_Ok in Hst.
  assert (Hpresent : present_mass m es (d, is_shell, en) = mass_elm).
  { unfold present_mass, elm_mass. cbn [snd]. rewrite Hst.
    destruct is_shell; by rewrite Hmass. }
  assert (Houtside : mass_outside_state0 m es (d, is_shell, en)
                     = if bool_decide (st ≠ 0%Z) then mass_elm else 0).
  { unfold mass_outside_state0, elm_mass. cbn [snd]. rewrite Hst.
    case_bool_decide as Hst0.
    - destruct st; [done| |]; destruct is_shell; by rewrite Hmass.
    - by subst st. }
  unfold mean_element in H.
  apply rbind_Ok in H as (a1 & H1 & H).
  assert (Hbase : match optimization_base cfg with
     | stiffness =>
         energy_density_mean_sum a'
         == energy_density_mean_sum a1 + element_energy v en * mass_elm
         /\ heat_flux_mean_sum a' = heat_flux_mean_sum a1
         /\ FI_mean_sum a' = FI_mean_sum a1
         /\ FI_mean_sum_without_state0 a' = FI_mean_sum_without_state0 a1
         /\ mass_without_state0 a' = mass_without_state0 a1
     | heat =>
         heat_flux_mean_sum a'
         == heat_flux_mean_sum a1 + element_heat_flux r en * mass_elm
         /\ energy_density_mean_sum a' = energy_density_mean_sum a1
         /\ FI_mean_sum a' = FI_mean_sum a1
         /\ FI_mean_sum_without_state0 a' = FI_mean_sum_without_state0 a1
         /\ mass_without_state0 a' = mass_without_state0 a1
     | _ => a' = a1
     end).
  { destruct (optimization_base cfg); try (by inversion H).
    - apply rbind_Ok in H as (l & Hl & H). apply rbind_Ok in H as (x & Hx & H).
      inversion H; subst; clear H. cbn.
      apply getitem_Ok in Hl. unfold element_energy. rewrite Hl, Hx.
      repeat split; reflexivity.
    - apply rbind_Ok in H as (h & Hh & H). inversion H; subst; clear H. cbn.
      apply getitem_Ok in Hh. unfold element_heat_flux. rewrite Hh.
      repeat split; reflexivity. }
  assert (Hfilled :
    if domain_FI_filled cfg
    then FI_mean_sum a1 == FI_mean_sum a + element_FI v en * mass_elm
         /\ FI_mean_sum_without_state0 a1
            == FI_mean_sum_without_state0 a
               + element_FI v en * (if bool_decide (st ≠ 0%Z) then mass_elm else 0)
         /\ mass_without_state0 a1
            == mass_without_state0 a
               + (if bool_decide (st ≠ 0%Z) then mass_elm else 0)
         /\ energy_density_mean_sum a1 = energy_density_mean_sum a
         /\ heat_flux_mean_sum a1 = heat_flux_mean_sum a
    else a1 = a).
  { destruct (domain_FI_filled cfg); [|by inversion H1].
    apply rbind_Ok in H1 as (f & Hf & H1).
    apply rbind_Ok in H1 as (st' & Hst' & H1).
    apply getitem_Ok in Hf, Hst'. rewrite Hst in Hst'. inversion Hst'; subst st'.
    unfold element_FI. rewrite Hf. cbn [default].
    case_bool_decide as Hst0.
    - apply rbind_Ok in H1 as (f' & Hf' & H1). apply getitem_Ok in Hf'.
      rewrite Hf in Hf'. inversion Hf'; subst f'.
      inversion H1; subst; clear H1. cbn. repeat split; reflexivity.
    - inversion H1; subst; clear H1. cbn. repeat split; try reflexivity; ring. }
  rewrite Hpresent, Houtside.
  destruct (domain_FI_filled cfg).
  - destruct Hfilled as (F1 & F2 & F3 & F4 & F5).
    destruct (optimization_base cfg).
    + destruct Hbase as (B1 & B2 & B3 & B4 & B5).
      rewrite B1, B2, B3, B4, B5, F4, F5. done.
    + destruct Hbase as (B1 & B2 & B3 & B4 & B5).
      rewrite B1, B2, B3, B4, B5, F4, F5. done.
    + subst a'. by rewrite F4, F5.
    + subst a'. by rewrite F4, F5.
    + subst a'. by rewrite F4, F5.
  - subst a1.
    destruct (optimization_base cfg).
    + destruct Hbase as (B1 & B2 & B3 & B4 & B5). done.
    + destruct Hbase as (B1 & B2 & B3 & B4 & B5). done.
    + by subst a'.
    + by subst a'.
    + by subst a'.
Qed.

Lemma mean_items_Ok (l : list (domain * bool * Z)) (a a' : mean_sums) :
  Py.for_each l mean_item a = Ok a' ->
  (domain_FI_filled cfg = true ->
   FI_mean_sum a' == FI_mean_sum a + weighted_sum (element_FI v) (present_mass m es) l
   /\ FI_mean_sum_without_state0 a'
      == FI_mean_sum_without_state0 a
         + weighted_sum (element_FI v) (mass_outside_state0 m es) l
   /\ mass_without_state0 a'
      == mass_without_state0 a + Qsum (map (mass_outside_state0 m es) l))
  /\ (optimization_base cfg = stiffness ->
      energy_density_mean_sum a'
      == energy_density_mean_sum a
         + weighted_sum (element_energy v) (present_mass m es) l)
  /\ (optimization_base cfg = heat ->
      heat_flux_mean_sum a'
      == heat_flux_mean_sum a
         + weighted_sum (element_heat_flux r) (present_mass m es) l).
Proof.
  revert a. induction l as [|p l IH]; intros a H.
  - simpl in H. injection H as <-. unfold weighted_sum. simpl.
    split; [intros _; repeat split; ring|split; intros _; ring].
  - cbn [Py.for_each] in H. apply rbind_Ok in H as (a1 & Hp & H).
    apply mean_item_Ok in Hp as [Hf Hb].
    apply IH in H as (I1 & I2 & I3). clear IH.
    rewrite !weighted_sum_cons. cbn [map]. rewrite Qsum_cons.
    split; [|split].
    + intros Hfilled. rewrite Hfilled in Hf.
      destruct Hf as (F1 & F2 & F3). destruct (I1 Hfilled) as (J1 & J2 & J3).
      rewrite J1, J2, J3, F1, F2, F3. repeat split; ring.
    + intros Hbase. rewrite Hbase in Hb. destruct Hb as [B1 _].
      rewrite (I2 Hbase), B1. ring.
    + intros Hbase. rewrite Hbase in Hb. destruct Hb as [B1 _].
      rewrite (I3 Hbase), B1. ring.
Qed.

End Means.

(** The sums of the mean values as sums over the elements of the ledger *)
Lemma mean_sums_parts
    (cfg : config) (m : mesh) (r : results) (v : sens_vars) (es : gmap Z Z)
    (a : mean_sums) :
  mean_values cfg m r v es = Ok a ->
  (domain_FI_filled cfg = true ->
   FI_mean_sum a
   == weighted_sum (element_FI v) (present_mass m es) (optimized_elements cfg)
   /\ FI_mean_sum_without_state0 a
      == weighted_sum (element_FI v) (mass_outside_state0 m es) (optimized_elements cfg)
   /\ mass_without_state0 a
      == Qsum (map (mass_outside_state0 m es) (optimized_elements cfg)))
  /\ (optimization_base cfg = stiffness ->
      energy_density_mean_sum a
      == weighted_sum (element_energy v) (present_mass m es) (optimized_elements cfg))
  /\ (optimization_base cfg = heat ->
      heat_flux_mean_sum a
      == weighted_sum (element_heat_flux r) (present_mass m es) (optimized_elements cfg)).
Proof.
  rewrite mean_values_flat. intros H.
  apply mean_items_Ok in H as (H1 & H2 & H3). cbn in H1, H2, H3.
  split; [|split].
  - intros Hf. destruct (H1 Hf) as (J1 & J2 & J3).
    rewrite J1, J2, J3. repeat split; ring.
  - intros Hb. rewrite (H2 Hb). ring.
  - intros Hb. rewrite (H3 Hb). ring.
Qed.

(** X10.  The sums from which the mean values are made run over the shell
    and volume elements of the optimised domains: the sum for [FI_mean] adds
    [FI_step_max[en]] times the mass of the element in its present state, the
    sums "without state 0" leave out the elements in state 0, and the sums for
    the mean energy density and the mean heat flux weigh
    [max(energy_density_enlist[en])] and [heat_flux[en]] with the same
    masses. *)
Theorem mean_sums_are_mass_weighted
    (cfg : config) (m : mesh) (r : results) (v : sens_vars) (es : gmap Z Z)
    (a : mean_sums) :
  mean_values cfg m r v es = Ok a ->
  (domain_FI_filled cfg = true ->
   FI_mean_sum a
   == weighted_sum (element_FI v) (present_mass m es) (optimized_elements cfg)
   /\ FI_mean_sum_without_state0 a
      == weighted_sum (element_FI v) (mass_outside_state0 m es) (optimized_elements cfg)
   /\ mass_without_state0 a
      == Qsum (map (mass_outside_state0 m es) (optimized_elements cfg)))
  /\ (optimization_base cfg = stiffness ->
      energy_density_mean_sum a
      == weighted_sum (element_energy v) (present_mass m es) (optimized_elements cfg))
  /\ (optimization_base cfg = heat ->
      heat_flux_mean_sum a
      == weighted_sum (element_heat_flux r) (present_mass m es) (optimized_elements cfg)).
Proof. apply mean_sums_parts. Qed.

Lemma weighted_sum_bounds (value : Z -> Q) (weight : domain * bool * Z -> Q)
    (l : list (domain * bool * Z)) (lo hi : Q) :
  (forall p, p ∈ l -> 0 <= weight p /\ lo <= value (snd p) <= hi) ->
  lo * Qsum (map weight l) <= weighted_sum value weight l
  /\ weighted_sum value weight l <= hi * Qsum (map weight l).
Proof.
  induction l as [|p l IH]; intros H.
  - unfold weighted_sum. simpl. lra.
  - rewrite weighted_sum_cons. cbn [map]. rewrite Qsum_cons.
    destruct IH as [I1 I2].
    { intros q Hq. apply H. by apply list_elem_of_further. }
    destruct (H p) as (Hw & Hlo & Hhi); [apply list_elem_of_here|].
    assert (lo * weight p <= value (snd p) * weight p)
      by (by apply Qmult_le_compat_r).
    assert (value (snd p) * weight p <= hi * weight p)
      by (by apply Qmult_le_compat_r).
    lra.
Qed.

(** A quotient of a weighted sum by the sum of the weights lies between the
    bounds of the values. *)
Lemma weighted_mean_bounds (value : Z -> Q) (weight : domain * bool * Z -> Q)
    (l : list (domain * bool * Z)) (lo hi total x : Q) :
  0 < total ->
  total == Qsum (map weight l) ->
  x == weighted_sum value weight l / total ->
  (forall p, p ∈ l -> 0 <= weight p /\ lo <= value (snd p) <= hi) ->
  lo <= x <= hi.
Proof.
  intros Hpos Htotal Hx H.
  destruct (weighted_sum_bounds value weight l lo hi H) as [H1 H2].
  rewrite <- Htotal in H1, H2. rewrite Hx. split.
  - apply Qle_shift_div_l; [done|]. lra.
  - apply Qle_shift_div_r; [done|]. lra.
Qed.

(** X11.  The value appended to [energy_density_mean] (stiffness) and to
    [FI_mean] (failure limits defined) in iteration [i] is the mass-weighted
    sum of the element values divided by the ledger entry [mass[i]], which
    must not be 0.  When [mass[i]] is the positive total of the element masses
    and no element mass is negative, the mean lies between the least and the
    greatest element value.  [FI_mean_without_state0] gets the string "NaN"
    exactly when the mass outside state 0 sums to 0. *)
Theorem tracked_means_are_mass_weighted_averages
    (cfg : config) (m : mesh) (r : results) (v : sens_vars) (s : state)
    (a : mean_sums) (l : mean_lists) :
  mean_values cfg m r v (elm_states s) = Ok a ->
  append_means cfg s a = Ok l ->
  let ledger := optimized_elements cfg in
  let weight := present_mass m (elm_states s) in
  (optimization_base cfg = stiffness ->
   exists x mi,
     l_energy_density_mean l = energy_density_mean s ++ [x]
     /\ mass s !! i s = Some mi /\ ~ mi == 0
     /\ x == weighted_sum (element_energy v) weight ledger / mi
     /\ forall lo hi,
          0 < mi -> mi == Qsum (map weight ledger) ->
          (forall p, p ∈ ledger ->
             0 <= weight p /\ lo <= element_energy v (snd p) <= hi) ->
          lo <= x <= hi)
  /\ (domain_FI_filled cfg = true ->
      exists x mi,
        l_FI_mean l = FI_mean s ++ [x]
        /\ mass s !! i s = Some mi /\ ~ mi == 0
        /\ x == weighted_sum (element_FI v) weight ledger / mi
        /\ (forall lo hi,
              0 < mi -> mi == Qsum (map weight ledger) ->
              (forall p, p ∈ ledger ->
                 0 <= weight p /\ lo <= element_FI v (snd p) <= hi) ->
              lo <= x <= hi)
        /\ (l_FI_mean_without_state0 l = FI_mean_without_state0 s ++ [None]
            <-> Qsum (map (mass_outside_state0 m (elm_states s)) ledger) == 0)).
Proof.
  intros Hmean Happ ledger weight. subst ledger weight.
  apply mean_sums_parts in Hmean as (M1 & M2 & M3).
  unfold append_means in Happ.
  apply rbind_Ok in Happ as ([fm fm0] & Hfm & Happ).
  apply rbind_Ok in Happ as (em & Hem & Happ).
  apply rbind_Ok in Happ as (hm & Hhm & Happ).
  injection Happ as <-. cbn [l_energy_density_mean l_FI_mean l_FI_mean_without_state0].
  split.
  - intros Hbase. rewrite Hbase in Hem.
    apply rbind_Ok in Hem as (mi & Hmi & Hem).
    apply rbind_Ok in Hem as (x & Hx & Hem).
    apply rbind_Ok in Hem as (? & _ & Hem). injection Hem as <-.
    apply index_nat in Hmi. apply div_Ok in Hx as [Hnz ->].
    exists (energy_density_mean_sum a / mi), mi.
    repeat (split; [done|]).
    assert (Hx : energy_density_mean_sum a / mi
                 == weighted_sum (element_energy v) (present_mass m (elm_states s))
                      (optimized_elements cfg) / mi)
      by (by rewrite (M2 Hbase)).
    split; [done|]. intros lo hi Hpos Htotal Hall.
    by apply (weighted_mean_bounds (element_energy v) (present_mass m (elm_states s))
                (optimized_elements cfg) lo hi mi).
  - intros Hfilled. rewrite Hfilled in Hfm.
    destruct (M1 Hfilled) as (F1 & F2 & F3).
    apply rbind_Ok in Hfm as (mi & Hmi & Hfm).
    apply rbind_Ok in Hfm as (x & Hx & Hfm).
    apply rbind_Ok in Hfm as (? & _ & Hfm).
    apply index_nat in Hmi. apply div_Ok in Hx as [Hnz ->].
    exists (FI_mean_sum a / mi), mi.
    assert (Hx : FI_mean_sum a / mi
                 == weighted_sum (element_FI v) (present_mass m (elm_states s))
                      (optimized_elements cfg) / mi)
      by (by rewrite F1).
    assert (Hnan : fm0 = FI_mean_without_state0 s ++ [None]
                   <-> Qsum (map (mass_outside_state0 m (elm_states s))
                               (optimized_elements cfg)) == 0).
    { assert (Hz : mass_without_state0 a == 0
                   <-> Qsum (map (mass_outside_state0 m (elm_states s))
                               (optimized_elements cfg)) == 0)
        by (by rewrite F3).
      rewrite <- Hz. destruct (Py.eq (mass_without_state0 a) 0) eqn:E.
      - injection Hfm as <- <-. apply eq_true in E. done.
      - apply rbind_Ok in Hfm as (y & _ & Hfm).
        apply rbind_Ok in Hfm as (? & _ & Hfm). injection Hfm as <- <-.
        split.
        + intros Heq. apply app_inj_tail in Heq as [_ Heq]. done.
        + intros Hz'. apply eq_true in Hz'. congruence. }
    assert (Hfm' : fm = FI_mean s ++ [FI_mean_sum a / mi]).
    { destruct (Py.eq (mass_without_state0 a) 0).
      - by injection Hfm as <- <-.
      - apply rbind_Ok in Hfm as (y & _ & Hfm).
        apply rbind_Ok in Hfm as (? & _ & Hfm). by injection Hfm as <- <-. }
    repeat (split; [done|]). split; [|done].
    intros lo hi Hpos Htotal Hall.
    by apply (weighted_mean_bounds (element_FI v) (present_mass m (elm_states s))
                (optimized_elements cfg) lo hi mi).
Qed.

(** ** Averaging of the sensitivity numbers with the previous iteration *)

Section Averaging.

Variable i : nat.

(** The body of the loop of lines 759-763 *)
#[local] Abbreviation average_element :=
  (fun (en : Z) '((sens, sens_old) : gmap Z Q * gmap Z Q) =>
     do sens1 <-
       (if (0 <? i)%nat then
          do a <- Py.getitem sens en;
          do b <- Py.getitem sens_old en;
          Ok (<[en := (a + b) / 2]> sens)
        else Ok sens);
     do a <- Py.getitem sens1 en;
     Ok (sens1, <[en := a]> sens_old)).

Lemma average_element_Ok (en : Z) (sens sens_old sens' sens_old' : gmap Z Q) :
  average_element en (sens, sens_old) = Ok (sens', sens_old') ->
  exists a x,
    sens !! en = Some a
    /\ sens' = <[en := x]> sens /\ sens_old' = <[en := x]> sens_old
    /\ if (0 <? i)%nat
       then exists b, sens_old !! en = Some b /\ x = (a + b) / 2
       else x = a.
Proof.
  intros H. apply rbind_Ok in H as (sens1 & H1 & H).
  apply rbind_Ok in H as (x & Hx & H). injection H as <- <-.
  apply getitem_Ok in Hx.
  destruct (0 <? i)%nat.
  - apply rbind_Ok in H1 as (a & Ha & H1). apply rbind_Ok in H1 as (b & Hb & H1).
    injection H1 as <-. apply getitem_Ok in Ha, Hb.
    rewrite lookup_insert_eq in Hx. injection Hx as <-.
    exists a, ((a + b) / 2). repeat (split; [done|]). by exists b.
  - injection H1 as <-. exists x, x. repeat (split; [done|]).
    by rewrite insert_id.
Qed.

Lemma average_elements_Ok (l : list Z) :
  NoDup l ->
  forall sens sens_old sens' sens_old',
    Py.for_each l average_element (sens, sens_old) = Ok (sens', sens_old') ->
    (forall en, en ∉ l ->
       sens' !! en = sens !! en /\ sens_old' !! en = sens_old !! en)
    /\ (forall en, en ∈ l ->
          exists a x,
            sens !! en = Some a
            /\ sens' !! en = Some x /\ sens_old' !! en = Some x
            /\ if (0 <? i)%nat
               then exists b, sens_old !! en = Some b /\ x = (a + b) / 2
               else x = a).
Proof.
  induction l as [|e l IH]; intros Hnd sens sens_old sens' sens_old' H.
  - simpl in H. injection H as <- <-. split; [done|].
    intros en Hen. by apply elem_of_nil in Hen.
  - apply NoDup_cons in Hnd as [Hnot Hnd].
    cbn [Py.for_each] in H. apply rbind_Ok in H as ([sens1 old1] & He & H).
    apply average_element_Ok in He as (a & x & Ha & -> & -> & Hx).
    apply (IH Hnd) in H as [Hout Hin]. clear IH.
    split.
    + intros en Hen. apply not_elem_of_cons in Hen as [Hne Hen].
      destruct (Hout en Hen) as [-> ->].
      by rewrite !lookup_insert_ne.
    + intros en Hen. apply elem_of_cons in Hen as [->|Hen].
      * destruct (Hout e Hnot) as [-> ->]. rewrite !lookup_insert_eq.
        exists a, x. done.
      * assert (Hne : e ≠ en) by (intros ->; done).
        destruct (Hin en Hen) as (a' & x' & Ha' & Hs & Ho & Hx').
        rewrite lookup_insert_ne in Ha' by done.
        exists a', x'. repeat (split; [done|]).
        destruct (0 <? i)%nat; [|done].
        destruct Hx' as (b & Hb & ->). rewrite lookup_insert_ne in Hb by done.
        by exists b.
Qed.

End Averaging.

(** X12.  With [sensitivity_averaging] on, every optimised element gets in
    iteration [i > 0] the mean of its filtered sensitivity number and the
    number kept from the iteration before, and that mean is kept for the next
    iteration; in iteration 0 the number stays and is kept.  The numbers of
    other elements are not touched.  With the option off nothing changes.
    Each optimised element is listed once in [opt_domains]. *)
Theorem averaging_halves_with_previous_iteration
    (cfg : config) (m : mesh) (i : nat) (sens sens_old sens' sens_old' : gmap Z Q) :
  NoDup (opt_domains m) ->
  averaging cfg m i sens sens_old = Ok (sens', sens_old') ->
  (sensitivity_averaging cfg = false -> sens' = sens /\ sens_old' = sens_old)
  /\ (sensitivity_averaging cfg = true ->
      (forall en, en ∉ opt_domains m ->
         sens' !! en = sens !! en /\ sens_old' !! en = sens_old !! en)
      /\ (forall en, en ∈ opt_domains m ->
            exists a x,
              sens !! en = Some a
              /\ sens' !! en = Some x /\ sens_old' !! en = Some x
              /\ ((i = 0)%nat -> x = a)
              /\ ((0 < i)%nat ->
                  exists b, sens_old !! en = Some b /\ x = (a + b) / 2))).
Proof.
  intros Hnd H. unfold averaging in H.
  destruct (sensitivity_averaging cfg).
  - split; [done|]. intros _.
    apply (average_elements_Ok i (opt_domains m) Hnd) in H as [Hout Hin].
    split; [done|]. intros en Hen.
    destruct (Hin en Hen) as (a & x & Ha & Hs & Ho & Hx).
    exists a, x. repeat (split; [done|]).
    destruct (Nat.ltb_spec 0 i) as [Hpos|Hzero].
    + split; [lia|done].
    + split; [done|lia].
  - injection H as <- <-. done.
Qed.

(** ** The mass goal of an iteration *)

(** Splits a block with branches that ended without an exception, down to
    the statements that set its variables. *)
Ltac winv_deep :=
  repeat match goal with
         | H : wbind _ _ = (_, Ok _) |- _ => winv H
         | H : (if ?c then _ else _) = (_, Ok _) |- _ => destruct c eqn:?
         | H : (match ?c with Some _ => _ | None => _ end) = (_, Ok _) |- _ =>
             destruct c eqn:?
         | H : lift ?r = (_, Ok _) |- _ =>
             unfold lift in H; injection H as <- H
         | H : wret _ = (_, Ok _) |- _ =>
             unfold wret in H; injection H as <- H
         | H : emit _ = (_, Ok _) |- _ =>
             unfold emit in H; injection H as <- H
         end.

Section Goal.

Variable cfg : config.
Variable mass_full : Q.

#[local] Abbreviation final_goal := (mass_goal_ratio cfg * mass_full).

(** What the block that sets the mass goal leaves in its variables *)
Lemma set_mass_goal_Ok (k : nat) (s : state) (tr : list event) (g : goal_vars) :
  set_mass_goal cfg mass_full k s = (tr, Ok g) ->
  ((g_i_violated g = i_violated s /\ g_check_tolerance g = check_tolerance s)
   \/ (i_violated s = 0%nat /\ g_i_violated g = k /\ g_check_tolerance g = true))
  /\ (0 < mass_removal_ratio cfg - mass_addition_ratio cfg ->
      (forall g0, mass_goal_i s = Some g0 -> final_goal <= g0) ->
      forall x, g_mass_goal_i g = Some x -> final_goal <= x).
Proof.
  unfold set_mass_goal. intros H.
  assert (Hstart : forall iv ct,
            (if (i_violated s =? 0)%nat then (k, true)
             else (i_violated s, check_tolerance s)) = (iv, ct) ->
            (iv = i_violated s /\ ct = check_tolerance s)
            \/ (i_violated s = 0%nat /\ iv = k /\ ct = true)).
  { intros iv ct. destruct (Nat.eqb_spec (i_violated s) 0).
    - intros [= <- <-]. by right.
    - intros [= <- <-]. by left. }
  destruct (if (i_violated s =? 0)%nat then (k, true)
            else (i_violated s, check_tolerance s)) as [iv ct] eqn:Hsd.
  specialize (Hstart iv ct eq_refl). cbn [fst snd] in H.
  winv_deep; subst; cbn [g_i_violated g_check_tolerance g_mass_goal_i];
    (split; [first [done|by left]|]); intros Hr Hold x Hx;
    try (injection Hx as <-);
    repeat match goal with
           | Hc : Py.le _ _ = true |- _ => apply le_true in Hc
           | Hc : Py.le _ _ = false |- _ => apply le_false in Hc
           | Hc : Py.lt _ _ = true |- _ => apply lt_true in Hc
           | Hc : Py.lt _ _ = false |- _ => apply lt_false in Hc
           end;
    try (by apply Hold); try lra.
  all: repeat match goal with
              | H1 : Py.index ?l ?z = Ok ?a, H2 : Py.index ?l ?z = Ok ?b |- _ =>
                  rewrite H1 in H2; injection H2 as <-
              end; lra.
Qed.

End Goal.

Section GoalAlongRun.

Variable env : environment.
Variable cfg : config.
Variable m : mesh.
Variable mass_full : Q.
Variable lim : iterations_limit_t.

(** X13.  In a net-removing run the mass goal handed to
    [beso_lib.switching] is never below the final goal
    [mass_goal_ratio * mass_full]: this holds for the goal of every iteration
    that set one, also when the goal is held at the mass of the iteration
    before because of violated elements, or is kept from an iteration
    before. *)
Theorem removing_goal_never_below_final_goal
    (elm_states0 : gmap Z Z) (mass0 : Q) (n : nat) (s : state) (g : Q) :
  0 < mass_removal_ratio cfg - mass_addition_ratio cfg ->
  passes env cfg m mass_full lim n (initial_state elm_states0 mass0) = Some s ->
  mass_goal_i s = Some g ->
  mass_goal_ratio cfg * mass_full <= g.
Proof.
  intros Hr. revert s g. induction n as [|n IH]; intros s g H Hg.
  - injection H as <-. done.
  - apply passes_S in H as (s' & tr & Hn & Hbody).
    apply loop_body_inv in Hbody as (s2 & (tr1 & s1 & tr2 & H1 & _ & H2) & _ & ->).
    cbn [remember_states mass_goal_i] in Hg.
    apply first_half_blocks in H1
      as (z & tr_i & r & v & sens0 & tr_f & sens1 & sens & sens_old & a & l
          & _ & _ & _ & _ & _ & _ & _ & _ & _ & _ & _ & _ & _ & _ & _ & _ & _ & _ & _
          & _ & _ & _ & Hkeep & _).
    apply second_half_blocks in H2
      as (tr_g & gv & tr_w & w & tr_f' & es & mass' & excess
          & Hgoal & _ & _ & _ & _ & _ & _ & Hset & _).
    apply set_mass_goal_Ok in Hgoal as [_ Hbound].
    rewrite Hset in Hg. apply (Hbound Hr); [|done].
    intros g0 Hg0. rewrite Hkeep in Hg0. by apply (IH s').
Qed.

(** The iteration from which the decay starts, along a run *)
Lemma decay_start_invariant (elm_states0 : gmap Z Z) (mass0 : Q) (n : nat) (s : state) :
  passes env cfg m mass_full lim n (initial_state elm_states0 mass0) = Some s ->
  (i_violated s <= n)%nat
  /\ (i_violated s = 0%nat <-> check_tolerance s = false).
Proof.
  revert s. induction n as [|n IH]; intros s H.
  - injection H as <-. simpl. split; [lia|done].
  - apply passes_S in H as (s' & tr & Hn & Hbody).
    destruct (IH _ Hn) as [Hle Hiff].
    apply passes_invariant in Hn as (Hi & _).
    apply loop_body_inv in Hbody as (s2 & (tr1 & s1 & tr2 & H1 & _ & H2) & _ & ->).
    cbn [remember_states i_violated check_tolerance].
    pose proof (first_half_Ok _ _ _ _ _ _ H1) as (Hi1 & _).
    apply first_half_blocks in H1
      as (z & tr_i & r & v & sens0 & tr_f & sens1 & sens & sens_old & a & l
          & _ & _ & _ & _ & _ & _ & _ & _ & _ & _ & _ & _ & _ & _ & _ & _ & _ & _ & _
          & Hiv & Hct & _).
    apply second_half_blocks in H2
      as (tr_g & gv & tr_w & w & tr_f' & es & mass' & excess
          & Hgoal & _ & _ & _ & _ & Hiv2 & Hct2 & _).
    apply set_mass_goal_Ok in Hgoal as [Hcases _].
    rewrite Hiv2, Hct2.
    destruct Hcases as [[-> ->]|(_ & -> & ->)].
    + rewrite Hiv, Hct. split; [lia|done].
    + rewrite Hi1, Hi. split; [lia|]. split; [lia|done].
Qed.

(** X14.  The iteration from which the decay of the mass change starts,
    [i_violated], is set once: it is 0 exactly as long as [check_tolerance]
    is False, it is never greater than the iteration number, and once it is
    set no later iteration changes it. *)
Theorem decay_start_is_set_once
    (elm_states0 : gmap Z Z) (mass0 : Q) (n k : nat) (s s' : state) :
  passes env cfg m mass_full lim n (initial_state elm_states0 mass0) = Some s ->
  passes env cfg m mass_full lim (n + k) (initial_state elm_states0 mass0) = Some s' ->
  (i_violated s <= n)%nat
  /\ (i_violated s = 0%nat <-> check_tolerance s = false)
  /\ (i_violated s ≠ 0%nat ->
      i_violated s' = i_violated s /\ check_tolerance s' = true).
Proof.
  intros Hn Hk.
  destruct (decay_start_invariant _ _ _ _ Hn) as [Hle Hiff].
  split; [done|]. split; [done|]. intros Hset.
  revert s' Hk. induction k as [|k IH]; intros s' Hk.
  - rewrite Nat.add_0_r, Hn in Hk. injection Hk as <-. split; [done|].
    destruct (check_tolerance s); [done|]. by destruct Hset; apply Hiff.
  - rewrite Nat.add_succ_r in Hk.
    apply passes_S in Hk as (s'' & tr & Hk & Hbody).
    destruct (IH _ Hk) as [Hiv Hct]. clear IH.
    apply loop_body_inv in Hbody as (s2 & (tr1 & s1 & tr2 & H1 & _ & H2) & _ & ->).
    cbn [remember_states i_violated check_tolerance].
    apply first_half_blocks in H1
      as (z & tr_i & r & v & sens0 & tr_f & sens1 & sens & sens_old & a & l
          & _ & _ & _ & _ & _ & _ & _ & _ & _ & _ & _ & _ & _ & _ & _ & _ & _ & _ & _
          & Hiv1 & Hct1 & _).
    apply second_half_blocks in H2
      as (tr_g & gv & tr_w & w & tr_f' & es & mass' & excess
          & Hgoal & _ & _ & _ & _ & Hiv2 & Hct2 & _).
    apply set_mass_goal_Ok in Hgoal as [Hcases _].
    rewrite Hiv2, Hct2.
    destruct Hcases as [[-> ->]|(Hzero & _ & _)].
    + rewrite Hiv1, Hct1. done.
    + rewrite Hiv1, Hiv in Hzero. done.
Qed.

End GoalAlongRun.

(** X15.  In a run that does not remove more mass than it adds
    ([mass_removal_ratio - mass_addition_ratio > 0] is false) the mass goal
    of an iteration is always set, without a line in the log: below the final
    goal it is the mass of the iteration before plus
    [(mass_addition_ratio - mass_removal_ratio) * mass_full], which may pass
    the final goal by less than that step; from the final goal on it is the
    final goal, and the decay starts. *)
Theorem adding_goal_is_always_set
    (cfg : config) (mass_full : Q) (s : state) (k : nat) (m1 : Q) :
  mass_removal_ratio cfg - mass_addition_ratio cfg <= 0 ->
  mass s !! k = Some m1 ->
  let final := mass_goal_ratio cfg * mass_full in
  let step := (mass_addition_ratio cfg - mass_removal_ratio cfg) * mass_full in
  exists g : goal_vars,
    set_mass_goal cfg mass_full (S k) s = ([], Ok g)
    /\ (m1 < final ->
        g_mass_goal_i g = Some (m1 + step)
        /\ m1 + step < final + step
        /\ g_i_violated g = i_violated s
        /\ g_check_tolerance g = check_tolerance s)
    /\ (final <= m1 ->
        g_mass_goal_i g = Some final
        /\ g_i_violated g = (if (i_violated s =? 0)%nat then S k else i_violated s)
        /\ g_check_tolerance g
           = (if (i_violated s =? 0)%nat then true else check_tolerance s)).
Proof.
  intros Hr Hm1 final step. subst final step. unfold set_mass_goal.
  apply lt_false in Hr. rewrite Hr.
  rewrite (index_nat_pred _ _ _ Hm1). rewrite wbind_lift.
  destruct (Py.lt m1 (mass_goal_ratio cfg * mass_full)) eqn:E.
  - apply lt_true in E. rewrite wbind_lift. unfold wret.
    eexists. split; [done|]. cbn. split; [|intros; lra].
    intros _. repeat split. lra.
  - apply lt_false in E. rewrite wbind_lift.
    apply le_true in E. rewrite E. unfold wret.
    eexists. split; [done|]. cbn. apply le_true in E. split; [intros; lra|].
    intros _. by destruct (i_violated s =? 0)%nat.
Qed.

(** X16.  When [ratio_type] is neither "absolute" nor "relative" the name
    [mass_referential] is never bound.  In the first pass that gets to the
    switching step the arguments of [beso_lib.switching] cannot be evaluated:
    [NameError] leaves the script after the mass goal is set and before
    [beso_lib.switching] is called. *)
Theorem unknown_ratio_type_raises_NameError
    (env : environment) (cfg : config) (m : mesh) (mass_full : Q) (s : state)
    (tr : list event) (g : goal_vars) :
  ratio_type cfg = ratio_other ->
  mass_referential s = None ->
  set_mass_goal cfg mass_full (S (i s)) s = (tr, Ok g) ->
  second_half env cfg m mass_full s = (tr, Raise (NameError "mass_referential")).
Proof.
  intros Hratio Hnone Hgoal. unfold second_half. rewrite Hgoal. cbn [wbind].
  unfold call_switching, set_mass_referential. rewrite Hratio, Hnone.
  cbn. by rewrite app_nil_r.
Qed.

(** ** The calls of the solver and of the switching step in a run *)

Lemma solver_calls_app (tr1 tr2 : list event) :
  solver_calls (tr1 ++ tr2) = (solver_calls tr1 + solver_calls tr2)%nat.
Proof. unfold solver_calls. by rewrite List.filter_app, length_app. Qed.

Lemma switching_calls_app (tr1 tr2 : list event) :
  switching_calls (tr1 ++ tr2) = (switching_calls tr1 + switching_calls tr2)%nat.
Proof. unfold switching_calls. by rewrite List.filter_app, length_app. Qed.

Lemma other_events_calls (tr : list event) :
  Forall other_event tr -> solver_calls tr = 0%nat /\ switching_calls tr = 0%nat.
Proof.
  unfold solver_calls, switching_calls.
  induction 1 as [|ev tr [H1 H2] _ [IH1 IH2]]; [done|].
  simpl. by rewrite H1, H2.
Qed.

Lemma wbind_fst {A B} (c : W A) (k : A -> W B) :
  fst (wbind c k)
  = fst c ++ match snd c with Ok a => fst (k a) | Raise _ => [] end.
Proof.
  destruct c as [tr [a|e]]; simpl; [|by rewrite app_nil_r]. by destruct (k a).
Qed.

Lemma wbind_snd {A B} (c : W A) (k : A -> W B) :
  snd (wbind c k) = match snd c with Ok a => snd (k a) | Raise e => Raise e end.
Proof. destruct c as [tr [a|e]]; simpl; [|done]. by destruct (k a). Qed.

Section Trace.

Variable env : environment.
Variable cfg : config.
Variable m : mesh.
Variable mass_full : Q.
Variable lim : iterations_limit_t.

Lemma after_solver_events (s : state) :
  Forall other_event (fst (after_solver env cfg m s)).
Proof.
  unfold after_solver.
  apply wbind_trace.
  { unfold import_results. trace_of_block. }
  intros r. apply wbind_trace; [trace_of_block|]. intros _.
  apply wbind_trace.
  { unfold compute_FI_max. trace_of_block. }
  intros _. apply wbind_trace; [trace_of_block|]. intros v.
  apply wbind_trace; [trace_of_block|]. intros sens0.
  apply wbind_trace.
  { eapply Forall_impl; [apply filter_sensitivities_trace|].
    intros ev ->. by split. }
  intros sens1. trace_of_block.
Qed.

Lemma first_half_events (s : state) :
  exists rest,
    fst (first_half env cfg m s) = CalculiX (i s) :: rest /\ Forall other_event rest.
Proof.
  unfold first_half. rewrite wbind_emit. cbn [fst].
  eexists. split; [reflexivity|].
  apply wbind_trace; [trace_of_block|]. intros z.
  apply wbind_trace; [|intros _; apply after_solver_events].
  cbn [fst]. unfold check_exit_status.
  destruct (z =? 201)%Z; [by repeat constructor|].
  destruct (z =? 1)%Z; [by repeat constructor|].
  destruct (negb (z =? 0)%Z); by repeat constructor.
Qed.

Lemma set_mass_goal_events (k : nat) (s : state) :
  Forall other_event (fst (set_mass_goal cfg mass_full k s)).
Proof. unfold set_mass_goal. trace_of_block. Qed.

Lemma filter_states_events (k : nat) (FI : gmap Z Q) (fts : list filter_t)
    (acc : gmap Z Z * list Q) :
  Forall other_event (fst (filter_states env cfg m k FI fts acc)).
Proof.
  revert acc. induction fts as [|ft fts IH]; intros acc; simpl; [constructor|].
  apply wbind_trace; [|done].
  unfold filter_state. trace_of_block.
Qed.

Lemma filtering_state_events (k : nat) (FI : gmap Z Q) (es : gmap Z Z) (mass : list Q) :
  Forall other_event (fst (filtering_state env cfg m k FI es mass)).
Proof.
  unfold filtering_state. apply wbind_trace; [trace_of_block|]. intros x.
  apply wbind_trace; [apply filter_states_events|]. intros [es' mass'].
  trace_of_block.
Qed.

(** The call of the switching step leaves one event when it is made. *)
Lemma call_switching_events (k : nat) (s : state) (g : goal_vars) :
  (fst (call_switching env cfg mass_full k s g) = []
   /\ exists e, snd (call_switching env cfg mass_full k s g) = Raise e)
  \/ fst (call_switching env cfg mass_full k s g) = [Switching k].
Proof.
  unfold call_switching. rewrite wbind_lift.
  destruct (set_mass_referential cfg mass_full k s) as [mref|e]; [|left; eauto].
  rewrite wbind_lift.
  destruct (of_option _ mref) as [x|e]; [|left; eauto].
  rewrite wbind_lift.
  destruct (of_option _ (g_mass_goal_i g)) as [y|e]; [|left; eauto].
  rewrite wbind_emit. right. cbn [fst]. rewrite wbind_lift.
  destruct (switching env _) as [res|e]; simpl; [|done].
  by destruct (sw_returned res).
Qed.

Lemma second_half_events (s : state) :
  (switching_calls (fst (second_half env cfg m mass_full s)) <= 1)%nat
  /\ solver_calls (fst (second_half env cfg m mass_full s)) = 0%nat
  /\ forall s2, snd (second_half env cfg m mass_full s) = Ok s2 ->
                switching_calls (fst (second_half env cfg m mass_full s)) = 1%nat.
Proof.
  unfold second_half. rewrite !wbind_fst, !wbind_snd.
  destruct (other_events_calls _ (set_mass_goal_events (S (i s)) s)) as [Hg1 Hg2].
  rewrite solver_calls_app, switching_calls_app, Hg1, Hg2.
  destruct (snd (set_mass_goal cfg mass_full (S (i s)) s)) as [g|e];
    [|split; [cbn; lia|]; split; [done|]; intros s2 H; done].
  rewrite !wbind_fst, !wbind_snd.
  rewrite solver_calls_app, switching_calls_app.
  destruct (call_switching_events (S (i s)) s g) as [[Hw [e He]]|Hw]; rewrite Hw.
  { rewrite He. split; [cbn; lia|]. split; [done|]. intros s2 H. done. }
  destruct (snd (call_switching env cfg mass_full (S (i s)) s g)) as [w|e];
    [|split; [cbn; lia|]; split; [done|]; intros s2 H; done].
  rewrite !wbind_fst, !wbind_snd.
  destruct (other_events_calls _
              (filtering_state_events (S (i s)) (FI_step_max s) (w_elm_states w)
                 (w_mass w))) as [Hf1 Hf2].
  rewrite solver_calls_app, switching_calls_app, Hf1, Hf2.
  destruct (snd (filtering_state env cfg m (S (i s)) (FI_step_max s) (w_elm_states w)
                   (w_mass w))) as [[[es mass'] excess]|e];
    split; try (cbn; lia); split; try done; intros s2 H; try done.
Qed.

Lemma calls_after_solver (k : nat) (rest tr : list event) :
  Forall other_event rest ->
  solver_calls (CalculiX k :: rest ++ tr) = S (solver_calls tr)
  /\ switching_calls (CalculiX k :: rest ++ tr) = switching_calls tr.
Proof.
  intros Hrest. apply other_events_calls in Hrest as [Hr1 Hr2].
  change (CalculiX k :: rest ++ tr) with ([CalculiX k] ++ rest ++ tr).
  rewrite !solver_calls_app, !switching_calls_app, Hr1, Hr2. done.
Qed.

(** The calls made in one pass through the body of the loop *)
Lemma loop_body_calls (s : state) (tr : list event) (o : outcome) :
  loop_body env cfg m mass_full lim s = (tr, o) ->
  (exists rest, tr = CalculiX (i s) :: rest)
  /\ solver_calls tr = 1%nat
  /\ match o with
     | Finished _ => switching_calls tr = 0%nat
     | Continue _ | Oscillating _ => switching_calls tr = 1%nat
     | Raised _ => (switching_calls tr <= 1)%nat
     end.
Proof.
  unfold loop_body.
  destruct (first_half_events s) as (rest & Hfirst & Hrest).
  destruct (first_half env cfg m s) as [tr1 o1]. cbn [fst] in Hfirst. subst tr1.
  pose proof (calls_after_solver (i s) rest [] Hrest) as [Hs1 Hw1].
  rewrite app_nil_r in Hs1, Hw1.
  change (solver_calls []) with 0%nat in Hs1.
  change (switching_calls []) with 0%nat in Hw1.
  destruct o1 as [s1|e].
  2:{ intros [= <- <-]. split; [eauto|]. split; [done|]. lia. }
  destruct (finish_test lim s1) as [[|]|e].
  1:{ intros [= <- <-]. split; [eauto|]. split; [done|]. done. }
  2:{ intros [= <- <-]. split; [eauto|]. split; [done|]. lia. }
  destruct (second_half_events s1) as (H1 & H2 & H3).
  destruct (second_half env cfg m mass_full s1) as [tr2 [s2|e]]; cbn [fst snd] in *.
  2:{ intros [= <- <-]. split; [eauto|].
      destruct (calls_after_solver (i s) rest tr2 Hrest) as [-> ->]. split; lia. }
  specialize (H3 s2 eq_refl).
  unfold oscillation_test. case_bool_decide; intros [= <- <-].
  - split; [eauto|].
    destruct (calls_after_solver (i s) rest (tr2 ++ [OSCILLATION (i s2)]) Hrest)
      as [-> ->].
    rewrite solver_calls_app, switching_calls_app, H2, H3. cbn. split; lia.
  - split; [eauto|]. rewrite app_nil_r.
    destruct (calls_after_solver (i s) rest tr2 Hrest) as [-> ->]. split; lia.
Qed.

(** X17.  Every pass through the body of the loop starts with the call of
    the solver and calls it once.  A pass that ends the run at the finish
    test does not call [beso_lib.switching]; a pass that goes on, or ends the
    run with an oscillation, calls it once; a pass that ends with an exception
    has called it at most once. *)
Theorem one_solver_call_per_pass (s : state) (tr : list event) (o : outcome) :
  loop_body env cfg m mass_full lim s = (tr, o) ->
  (exists rest, tr = CalculiX (i s) :: rest)
  /\ solver_calls tr = 1%nat
  /\ match o with
     | Finished _ => switching_calls tr = 0%nat
     | Continue _ | Oscillating _ => switching_calls tr = 1%nat
     | Raised _ => (switching_calls tr <= 1)%nat
     end.
Proof. apply loop_body_calls. Qed.

(** X18.  In a run that ends at the finish test (convergence or the
    iteration limit) the solver is called once more than
    [beso_lib.switching]: the last design is analysed and not switched.  In
    a run that ends with an oscillation both are called equally often: the
    last design is not analysed. *)
Theorem final_design_is_analysed_not_switched
    (fuel : nat) (s : state) (tr : list event) (o : outcome) :
  while_True env cfg m mass_full lim fuel s = (tr, o) ->
  match o with
  | Finished _ => solver_calls tr = S (switching_calls tr)
  | Oscillating _ | Continue _ => solver_calls tr = switching_calls tr
  | Raised _ =>
      (switching_calls tr <= solver_calls tr <= S (switching_calls tr))%nat
  end.
Proof.
  revert s tr o. induction fuel as [|fuel IH]; intros s tr o H.
  - injection H as <- <-. done.
  - cbn [while_True] in H.
    destruct (loop_body env cfg m mass_full lim s) as [tr1 o1] eqn:Hbody.
    apply loop_body_calls in Hbody as (_ & Hs & Hw).
    destruct o1 as [s'| | |]; try (injection H as <- <-; lia).
    destruct (while_True env cfg m mass_full lim fuel s') as [tr2 o2] eqn:Hrest.
    injection H as <- <-. apply IH in Hrest.
    rewrite solver_calls_app, switching_calls_app.
    destruct o2; lia.
Qed.

End Trace.

(** ** The criteria of the configuration and the number of states *)

Section CriteriaFacts.

Context {criterion : Type} `{EqDecision criterion}.

(** What the list holds after the criteria of [l] are added to it *)
Lemma add_criteria_spec (l acc : list criterion) :
  NoDup acc ->
  NoDup (fold_left add_criterion l acc)
  /\ (forall c, c ∈ fold_left add_criterion l acc <-> c ∈ acc \/ c ∈ l)
  /\ exists new, fold_left add_criterion l acc = acc ++ new.
Proof.
  revert acc. induction l as [|x l IH]; intros acc Hnd; simpl.
  - split; [done|]. split; [|exists []; by rewrite app_nil_r].
    intros c. split; [by left|]. intros [H|H]; [done|]. by apply elem_of_nil in H.
  - unfold add_criterion at 2 4 6. case_bool_decide as Hin.
    + destruct (IH acc Hnd) as (H1 & H2 & H3). split; [done|]. split; [|done].
      intros c. rewrite H2. split.
      * intros [H|H]; [by left|]. right. by right.
      * intros [H|H]; [by left|]. apply elem_of_cons in H as [->|H]; [by left|by right].
    + assert (Hnd' : NoDup (acc ++ [x])).
      { apply NoDup_app. split; [done|]. split; [|apply NoDup_singleton].
        intros y Hy Hy'. apply list_elem_of_singleton in Hy'. by subst y. }
      destruct (IH (acc ++ [x]) Hnd') as (H1 & H2 & new & H3).
      split; [done|]. split.
      * intros c. rewrite H2, elem_of_app, list_elem_of_singleton, elem_of_cons. tauto.
      * exists (x :: new). rewrite H3, <- app_assoc. done.
Qed.

Lemma add_states_spec (states : list (list criterion)) (acc : list criterion) :
  NoDup acc ->
  NoDup (fold_left (fun criteria state => fold_left add_criterion state criteria)
           states acc)
  /\ (forall c,
        c ∈ fold_left (fun criteria state => fold_left add_criterion state criteria)
              states acc
        <-> c ∈ acc \/ c ∈ concat states)
  /\ exists new,
       fold_left (fun criteria state => fold_left add_criterion state criteria)
         states acc = acc ++ new.
Proof.
  revert acc. induction states as [|st states IH]; intros acc Hnd; simpl.
  - split; [done|]. split; [|exists []; by rewrite app_nil_r].
    intros c. split; [by left|]. intros [H|H]; [done|]. by apply elem_of_nil in H.
  - destruct (add_criteria_spec st acc Hnd) as (H1 & H2 & new1 & H3).
    destruct (IH _ H1) as (I1 & I2 & new2 & I3).
    split; [done|]. split.
    + intros c. rewrite I2, H2, elem_of_app. tauto.
    + exists (new1 ++ new2). rewrite I3, H3, <- app_assoc. done.
Qed.

(** X19.  The list [criteria] holds every criterion that occurs in
    [domain_FI] for some domain and state, each of them once, and nothing
    else; [domain_FI_filled] is True exactly when some domain has a list of
    failure limits that is not empty. *)
Theorem criteria_are_collected_once
    (domain_FI : list (string * list (list criterion))) :
  NoDup (fst (extract_criteria domain_FI))
  /\ (forall c, c ∈ fst (extract_criteria domain_FI)
                <-> c ∈ configured_criteria domain_FI)
  /\ (snd (extract_criteria domain_FI) = true
      <-> exists p, p ∈ domain_FI /\ snd p ≠ []).
Proof.
  unfold extract_criteria, configured_criteria.
  assert (Hgen : forall (l : list (string * list (list criterion)))
                        (acc : list criterion) (filled : bool),
            NoDup acc ->
            let res :=
              fold_left
                (fun '(criteria, filled) '(_, states) =>
                   (fold_left (fun criteria state => fold_left add_criterion state criteria)
                      states criteria,
                    if bool_decide (states = []) then filled else true))
                l (acc, filled) in
            NoDup (fst res)
            /\ (forall c, c ∈ fst res <-> c ∈ acc \/ c ∈ concat (concat (snd <$> l)))
            /\ (snd res = true <-> filled = true \/ exists p, p ∈ l /\ snd p ≠ [])).
  { induction l as [|[name states] l IH]; intros acc filled Hnd; cbn [fold_left].
    - cbv zeta. cbn [fst snd]. split; [done|]. split.
      + intros c. simpl. split; [by left|]. intros [H|H]; [done|].
        by apply elem_of_nil in H.
      + split; [by left|]. intros [H|(p & Hp & _)]; [done|]. by apply elem_of_nil in Hp.
    - destruct (add_states_spec states acc Hnd) as (H1 & H2 & _).
      destruct (IH _ (if bool_decide (states = []) then filled else true) H1)
        as (I1 & I2 & I3).
      cbv zeta in *. split; [done|]. split.
      + intros c. rewrite I2, H2. cbn [fmap list_fmap snd concat].
        rewrite concat_app, !elem_of_app. tauto.
      + rewrite I3. split.
        * intros [H|(p & Hp & Hne)].
          -- case_bool_decide as Hs; [by left|]. right. exists (name, states).
             split; [by left|done].
          -- right. exists p. split; [by right|done].
        * intros [H|(p & Hp & Hne)].
          -- left. by case_bool_decide.
          -- apply elem_of_cons in Hp as [->|Hp].
             ++ left. cbn [snd] in Hne. by case_bool_decide.
             ++ right. by exists p. }
  destruct (Hgen domain_FI [] false (NoDup_nil_2)) as (H1 & H2 & H3).
  cbv zeta in *. split; [done|]. split.
  - intros c. rewrite H2. split; [|by right]. intros [H|H]; [|done].
    by apply elem_of_nil in H.
  - rewrite H3. split; [|by right]. by intros [H|H].
Qed.

End CriteriaFacts.

Lemma number_of_states_from (ds : list domain) (n0 : nat) :
  (n0 <= fold_left (fun n d => Nat.max n (length (domain_density d))) ds n0)%nat
  /\ (forall d, d ∈ ds ->
        (length (domain_density d)
         <= fold_left (fun n d => Nat.max n (length (domain_density d))) ds n0)%nat)
  /\ (fold_left (fun n d => Nat.max n (length (domain_density d))) ds n0 = n0
      \/ exists d, d ∈ ds
                   /\ fold_left (fun n d => Nat.max n (length (domain_density d))) ds n0
                      = length (domain_density d)).
Proof.
  revert n0. induction ds as [|d ds IH]; intros n0; simpl.
  - split; [lia|]. split; [|by left]. intros d Hd. by apply elem_of_nil in Hd.
  - destruct (IH (Nat.max n0 (length (domain_density d)))) as (H1 & H2 & H3).
    split; [lia|]. split.
    + intros d' Hd'. apply elem_of_cons in Hd' as [->|Hd']; [lia|by apply H2].
    + destruct H3 as [H3|(d' & Hd' & H3)].
      * destruct (Nat.max_spec n0 (length (domain_density d))) as [[_ Hm]|[_ Hm]].
        -- right. exists d. split; [by left|]. by rewrite H3.
        -- left. by rewrite H3.
      * right. exists d'. split; [by right|done].
Qed.

(** The states set by the initialisation, element by element *)
Lemma set_states_range (sn : Z) (ens : list Z) (es : gmap Z Z) (P : Z -> Prop) :
  P sn -> (forall en st, es !! en = Some st -> P st) ->
  forall en st, set_states sn ens es !! en = Some st -> P st.
Proof.
  intros Hsn. unfold set_states. revert es.
  induction ens as [|e ens IH]; intros es Hes en st; simpl; [apply Hes|].
  apply IH. intros en' st'. destruct (decide (e = en')) as [->|Hne].
  - rewrite lookup_insert_eq. by intros [= <-].
  - rewrite lookup_insert_ne by done. apply Hes.
Qed.

(** X20.  [number_of_states] is the greatest number of density states of
    a domain (0 without domains).  Every element state set when the run
    starts from the highest states or from a state number is below it: the
    states written to the input file of the solver are within
    [range(number_of_states)] as soon as they are not negative. *)
Theorem initial_states_below_number_of_states
    (imp : state_importers) (cfg : config) (tr : list event) (es : gmap Z Z) :
  let ds := domains_from_config cfg in
  (forall d, d ∈ ds -> (length (domain_density d) <= number_of_states ds)%nat)
  /\ (ds ≠ [] -> exists d, d ∈ ds /\ number_of_states ds = length (domain_density d))
  /\ ((forall name, continue_from cfg = cf_str name ->
         Py.last4 name ≠ ".frd" /\ Py.last4 name ≠ ".inp" /\ Py.last4 name ≠ ".csv") ->
      init_elm_states imp cfg = (tr, Ok es) ->
      forall en st, es !! en = Some st -> (st < Z.of_nat (number_of_states ds))%Z).
Proof.
  intros ds. unfold number_of_states.
  destruct (number_of_states_from ds 0) as (_ & Hub & Hatt).
  split; [done|]. split.
  - intros Hne. destruct Hatt as [Hz|Hatt]; [|done].
    destruct ds as [|d ds'] eqn:E; [done|]. exists d. split; [by left|].
    assert (Hd : (length (domain_density d) <= 0)%nat).
    { rewrite <- Hz. apply Hub. by left. }
    rewrite Hz. lia.
  - intros Hstr Hinit.
    set (N := fold_left (fun n d => Nat.max n (length (domain_density d))) ds 0%nat) in *.
    assert (Hhigh : forall d, d ∈ ds -> (highest d < Z.of_nat N)%Z).
    { intros d Hd. specialize (Hub d Hd). unfold highest. lia. }
    unfold init_elm_states in Hinit.
    destruct (continue_from cfg) as [n|name] eqn:Hcf.
    + unfold init_from_int in Hinit. fold ds in Hinit.
      assert (Hgen : forall (l : list domain) (acc : gmap Z Z * list event),
                (forall d, d ∈ l -> d ∈ ds) ->
                (forall en st, fst acc !! en = Some st -> (st < Z.of_nat N)%Z) ->
                forall en st,
                  fst (fold_left (init_step n) l acc) !! en = Some st ->
                  (st < Z.of_nat N)%Z).
      { induction l as [|d l IH]; intros [es0 tr0] Hl Hacc; simpl; [done|].
        rewrite continue_state_eq. apply IH.
        - intros d' Hd'. apply Hl. by right.
        - simpl. apply set_states_range; [|done].
          assert (highest d < Z.of_nat N)%Z by (apply Hhigh, Hl; by left). lia. }
      destruct (fold_left (init_step n) ds (∅, [])) as [es1 tr1] eqn:E.
      injection Hinit as <- <-.
      intros en st Hst. apply (Hgen ds (∅, []) (fun d H => H)) with (en := en).
      * intros en' st'. simpl. by rewrite lookup_empty.
      * by rewrite E.
    + destruct (Hstr name eq_refl) as (Hfrd & Hinp & Hcsv).
      destruct (String.eqb_spec (Py.last4 name) ".frd"); [done|].
      destruct (String.eqb_spec (Py.last4 name) ".inp"); [done|].
      destruct (String.eqb_spec (Py.last4 name) ".csv"); [done|].
      injection Hinit as <- <-. unfold init_highest. fold ds.
      assert (Hgen : forall (l : list domain) (acc : gmap Z Z),
                (forall d, d ∈ l -> d ∈ ds) ->
                (forall en st, acc !! en = Some st -> (st < Z.of_nat N)%Z) ->
                forall en st,
                  fold_left (fun es d => set_states (highest d) (domains d) es) l acc
                    !! en = Some st ->
                  (st < Z.of_nat N)%Z).
      { induction l as [|d l IH]; intros es0 Hl Hacc; simpl; [done|].
        apply IH.
        - intros d' Hd'. apply Hl. by right.
        - apply set_states_range; [|done]. apply Hhigh, Hl. by left. }
      apply (Hgen ds ∅ (fun d H => H)).
      intros en' st'. by rewrite lookup_empty.
Qed.

(** ** The total time of the run *)

Lemma Qfloor_unique (x : Q) (z : Z) :
  inject_Z z <= x -> x < inject_Z z + 1 -> Qfloor x = z.
Proof.
  intros Hlo Hhi.
  pose proof (Qfloor_le x) as Flo. pose proof (Qlt_floor x) as Fhi.
  rewrite inject_Z_plus in Fhi. change (inject_Z 1) with 1 in Fhi.
  assert (H1 : inject_Z z < inject_Z (Qfloor x + 1)).
  { rewrite inject_Z_plus. change (inject_Z 1) with 1. lra. }
  assert (H2 : inject_Z (Qfloor x) < inject_Z (z + 1)).
  { rewrite inject_Z_plus. change (inject_Z 1) with 1. lra. }
  rewrite <- Zlt_Qlt in H1, H2. lia.
Qed.

Lemma int_nonneg (x : Q) : 0 <= x -> Py.int x = Qfloor x.
Proof. intros Hx. unfold Py.int. destruct (Qlt_le_dec x 0); [lra|done]. Qed.

(** [x % y] lies in [[0, y)] and differs from [x] by a multiple of [y]. *)
Lemma mod_range (x y : Q) :
  0 < y -> 0 <= Float.mod_ x y /\ Float.mod_ x y < y.
Proof.
  intros Hy. unfold Float.mod_.
  pose proof (Qfloor_le (x / y)) as Flo. pose proof (Qlt_floor (x / y)) as Fhi.
  rewrite inject_Z_plus in Fhi. change (inject_Z 1) with 1 in Fhi.
  assert (Hx : x == x / y * y) by (field; lra).
  assert (H1 : inject_Z (Qfloor (x / y)) * y <= x / y * y)
    by (apply Qmult_le_compat_r; lra).
  assert (H2 : x / y * y < (inject_Z (Qfloor (x / y)) + 1) * y)
    by (apply Qmult_lt_compat_r; lra).
  split; lra.
Qed.

(** The nearest integer is at most one half away. *)
Lemma round_near (x : Q) :
  - (1 # 2) <= x - inject_Z (Float.round x) <= 1 # 2
  /\ (Qfloor x <= Float.round x <= Qfloor x + 1)%Z.
Proof.
  unfold Float.round.
  pose proof (Qfloor_le x) as Flo. pose proof (Qlt_floor x) as Fhi.
  rewrite inject_Z_plus in Fhi. change (inject_Z 1) with 1 in Fhi.
  destruct (Qlt_le_dec (x - inject_Z (Qfloor x)) (1 # 2)) as [H|H].
  - split; [lra|lia].
  - destruct (Qlt_le_dec (1 # 2) (x - inject_Z (Qfloor x))) as [H'|H'].
    + rewrite inject_Z_plus. change (inject_Z 1) with 1. split; [lra|lia].
    + destruct (Z.even (Qfloor x)).
      * split; [lra|lia].
      * rewrite inject_Z_plus. change (inject_Z 1) with 1. split; [lra|lia].
Qed.

(** X21.  The line "Total time h min s" written at the end shows, for a
    total time that is not negative, the whole hours, the whole minutes
    within the hour (0 to 59) and the seconds within the minute rounded to
    the nearest integer, so the seconds go from 0 to 60; the time shown
    differs from the total time by at most half a second. *)
Theorem total_time_parts_add_up (total_time : Q) :
  0 <= total_time ->
  exists h min s : Z,
    total_time_parts total_time = (h, min, s)
    /\ (0 <= h)%Z /\ (0 <= min <= 59)%Z /\ (0 <= s <= 60)%Z
    /\ - (1 # 2) <= total_time - inject_Z (3600 * h + 60 * min + s) <= 1 # 2.
Proof.
  intros Ht. unfold total_time_parts.
  destruct (mod_range total_time 3600 ltac:(lra)) as [R1 R2].
  destruct (mod_range total_time 60 ltac:(lra)) as [U1 U2].
  set (r := Float.mod_ total_time 3600) in *.
  set (u := Float.mod_ total_time 60) in *.
  assert (Hdiv : 0 <= total_time / 3600).
  { apply Qle_shift_div_l; lra. }
  assert (Hr60 : 0 <= r / 60) by (apply Qle_shift_div_l; lra).
  rewrite (int_nonneg _ Hdiv), (int_nonneg _ Hr60).
  set (h := Qfloor (total_time / 3600)).
  set (mi := Qfloor (r / 60)).
  pose proof (Qfloor_le (r / 60)) as Mlo. pose proof (Qlt_floor (r / 60)) as Mhi.
  rewrite inject_Z_plus in Mhi. change (inject_Z 1) with 1 in Mhi. fold mi in Mlo, Mhi.
  assert (Hr : r == total_time - 3600 * inject_Z h) by reflexivity.
  assert (Hmi0 : (0 <= mi)%Z).
  { assert (inject_Z 0 <= inject_Z mi + 1 - 1 + 1) by (change (inject_Z 0) with 0; lra).
    assert (inject_Z (-1) < inject_Z mi).
    { change (inject_Z (-1)) with (-1 # 1). lra. }
    rewrite <- Zlt_Qlt in *. lia. }
  assert (Hr60' : r / 60 < 60) by (apply Qlt_shift_div_r; lra).
  assert (Hmi59 : (mi <= 59)%Z).
  { assert (inject_Z mi < inject_Z 60) by (change (inject_Z 60) with 60; lra).
    rewrite <- Zlt_Qlt in *. lia. }
  assert (Hh0 : (0 <= h)%Z).
  { pose proof (Qlt_floor (total_time / 3600)) as Hhi.
    rewrite inject_Z_plus in Hhi. change (inject_Z 1) with 1 in Hhi. fold h in Hhi.
    assert (inject_Z (-1) < inject_Z h).
    { change (inject_Z (-1)) with (-1 # 1). lra. }
    rewrite <- Zlt_Qlt in *. lia. }
  assert (Hfloor60 : Qfloor (total_time / 60) = (60 * h + mi)%Z).
  { apply Qfloor_unique.
    - rewrite inject_Z_plus, inject_Z_mult. change (inject_Z 60) with 60.
      apply Qle_shift_div_l; [lra|].
      assert (inject_Z mi * 60 <= r / 60 * 60) by (apply Qmult_le_compat_r; lra).
      assert (r == r / 60 * 60) by (field; lra). lra.
    - rewrite inject_Z_plus, inject_Z_mult. change (inject_Z 60) with 60.
      apply Qlt_shift_div_r; [lra|].
      assert (r / 60 * 60 < (inject_Z mi + 1) * 60) by (apply Qmult_lt_compat_r; lra).
      assert (r == r / 60 * 60) by (field; lra). lra. }
  assert (Hu : u == total_time - 60 * inject_Z (60 * h + mi)).
  { unfold u, Float.mod_. by rewrite Hfloor60. }
  destruct (round_near u) as [[N1 N2] [N3 N4]].
  set (s := Float.round u) in *.
  assert (Hfu0 : (0 <= Qfloor u)%Z).
  { pose proof (Qlt_floor u) as Hhi.
    rewrite inject_Z_plus in Hhi. change (inject_Z 1) with 1 in Hhi.
    assert (inject_Z (-1) < inject_Z (Qfloor u)).
    { change (inject_Z (-1)) with (-1 # 1). lra. }
    rewrite <- Zlt_Qlt in *. lia. }
  assert (Hfu59 : (Qfloor u <= 59)%Z).
  { pose proof (Qfloor_le u) as Hlo.
    assert (inject_Z (Qfloor u) < inject_Z 60) by (change (inject_Z 60) with 60; lra).
    rewrite <- Zlt_Qlt in *. lia. }
  exists h, mi, s. split; [done|]. split; [done|]. split; [done|]. split; [lia|].
  rewrite !inject_Z_plus, !inject_Z_mult.
  change (inject_Z 3600) with 3600. change (inject_Z 60) with 60.
  rewrite inject_Z_plus, inject_Z_mult in Hu. change (inject_Z 60) with 60 in Hu.
  split; lra.
Qed.

(** ** Preparation of the filters *)

Lemma tbind_Ok {A B} (c : T A) (k : A -> T B) (tr : list prep_event) (b : B) :
  tbind c k = (tr, Ok b) ->
  exists tr1 a tr2, c = (tr1, Ok a) /\ k a = (tr2, Ok b) /\ tr = tr1 ++ tr2.
Proof.
  destruct c as [tr1 [a|e]]; simpl; [|done].
  destruct (k a) as [tr2 r] eqn:E. intros [= <- ->]. by exists tr1, a, tr2.
Qed.

Lemma domains_to_filter_acc (cfg : config) (names : list string) (acc : list Z) :
  Py.for_each names (fun name acc => do l <- domains_of cfg name; Ok (acc ++ l)) acc
  = do l' <- Py.for_each names
               (fun name acc => do l <- domains_of cfg name; Ok (acc ++ l)) [];
    Ok (acc ++ l').
Proof.
  revert acc. induction names as [|n names IH]; intros acc; simpl.
  - by rewrite app_nil_r.
  - destruct (domains_of cfg n) as [l0|]; simpl; [|done].
    rewrite (IH (acc ++ l0)), (IH l0).
    destruct (Py.for_each names _ []); simpl; [|done]. by rewrite app_assoc.
Qed.

(** The elements of listed domains are those of the first one followed by
    those of the others. *)
Lemma domains_to_filter_cons (cfg : config) (m : mesh) (name : string)
    (names : list string) :
  domains_to_filter cfg m false (name :: names)
  = do l0 <- domains_of cfg name;
    do l1 <- domains_to_filter cfg m false names;
    Ok (l0 ++ l1).
Proof.
  unfold domains_to_filter. simpl.
  destruct (domains_of cfg name) as [l0|]; simpl; [|done].
  apply domains_to_filter_acc.
Qed.

Section PreparationFacts.

Variable lib : filters_lib.
Variable env : environment.
Variable cfg : config.
Variable m : mesh.
Variable debug_mode : bool.
Variable use_kdtree : bool.

Lemma auto_range_events (v : prep_vars) (f : range_value) (tr : list prep_event)
    (o : result range_value) :
  auto_range lib v f = (tr, o) -> Forall (fun ev => prepared_elements ev = None) tr.
Proof.
  unfold auto_range. destruct (is_auto f); [|by intros [= <- <-]].
  destruct (size_elm_bound v); simpl; [|by intros [= <- <-]].
  destruct (filtered_dn v) as [names|]; simpl; [|by intros [= <- <-]].
  destruct (get_filter_range lib names); simpl; intros [= <- <-]; by repeat constructor.
Qed.

(** X22.  For a filter "simple" or "over nodes" with domain names listed
    after the range, the preparation before the loop takes the names from the
    fourth item of the entry on, the filtering in the loop from the third: the
    elements of the first listed domain are passed to the filter in every
    iteration, while the preparing function was called with the elements of
    the other listed domains only. *)
Theorem first_listed_domain_is_filtered_but_not_prepared
    (i : nat) (e : filter_entry) (v v' : prep_vars) (name : string)
    (names : list string) (sens sens' : gmap Z Q)
    (tr_p : list prep_event) (tr_r : list event) :
  fe_kind e = kind_simple \/ fe_kind e = kind_over_nodes ->
  truthy_range (fe_range e) = true ->
  fe_rest e = name :: names ->
  prepare_entry lib cfg m debug_mode use_kdtree e v = (tr_p, Ok v') ->
  filter_sensitivity env cfg m i (entry_filter e) sens = (tr_r, Ok sens') ->
  exists l_name l_prep,
    domains_of cfg name = Ok l_name
    /\ domains_to_filter cfg m false names = Ok l_prep
    /\ (exists ev, ev ∈ tr_p /\ prepared_elements ev = Some l_prep)
    /\ (forall ev l, ev ∈ tr_p -> prepared_elements ev = Some l -> l = l_prep)
    /\ CheckSameState names ∈ tr_p
    /\ run_filter env i (entry_filter e) (l_name ++ l_prep) sens = Ok sens'.
Proof.
  intros Hkd Hr Hrest Hp Hf.
  unfold filter_sensitivity in Hf. cbn [entry_filter ft_kind ft_range ft_rest] in Hf.
  rewrite Hr, Hrest in Hf. cbn [length] in Hf.
  rewrite bool_decide_eq_false_2 in Hf by done.
  rewrite domains_to_filter_cons in Hf.
  destruct (domains_of cfg name) as [l_name|] eqn:En;
    [|destruct Hkd as [Hkd|Hkd]; rewrite Hkd in Hf; cbn in Hf; discriminate Hf].
  destruct (domains_to_filter cfg m false names) as [l_prep|] eqn:Ep;
    [|destruct Hkd as [Hkd|Hkd]; rewrite Hkd in Hf; cbn in Hf; discriminate Hf].
  assert (Hrun : run_filter env i (entry_filter e) (l_name ++ l_prep) sens = Ok sens').
  { destruct Hkd as [Hkd|Hkd]; rewrite Hkd in Hf; cbn in Hf;
      destruct (run_filter env i _ _ sens); cbn in Hf; congruence. }
  exists l_name, l_prep. split; [done|]. split; [done|].
  unfold prepare_entry in Hp. rewrite Hr, Hrest in Hp. cbn [length tail] in Hp.
  rewrite bool_decide_eq_false_2 in Hp by done.
  assert (Hp' :
    (pr (l, v1) <- listed_domains lib cfg m v names;
     pr f_range <- auto_range lib v1 (fe_range e);
     pr _ <- match fe_kind e with
             | kind_over_nodes =>
                 pr _ <- same_state lib (domain_names cfg);
                 call lib (Prepare1s f_range l)
             | _ =>
                 pr _ <- (if debug_mode then tell (LogSpatialSearch use_kdtree f_range)
                          else tret tt);
                 call lib (Prepare2s use_kdtree f_range l)
             end;
     tret v1) = (tr_p, Ok v')).
  { destruct Hkd as [Hkd|Hkd]; rewrite Hkd in Hp |- *; exact Hp. }
  clear Hp.
  apply tbind_Ok in Hp' as (tr1 & [l v1] & tr2 & H1 & H2 & ->).
  unfold listed_domains in H1. rewrite Ep in H1. cbn in H1.
  unfold same_state in H1. cbn in H1.
  destruct (check_same_state lib names) as [[]|] eqn:Ec; cbn in H1; [|done].
  injection H1 as <- <- <-.
  apply tbind_Ok in H2 as (tr3 & f_range & tr4 & H3 & H4 & ->).
  pose proof (auto_range_events _ _ _ _ H3) as Ha.
  apply tbind_Ok in H4 as (tr5 & [] & tr6 & H5 & H6 & ->).
  injection H6 as <-. rewrite app_nil_r.
  assert (Hcall : forall ev t,
    call lib ev = (t, Ok tt) -> t = [ev]).
  { intros ev t. unfold call, tell. cbn. destruct (prepare lib ev); by intros [= <-]. }
  assert (Hev : exists pre ev, tr5 = pre ++ [ev]
              /\ Forall (fun ev => prepared_elements ev = None) pre
              /\ prepared_elements ev = Some l_prep).
  { destruct Hkd as [Hkd|Hkd]; rewrite Hkd in H5.
    - apply tbind_Ok in H5 as (tr7 & [] & tr8 & H7 & H8 & ->).
      apply Hcall in H8 as ->.
      eexists _, _. split; [done|]. split; [|done].
      destruct debug_mode; cbn in H7; injection H7 as <-; by repeat constructor.
    - apply tbind_Ok in H5 as (tr7 & [] & tr8 & H7 & H8 & ->).
      apply Hcall in H8 as ->.
      eexists _, _. split; [done|]. split; [|done].
      unfold same_state in H7. cbn in H7.
      destruct (check_same_state lib (domain_names cfg)); injection H7 as <-;
        by repeat constructor. }
  destruct Hev as (pre & ev & -> & Hpre & Hev).
  split; [|split; [|split; [|exact Hrun]]].
  3: { rewrite !elem_of_app. left. apply list_elem_of_here. }
  - exists ev. split; [|done]. rewrite !elem_of_app. do 3 right.
    apply list_elem_of_here.
  - intros ev' l' Hin Hl. rewrite !elem_of_app in Hin.
    rewrite Forall_forall in Ha, Hpre.
    destruct Hin as [Hin|[Hin|[Hin|Hin]]].
    + apply list_elem_of_singleton in Hin as ->. done.
    + apply Ha in Hin. congruence.
    + apply Hpre in Hin. congruence.
    + apply list_elem_of_singleton in Hin as ->. congruence.
Qed.

Lemma prepare_inactive (e : filter_entry) (v : prep_vars) :
  fe_kind e = kind_falsy \/ truthy_range (fe_range e) = false ->
  prepare_entry lib cfg m debug_mode use_kdtree e v = tret v.
Proof.
  unfold prepare_entry. intros [->| ->]; [done|]. by destruct (fe_kind e).
Qed.

Lemma prepare_entries_inactive (pre post : list filter_entry) (v : prep_vars) :
  Forall (fun e => fe_kind e = kind_falsy \/ truthy_range (fe_range e) = false) pre ->
  prepare_entries lib cfg m debug_mode use_kdtree (pre ++ post) v
  = prepare_entries lib cfg m debug_mode use_kdtree post v.
Proof.
  induction 1 as [|e pre He _ IH]; simpl; [done|].
  rewrite (prepare_inactive _ _ He). simpl.
  rewrite IH. by destruct (prepare_entries _ _ _ _ _ post v).
Qed.

(** X23.  A casting filter given as [casting, "auto", vector] (no domains
    listed) that is the first active entry of [filter_list] stops the
    preparation: the automatic range is computed from the names of the
    domains of the entry, which this form of the entry never sets, so after
    the element sizes were found and the states of the domains checked a
    NameError for [filtered_dn] is raised. *)
Theorem casting_with_automatic_range_raises_NameError
    (pre post : list filter_entry) (e : filter_entry) (vector : string) :
  Forall (fun e => fe_kind e = kind_falsy \/ truthy_range (fe_range e) = false) pre ->
  fe_kind e = kind_casting ->
  fe_range e = range_string "auto" ->
  fe_rest e = [vector] ->
  find_size_elm lib = Ok tt ->
  check_same_state lib (domain_names cfg) = Ok tt ->
  prepare_filters lib cfg m debug_mode use_kdtree (pre ++ e :: post)
  = ([FindSizeElm; CheckSameState (domain_names cfg)],
     Raise (NameError "filtered_dn")).
Proof.
  intros Hpre Hkd Hr Hrest Hsize Hsame.
  unfold prepare_filters, find_sizes.
  assert (Hex : existsb
    (fun e0 => match fe_kind e0 with kind_falsy => false | _ => true end
               && is_auto (fe_range e0)) (pre ++ e :: post) = true).
  { rewrite existsb_app. simpl. rewrite Hkd, Hr. simpl. by rewrite orb_true_r. }
  rewrite Hex, Hsize. cbn [tbind tell tlift tret app].
  rewrite (prepare_entries_inactive _ _ _ Hpre). simpl.
  unfold prepare_entry. rewrite Hkd, Hr, Hrest. cbn.
  unfold same_state. rewrite Hsame. cbn. done.
Qed.

(** The same entry after a filter whose domains were set takes its
    automatic range from the domains of that earlier filter: the range is
    twice the average element size of the names left in [filtered_dn],
    although the casting filter itself is prepared for all optimised
    elements. *)
Lemma casting_automatic_range_uses_domains_of_earlier_filter
    (e : filter_entry) (vector : string) (v : prep_vars) (names : list string)
    (size_avg : Q) :
  fe_kind e = kind_casting ->
  fe_range e = range_string "auto" ->
  fe_rest e = [vector] ->
  size_elm_bound v = true ->
  filtered_dn v = Some names ->
  check_same_state lib (domain_names cfg) = Ok tt ->
  get_filter_range lib names = Ok size_avg ->
  prepare lib (Prepare2sCasting (range_number (size_avg * 2)) (opt_domains m) vector)
  = Ok tt ->
  prepare_entry lib cfg m debug_mode use_kdtree e v
  = ([CheckSameState (domain_names cfg); GetFilterRange names;
      LogAutoRange size_avg (size_avg * 2);
      Prepare2sCasting (range_number (size_avg * 2)) (opt_domains m) vector],
     Ok v).
Proof.
  intros Hkd Hr Hrest Hb Hn Hsame Hget Hprep.
  unfold prepare_entry. rewrite Hkd, Hr, Hrest. cbn [length].
  rewrite bool_decide_eq_true_2 by done. cbn.
  unfold same_state. rewrite Hsame. cbn.
  unfold auto_range. cbn. rewrite Hb. cbn. rewrite Hn. cbn. rewrite Hget. cbn.
  unfold call. cbn. rewrite Hprep. done.
Qed.

End PreparationFacts.

(** ** Removal of the solver files *)

Lemma solver_file_inj (file_nameW ext1 ext2 : string) :
  file_nameW +:+ "." +:+ ext1 = file_nameW +:+ "." +:+ ext2 -> ext1 = ext2.
Proof. intros H. apply (inj (String.app file_nameW)) in H. by injection H. Qed.

Lemma os_bind_assoc {A B C} (r : os_result A) (k1 : A -> os_result B)
    (k2 : B -> os_result C) :
  os_bind (os_bind r k1) k2 = os_bind r (fun a => os_bind (k1 a) k2).
Proof. by destruct r. Qed.

Section Cleanup.

Variable file_nameW : string.
Variable keep : string -> bool.
Variable files : gset string.

(** Removing the files of a list of extensions one after the other *)
Lemma remove_chain (exts : list string) :
  NoDup exts ->
  match foldl (fun r ext =>
           os_bind r (fun f => if keep ext then Removed f
                               else os_remove (file_nameW +:+ "." +:+ ext) f))
          (Removed files) exts with
  | Removed files' =>
      (forall ext, ext ∈ exts -> keep ext = false ->
         file_nameW +:+ "." +:+ ext ∈ files)
      /\ (forall path, path ∈ files' <->
            path ∈ files
            /\ forall ext, ext ∈ exts -> keep ext = false ->
                 path <> file_nameW +:+ "." +:+ ext)
  | FileNotFoundError path =>
      exists ext, ext ∈ exts /\ keep ext = false
                  /\ path = file_nameW +:+ "." +:+ ext /\ path ∉ files
  end.
Proof.
  induction exts as [|x exts IH] using rev_ind; intros Hnd.
  - simpl. split; [by intros ? ?%elem_of_nil|].
    intros path. split; [intros H; split; [done|by intros ? ?%elem_of_nil]|by intros []].
  - apply NoDup_app in Hnd as (Hnd & Hx & _).
    rewrite foldl_app. simpl. specialize (IH Hnd).
    destruct (foldl _ (Removed files) exts) as [f|p]; simpl.
    + destruct IH as [Hall Hf]. destruct (keep x) eqn:Ek.
      * split.
        -- intros ext [Hin| ->%list_elem_of_singleton]%elem_of_app E; [by apply Hall|congruence].
        -- intros path. rewrite Hf. split; intros [Hp Hne]; (split; [done|]).
           ++ intros ext [Hin| ->%list_elem_of_singleton]%elem_of_app E;
                [by apply Hne|congruence].
           ++ intros ext Hin E. apply Hne; [|done]. apply elem_of_app. by left.
      * unfold os_remove. case_bool_decide as Hin.
        -- apply Hf in Hin as Hin'. destruct Hin' as [Hin' _]. split.
           ++ intros ext [He| ->%list_elem_of_singleton]%elem_of_app E;
                [by apply Hall|done].
           ++ intros path. rewrite elem_of_difference, elem_of_singleton, Hf.
              split.
              ** intros [[Hp Hne] Hpx]. split; [done|].
                 intros ext [He| ->%list_elem_of_singleton]%elem_of_app E;
                   [by apply Hne|done].
              ** intros [Hp Hne]. split; [split; [done|]|].
                 --- intros ext He E. apply Hne; [|done]. apply elem_of_app. by left.
                 --- apply Hne; [|done]. apply elem_of_app. right. apply list_elem_of_here.
        -- exists x. split; [apply elem_of_app; right; apply list_elem_of_here|].
           split; [done|]. split; [done|]. intros Hfiles. apply Hin, Hf.
           split; [done|]. intros ext He E Heq. apply solver_file_inj in Heq as <-.
           by apply (Hx x), list_elem_of_here.
    + destruct IH as (ext & He & E & -> & Hn). exists ext.
      split; [apply elem_of_app; by left|done].
Qed.

End Cleanup.

(** X24.  The removal of the solver files at the end of a pass fails with
    FileNotFoundError exactly when a file among .inp, .dat, .frd, .sta and
    .cvg that is due for removal is missing, and names such a file; a
    missing .12d file never fails.  A file is kept only when its extension occurs in
    [save_solver_files] and the iteration whose files they are is one whose
    results are saved; when the removal succeeds, exactly the other ones of
    the six files are gone. *)
Theorem solver_files_removed_unless_kept (save_iteration_results : Z)
    (save_solver_files file_nameW : string) (i : nat) (files : gset string) :
  match remove_solver_files save_iteration_results save_solver_files file_nameW i files with
  | Removed files' =>
      (forall ext, ext ∈ solver_extensions ->
         kept save_iteration_results save_solver_files i ext = false ->
         file_nameW +:+ "." +:+ ext ∈ files)
      /\ (forall path, path ∈ files' <->
            path ∈ files
            /\ forall ext, ext ∈ solver_extensions ++ ["12d"] ->
                 kept save_iteration_results save_solver_files i ext = false ->
                 path <> file_nameW +:+ "." +:+ ext)
  | FileNotFoundError path =>
      exists ext, ext ∈ solver_extensions
                  /\ kept save_iteration_results save_solver_files i ext = false
                  /\ path = file_nameW +:+ "." +:+ ext /\ path ∉ files
  end.
Proof.
  pose proof (remove_chain file_nameW
                (kept save_iteration_results save_solver_files i) files
                solver_extensions) as Hchain.
  assert (Hnd : NoDup solver_extensions).
  { by apply (bool_decide_unpack _). }
  specialize (Hchain Hnd).
  assert (Heq :
    remove_solver_files save_iteration_results save_solver_files file_nameW i files
    = os_bind
        (foldl (fun r ext =>
                  os_bind r (fun f =>
                    if kept save_iteration_results save_solver_files i ext
                    then Removed f
                    else os_remove (file_nameW +:+ "." +:+ ext) f))
           (Removed files) solver_extensions)
        (fun f5 => Removed
           (if kept save_iteration_results save_solver_files i "12d" then f5
            else os_remove_if_there (file_nameW +:+ ".12d") f5))).
  { unfold remove_solver_files, kept, remove_unless_saved.
    unfold solver_extensions. cbn [foldl]. rewrite !os_bind_assoc.
    destruct (on_schedule save_iteration_results (Z.of_nat i - 1)); reflexivity. }
  rewrite Heq. cbv zeta in Hchain.
  destruct (foldl _ (Removed files) solver_extensions) as [f5|p]; cbn [os_bind];
    [|exact Hchain].
  destruct Hchain as [Hall Hf]. split; [done|].
  intros path. destruct (kept _ _ _ "12d") eqn:E12.
  - rewrite Hf. split; intros [Hp Hne]; (split; [done|]).
    + intros ext [He| ->%list_elem_of_singleton]%elem_of_app E;
        [by apply Hne|congruence].
    + intros ext He E. apply Hne; [|done]. apply elem_of_app. by left.
  - unfold os_remove_if_there. rewrite elem_of_difference, elem_of_singleton, Hf.
    split.
    + intros [[Hp Hne] Hpx]. split; [done|].
      intros ext [He| ->%list_elem_of_singleton]%elem_of_app E; [by apply Hne|done].
    + intros [Hp Hne]. split; [split; [done|]|].
      * intros ext He E. apply Hne; [|done]. apply elem_of_app. by left.
      * apply (Hne "12d"); [|done]. apply elem_of_app. right. apply list_elem_of_here.
Qed.

(** ** Time measurement *)

Section DictFacts.

Context {K V : Type} `{EqDecision K}.

Lemma dict_get_set (k : K) (v : V) (d : list (K * V)) :
  dict_get k (dict_set k v d) = Some v.
Proof.
  unfold dict_get. induction d as [|[k' v'] d IH]; simpl.
  - by rewrite bool_decide_eq_true_2.
  - case_bool_decide as E; simpl.
    + by rewrite bool_decide_eq_true_2.
    + by rewrite bool_decide_eq_false_2.
Qed.

Lemma dict_get_set_ne (k k' : K) (v : V) (d : list (K * V)) :
  k' <> k -> dict_get k' (dict_set k v d) = dict_get k' d.
Proof.
  intros Hne. unfold dict_get. induction d as [|[k0 v0] d IH]; simpl.
  - by rewrite bool_decide_eq_false_2.
  - case_bool_decide as E; simpl.
    + subst k0. by rewrite !bool_decide_eq_false_2 by done.
    + case_bool_decide; [done|apply IH].
Qed.

End DictFacts.

Section Sorting.

Context {A : Type} (le : A -> A -> bool).
Hypothesis le_total : forall a b, le a b = true \/ le b a = true.

Lemma insert_sorted_perm (x : A) (l : list A) : insert_sorted le x l ≡ₚ x :: l.
Proof.
  induction l as [|y l IH]; simpl; [done|].
  destruct (le x y); [done|]. rewrite IH. apply Permutation_swap.
Qed.

Lemma sorted_perm (l : list A) : sorted le l ≡ₚ l.
Proof.
  induction l as [|x l IH]; simpl; [done|].
  rewrite insert_sorted_perm. by rewrite IH.
Qed.

Lemma insert_sorted_adjacent (x : A) (l : list A) :
  (forall k p q, l !! k = Some p -> l !! S k = Some q -> le p q = true) ->
  forall k p q,
    insert_sorted le x l !! k = Some p -> insert_sorted le x l !! S k = Some q ->
    le p q = true.
Proof.
  induction l as [|y l IH]; simpl; intros Hs k p q.
  - by destruct k.
  - destruct (le x y) eqn:E.
    + destruct k as [|k]; simpl; [by intros [= <-] [= <-]|]. apply (Hs k).
    + destruct k as [|k]; simpl.
      * intros [= <-]. destruct l as [|z l]; simpl.
        -- intros [= <-]. by destruct (le_total x y) as [H|H]; [congruence|].
        -- destruct (le x z); simpl; intros [= <-].
           ++ by destruct (le_total x y) as [H|H]; [congruence|].
           ++ by apply (Hs 0%nat).
      * apply IH. intros k' p' q'. apply (Hs (S k')).
Qed.

Lemma sorted_adjacent (l : list A) :
  forall k p q, sorted le l !! k = Some p -> sorted le l !! S k = Some q ->
                le p q = true.
Proof.
  induction l as [|x l IH]; simpl; [by intros []|].
  by apply insert_sorted_adjacent.
Qed.

End Sorting.

Lemma fold_left_Qplus (l : list Q) (a : Q) : fold_left Qplus l a == a + Qsum l.
Proof.
  revert a. induction l as [|x l IH]; intros a; cbn [fold_left].
  - unfold Qsum. simpl. ring.
  - rewrite IH, Qsum_cons. ring.
Qed.

Lemma Qsum_perm (l l' : list Q) : l ≡ₚ l' -> Qsum l == Qsum l'.
Proof.
  induction 1 as [|x l l' _ IH|x y l|l1 l2 l3 _ IH1 _ IH2];
    rewrite ?Qsum_cons; [reflexivity|by rewrite IH|ring|by rewrite IH1].
Qed.

Lemma sum_values_perm {K} (d d' : list (K * Q)) :
  d ≡ₚ d' -> sum_values d == sum_values d'.
Proof.
  intros H. unfold sum_values. rewrite !fold_left_Qplus.
  by rewrite (Qsum_perm _ _ (fmap_Permutation snd _ _ H)).
Qed.

(** The shares of the parts of a total that is not zero add up to 100. *)
Lemma shares_add_up {K} (d : list (K * Q)) (total : Q) :
  ~ total == 0 ->
  Qsum ((fun p => snd p / total * 100) <$> d) == Qsum (snd <$> d) / total * 100.
Proof.
  intros Ht. induction d as [|[k x] d IH].
  - unfold Qsum. simpl. field. done.
  - rewrite !fmap_cons, !Qsum_cons, IH. cbn [snd]. field. done.
Qed.

Lemma omap_length_le {A B} (f : A -> option B) (l : list A) :
  (length (omap f l) <= length l)%nat.
Proof.
  induction l as [|x l IH]; [done|].
  change (omap f (x :: l))
    with (match f x with Some y => y :: omap f l | None => omap f l end).
  destruct (f x); simpl; lia.
Qed.

Lemma string_leb_total (p q : string * Q) :
  String.leb (fst p) (fst q) = true \/ String.leb (fst q) (fst p) = true.
Proof. apply String.leb_total. Qed.

Lemma duration_geb_total (p q : string * Q) :
  Qle_bool (snd q) (snd p) = true \/ Qle_bool (snd p) (snd q) = true.
Proof.
  rewrite !Qle_bool_iff. destruct (Qlt_le_dec (snd p) (snd q)); [right|left]; lra.
Qed.

Section DebugFacts.

Variable file_name : option string.
Variable write_to_log : string -> debug_text -> result unit.

(** X25.  [log_time] returns the time of its call and keeps the same records
    whether debugging is on or off: the duration is added to the total of the
    step (which starts from 0) and, when an iteration is given, replaces the
    duration of the step in the table of that iteration; the other steps and
    iterations are left as they were.  With debugging off nothing is
    written. *)
Theorem log_time_records_the_duration (step_name : string) (start_t end_t : Q)
    (debug_flag : bool) (iteration : option Z) (t : timing) :
  let '(ret, t', out) :=
    log_time file_name write_to_log step_name start_t debug_flag iteration end_t t in
  let duration := end_t - start_t in
  ret = end_t
  /\ dict_get step_name (total_timing t')
     = Some (default 0 (dict_get step_name (total_timing t)) + duration)
  /\ (forall step, step <> step_name ->
        dict_get step (total_timing t') = dict_get step (total_timing t))
  /\ match iteration with
     | Some it =>
         current_iteration t' = Some it
         /\ dict_get it (timing_data t') ≫= dict_get step_name = Some duration
         /\ (forall step, step <> step_name ->
               dict_get it (timing_data t') ≫= dict_get step
               = dict_get it (timing_data t) ≫= dict_get step)
         /\ (forall it', it' <> it ->
               dict_get it' (timing_data t') = dict_get it' (timing_data t))
     | None =>
         timing_data t' = timing_data t
         /\ current_iteration t' = current_iteration t
     end
  /\ (debug_flag = false -> out = [])
  /\ t' = snd (fst (log_time file_name write_to_log step_name start_t
                      (negb debug_flag) iteration end_t t)).
Proof.
  assert (H : forall flag,
    log_time file_name write_to_log step_name start_t flag iteration end_t t
    = (end_t,
       snd (fst (log_time file_name write_to_log step_name start_t false
                   iteration end_t t)),
       if flag
       then Printed (StepTook iteration step_name (end_t - start_t))
            :: log_debug file_name write_to_log
                 (StepTook iteration step_name (end_t - start_t))
       else [])).
  { by intros []. }
  rewrite H. cbv zeta.
  split; [done|].
  assert (H' : forall flag,
    snd (fst (log_time file_name write_to_log step_name start_t flag
                iteration end_t t))
    = snd (fst (log_time file_name write_to_log step_name start_t false
                  iteration end_t t))) by (by intros []).
  rewrite (H' (negb debug_flag)).
  unfold log_time. cbn [fst snd total_timing timing_data current_iteration].
  split; [|split; [|split; [|split; [by intros ->|done]]]].
  - rewrite dict_get_set. by destruct iteration.
  - intros step Hne. rewrite dict_get_set_ne by done. by destruct iteration.
  - destruct iteration as [it|]; cbn [timing_data current_iteration]; [|done].
    split; [done|]. rewrite dict_get_set. cbn [mbind option_bind].
    split; [apply dict_get_set|]. split.
    + intros step Hne. rewrite dict_get_set_ne by done.
      by destruct (dict_get it (timing_data t)).
    + intros it' Hne. by rewrite dict_get_set_ne.
Qed.

Lemma summary_rows (total : Q) (l : list (string * Q)) (acc : list (string * Q * Q)) :
  ~ total == 0 ->
  Py.for_each l
    (fun '(step, duration) rows =>
       do share <- Py.div duration total;
       Ok (rows ++ [(step, duration, share * 100)])) acc
  = Ok (acc ++ ((fun p => (p, snd p / total * 100)) <$> l)).
Proof.
  intros Ht. revert acc. induction l as [|[step d] l IH]; intros acc; simpl.
  - by rewrite app_nil_r.
  - rewrite (div_nonzero _ _ Ht). simpl. rewrite IH. by rewrite <- app_assoc.
Qed.

(** X26.  With debugging on, the summary of an iteration that has recorded
    steps lists the steps in the order of their names, each with its
    duration and its share of the sum of the durations in percent; the shares
    add up to 100.  When the durations add up to 0 the division raises a
    ZeroDivisionError, which no handler catches. *)
Theorem iteration_summary_shares (iteration : Z) (t : timing)
    (steps : list (string * Q)) :
  dict_get iteration (timing_data t) = Some steps ->
  steps <> [] ->
  let total := sum_values steps in
  (total == 0 ->
   log_iteration_summary file_name write_to_log iteration true t
   = Raise ZeroDivisionError)
  /\ (~ total == 0 ->
      exists rows,
        log_iteration_summary file_name write_to_log iteration true t
        = Ok (Printed (IterationSummary iteration rows total)
              :: log_debug file_name write_to_log
                   (IterationSummary iteration rows total))
        /\ fst <$> rows ≡ₚ steps
        /\ (forall k p q, rows !! k = Some p -> rows !! S k = Some q ->
              String.leb (fst (fst p)) (fst (fst q)) = true)
        /\ Forall (fun '(step, duration, percentage) =>
                     percentage = duration / total * 100) rows
        /\ Qsum (snd <$> rows) == 100).
Proof.
  intros Hget Hne total. unfold log_iteration_summary. rewrite Hget. fold total.
  split.
  - intros H0.
    assert (Hs : by_step steps <> []).
    { intros E. apply Hne, Permutation_nil.
      rewrite <- E. apply sorted_perm. }
    destruct (by_step steps) as [|[step d] l]; [done|]. simpl.
    unfold Py.div. apply Qeq_bool_iff in H0. by rewrite H0.
  - intros H0. rewrite (summary_rows _ _ _ H0). simpl.
    eexists. split; [reflexivity|].
    split; [|split; [|split]].
    + rewrite <- list_fmap_compose.
      rewrite (list_fmap_ext _ id (by_step steps)) by done.
      rewrite list_fmap_id. apply sorted_perm.
    + intros k p q. rewrite !list_lookup_fmap.
      destruct (by_step steps !! k) as [p0|] eqn:Ep; [|done].
      destruct (by_step steps !! S k) as [q0|] eqn:Eq; [|done].
      simpl. intros [= <-] [= <-]. simpl.
      by apply (sorted_adjacent _ string_leb_total steps k).
    + apply Forall_fmap, Forall_true. by intros [step d].
    + rewrite <- list_fmap_compose.
      rewrite (list_fmap_ext _ (fun p => snd p / total * 100)
                 (by_step steps)) by done.
      rewrite shares_add_up by done.
      rewrite (Qsum_perm _ (snd <$> steps))
        by apply fmap_Permutation, sorted_perm.
      assert (Ht : total == Qsum (snd <$> steps)).
      { unfold total, sum_values. rewrite fold_left_Qplus. ring. }
      rewrite <- Ht. field. done.
Qed.

(** X27.  The summary of the run is written only with debugging on and a sum
    of the recorded totals that is not 0 (so no division by zero here).  It
    then lists every step once, in descending order of its total duration,
    with its share of the sum in percent, marked SIGNIFICANT exactly when the
    share is above 10; the shares add up to 100, and at most three hints
    follow. *)
Theorem total_summary_shares (t : timing) :
  let total := sum_values (total_timing t) in
  log_total_summary file_name write_to_log false t = []
  /\ (total == 0 -> log_total_summary file_name write_to_log true t = [])
  /\ (~ total == 0 ->
      exists rows hints,
        let text :=
          PerformanceSummary (length (timing_data t)) rows hints
            (50 <? length (timing_data t))%nat in
        log_total_summary file_name write_to_log true t
        = Printed text :: log_debug file_name write_to_log text
        /\ (fun r => fst (fst r)) <$> rows ≡ₚ total_timing t
        /\ (forall k p q, rows !! k = Some p -> rows !! S k = Some q ->
              snd (fst (fst q)) <= snd (fst (fst p)))
        /\ Forall (fun '(step, duration, percentage, significant) =>
                     percentage = duration / total * 100
                     /\ (significant = true <-> 10 < percentage)) rows
        /\ Qsum ((fun r => snd (fst r)) <$> rows) == 100
        /\ (length hints <= 3)%nat).
Proof.
  intros total. unfold log_total_summary. fold total.
  split; [done|]. split.
  - intros H0. apply Qeq_bool_iff in H0. by rewrite H0.
  - intros H0. destruct (Qeq_bool total 0) eqn:E;
      [by apply Qeq_bool_iff in E|].
    eexists _, _. cbv zeta. split; [reflexivity|].
    split; [|split; [|split; [|split]]].
    + rewrite <- list_fmap_compose.
      rewrite (list_fmap_ext _ id (by_duration (total_timing t))) by (by intros ? [] ?).
      rewrite list_fmap_id. apply sorted_perm.
    + intros k p q. rewrite !list_lookup_fmap.
      destruct (by_duration (total_timing t) !! k) as [[s1 d1]|] eqn:Ep; [|done].
      destruct (by_duration (total_timing t) !! S k) as [[s2 d2]|] eqn:Eq; [|done].
      simpl. intros [= <-] [= <-]. simpl.
      apply Qle_bool_iff.
      apply (sorted_adjacent _ duration_geb_total (total_timing t) k (s1, d1) (s2, d2));
        done.
    + apply Forall_fmap, Forall_true. intros [step d]. simpl.
      split; [done|]. apply lt_true.
    + rewrite <- list_fmap_compose.
      rewrite (list_fmap_ext _ (fun p => snd p / total * 100)
                 (by_duration (total_timing t)))
        by (by intros ? [] ?).
      rewrite shares_add_up by done.
      rewrite (Qsum_perm _ (snd <$> total_timing t))
        by apply fmap_Permutation, sorted_perm.
      assert (Ht : total == Qsum (snd <$> total_timing t)).
      { unfold total, sum_values. rewrite fold_left_Qplus. ring. }
      rewrite <- Ht. field. done.
    + etrans; [apply omap_length_le|]. rewrite length_take. lia.
Qed.

End DebugFacts.

(** ** The material data of the configuration generator *)

Section MaterialFacts.

Variable float : string -> option Q.
Variable Name : string.
Variable Material : gmap string (list string).

(** X29.  The density of a material is read in one way only: a density
    given in "kg/m^3" or "kg/m3" is refused with the exception for an unknown
    unit, and a density with any other unit, "kg/mm^3" included, is
    multiplied by 1e-12; the division by 1000 for "kg/mm^3" is never
    reached.  A material without density gets 0, and a density without a unit
    ends with IndexError.  So for a density in "kg/m^3" no material data is
    produced. *)
Theorem density_unit_test_is_inverted :
  match Material !! "Density" with
  | None => material_density float Name Material = Ok 0
  | Some [] | Some [_] => material_density float Name Material = Raise IndexError
  | Some (text :: unit :: _) =>
      if bool_decide (unit = "kg/m^3" \/ unit = "kg/m3")
      then material_density float Name Material = Raise (unit_not_recognised Name)
           /\ forall data, process_material_data float Name Material <> Ok data
      else match float text with
           | Some x => material_density float Name Material
                       = Ok (x * (1 # 1000000000000))
           | None => material_density float Name Material = Raise ValueError
           end
  end.
Proof.
  assert (Hall : forall e,
    material_density float Name Material = Raise e ->
    forall data, process_material_data float Name Material <> Ok data).
  { intros e He data. unfold process_material_data.
    destruct (material_modulus float Name Material); simpl; [|done].
    destruct (material_value float Material "PoissonRatio"); simpl; [|done].
    by rewrite He. }
  destruct (Material !! "Density") as [[|text [|u rest]]|] eqn:E.
  1, 2, 4: unfold material_density, material_value, material_part; by rewrite E.
  assert (Hd : if bool_decide (u = "kg/m^3" \/ u = "kg/m3")
               then material_density float Name Material
                    = Raise (unit_not_recognised Name)
               else material_density float Name Material
                    = match float text with
                      | Some x => Ok (x * (1 # 1000000000000))
                      | None => Raise ValueError
                      end).
  { unfold material_density, material_value, material_part. rewrite E. simpl.
    case_bool_decide as Hu.
    - by destruct Hu as [Hu|Hu]; rewrite Hu.
    - rewrite bool_decide_eq_false_2.
      + simpl. by destruct (float text).
      + rewrite !elem_of_cons, elem_of_nil. tauto. }
  case_bool_decide.
  - split; [done|]. by apply (Hall _ Hd).
  - by destruct (float text).
Qed.

End MaterialFacts.

(** ** The further properties on the small models *)

Section FurtherExamples.

Import Demo Cases.

(** The run of the small model starts with both elements solid *)
Lemma default_start_witness :
  exists es : gmap Z Z,
    init_elm_states importers conf = ([], Ok es)
    /\ (forall ds1 d0 ds2 en,
          domains_from_config conf = ds1 ++ d0 :: ds2 ->
          en ∈ domains d0 -> (forall d', d' ∈ ds2 -> en ∉ domains d') ->
          es !! en = Some (Z.of_nat (length (domain_density d0)) - 1)%Z)
    /\ (forall mass0 mass_full,
          initial_mass geometry conf es = Ok (mass0, mass_full) -> mass0 = mass_full).
Proof.
  apply (default_start_has_full_mass importers conf geometry "").
  - reflexivity.
  - intros H. vm_compute in H. discriminate H.
  - intros H. vm_compute in H. discriminate H.
  - intros H. vm_compute in H. discriminate H.
  - intros ds1 d0 ds2 en Hds Hopt Hin. cbn in Hds.
    destruct ds1 as [|d1 [|d2 ds1]]; [|discriminate Hds|discriminate Hds].
    injection Hds as <- <-. split; [exact Hin|].
    intros d' Hd'. by apply elem_of_nil in Hd'.
Defined.

(** A run on a domain that is not optimised, with the automatic limit *)
Lemma automatic_limit_without_optimized_domain_witness :
  beso_main 5 importers solver
    (conf_of [fixed] false stiffness relative (3 # 100) (1 # 100) auto false) geometry
  = Some ([], Raised ZeroDivisionError).
Proof.
  apply (automatic_limit_without_optimized_domain 5 importers solver
           (conf_of [fixed] false stiffness relative (3 # 100) (1 # 100) auto false)
           geometry [] (init_highest [fixed])).
  - reflexivity.
  - intros d0 Hd. apply list_elem_of_singleton in Hd. by subst d0.
  - reflexivity.
Defined.

(** Equal ratios, a quarter of the full mass and a goal of 0.4 *)
Lemma automatic_limit_loop_never_ends_witness :
  auto_iterations_limit 1000
    (conf_of [d] false stiffness relative (3 # 100) (3 # 100) auto false) (1 # 2) 2
  = Ok None.
Proof.
  apply (automatic_limit_loop_never_ends
           (conf_of [d] false stiffness relative (3 # 100) (3 # 100) auto false)
           (1 # 2) 2).
  - reflexivity.
  - reflexivity.
  - intros H. discriminate H.
  - reflexivity.
  - left. reflexivity.
Defined.

(** A ratio type that is neither "absolute" nor "relative" *)
Lemma automatic_limit_left_unset_witness :
  auto_iterations_limit 1
    (conf_of [d] false stiffness ratio_other (3 # 100) (1 # 100) auto false) 2 2
  = Ok (Some auto)
  /\ beso_main 1 importers solver
       (conf_of [d] false stiffness ratio_other (3 # 100) (1 # 100) auto false) geometry
     = Some ([] ++ [CalculiX 0; ImportResults 0; LogRow 0], Raised TypeError).
Proof.
  eapply (automatic_limit_left_unset_raises_TypeError 0 importers solver
            (conf_of [d] false stiffness ratio_other (3 # 100) (1 # 100) auto false)
            geometry [] [CalculiX 0; ImportResults 0; LogRow 0]).
  - reflexivity.
  - right. reflexivity.
  - reflexivity.
  - vm_compute. reflexivity.
  - intros H. discriminate H.
  - vm_compute. reflexivity.
Defined.

(** The sensitivity numbers of the first iteration *)
Lemma stiffness_sensitivity_witness :
  exists v : sens_vars,
    sensitivities conf geometry results_energy start = Ok v
    /\ exists x : Q,
         v_sensitivity_number v !! 2%Z = Some x
         /\ x ∈ energy_densities results_energy 2
         /\ (forall y, y ∈ energy_densities results_energy 2 -> y <= x)
         /\ length (energy_densities results_energy 2)
            = length (FI_step results_energy).
Proof.
  eexists. split; [vm_compute; reflexivity|].
  eapply (stiffness_sensitivity_is_greatest_energy_density
            conf geometry results_energy start _ [] [] d 2).
  - reflexivity.
  - vm_compute. reflexivity.
  - reflexivity.
  - apply list_elem_of_further, list_elem_of_here.
  - intros d' Hd'. by apply elem_of_nil in Hd'.
Defined.

(** The greatest failure ratio of the solid domain is 3/2 *)
Lemma FI_max_witness :
  exists l : list Q,
    compute_FI_max conf_FI results_FI = ([], Ok l)
    /\ [] = @nil event
    /\ length l = length (domains_from_config conf_FI)
    /\ forall (k : nat) (d0 : domain) (x : Q),
         domains_from_config conf_FI !! k = Some d0 -> l !! k = Some x ->
         0 <= x
         /\ (forall en y, en ∈ domains d0 -> y ∈ failure_ratios results_FI en -> y <= x)
         /\ (x = 0 \/ exists en, en ∈ domains d0 /\ x ∈ failure_ratios results_FI en).
Proof.
  eexists. split; [vm_compute; reflexivity|].
  eapply (FI_max_is_greatest_failure_ratio_of_domain conf_FI results_FI).
  - reflexivity.
  - vm_compute. reflexivity.
Defined.

(** Results without failure indices for the elements *)
Lemma FI_max_failure_witness :
  exists (msg : string) (d0 : domain) (en : Z) (step : gmap Z (list (option Q))),
    Exception FI_values_missing = Exception msg
    /\ [Log ("ERROR: " +:+ FI_values_missing)] = [Log ("ERROR: " +:+ msg)]
    /\ d0 ∈ domains_from_config conf_FI /\ en ∈ domains d0
    /\ step ∈ FI_step results_energy
    /\ ((msg = FI_max_failed
         /\ exists fi, step !! en = Some fi /\ drop_None fi = [])
        \/ (msg = FI_values_missing /\ step !! en = None)).
Proof.
  apply (FI_max_failure_is_logged_and_raised_as_Exception conf_FI results_energy).
  vm_compute. reflexivity.
Defined.

(** One of the two elements is violated in the results with failure
    indices *)
Lemma violated_row_witness :
  exists v : sens_vars,
    sensitivities conf_FI geometry results_FI start = Ok v
    /\ v_FI_violated v
       = FI_violated start
         ++ [(fun d0 => Z.of_nat (length (List.filter (violated_element conf_FI results_FI)
                                            (domains d0))))
             <$> domains_from_config conf_FI]
    /\ (forall en,
          violated_element conf_FI results_FI en = true
          <-> domain_FI_filled conf_FI = true
              /\ exists y, y ∈ failure_ratios results_FI en /\ 1 <= y).
Proof.
  eexists. split; [vm_compute; reflexivity|].
  eapply (violated_row_counts_elements_per_domain conf_FI geometry results_FI start).
  - vm_compute. reflexivity.
  - reflexivity.
Defined.

(** Element 2 has the failure ratio 3/2 and is counted, element 1 has no
    ratio above 3/4 *)
Example violated_row_value :
  exists v : sens_vars,
    sensitivities conf_FI geometry results_FI start = Ok v
    /\ v_FI_violated v = [[1%Z]]
    /\ violated_element conf_FI results_FI 1 = false
    /\ violated_element conf_FI results_FI 2 = true.
Proof. eexists. split; [vm_compute; reflexivity|]. repeat split. Qed.

(** Two passes of the run of the small model *)
Lemma violated_table_witness :
  exists s : state,
    passes solver conf geometry 2 (limit 10) 2 (initial_state (states 1 1) 2) = Some s
    /\ length (FI_violated s) = 2%nat
    /\ Forall (fun row : list Z =>
                 length row = length (domains_from_config conf)
                 /\ Forall (fun c => (0 <= c)%Z) row) (FI_violated s).
Proof.
  eexists. split; [vm_compute; reflexivity|].
  eapply (violated_table_has_a_row_per_iteration solver conf geometry 2 (limit 10)
            (states 1 1) 2 2).
  vm_compute. reflexivity.
Defined.

(** The sums of the mean energy density in the first iteration *)
Lemma mean_sums_witness :
  exists (v : sens_vars) (a : mean_sums),
    sensitivities conf geometry results_energy start = Ok v
    /\ mean_values conf geometry results_energy v (elm_states start) = Ok a
    /\ (optimization_base conf = stiffness ->
        energy_density_mean_sum a
        == weighted_sum (element_energy v) (present_mass geometry (elm_states start))
             (optimized_elements conf)).
Proof.
  eexists _, _. split; [vm_compute; reflexivity|].
  split; [vm_compute; reflexivity|].
  eapply (mean_sums_are_mass_weighted conf geometry results_energy).
  vm_compute. reflexivity.
Defined.

Example mean_sums_value :
  exists (v : sens_vars) (a : mean_sums),
    sensitivities conf geometry results_energy start = Ok v
    /\ mean_values conf geometry results_energy v (elm_states start) = Ok a
    /\ energy_density_mean_sum a == 12.
Proof.
  eexists _, _. split; [vm_compute; reflexivity|].
  split; [vm_compute; reflexivity|]. reflexivity.
Qed.

(** The mean energy density of the first iteration: (5 + 7) / 2 *)
Lemma tracked_means_witness :
  exists (v : sens_vars) (a : mean_sums) (l : mean_lists),
    sensitivities conf geometry results_energy start = Ok v
    /\ mean_values conf geometry results_energy v (elm_states start) = Ok a
    /\ append_means conf start a = Ok l
    /\ exists x mi,
         l_energy_density_mean l = energy_density_mean start ++ [x]
         /\ mass start !! i start = Some mi /\ ~ mi == 0
         /\ x == weighted_sum (element_energy v)
                   (present_mass geometry (elm_states start))
                   (optimized_elements conf) / mi
         /\ 5 <= x <= 7.
Proof.
  eexists _, _, _. split; [vm_compute; reflexivity|].
  split; [vm_compute; reflexivity|]. split; [vm_compute; reflexivity|].
  pose proof (tracked_means_are_mass_weighted_averages conf geometry results_energy)
    as T.
  match goal with |- context [element_energy ?v] => specialize (T v start) end.
  edestruct T as [Hs _]; [vm_compute; reflexivity|vm_compute; reflexivity|].
  destruct (Hs eq_refl) as (x & mi & E1 & E2 & E3 & E4 & E5).
  exists x, mi. repeat (split; [assumption|]).
  vm_compute in E2. injection E2 as <-.
  apply E5; [reflexivity|reflexivity|].
  intros p Hp. vm_compute in Hp.
  apply elem_of_cons in Hp as [->|Hp];
    [|apply elem_of_cons in Hp as [->|Hp]; [|by apply elem_of_nil in Hp]];
    vm_compute; repeat split; discriminate.
Defined.

(** Averaging in iteration 1 *)
Lemma averaging_witness :
  exists sens' sens_old' : gmap Z Q,
    averaging (conf_of [d] false stiffness relative (3 # 100) (1 # 100) (limit 10) true)
      geometry 1 (<[1%Z := 4]> (<[2%Z := 6]> ∅)) (<[1%Z := 2]> (<[2%Z := 2]> ∅))
    = Ok (sens', sens_old')
    /\ (forall en, en ∈ opt_domains geometry ->
          exists a x,
            (<[1%Z := 4]> (<[2%Z := 6]> ∅) : gmap Z Q) !! en = Some a
            /\ sens' !! en = Some x /\ sens_old' !! en = Some x
            /\ ((1 = 0)%nat -> x = a)
            /\ ((0 < 1)%nat ->
                exists b, (<[1%Z := 2]> (<[2%Z := 2]> ∅) : gmap Z Q) !! en = Some b
                          /\ x = (a + b) / 2)).
Proof.
  eexists _, _. split; [vm_compute; reflexivity|].
  edestruct (averaging_halves_with_previous_iteration
               (conf_of [d] false stiffness relative (3 # 100) (1 # 100) (limit 10) true)
               geometry 1 (<[1%Z := 4]> (<[2%Z := 6]> ∅))
               (<[1%Z := 2]> (<[2%Z := 2]> ∅))) as [_ H];
    [by apply (bool_decide_unpack _)|vm_compute; reflexivity|].
  exact (proj2 (H eq_refl)).
Defined.

(** The mass goal after two passes of the run of the small model *)
Lemma removing_goal_witness :
  exists (s : state) (g : Q),
    passes solver conf geometry 2 (limit 10) 2 (initial_state (states 1 1) 2) = Some s
    /\ mass_goal_i s = Some g
    /\ mass_goal_ratio conf * 2 <= g.
Proof.
  eexists _, _. split; [vm_compute; reflexivity|].
  split; [vm_compute; reflexivity|].
  eapply (removing_goal_never_below_final_goal solver conf geometry 2 (limit 10)
            (states 1 1) 2 2).
  - reflexivity.
  - vm_compute. reflexivity.
  - vm_compute. reflexivity.
Defined.

(** The decay has not started after one and after two passes *)
Lemma decay_start_witness :
  exists s s' : state,
    passes solver conf geometry 2 (limit 10) 1 (initial_state (states 1 1) 2) = Some s
    /\ passes solver conf geometry 2 (limit 10) (1 + 1) (initial_state (states 1 1) 2)
       = Some s'
    /\ (i_violated s <= 1)%nat
    /\ (i_violated s = 0%nat <-> check_tolerance s = false)
    /\ (i_violated s ≠ 0%nat ->
        i_violated s' = i_violated s /\ check_tolerance s' = true).
Proof.
  eexists _, _. split; [vm_compute; reflexivity|].
  split; [vm_compute; reflexivity|].
  eapply (decay_start_is_set_once solver conf geometry 2 (limit 10) (states 1 1) 2 1 1).
  - vm_compute. reflexivity.
  - vm_compute. reflexivity.
Defined.

(** A run that adds mass, at the full mass: the goal is the final goal and
    the decay starts *)
Lemma adding_goal_witness :
  exists g : goal_vars,
    set_mass_goal (conf_of [d] false stiffness relative (1 # 100) (3 # 100) (limit 10) false)
      2 1 start = ([], Ok g)
    /\ (2 < (4 # 10) * 2 ->
        g_mass_goal_i g = Some (2 + ((3 # 100) - (1 # 100)) * 2)
        /\ 2 + ((3 # 100) - (1 # 100)) * 2 < (4 # 10) * 2 + ((3 # 100) - (1 # 100)) * 2
        /\ g_i_violated g = i_violated start
        /\ g_check_tolerance g = check_tolerance start)
    /\ ((4 # 10) * 2 <= 2 ->
        g_mass_goal_i g = Some ((4 # 10) * 2)
        /\ g_i_violated g = (if (i_violated start =? 0)%nat then 1%nat else i_violated start)
        /\ g_check_tolerance g
           = (if (i_violated start =? 0)%nat then true else check_tolerance start)).
Proof.
  apply (adding_goal_is_always_set
           (conf_of [d] false stiffness relative (1 # 100) (3 # 100) (limit 10) false)
           2 start 0 2).
  - discriminate.
  - reflexivity.
Defined.

(** The first pass with a ratio type that is neither "absolute" nor
    "relative" *)
Lemma unknown_ratio_type_witness :
  exists (s1 : state) (tr : list event) (g : goal_vars),
    first_half solver
      (conf_of [d] false stiffness ratio_other (3 # 100) (1 # 100) (limit 10) false)
      geometry start = ([CalculiX 0; ImportResults 0; LogRow 0], Ok s1)
    /\ set_mass_goal
         (conf_of [d] false stiffness ratio_other (3 # 100) (1 # 100) (limit 10) false)
         2 (S (i s1)) s1 = (tr, Ok g)
    /\ second_half solver
         (conf_of [d] false stiffness ratio_other (3 # 100) (1 # 100) (limit 10) false)
         geometry 2 s1 = (tr, Raise (NameError "mass_referential")).
Proof.
  eexists _, _, _. split; [vm_compute; reflexivity|].
  split; [vm_compute; reflexivity|].
  eapply (unknown_ratio_type_raises_NameError solver
            (conf_of [d] false stiffness ratio_other (3 # 100) (1 # 100) (limit 10) false)
            geometry 2).
  - reflexivity.
  - reflexivity.
  - vm_compute. reflexivity.
Defined.

(** The first pass of the run of the small model *)
Lemma one_solver_call_witness :
  exists (tr : list event) (o : outcome),
    loop_body solver conf geometry 2 (limit 10) start = (tr, o)
    /\ (exists rest, tr = CalculiX (i start) :: rest)
    /\ solver_calls tr = 1%nat
    /\ match o with
       | Finished _ => switching_calls tr = 0%nat
       | Continue _ | Oscillating _ => switching_calls tr = 1%nat
       | Raised _ => (switching_calls tr <= 1)%nat
       end.
Proof.
  eexists _, _. split; [vm_compute; reflexivity|].
  eapply (one_solver_call_per_pass solver conf geometry 2 (limit 10) start).
  vm_compute. reflexivity.
Defined.

(** The run with a limit of 3 iterations: four analyses, three switchings *)
Lemma final_design_witness :
  exists (tr : list event) (o : outcome),
    while_True solver (conf_with (limit 3) (4 # 10)) geometry 2 (limit 3) 20 start
    = (tr, o)
    /\ match o with
       | Finished _ => solver_calls tr = S (switching_calls tr)
       | Oscillating _ | Continue _ => solver_calls tr = switching_calls tr
       | Raised _ =>
           (switching_calls tr <= solver_calls tr <= S (switching_calls tr))%nat
       end.
Proof.
  eexists _, _. split; [vm_compute; reflexivity|].
  eapply (final_design_is_analysed_not_switched solver (conf_with (limit 3) (4 # 10))
            geometry 2 (limit 3) 20 start).
  vm_compute. reflexivity.
Defined.

Example final_design_calls :
  exists (tr : list event) (s : state),
    while_True solver (conf_with (limit 3) (4 # 10)) geometry 2 (limit 3) 20 start
    = (tr, Finished s)
    /\ solver_calls tr = 4%nat /\ switching_calls tr = 3%nat.
Proof. eexists _, _. split; [vm_compute; reflexivity|]. split; reflexivity. Qed.

(** 59.5 seconds are shown as 0 h 0 min 60 s *)
Lemma total_time_witness :
  exists h min s : Z,
    total_time_parts (119 # 2) = (h, min, s)
    /\ (0 <= h)%Z /\ (0 <= min <= 59)%Z /\ (0 <= s <= 60)%Z
    /\ - (1 # 2) <= (119 # 2) - inject_Z (3600 * h + 60 * min + s) <= 1 # 2.
Proof. apply (total_time_parts_add_up (119 # 2)). discriminate. Defined.

Example total_time_sixty_seconds :
  total_time_parts (119 # 2) = (0, 0, 60)%Z.
Proof. vm_compute. reflexivity. Qed.

(** A simple filter on the solid and the shell domain: the preparation is
    made for the shell elements 3 and 4, the filter is run on the elements
    1, 2, 3 and 4 *)
Lemma first_listed_domain_witness :
  exists l_name l_prep : list Z,
    domains_of (conf_continue 2) "SolidMaterialSolid" = Ok l_name
    /\ domains_to_filter (conf_continue 2) geometry false ["ShellMaterialThickness"]
       = Ok l_prep
    /\ (exists ev,
          ev ∈ [CheckSameState ["ShellMaterialThickness"];
                Prepare2s false (range_number 2) [3; 4]%Z]
          /\ prepared_elements ev = Some l_prep)
    /\ (forall ev l,
          ev ∈ [CheckSameState ["ShellMaterialThickness"];
                Prepare2s false (range_number 2) [3; 4]%Z] ->
          prepared_elements ev = Some l -> l = l_prep)
    /\ CheckSameState ["ShellMaterialThickness"]
       ∈ [CheckSameState ["ShellMaterialThickness"];
          Prepare2s false (range_number 2) [3; 4]%Z]
    /\ run_filter solver 0 (entry_filter simple_filter) (l_name ++ l_prep) ∅ = Ok ∅.
Proof.
  apply (first_listed_domain_is_filtered_but_not_prepared filters solver
           (conf_continue 2) geometry false false 0 simple_filter unbound
           {| size_elm_bound := false;
              filtered_dn := Some ["ShellMaterialThickness"] |}
           "SolidMaterialSolid" ["ShellMaterialThickness"] ∅ ∅
           [CheckSameState ["ShellMaterialThickness"];
            Prepare2s false (range_number 2) [3; 4]%Z]
           [FilterSensitivity 0]).
  - left. reflexivity.
  - reflexivity.
  - reflexivity.
  - vm_compute. reflexivity.
  - vm_compute. reflexivity.
Defined.

Example first_listed_domain_elements :
  domains_of (conf_continue 2) "SolidMaterialSolid" = Ok [1; 2]%Z
  /\ domains_to_filter (conf_continue 2) geometry false ["ShellMaterialThickness"]
     = Ok [3; 4]%Z.
Proof. split; vm_compute; reflexivity. Qed.

(** A casting filter with automatic range after an entry that is switched
    off *)
Lemma casting_automatic_range_witness :
  prepare_filters filters (conf_continue 2) geometry false false
    ([no_filter] ++ casting_filter :: [simple_filter])
  = ([FindSizeElm; CheckSameState (domain_names (conf_continue 2))],
     Raise (NameError "filtered_dn")).
Proof.
  apply (casting_with_automatic_range_raises_NameError filters (conf_continue 2)
           geometry false false [no_filter] [simple_filter] casting_filter "(0, 0, 1)").
  - constructor; [by left|constructor].
  - reflexivity.
  - reflexivity.
  - reflexivity.
  - reflexivity.
  - reflexivity.
Defined.

(** The summary of an iteration with two steps of 1 s and 3 s *)
Lemma iteration_summary_witness :
  (sum_values [("Sensitivity"%string, 1); ("CalculiX Execution"%string, 3)] == 0 ->
   log_iteration_summary None (fun _ _ => Ok tt) 0 true records
   = Raise ZeroDivisionError)
  /\ (~ sum_values [("Sensitivity"%string, 1); ("CalculiX Execution"%string, 3)] == 0 ->
      exists rows,
        log_iteration_summary None (fun _ _ => Ok tt) 0 true records
        = Ok (Printed (IterationSummary 0 rows
                         (sum_values [("Sensitivity"%string, 1);
                                      ("CalculiX Execution"%string, 3)]))
              :: log_debug None (fun _ _ => Ok tt)
                   (IterationSummary 0 rows
                      (sum_values [("Sensitivity"%string, 1);
                                   ("CalculiX Execution"%string, 3)])))
        /\ fst <$> rows ≡ₚ [("Sensitivity"%string, 1); ("CalculiX Execution"%string, 3)]
        /\ (forall k p q, rows !! k = Some p -> rows !! S k = Some q ->
              String.leb (fst (fst p)) (fst (fst q)) = true)
        /\ Forall (fun '(step, duration, percentage) =>
                     percentage
                     = duration
                       / sum_values [("Sensitivity"%string, 1);
                                     ("CalculiX Execution"%string, 3)] * 100) rows
        /\ Qsum (snd <$> rows) == 100).
Proof.
  apply (iteration_summary_shares None (fun _ _ => Ok tt) 0 records
           [("Sensitivity"%string, 1); ("CalculiX Execution"%string, 3)]).
  - reflexivity.
  - discriminate.
Defined.

Example iteration_summary_rows :
  log_iteration_summary None (fun _ _ => Ok tt) 0 true records
  = Ok [Printed (IterationSummary 0
                   [("CalculiX Execution"%string, 3, 3 / (0 + 1 + 3) * 100);
                    ("Sensitivity"%string, 1, 1 / (0 + 1 + 3) * 100)]
                   (0 + 1 + 3));
        PrintedLogError].
Proof. reflexivity. Qed.

(** A stiffness run with failure limits defined: the energy densities are
    there, the failure indices are not, and the pass ends with the failed
    assertion after a solver run with exit status 0 *)
Lemma missing_results_witness :
  loop_body energy_only
    (conf_of [d] true stiffness relative (3 # 100) (1 # 100) (limit 10) false)
    geometry 2 (limit 10) start
  = (CalculiX (i start) :: check_exit_status 0
       ++ [ImportResults 0] ++ [Log ("ERROR: " +:+ CalculiX_results_not_found)],
     Raised (AssertionError CalculiX_results_not_found)).
Proof.
  eapply (missing_results_abort energy_only
            (conf_of [d] true stiffness relative (3 # 100) (1 # 100) (limit 10) false)
            geometry 2 (limit 10) start 0).
  - reflexivity.
  - vm_compute. reflexivity.
  - right. right. right. split; reflexivity.
Defined.

(** A density of 7900 kg/m^3 is refused, one of 7.9e-6 kg/mm^3 is multiplied
    by 1e-12 *)
Example density_in_kg_per_m3 :
  material_density (fun _ => Some 7900) "Steel"
    (<["Density"%string := ["7900"%string; "kg/m^3"%string]]> ∅)
  = Raise (unit_not_recognised "Steel")
  /\ material_density (fun _ => Some (79 # 10000000)) "Steel"
       (<["Density"%string := ["7.9e-6"%string; "kg/mm^3"%string]]> ∅)
     = Ok ((79 # 10000000) * (1 # 1000000000000)).
Proof. split; reflexivity. Qed.

(** With [save_solver_files = "frd"] the results file is kept in the
    iterations whose results are saved, here every second one, and removed
    in the others *)
Example solver_files_kept :
  remove_solver_files 2 "frd" "file002" 3
    (list_to_set ["file002.inp"; "file002.dat"; "file002.frd"; "file002.sta";
                  "file002.cvg"]%string)
  = Removed (list_to_set ["file002.frd"%string])
  /\ remove_solver_files 2 "frd" "file003" 4
       (list_to_set ["file003.inp"; "file003.dat"; "file003.frd"; "file003.sta";
                     "file003.cvg"]%string)
     = Removed ∅
  /\ remove_solver_files 2 "frd" "file003" 4
       (list_to_set ["file003.inp"; "file003.dat"; "file003.frd"; "file003.sta"]%string)
     = FileNotFoundError "file003.cvg".
Proof. repeat split; vm_compute; reflexivity. Qed.

End FurtherExamples.
